(* ===== verification/_CoqProject ===== *)
-Q . S2P
Prelude.v
Sha256.v
Exceptions.v
Models.v
Session.v
SessionFacts.v
Pages.v
PyString.v
Orders.v
PyFloat.v
OrdersFacts.v
Fixtures.v
Security.v
CryptoModel.v
Invites.v
InviteFacts.v
Auth.v
AuthFacts.v
AccountMachine.v
CheckoutFacts.v
Retention.v
RetentionFacts.v
AccountProps.v
OrderMachine.v
OrderProps.v
DeliveryFlow.v
DeliveryFlowFacts.v
DeliveryProps.v
Base64.v
Base64Facts.v
Messaging.v
Keys.v
KeysProps.v
MessagingProps.v
MessagePages.v
DeliveryTracking.v
Numerals.v
Timestamps.v
Gateway.v
GatewayFacts.v
GatewayPlatform.v
GatewayProps.v
OrderViews.v
OrderViewProps.v
TrackingProps.v
Stores.v
StoreFacts.v
StoreProps.v
Products.v
ProductProps.v
Admin.v
Push.v
PushProps.v
Upload.v
UploadProps.v
AdminProps.v
Schema.v
Migrations.v
SchemaRows.v
SchemaProps.v
SchemaRowsProps.v
Schemas.v
Api.v
Routes.v
Footprints.v
WellFormed.v
Access.v
Integrity.v
Locking.v
LockingFacts.v
Concurrency.v
ConcurrencyProps.v
System.v
SystemFacts.v
SystemProps.v
Http.v
HttpProps.v
Operations.v
OperationsProps.v
