(* ===== verification/Prelude.v ===== *)
(** * A verification library for the invite-only marketplace backend

    The program is the FastAPI application under [src/backend/app/]: accounts
    that are created by invitation only, stores and their catalogue, orders with
    their delivery, end-to-end encrypted messages, live tracking over a
    WebSocket, and an admin panel, over one PostgreSQL database.  This library
    models the Python code of its services, routes, schemas, gateway, scripts
    and migrations, and proves what makes each part, and the whole, correct.
    File names below are relative to [src/backend/app/].

    ** How the program is modelled

    A database ([Models]) is a record of finite maps, one per table of
    [models/], from primary keys to rows.  A service function is a program of
    the session monad of [Session]: it reads the environment of its process
    (successive clock readings, random UUIDs and tokens, the transaction's
    [now()]), reads and writes the working database of its transaction, commits,
    and may raise.  Every write goes through the class [Table]: a row outside
    the ranges, lengths or CHECKs of its columns, or one that clashes on a unique key,
    raises as PostgreSQL does, and so does one whose foreign keys ([references])
    point to no row; the key of a flushed row is checked when it changed.  [get_db] runs a program as [api/deps.py] does:
    commit on a clean end, rollback on an exception, and what was committed on
    the way stays.  Errors are the exceptions of [core/exceptions.py] with their
    statuses and codes ([Exceptions]).  Integers are unbounded, as Python's are,
    and checked against the 32 and 64 bits of a column when a row is written;
    floats are binary64 ([PyFloat]); strings are ASCII.

    Each component has a file of definitions that reads like its source, a file
    of facts (what each operation did when it succeeded) where it has one, and a
    file of theorems, [*Props].  Shared between them are [SessionFacts]
    (inversion and forward evaluation of programs; [stable R m], that a program
    relates its sessions by a preorder whatever its outcome, with the hint
    database [stable]), [Pages] (cursor pagination, verified once for all
    listings), [Fixtures] and [CryptoModel] (the world of the witnesses).

    ** Which file models what

    - Language and library: [PyString], [PyFloat], [Numerals], [Timestamps]
      (text of UUIDs and instants), [Base64], [Sha256].
    - [core/security.py], [core/config.py], [core/password_policy.py]:
      [Security].  Invites and accounts ([services/invite_service.py],
      [services/auth_service.py]): [Invites], [Auth]; [AccountMachine] makes one
      machine of their operations; [AccountProps].
    - Orders ([services/order_service.py]): [Orders] (checkout, every transition,
      the snapshot), [Retention] (deletion, purge job, settings), [OrderViews]
      (masked views); [OrderMachine] is the abstract life of one order row and
      the refinement; [CheckoutFacts], [OrderProps], [OrderViewProps].
    - Delivery by drivers ([services/delivery_flow_service.py]): [DeliveryFlow],
      [DeliveryProps]; tracking ([services/delivery_tracking_service.py]):
      [DeliveryTracking], [TrackingProps].
    - Messages and keys ([services/messaging_service.py],
      [services/key_service.py]): [Messaging], [Keys], [MessagingProps],
      [MessagePages], [KeysProps].
    - The WebSocket gateway ([ws/gateway.py]): [Gateway]; [GatewayPlatform] is
      its step relation together with the database; [GatewayProps].
    - Catalogue ([services/store_service.py], [services/seller_service.py],
      [services/product_service.py]): [Stores], [Products] and their [*Props].
    - Admin panel, push, uploads ([services/admin_service.py],
      [services/push_service.py], [services/upload_service.py]): [Admin],
      [Push], [Upload] and their [*Props].
    - HTTP ([api/v1/*.py], [schemas/*.py]): [Schemas] (validation of bodies),
      [Api] (requests, answers, access rules), [Routes] (one definition per
      endpoint and [serve], a request from its token to its answer);
      [Footprints] (the tables an endpoint may write), [WellFormed] (the type
      invariant of the store), [Integrity] (its foreign keys), [Access] (who is
      served).  [main.py] and
      [core/observability.py]: [Http] (middlewares, exception handlers, CORS,
      health), [HttpProps].
    - Checkouts and sign-ups at the same time: [Locking] (calls that begin with
      a locking read, scheduled lock by lock, against the interface
      [LockedCalls]), [LockingFacts] (serializability and progress from its
      laws), [Concurrency] ([create_order] and [signup] as such calls) and
      [ConcurrencyProps].
    - [core/scheduler.py], [scripts/*.py]: [Operations], [OperationsProps].
    - Migrations ([../alembic/versions/]): [Schema] (the DDL and its execution),
      [Migrations], [SchemaProps]; [SchemaRows] (what a schema checks of a row)
      and [SchemaRowsProps] (the class [Table] against the migrated schema).
    - The whole: [System] (events: requests, frames, handshakes, disconnections,
      purge ticks, rollup refreshes; the component that answers for each and the
      tables it owns), [SystemFacts], [SystemProps].

    ** What the theorems show

    - Refinement: every event of the platform is one step of one component and
      writes only its own tables ([SystemProps.events_refine_components]); each
      order, message and product moves by the steps of its abstract life.
    - Invariants of every reachable database or platform: well-formed rows,
      foreign keys that stay valid through deletions and purges, invites within their limits, timelines that agree with statuses, one
      record per completed order, a consistent subscription registry.
    - Safety: who is served, who sees which order, position and conversation,
      what suspension, rotation of tokens and retention guarantee; errors that
      do not tell a foreign object from a missing one.
    - Function, equivalence, termination: checkout against a reference over the
      raw lines, the purge job, slugs, listings against details, the ranking
      from the view against the one from the records, pages that end.
    - Concurrency: schedules of checkouts and sign-ups are serializable, because
      products and invites are read under their locks, and never deadlock,
      because products are locked in the order of their ids.
    - Migrations: each downgrade restores the schema before its upgrade, and the
      migrated schema declares exactly the types, lengths, CHECKs, unique keys
      and foreign keys that [Table] enforces.
    - Where the code falls short of what it says, a theorem or an example states
      what it does: the lock-out of the delivery code that a rollback undoes
      ([DeliveryProps.lockout_never_engages]), the hand-over from any status,
      the 500 without headers, tied rows that a cursor skips, a pre-flight check
      that passes settings which do not boot.

    ** Fuel and bounds

    Class look-up in [Exceptions] goes up four bases, the depth of the
    hierarchy.  [slug_loop] has one more step than there are stores, so a free
    slug is among its candidates ([StoreProps.create_store_spec] proves that it
    is found).  Digit counting and string replacement have the length of their
    text, [Pages.follow] one step more than there are rows; [Sha256] runs over
    the blocks of its padded message.  No theorem is about a run that was cut
    short.

    ** What is taken from outside

    Argon2 and JOSE are the class [Crypto], used through [CryptoLaws]; sine,
    cosine, arcsine and power the class [Libm]; the reader of
    [datetime.fromisoformat] the class [FromIso]; the e-mail validator, the
    object store, Firebase and the CORS middleware are parameters.  Every
    property with such a parameter has a witness with a concrete one.

    ** What is not modelled

    Columns of [TimestampMixin] that no code reads, message texts of errors, the
    order of rows that tie in an ORDER BY, the overflow of a [timedelta], the
    dependency [get_current_user_optional], which no endpoint uses.  Outside
    [Concurrency] a request is one atomic transaction: the row locks of the code
    make transactions on the same row serial.  JSON parsing and the typing of
    bodies, routing by path, rate limiting ([core/rate_limiter.py]), Sentry, Prometheus counters,
    logging, the engine ([db/session.py], [alembic/env.py]), the WebSocket
    heartbeat and dead sockets, [scripts/rotate_jwt_secret.py] (prints a random
    text) and [/admin/ops/migration-version] (reads alembic's own table) are the
    business of libraries or output only.  No code touches the tables of carts
    and reviews; only their migrations are modelled.

    ** Plan

    Open: the locks of the other services as state; texts beyond ASCII. *)

From stdpp Require Export base gmap sets list strings sorting relations.
From Stdlib Require Export ZArith Lia.
From Stdlib Require Floats.SpecFloat.

#[export] Set Default Goal Selector "!".

(** ** Scalars of the program *)

(** A UUID is its 128-bit integer; [uuid.bytes] compares big-endian, which is
    the order of [N]. *)
Abbreviation uuid := N.

(** An aware UTC [datetime] is a number of microseconds since the epoch. *)
Abbreviation datetime := Z.

(** A Python [float]; its arithmetic is in [Floats]. *)
Abbreviation float64 := SpecFloat.spec_float.

Definition timedelta_seconds (n : Z) : Z := (n * 1000000)%Z.
Definition timedelta_minutes (n : Z) : Z := timedelta_seconds (n * 60).
Definition timedelta_hours (n : Z) : Z := timedelta_seconds (n * 3600).
Definition timedelta_days (n : Z) : Z := timedelta_seconds (n * 86400).

(** [int(delta.total_seconds())] truncates toward zero. *)
Definition total_seconds_int (delta : Z) : Z := Z.quot delta 1000000.

(** Ranges of the SQL column types [Integer] and [BigInteger]. *)
Definition int4 (z : Z) : Prop := (- 2 ^ 31 <= z < 2 ^ 31)%Z.
Definition int8 (z : Z) : Prop := (- 2 ^ 63 <= z < 2 ^ 63)%Z.
#[export] Instance int4_dec z : Decision (int4 z).
Proof. unfold int4; apply _. Defined.
#[export] Instance int8_dec z : Decision (int8 z).
Proof. unfold int8; apply _. Defined.

(** A nullable column: [NULL] satisfies every column constraint. *)
Definition nullable {A} (P : A → Prop) (o : option A) : Prop :=
  match o with Some a => P a | None => True end.
#[export] Instance nullable_dec {A} (P : A → Prop) `{∀ a, Decision (P a)} o :
  Decision (nullable P o).
Proof. destruct o; cbn; apply _. Defined.

(** ** Attribute assignment on records

    [r <| fld := v |>] is the Python assignment [r.fld = v] on an immutable
    record.  A record type only states its eta expansion; the updater of each
    field is derived from it by abstracting the projection. *)

Class EtaRecord (R : Type) := eta_record : R → R.

Class Updater {R A : Type} (fld : R → A) := update_field : (A → A) → R → R.
Arguments update_field {R A} fld {_} f r /.

Ltac derive_updater :=
  match goal with
  | |- @Updater ?R ?A ?fld =>
      let inst := constr:(ltac:(typeclasses eauto) : EtaRecord R) in
      let e := eval hnf in inst in
      match eval pattern fld in e with
      | ?build _ =>
          let u := eval cbv beta in
            (fun (f : A → A) (r : R) => build (fun r0 => f (fld r0)) r) in
          exact u
      end
  end.
#[export] Hint Extern 1 (Updater _) => derive_updater : typeclass_instances.

Declare Scope record_scope.
Delimit Scope record_scope with record.
Notation "r <| f := v |>" := (update_field f (fun _ => v) r)
  (at level 1, left associativity, format "r  <| f  :=  v |>") : record_scope.
Notation "r <| f ::= g |>" := (update_field f g r)
  (at level 1, left associativity, format "r  <| f  ::=  g |>") : record_scope.

Open Scope record_scope.

(** ** ORDER BY *)

Section order_by.
Context {A : Type}.
Implicit Types (key : A → Z).

Definition key_le key (a b : A) : Prop := (key a ≤ key b)%Z.
#[export] Instance key_le_dec key : RelDecision (key_le key).
Proof. intros a b. unfold key_le. apply _. Defined.
#[export] Instance key_le_total key : Total (key_le key).
Proof. intros a b. unfold key_le. lia. Qed.
#[export] Instance key_le_trans key : Transitive (key_le key).
Proof. intros a b c. unfold key_le. lia. Qed.

Definition order_by_asc key (l : list A) : list A := merge_sort (key_le key) l.
Definition order_by_desc key (l : list A) : list A :=
  merge_sort (key_le (λ a, - key a)%Z) l.

Lemma order_by_asc_perm key l : order_by_asc key l ≡ₚ l.
Proof. apply merge_sort_Permutation. Qed.
Lemma order_by_desc_perm key l : order_by_desc key l ≡ₚ l.
Proof. apply merge_sort_Permutation. Qed.
End order_by.
