(* ===== verification/Sha256.v ===== *)
(** * SHA-256

    [hashlib.sha256(data).hexdigest()] of the standard library (FIPS 180-4),
    on a byte string: refresh tokens and delivery codes are stored as their
    digests.  A 32-bit word is a [Z] between 0 and 2^32. *)

From Stdlib Require Import Ascii.
From S2P Require Import Prelude.
#[local] Open Scope Z_scope.

(** ** Words *)

Definition w32 (x : Z) : Z := Z.land x 0xffffffff.
Definition add32 (x y : Z) : Z := w32 (x + y).
Definition rotr (n x : Z) : Z :=
  Z.lor (Z.shiftr x n) (w32 (Z.shiftl x (32 - n))).

Definition big_sigma0 x := Z.lxor (rotr 2 x) (Z.lxor (rotr 13 x) (rotr 22 x)).
Definition big_sigma1 x := Z.lxor (rotr 6 x) (Z.lxor (rotr 11 x) (rotr 25 x)).
Definition small_sigma0 x := Z.lxor (rotr 7 x) (Z.lxor (rotr 18 x) (Z.shiftr x 3)).
Definition small_sigma1 x := Z.lxor (rotr 17 x) (Z.lxor (rotr 19 x) (Z.shiftr x 10)).
Definition ch x y z := Z.lxor (Z.land x y) (Z.land (Z.lxor x 0xffffffff) z).
Definition maj x y z := Z.lxor (Z.land x y) (Z.lxor (Z.land x z) (Z.land y z)).

(** The constants are the first 32 bits of the fractional parts of the cube
    roots of the first 64 primes and of the square roots of the first 8. *)
Definition is_prime (n : nat) : bool :=
  forallb (λ d, negb (Nat.eqb (n mod d) 0)) (seq 2 (n - 2)).
Definition primes : list Z :=
  Eval vm_compute in Z.of_nat <$> filter (λ n, is_prime n = true) (seq 2 310).

(** The integer cube root below [r + 2^bits], one bit at a time. *)
Fixpoint cube_root (bits : nat) (r n : Z) : Z :=
  match bits with
  | O => r
  | S b =>
      let r' := r + 2 ^ Z.of_nat b in
      cube_root b (if decide (r' * r' * r' <= n) then r' else r) n
  end.

Definition round_constants : list Z :=
  Eval vm_compute in (λ p, w32 (cube_root 36 0 (p * 2 ^ 96))) <$> primes.
Definition initial_digest : list Z :=
  Eval vm_compute in (λ p, w32 (Z.sqrt (p * 2 ^ 64))) <$> take 8 primes.

(** ** Padding and parsing *)

(** The [n] big-endian bytes of a number. *)
Fixpoint be_bytes (n : nat) (x : Z) : list Z :=
  match n with
  | O => []
  | S n' => be_bytes n' (Z.shiftr x 8) ++ [Z.land x 0xff]
  end.

Definition pad (msg : list Z) : list Z :=
  let len := Z.of_nat (length msg) in
  msg ++ [0x80] ++ repeat 0 (Z.to_nat ((55 - len) mod 64)) ++ be_bytes 8 (8 * len).

Fixpoint words (bytes : list Z) : list Z :=
  match bytes with
  | a :: b :: c :: d :: rest =>
      Z.lor (Z.shiftl a 24) (Z.lor (Z.shiftl b 16) (Z.lor (Z.shiftl c 8) d))
        :: words rest
  | _ => []
  end.

(** ** Compression *)

(** The message schedule, newest word first. *)
Fixpoint extend_schedule (n : nat) (ws : list Z) : list Z :=
  match n with
  | O => ws
  | S n' =>
      let w i := nth i ws 0 in
      extend_schedule n'
        (add32 (add32 (small_sigma1 (w 1%nat)) (w 6%nat))
               (add32 (small_sigma0 (w 14%nat)) (w 15%nat)) :: ws)
  end.

Fixpoint rounds (kws : list (Z * Z)) (a b c d e f g h : Z) : list Z :=
  match kws with
  | [] => [a; b; c; d; e; f; g; h]
  | (k, w) :: kws' =>
      let t1 := add32 (add32 (add32 h (big_sigma1 e)) (ch e f g)) (add32 k w) in
      let t2 := add32 (big_sigma0 a) (maj a b c) in
      rounds kws' (add32 t1 t2) a b c (add32 d t1) e f g
  end.

Definition compress (digest block : list Z) : list Z :=
  let schedule := rev (extend_schedule 48 (rev block)) in
  match digest with
  | [a; b; c; d; e; f; g; h] =>
      zip_with add32 digest (rounds (zip round_constants schedule) a b c d e f g h)
  | _ => digest
  end.

(** One block per unit of fuel. *)
Fixpoint blocks (fuel : nat) (digest ws : list Z) : list Z :=
  match fuel, ws with
  | S fuel', _ :: _ => blocks fuel' (compress digest (take 16 ws)) (drop 16 ws)
  | _, _ => digest
  end.

Definition sha256 (msg : list Z) : list Z :=
  let ws := words (pad msg) in
  concat (be_bytes 4 <$> blocks (length ws) initial_digest ws).

(** ** Hex *)

Definition hex_digit (n : Z) : ascii :=
  ascii_of_nat (Z.to_nat (if decide (n < 10) then 48 + n else 87 + n)).
Fixpoint hexdigest (bytes : list Z) : string :=
  match bytes with
  | [] => EmptyString
  | b :: bytes' =>
      String.String (hex_digit (Z.shiftr b 4))
        (String.String (hex_digit (Z.land b 15)) (hexdigest bytes'))
  end.

Definition bytes_of (s : string) : list Z :=
  (λ c, Z.of_nat (nat_of_ascii c)) <$> String.list_ascii_of_string s.

Definition sha256_hex (s : string) : string := hexdigest (sha256 (bytes_of s)).

(** ** Test vectors of FIPS 180-4 *)

Example sha256_empty :
  sha256_hex "" = "e3b0c44298fc1c149afbf4c8996fb92427ae41e4649b934ca495991b7852b855"%string.
Proof. vm_compute. reflexivity. Qed.
Example sha256_abc :
  sha256_hex "abc" = "ba7816bf8f01cfea414140de5dae2223b00361a396177a9cb410ff61f20015ad"%string.
Proof. vm_compute. reflexivity. Qed.
Example sha256_two_blocks :
  sha256_hex "abcdbcdecdefdefgefghfghighijhijkijkljklmklmnlmnomnopnopq" =
    "248d6a61d20638b8e5c026930c3e6039a33ce45964ff2167f6ecedd419db06c1"%string.
Proof. vm_compute. reflexivity. Qed.
