(* ===== verification/Exceptions.v ===== *)
(** * Domain exceptions and the error envelope

    [core/exceptions.py] (the class hierarchy with its [http_status] and
    [code] class attributes), the two classes declared in
    [services/delivery_flow_service.py], and the exception handlers of
    [main.py] that turn an exception into a JSON response. *)

From S2P Require Import Prelude.
#[local] Open Scope string_scope.

(** ** The class hierarchy *)

Inductive exc_class :=
| AppException
| AuthenticationError | AuthorizationError | NotFoundError | ConflictError
| ValidationError | RateLimitError
| InvalidCredentials | TokenRevoked | TokenReused | TokenExpired
| InvalidTokenError | AccountSuspended
| UploadNotConfigured | UploadInvalidContentType | UploadObjectMissing
| PasswordTooCommon
| InviteInvalid | InviteExpired | InviteAlreadyUsed | InviteRevoked
| InviteRoleMismatch | EmailTaken
| SellerProfileMissing | StoreAlreadyExists | StoreCityRequired | StoreNotFound
| ProductNotFound | ProductOwnershipError | VisibilityDenied | SellerNotFound
| OrderNotFound | OrderInvalidTransition | OrderRetentionNotMet
| DeliveryAlreadyStarted | ProductOutOfStock | ProductNotVisible
| DriverNotRequested | DriverAlreadyAssigned | FulfillmentAlreadyChosen
| RetentionSettingInvalid
| PublicKeyNotFound | KeyOwnershipError | ConversationNotFound
| ConversationIneligible | MessageRetentionInvalid
| DeliveryCodeLocked | DeliveryCodeInvalid.

#[export] Instance exc_class_eq_dec : EqDecision exc_class.
Proof. solve_decision. Defined.

(** What a class body states: its single base (none below [Exception]) and the
    [http_status] and [code] attributes it assigns itself; every class assigns a
    code. *)
Record ClassBody := mkClass {
  cb_base : option exc_class;
  cb_http_status : option Z;
  cb_code : string;
}.

(** The base class and the generic HTTP exceptions. *)
Definition generic_body (c : exc_class) : option ClassBody :=
  match c with
  | AppException => Some (mkClass None (Some 400%Z) "APP_ERROR")
  | AuthenticationError => Some (mkClass (Some AppException) (Some 401%Z) "AUTH_TOKEN_INVALID")
  | AuthorizationError => Some (mkClass (Some AppException) (Some 403%Z) "PERMISSION_DENIED")
  | NotFoundError => Some (mkClass (Some AppException) (Some 404%Z) "NOT_FOUND")
  | ConflictError => Some (mkClass (Some AppException) (Some 409%Z) "CONFLICT")
  | ValidationError => Some (mkClass (Some AppException) (Some 422%Z) "VALIDATION_FAILED")
  | RateLimitError => Some (mkClass (Some AppException) (Some 429%Z) "RATE_LIMITED")
  | _ => None
  end.

(** Accounts, tokens, uploads and passwords. *)
Definition auth_body (c : exc_class) : option ClassBody :=
  match c with
  | InvalidCredentials => Some (mkClass (Some AuthenticationError) None "AUTH_INVALID_CREDENTIALS")
  | TokenRevoked => Some (mkClass (Some AuthenticationError) None "AUTH_TOKEN_REVOKED")
  | TokenReused => Some (mkClass (Some AuthenticationError) None "AUTH_TOKEN_REUSED")
  | TokenExpired => Some (mkClass (Some AuthenticationError) None "AUTH_TOKEN_EXPIRED")
  | InvalidTokenError => Some (mkClass (Some AuthenticationError) None "AUTH_TOKEN_INVALID")
  | AccountSuspended => Some (mkClass (Some AuthorizationError) None "AUTH_ACCOUNT_SUSPENDED")
  | UploadNotConfigured => Some (mkClass (Some AppException) (Some 503%Z) "UPLOAD_NOT_CONFIGURED")
  | UploadInvalidContentType =>
      Some (mkClass (Some ValidationError) None "UPLOAD_INVALID_CONTENT_TYPE")
  | UploadObjectMissing => Some (mkClass (Some ValidationError) None "UPLOAD_OBJECT_MISSING")
  | PasswordTooCommon => Some (mkClass (Some ValidationError) None "PASSWORD_TOO_COMMON")
  | _ => None
  end.

(** Invites and sign-up. *)
Definition invite_body (c : exc_class) : option ClassBody :=
  match c with
  | InviteInvalid => Some (mkClass (Some AppException) (Some 400%Z) "INVITE_INVALID")
  | InviteExpired => Some (mkClass (Some AppException) (Some 400%Z) "INVITE_EXPIRED")
  | InviteAlreadyUsed => Some (mkClass (Some AppException) (Some 409%Z) "INVITE_USED")
  | InviteRevoked => Some (mkClass (Some AppException) (Some 400%Z) "INVITE_REVOKED")
  | InviteRoleMismatch => Some (mkClass (Some AppException) (Some 400%Z) "INVITE_ROLE_MISMATCH")
  | EmailTaken => Some (mkClass (Some ConflictError) None "EMAIL_TAKEN")
  | _ => None
  end.

(** Sellers, stores and products. *)
Definition catalogue_body (c : exc_class) : option ClassBody :=
  match c with
  | SellerProfileMissing => Some (mkClass (Some AppException) (Some 400%Z) "SELLER_PROFILE_MISSING")
  | StoreAlreadyExists => Some (mkClass (Some ConflictError) None "STORE_ALREADY_EXISTS")
  | StoreCityRequired => Some (mkClass (Some ValidationError) None "STORE_CITY_REQUIRED")
  | StoreNotFound => Some (mkClass (Some NotFoundError) None "STORE_NOT_FOUND")
  | ProductNotFound => Some (mkClass (Some NotFoundError) None "PRODUCT_NOT_FOUND")
  | ProductOwnershipError => Some (mkClass (Some AuthorizationError) None "PRODUCT_NOT_OWNED")
  | VisibilityDenied => Some (mkClass (Some NotFoundError) None "NOT_FOUND")
  | SellerNotFound => Some (mkClass (Some NotFoundError) None "SELLER_NOT_FOUND")
  | _ => None
  end.

(** Orders, fulfillment and retention. *)
Definition order_body (c : exc_class) : option ClassBody :=
  match c with
  | OrderNotFound => Some (mkClass (Some NotFoundError) None "ORDER_NOT_FOUND")
  | OrderInvalidTransition => Some (mkClass (Some ConflictError) None "ORDER_INVALID_TRANSITION")
  | OrderRetentionNotMet => Some (mkClass (Some ConflictError) None "ORDER_RETENTION_NOT_MET")
  | DeliveryAlreadyStarted => Some (mkClass (Some ConflictError) None "DELIVERY_ALREADY_STARTED")
  | ProductOutOfStock => Some (mkClass (Some ConflictError) None "PRODUCT_OUT_OF_STOCK")
  | ProductNotVisible => Some (mkClass (Some NotFoundError) None "PRODUCT_NOT_VISIBLE")
  | DriverNotRequested => Some (mkClass (Some ConflictError) None "DRIVER_NOT_REQUESTED")
  | DriverAlreadyAssigned => Some (mkClass (Some ConflictError) None "DRIVER_ALREADY_ASSIGNED")
  | FulfillmentAlreadyChosen =>
      Some (mkClass (Some ConflictError) None "FULFILLMENT_ALREADY_CHOSEN")
  | RetentionSettingInvalid =>
      Some (mkClass (Some ValidationError) None "RETENTION_SETTING_INVALID")
  | _ => None
  end.

(** Messages and keys. *)
Definition messaging_body (c : exc_class) : option ClassBody :=
  match c with
  | PublicKeyNotFound => Some (mkClass (Some NotFoundError) None "PUBLIC_KEY_NOT_FOUND")
  | KeyOwnershipError => Some (mkClass (Some NotFoundError) None "NOT_FOUND")
  | ConversationNotFound => Some (mkClass (Some NotFoundError) None "CONVERSATION_NOT_FOUND")
  | ConversationIneligible => Some (mkClass (Some NotFoundError) None "CONVERSATION_NOT_FOUND")
  | MessageRetentionInvalid =>
      Some (mkClass (Some ValidationError) None "MESSAGE_RETENTION_INVALID")
  | _ => None
  end.

(** The two classes of [services/delivery_flow_service.py]. *)
Definition delivery_code_body (c : exc_class) : option ClassBody :=
  match c with
  | DeliveryCodeLocked => Some (mkClass (Some AppException) (Some 423%Z) "DELIVERY_CODE_LOCKED")
  | DeliveryCodeInvalid => Some (mkClass (Some AppException) (Some 400%Z) "DELIVERY_CODE_INVALID")
  | _ => None
  end.

Definition class_body (c : exc_class) : option ClassBody :=
  head (omap (λ section, section c)
    [generic_body; auth_body; invite_body; catalogue_body; order_body; messaging_body;
     delivery_code_body]).
Example every_class_has_a_body c : is_Some (class_body c).
Proof. destruct c; by eexists. Qed.

Definition base_class (c : exc_class) : option exc_class := class_body c ≫= cb_base.
Definition own_http_status (c : exc_class) : option Z := class_body c ≫= cb_http_status.
Definition own_code (c : exc_class) : option string := cb_code <$> class_body c.

(** Class attribute lookup walks the base classes; the hierarchy is three
    levels deep, so four steps of fuel always suffice. *)
Fixpoint class_attribute {A} (own : exc_class → option A) (fuel : nat)
    (c : exc_class) : option A :=
  match fuel with
  | O => None
  | S fuel' =>
      match own c with
      | Some a => Some a
      | None => base_class c ≫= class_attribute own fuel'
      end
  end.

Definition mro_depth : nat := 4.
Definition class_http_status (c : exc_class) : Z :=
  default 500%Z (class_attribute own_http_status mro_depth c).
Definition class_code (c : exc_class) : string :=
  default "" (class_attribute own_code mro_depth c).

(** [issubclass(c, d)]. *)
Fixpoint is_subclass_fuel (fuel : nat) (c d : exc_class) : bool :=
  match fuel with
  | O => false
  | S fuel' =>
      bool_decide (c = d) ||
      match base_class c with
      | Some b => is_subclass_fuel fuel' b d
      | None => false
      end
  end.
Definition is_subclass (c d : exc_class) : bool := is_subclass_fuel mro_depth c d.

(** ** Exception objects

    [AppException.__init__] may override [code] and attaches [details]; the
    human-readable message is not modelled.  [PyErr] is an exception outside
    the hierarchy: a database or interpreter error, and the two exceptions of
    the web framework that the routes meet. *)

Inductive py_error :=
| IntegrityError | DataError | MultipleResultsFound | NoResultFound
| AssertionError | KeyError | ValueError | OverflowError | TypeError | StopIteration
| RequestValidationError | HTTPException (status : Z).

#[export] Instance py_error_eq_dec : EqDecision py_error.
Proof. solve_decision. Defined.

Inductive exc :=
| AppExc (cls : exc_class) (code : option string) (details : option Z)
| PyErr (e : py_error).

#[export] Instance exc_eq_dec : EqDecision exc.
Proof. solve_decision. Defined.

(** [raise Cls()] with the class defaults. *)
Coercion app_exc (c : exc_class) : exc := AppExc c None None.
Coercion PyErr : py_error >-> exc.

(** ** The exception handlers of [main.py] *)

Record error_response := mkErrorResponse {
  er_status : Z;
  er_code : string;
  er_detail : option Z;
}.

Definition app_exception_handler (cls : exc_class) (code : option string)
    (details : option Z) : error_response :=
  mkErrorResponse (class_http_status cls) (default (class_code cls) code) details.

Definition unhandled_exception_handler (_ : py_error) : error_response :=
  mkErrorResponse 500 "INTERNAL_ERROR" None.

Definition validation_exception_handler : error_response :=
  mkErrorResponse 422 "VALIDATION_FAILED" None.

(** The framework answers an [HTTPException] itself, with a body that has no
    code; the list of field errors of a 422 is not modelled. *)
Definition error_envelope (e : exc) : error_response :=
  match e with
  | AppExc cls code details => app_exception_handler cls code details
  | PyErr RequestValidationError => validation_exception_handler
  | PyErr (HTTPException status) => mkErrorResponse status "" None
  | PyErr p => unhandled_exception_handler p
  end.

(** ** Properties *)

Lemma class_http_status_found c :
  is_Some (class_attribute own_http_status mro_depth c).
Proof. destruct c; vm_compute; eauto. Qed.

Lemma is_subclass_refl c : is_subclass c c = true.
Proof. destruct c; reflexivity. Qed.

(** A subclass of [NotFoundError] never overrides the 404 status: visibility
    failures cannot be told from missing rows by their status. *)
Lemma not_found_status c :
  is_subclass c NotFoundError = true → class_http_status c = 404%Z.
Proof. destruct c; vm_compute; congruence. Qed.
