(* ===== verification/Models.v ===== *)
(** * The data model

    The enums and the ORM rows of [app/models/], one record per table with
    the columns the modelled code reads or writes, the column and uniqueness
    constraints each table declares, and the database as one record of finite
    maps keyed by primary key.  The columns of [TimestampMixin] appear only
    where the code reads them. *)

From S2P Require Import Prelude.
From S2P Require Import Exceptions.
#[local] Open Scope string_scope.

(** ** Enums ([models/enums.py]) *)

Inductive UserRole := admin | seller | customer | driver.
Inductive OrderStatus :=
  pending | accepted | preparing | out_for_delivery | delivered | completed
| cancelled.
Inductive DeliveryStatus :=
  dlv_pending | dlv_in_transit | dlv_delivered | dlv_failed.
Inductive AssignmentStatus :=
  asg_requested | asg_assigned | asg_accepted | asg_declined | asg_cancelled.
Inductive InviteLinkType := admin_invite | seller_referral.
Inductive UserStatus := user_active | user_suspended.
Inductive ProductStatus := product_active | product_disabled | product_out_of_stock.
Inductive KeyStatus := key_active | key_rotated | key_revoked.

#[export] Instance UserRole_eq_dec : EqDecision UserRole.
Proof. solve_decision. Defined.
#[export] Instance OrderStatus_eq_dec : EqDecision OrderStatus.
Proof. solve_decision. Defined.
#[export] Instance DeliveryStatus_eq_dec : EqDecision DeliveryStatus.
Proof. solve_decision. Defined.
#[export] Instance AssignmentStatus_eq_dec : EqDecision AssignmentStatus.
Proof. solve_decision. Defined.
#[export] Instance InviteLinkType_eq_dec : EqDecision InviteLinkType.
Proof. solve_decision. Defined.
#[export] Instance UserStatus_eq_dec : EqDecision UserStatus.
Proof. solve_decision. Defined.
#[export] Instance ProductStatus_eq_dec : EqDecision ProductStatus.
Proof. solve_decision. Defined.
#[export] Instance KeyStatus_eq_dec : EqDecision KeyStatus.
Proof. solve_decision. Defined.

(** The wire spelling of the enums that responses render. *)
Definition user_role_str (r : UserRole) : string :=
  match r with
  | admin => "admin" | seller => "seller" | customer => "customer"
  | driver => "driver"
  end.
Definition order_status_str (s : OrderStatus) : string :=
  match s with
  | pending => "pending" | accepted => "accepted" | preparing => "preparing"
  | out_for_delivery => "out_for_delivery" | delivered => "delivered"
  | completed => "completed" | cancelled => "cancelled"
  end.
Definition delivery_status_str (s : DeliveryStatus) : string :=
  match s with
  | dlv_pending => "pending" | dlv_in_transit => "in_transit"
  | dlv_delivered => "delivered" | dlv_failed => "failed"
  end.
Definition assignment_status_str (s : AssignmentStatus) : string :=
  match s with
  | asg_requested => "requested" | asg_assigned => "assigned"
  | asg_accepted => "accepted" | asg_declined => "declined"
  | asg_cancelled => "cancelled"
  end.
Definition invite_link_type_str (t : InviteLinkType) : string :=
  match t with
  | admin_invite => "admin_invite" | seller_referral => "seller_referral"
  end.

(** JSON scalars of the [delivery_address] document. *)
Inductive json := JNull | JBool (b : bool) | JStr (s : string) | JNum (n : float64).
Abbreviation Address := (gmap string json).

(** ** Rows *)

Record User := mkUser {
  u_id : uuid;
  u_email : string;
  u_password_hash : string;
  u_role : UserRole;
  u_display_name : string;
  u_phone : option string;
  u_is_active : bool;
  u_disabled_at : option datetime;
  u_status : UserStatus;
  u_suspended_at : option datetime;
  u_suspended_reason : option string;
  u_avatar_url : option string;
  u_referring_seller_id : option uuid;
  u_created_at : datetime;
  u_deleted_at : option datetime;
}.
#[export] Instance eta_User : EtaRecord User := fun u =>
  mkUser (u_id u) (u_email u) (u_password_hash u) (u_role u) (u_display_name u)
    (u_phone u) (u_is_active u) (u_disabled_at u) (u_status u)
    (u_suspended_at u) (u_suspended_reason u) (u_avatar_url u)
    (u_referring_seller_id u) (u_created_at u) (u_deleted_at u).

Record Seller := mkSeller {
  se_id : uuid;
  se_user_id : uuid;
  se_display_name : string;
  se_bio : option string;
  se_city : string;
  se_country_code : string;
  se_created_at : datetime;
  se_deleted_at : option datetime;
}.
#[export] Instance eta_Seller : EtaRecord Seller := fun r =>
  mkSeller (se_id r) (se_user_id r) (se_display_name r) (se_bio r) (se_city r)
    (se_country_code r) (se_created_at r) (se_deleted_at r).

Record Store := mkStore {
  st_id : uuid;
  st_seller_id : uuid;
  st_name : string;
  st_slug : string;
  st_description : string;
  st_is_active : bool;
  st_is_public : bool;
  st_created_at : datetime;
  st_deleted_at : option datetime;
}.
#[export] Instance eta_Store : EtaRecord Store := fun r =>
  mkStore (st_id r) (st_seller_id r) (st_name r) (st_slug r) (st_description r)
    (st_is_active r) (st_is_public r) (st_created_at r) (st_deleted_at r).

Record Product := mkProduct {
  p_id : uuid;
  p_seller_id : uuid;
  p_store_id : uuid;
  p_name : string;
  p_description : string;
  p_price_minor : Z;
  p_stock_quantity : option Z;
  p_is_active : bool;
  p_status : ProductStatus;
  p_disabled_at : option datetime;
  p_disabled_reason : option string;
  p_created_at : datetime;
  p_deleted_at : option datetime;
}.
#[export] Instance eta_Product : EtaRecord Product := fun r =>
  mkProduct (p_id r) (p_seller_id r) (p_store_id r) (p_name r)
    (p_description r) (p_price_minor r) (p_stock_quantity r) (p_is_active r)
    (p_status r) (p_disabled_at r) (p_disabled_reason r) (p_created_at r)
    (p_deleted_at r).

Record ProductImage := mkProductImage {
  pi_id : uuid;
  pi_product_id : uuid;
  pi_s3_key : string;
  pi_display_order : Z;
}.
#[export] Instance eta_ProductImage : EtaRecord ProductImage := fun r =>
  mkProductImage (pi_id r) (pi_product_id r) (pi_s3_key r) (pi_display_order r).

Record Order := mkOrder {
  o_id : uuid;
  o_customer_id : uuid;
  o_seller_id : uuid;
  o_store_id : uuid;
  o_status : OrderStatus;
  o_subtotal_minor : Z;
  o_total_minor : Z;
  o_delivery_address : Address;
  o_placed_at : datetime;
  o_accepted_at : option datetime;
  o_preparing_at : option datetime;
  o_out_for_delivery_at : option datetime;
  o_delivered_at : option datetime;
  o_completed_at : option datetime;
  o_cancelled_at : option datetime;
  o_cancellation_reason : option string;
  o_driver_accepted_at : option datetime;
  o_customer_visible_after : option datetime;
  o_seller_full_visible_until : option datetime;
  o_delivery_code_locked : bool;
  o_deleted_at : option datetime;
}.
#[export] Instance eta_Order : EtaRecord Order := fun o =>
  mkOrder (o_id o) (o_customer_id o) (o_seller_id o) (o_store_id o)
    (o_status o) (o_subtotal_minor o) (o_total_minor o) (o_delivery_address o)
    (o_placed_at o) (o_accepted_at o) (o_preparing_at o)
    (o_out_for_delivery_at o) (o_delivered_at o) (o_completed_at o)
    (o_cancelled_at o) (o_cancellation_reason o) (o_driver_accepted_at o)
    (o_customer_visible_after o) (o_seller_full_visible_until o)
    (o_delivery_code_locked o) (o_deleted_at o).

Record OrderItem := mkOrderItem {
  oi_id : uuid;
  oi_order_id : uuid;
  oi_product_id : option uuid;
  oi_product_name_snapshot : string;
  oi_unit_price_minor_snapshot : Z;
  oi_quantity : Z;
}.

Record Delivery := mkDelivery {
  d_id : uuid;
  d_order_id : uuid;
  d_driver_id : option uuid;
  d_seller_id : uuid;
  d_status : DeliveryStatus;
  d_started_at : option datetime;
  d_delivered_at : option datetime;
  d_current_lat : option float64;
  d_current_lng : option float64;
  d_last_location_at : option datetime;
  d_distance_meters : option Z;
  d_duration_seconds : option Z;
  d_current_eta_seconds : option Z;
  d_current_eta_updated_at : option datetime;
}.
#[export] Instance eta_Delivery : EtaRecord Delivery := fun d =>
  mkDelivery (d_id d) (d_order_id d) (d_driver_id d) (d_seller_id d)
    (d_status d) (d_started_at d) (d_delivered_at d) (d_current_lat d)
    (d_current_lng d) (d_last_location_at d) (d_distance_meters d)
    (d_duration_seconds d) (d_current_eta_seconds d)
    (d_current_eta_updated_at d).

Record DriverAssignment := mkDriverAssignment {
  a_id : uuid;
  a_order_id : uuid;
  a_driver_id : option uuid;
  a_status : AssignmentStatus;
  a_requested_by_seller_id : uuid;
  a_requested_at : datetime;
  a_assigned_by_admin_id : option uuid;
  a_assigned_at : option datetime;
}.
#[export] Instance eta_DriverAssignment : EtaRecord DriverAssignment := fun a =>
  mkDriverAssignment (a_id a) (a_order_id a) (a_driver_id a) (a_status a)
    (a_requested_by_seller_id a) (a_requested_at a) (a_assigned_by_admin_id a)
    (a_assigned_at a).

Record OrderAnalyticsSnapshot := mkSnapshot {
  sn_id : uuid;
  sn_order_id : uuid;
  sn_seller_id : uuid;
  sn_store_id : uuid;
  sn_customer_id : uuid;
  sn_city : string;
  sn_item_count : Z;
  sn_subtotal_minor : Z;
  sn_total_minor : Z;
  sn_delivered_at : datetime;
  sn_delivery_duration_seconds : option Z;
  sn_delivery_distance_meters : option Z;
}.

Record PlatformSettings := mkPlatformSettings {
  ps_id : N;
  ps_retention_min_days : Z;
  ps_order_auto_complete_grace_hours : Z;
  ps_message_retention_days : Z;
  ps_currency_code : string;
  ps_updated_at : datetime;
  ps_updated_by_user_id : option uuid;
}.
#[export] Instance eta_PlatformSettings : EtaRecord PlatformSettings := fun r =>
  mkPlatformSettings (ps_id r) (ps_retention_min_days r)
    (ps_order_auto_complete_grace_hours r) (ps_message_retention_days r)
    (ps_currency_code r) (ps_updated_at r) (ps_updated_by_user_id r).

Record InviteLink := mkInviteLink {
  i_id : uuid;
  i_issuer_id : uuid;
  i_type : InviteLinkType;
  i_token : string;
  i_role_target : option UserRole;
  i_max_uses : option Z;
  i_used_count : Z;
  i_expires_at : option datetime;
  i_revoked_at : option datetime;
  i_created_at : datetime;
}.
#[export] Instance eta_InviteLink : EtaRecord InviteLink := fun r =>
  mkInviteLink (i_id r) (i_issuer_id r) (i_type r) (i_token r)
    (i_role_target r) (i_max_uses r) (i_used_count r) (i_expires_at r)
    (i_revoked_at r) (i_created_at r).

Record Referral := mkReferral {
  rf_id : uuid;
  rf_referrer_id : uuid;
  rf_referred_user_id : uuid;
  rf_invite_link_id : uuid;
  rf_created_at : datetime;
}.

Record RefreshToken := mkRefreshToken {
  rt_id : uuid;
  rt_user_id : uuid;
  rt_token_hash : string;
  rt_device_label : option string;
  rt_issued_at : datetime;
  rt_last_used_at : option datetime;
  rt_expires_at : datetime;
  rt_revoked_at : option datetime;
}.
#[export] Instance eta_RefreshToken : EtaRecord RefreshToken := fun r =>
  mkRefreshToken (rt_id r) (rt_user_id r) (rt_token_hash r) (rt_device_label r)
    (rt_issued_at r) (rt_last_used_at r) (rt_expires_at r) (rt_revoked_at r).

Record UserNotificationPrefs := mkPrefs {
  np_user_id : uuid;
  np_push_enabled : bool;
  np_email_enabled : bool;
  np_order_updates : bool;
  np_messages : bool;
  np_marketing : bool;
}.
#[export] Instance eta_Prefs : EtaRecord UserNotificationPrefs := fun r =>
  mkPrefs (np_user_id r) (np_push_enabled r) (np_email_enabled r)
    (np_order_updates r) (np_messages r) (np_marketing r).

Record Conversation := mkConversation {
  c_id : uuid;
  c_user_a_id : uuid;
  c_user_b_id : uuid;
  c_created_at : datetime;
  c_last_message_at : option datetime;
}.
#[export] Instance eta_Conversation : EtaRecord Conversation := fun r =>
  mkConversation (c_id r) (c_user_a_id r) (c_user_b_id r) (c_created_at r)
    (c_last_message_at r).

Record Message := mkMessage {
  m_id : uuid;
  m_conversation_id : uuid;
  m_sender_id : uuid;
  m_ciphertext : list Z;
  m_nonce : list Z;
  m_ephemeral_public_key : list Z;
  m_recipient_key_id : option uuid;
  m_sent_at : datetime;
  m_read_at : option datetime;
  m_deleted_at : option datetime;
}.
#[export] Instance eta_Message : EtaRecord Message := fun r =>
  mkMessage (m_id r) (m_conversation_id r) (m_sender_id r) (m_ciphertext r)
    (m_nonce r) (m_ephemeral_public_key r) (m_recipient_key_id r)
    (m_sent_at r) (m_read_at r) (m_deleted_at r).

Record UserPublicKey := mkUserPublicKey {
  k_id : uuid;
  k_user_id : uuid;
  k_public_key : list Z;
  k_key_version : Z;
  k_status : KeyStatus;
  k_registered_at : datetime;
  k_rotated_at : option datetime;
  k_revoked_at : option datetime;
  k_created_at : datetime;
}.
#[export] Instance eta_UserPublicKey : EtaRecord UserPublicKey := fun r =>
  mkUserPublicKey (k_id r) (k_user_id r) (k_public_key r) (k_key_version r)
    (k_status r) (k_registered_at r) (k_rotated_at r) (k_revoked_at r)
    (k_created_at r).

Record OrderTrackingPoint := mkTrackingPoint {
  tp_id : uuid;
  tp_order_id : uuid;
  tp_driver_id : option uuid;
  tp_lat : float64;
  tp_lng : float64;
  tp_recorded_at : datetime;
}.

Record OrderMessage := mkOrderMessage {
  om_id : uuid;
  om_order_id : uuid;
  om_sender_id : option uuid;
  om_sender_role : string;
  om_ciphertext : string;
  om_nonce : string;
  om_created_at : datetime;
  om_archived_at : option datetime;
}.
#[export] Instance eta_OrderMessage : EtaRecord OrderMessage := fun r =>
  mkOrderMessage (om_id r) (om_order_id r) (om_sender_id r) (om_sender_role r)
    (om_ciphertext r) (om_nonce r) (om_created_at r) (om_archived_at r).

Record DeliveryCode := mkDeliveryCode {
  dc_order_id : uuid;
  dc_code_hash : string;
  dc_code_plain : string;
  dc_attempts_used : Z;
  dc_locked : bool;
  dc_consumed_at : option datetime;
}.
#[export] Instance eta_DeliveryCode : EtaRecord DeliveryCode := fun r =>
  mkDeliveryCode (dc_order_id r) (dc_code_hash r) (dc_code_plain r)
    (dc_attempts_used r) (dc_locked r) (dc_consumed_at r).

Record DeliveryCodeAttempt := mkAttempt {
  at_id : uuid;
  at_order_id : uuid;
  at_driver_id : option uuid;
  at_submitted_code : string;
  at_success : bool;
}.
#[export] Instance eta_Attempt : EtaRecord DeliveryCodeAttempt := fun r =>
  mkAttempt (at_id r) (at_order_id r) (at_driver_id r) (at_submitted_code r)
    (at_success r).

Record UserDevice := mkUserDevice {
  dv_id : uuid;
  dv_user_id : uuid;
  dv_platform : string;
  dv_token : string;
  dv_last_seen_at : option datetime;
  dv_disabled_at : option datetime;
}.
#[export] Instance eta_UserDevice : EtaRecord UserDevice := fun r =>
  mkUserDevice (dv_id r) (dv_user_id r) (dv_platform r) (dv_token r)
    (dv_last_seen_at r) (dv_disabled_at r).

(** A row of the materialized view [seller_sales_rollups] (migration 0001). *)
Record SellerSalesRollup := mkRollup {
  ro_seller_id : uuid;
  ro_lifetime_revenue_minor : Z;
  ro_lifetime_order_count : Z;
}.

(** ** The database *)

Record DB := mkDB {
  users : gmap uuid User;
  sellers : gmap uuid Seller;
  stores : gmap uuid Store;
  products : gmap uuid Product;
  product_images : gmap uuid ProductImage;
  orders : gmap uuid Order;
  order_items : gmap uuid OrderItem;
  deliveries : gmap uuid Delivery;
  driver_assignments : gmap uuid DriverAssignment;
  order_analytics_snapshots : gmap uuid OrderAnalyticsSnapshot;
  platform_settings : gmap N PlatformSettings;
  invite_links : gmap uuid InviteLink;
  referrals : gmap uuid Referral;
  refresh_tokens : gmap uuid RefreshToken;
  user_notification_prefs : gmap uuid UserNotificationPrefs;
  conversations : gmap uuid Conversation;
  messages : gmap uuid Message;
  user_public_keys : gmap uuid UserPublicKey;
  order_tracking_points : gmap uuid OrderTrackingPoint;
  order_messages : gmap uuid OrderMessage;
  delivery_codes : gmap uuid DeliveryCode;
  delivery_code_attempts : gmap uuid DeliveryCodeAttempt;
  user_devices : gmap uuid UserDevice;
  seller_sales_rollups : gmap uuid SellerSalesRollup;
}.
#[export] Instance eta_DB : EtaRecord DB := fun d =>
  mkDB (users d) (sellers d) (stores d) (products d) (product_images d)
    (orders d) (order_items d) (deliveries d) (driver_assignments d)
    (order_analytics_snapshots d) (platform_settings d) (invite_links d)
    (referrals d) (refresh_tokens d) (user_notification_prefs d)
    (conversations d) (messages d) (user_public_keys d)
    (order_tracking_points d) (order_messages d) (delivery_codes d)
    (delivery_code_attempts d) (user_devices d) (seller_sales_rollups d).

Definition empty_db : DB :=
  mkDB ∅ ∅ ∅ ∅ ∅ ∅ ∅ ∅ ∅ ∅ ∅ ∅ ∅ ∅ ∅ ∅ ∅ ∅ ∅ ∅ ∅ ∅ ∅ ∅.
