(* ===== verification/Session.v ===== *)
(** * The unit of work: a database session inside one request

    [api/deps.py:get_db] and [db/session.py]: every request runs in one
    session that is committed on a clean exit and rolled back on an exception.
    The session holds the last committed database and the working database of
    the open transaction; a service may commit in the middle.

    The session factory sets [autoflush=False], so a pending attribute change
    reaches the database at the next [flush].  No modelled function queries a
    column between changing and flushing it, so a change and its flush are one
    step here.  Row locks ([FOR UPDATE]) make the transactions on a row
    serial; a request is modelled as one atomic transaction. *)

From S2P Require Import Prelude.
From S2P Require Import Exceptions.
From S2P Require Import Models.

(** ** Tables: keys, column constraints, uniqueness *)

(** The tables that foreign keys point to, by primary key. *)
Inductive Target :=
| to_users | to_sellers | to_stores | to_products | to_orders | to_invite_links
| to_conversations | to_public_keys.
#[export] Instance Target_eq_dec : EqDecision Target.
Proof. solve_decision. Defined.
Definition reference : Type := Target * uuid.
Definition target_exists (d : DB) (ref : reference) : Prop :=
  match ref.1 with
  | to_users => is_Some (users d !! ref.2)
  | to_sellers => is_Some (sellers d !! ref.2)
  | to_stores => is_Some (stores d !! ref.2)
  | to_products => is_Some (products d !! ref.2)
  | to_orders => is_Some (orders d !! ref.2)
  | to_invite_links => is_Some (invite_links d !! ref.2)
  | to_conversations => is_Some (conversations d !! ref.2)
  | to_public_keys => is_Some (user_public_keys d !! ref.2)
  end.
#[export] Instance target_exists_dec d ref : Decision (target_exists d ref).
Proof. unfold target_exists. destruct ref.1; apply _. Defined.

(** A nullable foreign key. *)
Definition ref_opt (t : Target) (o : option uuid) : list reference :=
  match o with Some k => [(t, k)] | None => [] end.

(** What a table promises to the session layer. *)
Class Table (R : Type) := {
  table : DB → gmap uuid R;
  on_table : (gmap uuid R → gmap uuid R) → DB → DB;
  pk : R → uuid;
  (** the error of a row that breaks a CHECK or the range of a column *)
  column_error : R → option py_error;
  (** two different rows that break a UNIQUE constraint or index *)
  conflicts : R → R → Prop;
  (** the foreign keys of a row *)
  references : R → list reference;
  conflicts_dec :: RelDecision conflicts;
  table_on_table : ∀ f d, table (on_table f d) = f (table d);
  on_table_compose : ∀ f g d, on_table f (on_table g d) = on_table (λ t, f (g t)) d;
  on_table_same : ∀ d, on_table (λ t, t) d = d;
  on_table_ext : ∀ f g d, f (table d) = g (table d) → on_table f d = on_table g d;
}.

Ltac table_laws :=
  first [ intros; reflexivity
        | intros []; reflexivity
        | let E := fresh in intros f g d E; cbn in *; by rewrite E
        | intros ? ?; apply _ ].

(** [CITEXT] equality folds case. *)
Definition ascii_lower (c : Ascii.ascii) : Ascii.ascii :=
  let n := Ascii.nat_of_ascii c in
  if decide (65 ≤ n ∧ n ≤ 90) then Ascii.ascii_of_nat (n + 32) else c.
Fixpoint str_lower (s : string) : string :=
  match s with
  | EmptyString => EmptyString
  | String.String c s' => String.String (ascii_lower c) (str_lower s')
  end.
Definition citext_eq (a b : string) : Prop := str_lower a = str_lower b.
#[export] Instance citext_eq_dec a b : Decision (citext_eq a b).
Proof. unfold citext_eq. apply _. Defined.

(** [VARCHAR(n)]; a longer text is refused. *)
Definition varchar (n : nat) (s : string) : Prop := String.length s ≤ n.
#[export] Instance varchar_dec n s : Decision (varchar n s).
Proof. unfold varchar. apply _. Defined.

Definition check (P : Prop) `{Decision P} (e : py_error)
    (next : option py_error) : option py_error :=
  if decide P then next else Some e.

#[export, refine] Instance users_table : Table User := {|
  table := users; on_table f d := d <| users ::= f |>; pk := u_id;
  column_error u :=
    check (varchar 255 (u_display_name u)) DataError
      (check (nullable (varchar 32) (u_phone u)) DataError None);
  conflicts a b := citext_eq (u_email a) (u_email b);
  references _ := [] |}.
Proof. all: unfold citext_eq; table_laws. Defined.

#[export, refine] Instance sellers_table : Table Seller := {|
  table := sellers; on_table f d := d <| sellers ::= f |>; pk := se_id;
  column_error r :=
    check (varchar 255 (se_display_name r)) DataError
      (check (varchar 2 (se_country_code r)) DataError None);
  conflicts a b := se_user_id a = se_user_id b;
  references r :=
    [(to_users, se_user_id r)] |}.
Proof. all: table_laws. Defined.

#[export, refine] Instance stores_table : Table Store := {|
  table := stores; on_table f d := d <| stores ::= f |>; pk := st_id;
  column_error r :=
    check (varchar 255 (st_name r)) DataError
      (check (varchar 255 (st_slug r)) DataError None);
  conflicts a b := st_seller_id a = st_seller_id b ∨ st_slug a = st_slug b;
  references r :=
    [(to_sellers, st_seller_id r)] |}.
Proof. all: table_laws. Defined.

#[export, refine] Instance products_table : Table Product := {|
  table := products; on_table f d := d <| products ::= f |>; pk := p_id;
  column_error p :=
    check (int8 (p_price_minor p)) DataError
      (check (nullable int4 (p_stock_quantity p)) DataError
         (check (0 < p_price_minor p)%Z IntegrityError
            (check (nullable (λ n, 0 ≤ n)%Z (p_stock_quantity p)) IntegrityError
               (check (varchar 255 (p_name p)) DataError None))));
  conflicts _ _ := False;
  references r :=
    [(to_sellers, p_seller_id r); (to_stores, p_store_id r)] |}.
Proof. all: table_laws. Defined.

#[export, refine] Instance product_images_table : Table ProductImage := {|
  table := product_images; on_table f d := d <| product_images ::= f |>;
  pk := pi_id;
  column_error p := check (int4 (pi_display_order p)) DataError None;
  conflicts _ _ := False;
  references r :=
    [(to_products, pi_product_id r)] |}.
Proof. all: table_laws. Defined.

#[export, refine] Instance orders_table : Table Order := {|
  table := orders; on_table f d := d <| orders ::= f |>; pk := o_id;
  column_error o :=
    check (int8 (o_subtotal_minor o)) DataError
      (check (int8 (o_total_minor o)) DataError None);
  conflicts _ _ := False;
  references r :=
    [(to_users, o_customer_id r); (to_sellers, o_seller_id r); (to_stores, o_store_id r)] |}.
Proof. all: table_laws. Defined.

#[export, refine] Instance order_items_table : Table OrderItem := {|
  table := order_items; on_table f d := d <| order_items ::= f |>; pk := oi_id;
  column_error i :=
    check (int4 (oi_quantity i)) DataError
      (check (int8 (oi_unit_price_minor_snapshot i)) DataError
         (check (0 < oi_quantity i)%Z IntegrityError None));
  conflicts _ _ := False;
  references r :=
    (to_orders, oi_order_id r) :: ref_opt to_products (oi_product_id r) |}.
Proof. all: table_laws. Defined.

#[export, refine] Instance deliveries_table : Table Delivery := {|
  table := deliveries; on_table f d := d <| deliveries ::= f |>; pk := d_id;
  column_error d :=
    check (nullable int4 (d_distance_meters d)) DataError
      (check (nullable int4 (d_duration_seconds d)) DataError
         (check (nullable int4 (d_current_eta_seconds d)) DataError None));
  conflicts a b := d_order_id a = d_order_id b;
  references r :=
    (to_orders, d_order_id r) :: (to_sellers, d_seller_id r) :: ref_opt to_users (d_driver_id r) |}.
Proof. all: table_laws. Defined.

#[export, refine] Instance driver_assignments_table : Table DriverAssignment := {|
  table := driver_assignments; on_table f d := d <| driver_assignments ::= f |>;
  pk := a_id; column_error _ := None; conflicts _ _ := False;
  references r :=
    (to_orders, a_order_id r) :: (to_sellers, a_requested_by_seller_id r) ::
    ref_opt to_users (a_driver_id r) ++ ref_opt to_users (a_assigned_by_admin_id r) |}.
Proof. all: table_laws. Defined.

#[export, refine] Instance snapshots_table : Table OrderAnalyticsSnapshot := {|
  table := order_analytics_snapshots;
  on_table f d := d <| order_analytics_snapshots ::= f |>; pk := sn_id;
  column_error s :=
    check (int4 (sn_item_count s)) DataError
      (check (int8 (sn_subtotal_minor s)) DataError
         (check (int8 (sn_total_minor s)) DataError
            (check (nullable int4 (sn_delivery_duration_seconds s)) DataError
               (check (nullable int4 (sn_delivery_distance_meters s)) DataError
                  None))));
  conflicts a b := sn_order_id a = sn_order_id b;
  references _ := [] |}.
Proof. all: table_laws. Defined.

#[export, refine] Instance platform_settings_table : Table PlatformSettings := {|
  table := platform_settings; on_table f d := d <| platform_settings ::= f |>;
  pk := ps_id;
  column_error p :=
    check (int4 (ps_retention_min_days p)) DataError
      (check (int4 (ps_order_auto_complete_grace_hours p)) DataError
         (check (int4 (ps_message_retention_days p)) DataError
            (check (ps_id p = 1%N) IntegrityError
               (check (1 ≤ ps_order_auto_complete_grace_hours p)%Z IntegrityError
                  (check (7 ≤ ps_message_retention_days p)%Z IntegrityError
                     (check (varchar 3 (ps_currency_code p)) DataError None))))));
  conflicts _ _ := False;
  references r :=
    ref_opt to_users (ps_updated_by_user_id r) |}.
Proof. all: table_laws. Defined.

#[export, refine] Instance invite_links_table : Table InviteLink := {|
  table := invite_links; on_table f d := d <| invite_links ::= f |>; pk := i_id;
  column_error i :=
    check (nullable int4 (i_max_uses i)) DataError
      (check (int4 (i_used_count i)) DataError
         (check (varchar 64 (i_token i)) DataError None));
  conflicts a b :=
    i_token a = i_token b ∨
    (i_issuer_id a = i_issuer_id b ∧
     i_type a = seller_referral ∧ i_type b = seller_referral ∧
     i_revoked_at a = None ∧ i_revoked_at b = None);
  references r :=
    [(to_users, i_issuer_id r)] |}.
Proof. all: table_laws. Defined.

#[export, refine] Instance referrals_table : Table Referral := {|
  table := referrals; on_table f d := d <| referrals ::= f |>; pk := rf_id;
  column_error _ := None;
  conflicts a b := rf_referred_user_id a = rf_referred_user_id b;
  references r :=
    [(to_users, rf_referrer_id r); (to_users, rf_referred_user_id r);
      (to_invite_links, rf_invite_link_id r)] |}.
Proof. all: table_laws. Defined.

#[export, refine] Instance refresh_tokens_table : Table RefreshToken := {|
  table := refresh_tokens; on_table f d := d <| refresh_tokens ::= f |>;
  pk := rt_id;
  column_error r :=
    check (varchar 64 (rt_token_hash r)) DataError
      (check (nullable (varchar 255) (rt_device_label r)) DataError None);
  conflicts a b := rt_token_hash a = rt_token_hash b;
  references r :=
    [(to_users, rt_user_id r)] |}.
Proof. all: table_laws. Defined.

#[export, refine] Instance prefs_table : Table UserNotificationPrefs := {|
  table := user_notification_prefs;
  on_table f d := d <| user_notification_prefs ::= f |>;
  pk := np_user_id; column_error _ := None; conflicts _ _ := False;
  references r :=
    [(to_users, np_user_id r)] |}.
Proof. all: table_laws. Defined.

#[export, refine] Instance conversations_table : Table Conversation := {|
  table := conversations; on_table f d := d <| conversations ::= f |>;
  pk := c_id;
  column_error c := check (c_user_a_id c < c_user_b_id c)%N IntegrityError None;
  conflicts a b := c_user_a_id a = c_user_a_id b ∧ c_user_b_id a = c_user_b_id b;
  references r :=
    [(to_users, c_user_a_id r); (to_users, c_user_b_id r)] |}.
Proof. all: table_laws. Defined.

#[export, refine] Instance messages_table : Table Message := {|
  table := messages; on_table f d := d <| messages ::= f |>; pk := m_id;
  column_error _ := None; conflicts _ _ := False;
  references r :=
    (to_conversations, m_conversation_id r) :: (to_users, m_sender_id r) ::
    ref_opt to_public_keys (m_recipient_key_id r) |}.
Proof. all: table_laws. Defined.

#[export, refine] Instance user_public_keys_table : Table UserPublicKey := {|
  table := user_public_keys; on_table f d := d <| user_public_keys ::= f |>;
  pk := k_id;
  column_error k := check (int4 (k_key_version k)) DataError None;
  conflicts a b :=
    k_user_id a = k_user_id b ∧ k_status a = key_active ∧ k_status b = key_active;
  references r :=
    [(to_users, k_user_id r)] |}.
Proof. all: table_laws. Defined.

#[export, refine] Instance tracking_points_table : Table OrderTrackingPoint := {|
  table := order_tracking_points;
  on_table f d := d <| order_tracking_points ::= f |>;
  pk := tp_id; column_error _ := None; conflicts _ _ := False;
  references r :=
    (to_orders, tp_order_id r) :: ref_opt to_users (tp_driver_id r) |}.
Proof. all: table_laws. Defined.

#[export, refine] Instance order_messages_table : Table OrderMessage := {|
  table := order_messages; on_table f d := d <| order_messages ::= f |>;
  pk := om_id;
  column_error m :=
    check (om_sender_role m ∈ ["customer"; "driver"]%string) IntegrityError None;
  conflicts _ _ := False;
  references r :=
    (to_orders, om_order_id r) :: ref_opt to_users (om_sender_id r) |}.
Proof. all: table_laws. Defined.

#[export, refine] Instance delivery_codes_table : Table DeliveryCode := {|
  table := delivery_codes; on_table f d := d <| delivery_codes ::= f |>;
  pk := dc_order_id;
  column_error c := check (int4 (dc_attempts_used c)) DataError None;
  conflicts _ _ := False;
  references r :=
    [(to_orders, dc_order_id r)] |}.
Proof. all: table_laws. Defined.

#[export, refine] Instance attempts_table : Table DeliveryCodeAttempt := {|
  table := delivery_code_attempts;
  on_table f d := d <| delivery_code_attempts ::= f |>;
  pk := at_id; column_error _ := None; conflicts _ _ := False;
  references r :=
    (to_orders, at_order_id r) :: ref_opt to_users (at_driver_id r) |}.
Proof. all: table_laws. Defined.

#[export, refine] Instance user_devices_table : Table UserDevice := {|
  table := user_devices; on_table f d := d <| user_devices ::= f |>; pk := dv_id;
  column_error r := check (varchar 16 (dv_platform r)) DataError None;
  conflicts a b := dv_user_id a = dv_user_id b ∧ dv_token a = dv_token b;
  references r :=
    [(to_users, dv_user_id r)] |}.
Proof. all: table_laws. Defined.

#[export, refine] Instance rollups_table : Table SellerSalesRollup := {|
  table := seller_sales_rollups; on_table f d := d <| seller_sales_rollups ::= f |>;
  pk := ro_seller_id; column_error _ := None; conflicts _ _ := False;
  references _ := [] |}.
Proof. all: table_laws. Defined.

(** ** The session monad *)

(** What the process reads from outside during one request: successive clock
    readings, [uuid4] values, [secrets.token_urlsafe] values, the random numbers
    behind [secrets.randbelow], and the database's transaction timestamp
    [now()]. *)
Record Env := mkEnv {
  clock : nat → datetime;
  uuids : nat → uuid;
  tokens : nat → string;
  randoms : nat → N;
  server_now : datetime;
}.

Record Session := mkSession {
  committed : DB;
  working : DB;
  clock_reads : nat;
  uuid_draws : nat;
  token_draws : nat;
  random_draws : nat;
}.
#[export] Instance eta_Session : EtaRecord Session := fun s =>
  mkSession (committed s) (working s) (clock_reads s) (uuid_draws s)
    (token_draws s) (random_draws s).

Inductive outcome (A : Type) :=
| Ok (a : A)
| Raised (e : exc).
Arguments Ok {A} a.
Arguments Raised {A} e.

Definition M (A : Type) : Type := Env → Session → outcome A * Session.

#[export] Instance M_ret : MRet M := λ A a env s, (Ok a, s).
#[export] Instance M_bind : MBind M := λ A B k m env s,
  match m env s with
  | (Ok a, s1) => k a env s1
  | (Raised e, s1) => (Raised e, s1)
  end.

Definition raise {A} (e : exc) : M A := λ env s, (Raised e, s).

(** [if P: raise e]. *)
Definition raise_if (P : Prop) `{Decision P} (e : exc) : M unit :=
  if decide P then raise e else mret tt.

Definition read_env {A} (f : Env → A) : M A := λ env s, (Ok (f env), s).

(** [datetime.now(timezone.utc)]: each call reads the clock again. *)
Definition now : M datetime := λ env s,
  (Ok (clock env (clock_reads s)), s <| clock_reads ::= S |>).
Definition uuid4 : M uuid := λ env s,
  (Ok (uuids env (uuid_draws s)), s <| uuid_draws ::= S |>).
Definition token_urlsafe : M string := λ env s,
  (Ok (tokens env (token_draws s)), s <| token_draws ::= S |>).
(** [secrets.randbelow(bound)]. *)
Definition randbelow (bound : N) : M N := λ env s,
  (Ok (randoms env (random_draws s) mod bound)%N, s <| random_draws ::= S |>).

(** ** Queries *)

Definition query {A} (f : DB → A) : M A := λ env s, (Ok (f (working s)), s).

Definition rows {R} (t : gmap uuid R) : list R := (map_to_list t).*2.

(** [SELECT ... WHERE P]. *)
Definition select {R} `{Table R} (P : R → Prop) `{∀ r, Decision (P r)} :
    M (list R) :=
  query (λ d, filter P (rows (table d))).

(** [scalar_one_or_none()] / [scalar_one()]. *)
Definition scalar_one_or_none {R} (l : list R) : M (option R) :=
  match l with
  | [] => mret None
  | [r] => mret (Some r)
  | _ => raise MultipleResultsFound
  end.
Definition scalar_one {R} (o : option R) : M R :=
  match o with Some r => mret r | None => raise NoResultFound end.
Definition select_one {R} `{Table R} (P : R → Prop) `{∀ r, Decision (P r)} :
    M (option R) :=
  select P ≫= scalar_one_or_none.

(** A query on the primary key, and [session.get]. *)
Definition get_row {R} `{Table R} (key : uuid) : M (option R) :=
  query (λ d, table d !! key).

(** ** Writes *)

Definition put_db (f : DB → DB) : M unit := λ env s,
  (Ok tt, s <| working ::= f |>).

Definition has_conflict {R} `{Table R} (r : R) (t : gmap uuid R) : Prop :=
  Exists (λ r', pk r' ≠ pk r ∧ conflicts r r') (rows t).
#[export] Instance has_conflict_dec {R} `{Table R} (r : R) t :
  Decision (has_conflict r t).
Proof. unfold has_conflict. apply _. Defined.

(** The statement of a flushed row: a constraint violation raises.  A foreign
    key is checked unless it is among those the stored row has. *)
Definition write_row {R} `{Table R} (stored : list reference) (r : R) : M unit :=
  match column_error r with
  | Some e => raise e
  | None =>
      t ← query table;
      raise_if (has_conflict r t) IntegrityError;;
      d ← query id;
      raise_if (¬ Forall (λ ref, ref ∈ stored ∨ target_exists d ref) (references r))
        IntegrityError;;
      put_db (on_table (<[pk r := r]>))
  end.

(** [db.add(r); await db.flush()] *)
Definition insert_row {R} `{Table R} (r : R) : M unit :=
  existing ← get_row (R:=R) (pk r);
  raise_if (is_Some existing) IntegrityError;;
  write_row [] r.

(** The flush of an object whose attributes were assigned. *)
Definition save {R} `{Table R} (r : R) : M unit :=
  stored ← get_row (R:=R) (pk r);
  write_row (from_option references [] stored) r.

(** [UPDATE ... WHERE P] and [DELETE ... WHERE P]. *)
Definition update_where {R} `{Table R} (P : R → Prop) `{∀ r, Decision (P r)}
    (f : R → R) : M unit :=
  put_db (on_table (fmap (λ r, if decide (P r) then f r else r))).
Definition delete_where {R} `{Table R} (P : R → Prop) `{∀ r, Decision (P r)} :
    M unit :=
  put_db (on_table (filter (λ kr, ¬ P kr.2))).

Definition commit : M unit := λ env s,
  (Ok tt, s <| committed := working s |>).

Definition rollback : M unit := λ env s,
  (Ok tt, s <| working := committed s |>).

(** [try: m / except IntegrityError: handler]. *)
Definition except_integrity {A} (m handler : M A) : M A := λ env s,
  match m env s with
  | (Raised (PyErr IntegrityError), s1) => handler env s1
  | r => r
  end.

(** [for x in l: body(x)]. *)
Fixpoint for_each {A} (l : list A) (body : A → M unit) : M unit :=
  match l with
  | [] => mret tt
  | x :: l' => body x ;; for_each l' body
  end.

(** [assert v is not None]; [d[k]]. *)
Definition assert_some {A} (o : option A) : M A :=
  match o with Some a => mret a | None => raise AssertionError end.
Definition key_lookup {A} (o : option A) : M A :=
  match o with Some a => mret a | None => raise KeyError end.

(** [get_db] around one request: commit on a clean exit, else roll back. *)
Definition open_session (d : DB) : Session := mkSession d d 0 0 0 0.
Definition get_db {A} (handler : M A) (env : Env) (d : DB) : outcome A * DB :=
  match handler env (open_session d) with
  | (Ok a, s) => (Ok a, working s)
  | (Raised e, s) => (Raised e, committed s)
  end.

(** A request of which only the effect matters. *)
Definition ignore {A} (m : M A) : M unit := m ;; mret tt.
