(* ===== verification/SessionFacts.v ===== *)
(** * Reasoning about session programs

    Inversion lemmas for successful runs (with the tactic [inv_run]), forward
    evaluation ([run_eval]), and [stable R m]: the program [m] relates its
    first and last session by the preorder [R] whatever its outcome, proved by
    [auto with stable]. *)

From S2P Require Import Prelude.
From S2P Require Import Exceptions.
From S2P Require Import Models.
From S2P Require Import Session.

Section rows.
Context {R : Type}.
Implicit Types (t : gmap uuid R) (r : R).

Lemma elem_of_rows t r : r ∈ rows t ↔ ∃ k, t !! k = Some r.
Proof.
  unfold rows. rewrite list_elem_of_fmap. split.
  - intros ([k r'] & -> & Hin). exists k. by apply elem_of_map_to_list.
  - intros [k Hk]. exists (k, r). split; [done|]. by apply elem_of_map_to_list.
Qed.

Lemma elem_of_selected t (P : R → Prop) `{∀ r, Decision (P r)} r :
  r ∈ filter P (rows t) ↔ P r ∧ ∃ k, t !! k = Some r.
Proof. by rewrite list_elem_of_filter, elem_of_rows. Qed.

Lemma selected_nil t (P : R → Prop) `{∀ r, Decision (P r)} :
  filter P (rows t) = [] ↔ ∀ k r, t !! k = Some r → ¬ P r.
Proof.
  split.
  - intros Hnil k r Hk HP.
    assert (Hin : r ∈ filter P (rows t)) by (apply elem_of_selected; eauto).
    rewrite Hnil in Hin. by apply not_elem_of_nil in Hin.
  - intros Hno.
    destruct (filter P (rows t)) as [|r l] eqn:E; [done|].
    assert (Hin : r ∈ filter P (rows t)) by (rewrite E; left).
    apply elem_of_selected in Hin as [HP [k Hk]]. by destruct (Hno _ _ Hk).
Qed.

Lemma selected_None t (P : R → Prop) `{∀ r, Decision (P r)} :
  filter P (rows t) = option_list None → ∀ k r, t !! k = Some r → ¬ P r.
Proof. apply selected_nil. Qed.

Lemma selected_Some t (P : R → Prop) `{∀ r, Decision (P r)} r :
  filter P (rows t) = option_list (Some r) →
  P r ∧ (∃ k, t !! k = Some r) ∧ ∀ k r', t !! k = Some r' → P r' → r' = r.
Proof.
  intros E. assert (Hin : r ∈ filter P (rows t)) by (rewrite E; left).
  apply elem_of_selected in Hin as [HP Hk]. split; [done|]. split; [done|].
  intros k r' Hk' HP'.
  assert (Hin : r' ∈ filter P (rows t)) by (apply elem_of_selected; eauto).
  rewrite E in Hin. by apply list_elem_of_singleton in Hin.
Qed.
End rows.

(** A query that one row answers finds it. *)
Lemma selected_unique {R} (t : gmap uuid R) (P : R → Prop) `{∀ r, Decision (P r)} k r :
  t !! k = Some r → P r → (∀ k' r', t !! k' = Some r' → P r' → k' = k) →
  filter P (rows t) = [r].
Proof.
  intros Hk HP Hu. apply Permutation_singleton_r.
  assert (rows t ≡ₚ r :: rows (delete k t)) as ->.
  { unfold rows. rewrite <- (map_to_list_delete t k r) by done. done. }
  rewrite filter_cons_True by done.
  rewrite (proj2 (selected_nil (delete k t) P)); [done|].
  intros k' r' [Hne Hk']%lookup_delete_Some HP'. by eapply Hne, eq_sym, Hu.
Qed.

(** Every row is stored under its own key. *)
Definition keyed {R} `{Table R} (d : DB) : Prop :=
  ∀ k r, table d !! k = Some r → pk r = k.

(** Writing back one changed row is a map over the keyed table. *)
Lemma insert_as_fmap {R} `{Table R} (f : R → R) d k r :
  keyed (R:=R) d → table d !! k = Some r →
  <[k := f r]> (table d) = (λ x, if decide (pk x = k) then f x else x) <$> table d.
Proof.
  intros Hk Hr. apply map_eq. intros k'. rewrite lookup_fmap.
  destruct (decide (k' = k)) as [->|Hne].
  - rewrite lookup_insert_eq, Hr. cbn. by rewrite decide_True by by apply Hk.
  - rewrite lookup_insert_ne by done. destruct (table d !! k') as [r'|] eqn:E; cbn; [|done].
    apply Hk in E. by rewrite decide_False by congruence.
Qed.

Section uniqueness.
Context {R : Type} `{Table R}.

Lemma no_conflict_spec (r : R) (t : gmap uuid R) :
  ¬ has_conflict r t ↔
  ∀ k r', t !! k = Some r' → pk r' ≠ pk r → ¬ conflicts r r'.
Proof.
  unfold has_conflict. rewrite Exists_exists. split.
  - intros Hno k r' Hk Hne Hc. apply Hno. exists r'.
    split; [by apply elem_of_rows; eauto|done].
  - intros Hall (r' & Hin & Hne & Hc).
    apply elem_of_rows in Hin as [k Hk]. by eapply Hall.
Qed.
End uniqueness.

(** ** Inversion of successful runs *)

Section inversion.
Context (env : Env) (s s' : Session).

Lemma bind_Ok {A B} (m : M A) (k : A → M B) b :
  (m ≫= k) env s = (Ok b, s') ↔
  ∃ a s1, m env s = (Ok a, s1) ∧ k a env s1 = (Ok b, s').
Proof.
  unfold mbind, M_bind. destruct (m env s) as [[a|e] s1]; split.
  - intros Hk. eauto.
  - intros (? & ? & ? & ?). by simplify_eq.
  - intros ?. simplify_eq.
  - intros (? & ? & ? & ?). simplify_eq.
Qed.

Lemma ret_Ok {A} (a b : A) :
  (mret a : M A) env s = (Ok b, s') → b = a ∧ s' = s.
Proof. intros E. injection E. auto. Qed.

Lemma raise_Ok {A} (e : exc) (b : A) : raise e env s = (Ok b, s') → False.
Proof. discriminate. Qed.

Lemma raise_if_Ok P `{Decision P} e b :
  raise_if P e env s = (Ok b, s') → ¬ P ∧ s' = s.
Proof. unfold raise_if. case_decide; intros E; [discriminate|]. by injection E. Qed.

Lemma query_Ok {A} (f : DB → A) b :
  query f env s = (Ok b, s') → b = f (working s) ∧ s' = s.
Proof. intros E. injection E. auto. Qed.

Lemma read_env_Ok {A} (f : Env → A) b :
  read_env f env s = (Ok b, s') → b = f env ∧ s' = s.
Proof. intros E. injection E. auto. Qed.

Lemma now_Ok b :
  now env s = (Ok b, s') →
  b = clock env (clock_reads s) ∧ s' = s <| clock_reads ::= S |>.
Proof. intros E. injection E. auto. Qed.

Lemma uuid4_Ok b :
  uuid4 env s = (Ok b, s') →
  b = uuids env (uuid_draws s) ∧ s' = s <| uuid_draws ::= S |>.
Proof. intros E. injection E. auto. Qed.

Lemma token_urlsafe_Ok b :
  token_urlsafe env s = (Ok b, s') →
  b = tokens env (token_draws s) ∧ s' = s <| token_draws ::= S |>.
Proof. intros E. injection E. auto. Qed.

Lemma randbelow_Ok n b :
  randbelow n env s = (Ok b, s') →
  b = (randoms env (random_draws s) mod n)%N ∧ s' = s <| random_draws ::= S |>.
Proof. intros E. injection E. auto. Qed.

Lemma put_db_Ok f b :
  put_db f env s = (Ok b, s') → s' = s <| working ::= f |>.
Proof. intros E. by injection E. Qed.

Lemma commit_Ok b :
  commit env s = (Ok b, s') → s' = s <| committed := working s |>.
Proof. intros E. by injection E. Qed.

Lemma scalar_one_or_none_Ok {R} (l : list R) o :
  scalar_one_or_none l env s = (Ok o, s') → l = option_list o ∧ s' = s.
Proof. destruct l as [|r [|]]; intros E; [| |discriminate]; by injection E as <- <-. Qed.

Lemma scalar_one_Ok {R} (o : option R) b :
  scalar_one o env s = (Ok b, s') → o = Some b ∧ s' = s.
Proof. destruct o; intros E; [|discriminate]. by injection E as <- <-. Qed.

Lemma except_integrity_Ok {A} (m : M A) h b :
  except_integrity m h env s = (Ok b, s') →
  m env s = (Ok b, s') ∨ ∃ s1, m env s = (Raised IntegrityError, s1) ∧ h env s1 = (Ok b, s').
Proof.
  unfold except_integrity. destruct (m env s) as [[a|[|[]]] s1]; eauto; discriminate.
Qed.

Lemma assert_some_Ok {A} (o : option A) b :
  assert_some o env s = (Ok b, s') → o = Some b ∧ s' = s.
Proof. destruct o; intros E; [|discriminate]. by injection E as <- <-. Qed.

Lemma key_lookup_Ok {A} (o : option A) b :
  key_lookup o env s = (Ok b, s') → o = Some b ∧ s' = s.
Proof. destruct o; intros E; [|discriminate]. by injection E as <- <-. Qed.
End inversion.

Section table_inversion.
Context {R : Type} `{Table R} (env : Env).
Implicit Types (s : Session).

Lemma get_row_Ok s s' (key : uuid) (b : option R) :
  get_row key env s = (Ok b, s') → b = table (working s) !! key ∧ s' = s.
Proof. apply query_Ok. Qed.

Lemma select_Ok s s' (P : R → Prop) `{∀ r, Decision (P r)} (b : list R) :
  select P env s = (Ok b, s') →
  b = filter P (rows (table (working s))) ∧ s' = s.
Proof. apply query_Ok. Qed.

Lemma select_one_Ok s s' (P : R → Prop) `{∀ r, Decision (P r)} (o : option R) :
  select_one P env s = (Ok o, s') →
  filter P (rows (table (working s))) = option_list o ∧ s' = s.
Proof.
  unfold select_one. rewrite bind_Ok. intros (l & s1 & Hl & Ho).
  apply select_Ok in Hl as [-> ->]. by apply scalar_one_or_none_Ok in Ho.
Qed.

(** The foreign keys of a row to write, given those of the stored row. *)
Definition refs_known (stored : list reference) (d : DB) (r : R) : Prop :=
  Forall (λ ref, ref ∈ stored ∨ target_exists d ref) (references r).

Lemma write_row_Ok s s' stored (r : R) b :
  write_row stored r env s = (Ok b, s') →
  (column_error r = None ∧ ¬ has_conflict r (table (working s)) ∧
   s' = s <| working ::= on_table (<[pk r := r]>) |>) ∧
  refs_known stored (working s) r.
Proof.
  unfold write_row. destruct (column_error r); [discriminate|].
  rewrite bind_Ok. intros (t & s1 & Ht & Hw).
  apply query_Ok in Ht as [-> ->].
  rewrite bind_Ok in Hw. destruct Hw as (u & s1 & Hu & Hw).
  apply raise_if_Ok in Hu as [Hc ->].
  rewrite bind_Ok in Hw. destruct Hw as (d & s1 & Hd & Hw).
  apply query_Ok in Hd as [-> ->].
  rewrite bind_Ok in Hw. destruct Hw as (u' & s1 & Hu & Hw).
  apply raise_if_Ok in Hu as [Hf ->]. apply put_db_Ok in Hw.
  split; [done|]. by apply dec_stable.
Qed.

Lemma save_Ok s s' (r : R) b :
  save r env s = (Ok b, s') →
  column_error r = None ∧ ¬ has_conflict r (table (working s)) ∧
  s' = s <| working ::= on_table (<[pk r := r]>) |>.
Proof.
  unfold save. rewrite bind_Ok. intros (o & s1 & Ho & Hw).
  apply get_row_Ok in Ho as [-> ->]. by apply write_row_Ok in Hw as [? _].
Qed.
Lemma save_refs s s' (r : R) b :
  save r env s = (Ok b, s') →
  refs_known (from_option references [] (table (working s) !! pk r)) (working s) r.
Proof.
  unfold save. rewrite bind_Ok. intros (o & s1 & Ho & Hw).
  apply get_row_Ok in Ho as [-> ->]. by apply write_row_Ok in Hw as [_ ?].
Qed.

Lemma insert_row_Ok s s' (r : R) b :
  insert_row r env s = (Ok b, s') →
  table (working s) !! pk r = None ∧
  column_error r = None ∧ ¬ has_conflict r (table (working s)) ∧
  s' = s <| working ::= on_table (<[pk r := r]>) |>.
Proof.
  unfold insert_row. rewrite bind_Ok. intros (o & s1 & Ho & Hw).
  apply get_row_Ok in Ho as [-> ->].
  rewrite bind_Ok in Hw. destruct Hw as (u & s1 & Hu & Hw).
  apply raise_if_Ok in Hu as [Hn ->]. apply write_row_Ok in Hw as [Hw _].
  split; [|done]. by apply eq_None_not_Some.
Qed.
Lemma insert_row_refs s s' (r : R) b :
  insert_row r env s = (Ok b, s') → Forall (target_exists (working s)) (references r).
Proof.
  unfold insert_row. rewrite bind_Ok. intros (o & s1 & Ho & Hw).
  apply get_row_Ok in Ho as [-> ->].
  rewrite bind_Ok in Hw. destruct Hw as (u & s1 & Hu & Hw).
  apply raise_if_Ok in Hu as [_ ->]. apply write_row_Ok in Hw as [_ Hf].
  eapply Forall_impl; [exact Hf|]. intros ref [Hin|?]; [by apply not_elem_of_nil in Hin|done].
Qed.

Lemma update_where_Ok s s' (P : R → Prop) `{∀ r, Decision (P r)} f b :
  update_where P f env s = (Ok b, s') →
  s' = s <| working ::= on_table (fmap (λ r, if decide (P r) then f r else r)) |>.
Proof. apply put_db_Ok. Qed.

Lemma delete_where_Ok s s' (P : R → Prop) `{∀ r, Decision (P r)} b :
  delete_where P env s = (Ok b, s') →
  s' = s <| working ::= on_table (filter (λ kr, ¬ P kr.2)) |>.
Proof. apply put_db_Ok. Qed.
End table_inversion.

(** One step of inversion on a hypothesis [prog env s = (Ok b, s')]. *)
Ltac inv_run_step :=
  match goal with
  | H : (mbind _ _) _ _ = (Ok _, _) |- _ =>
      apply bind_Ok in H; destruct H as (? & ? & ? & H)
  | H : mret _ _ _ = (Ok _, _) |- _ => apply ret_Ok in H as [? ?]
  | H : raise _ _ _ = (Ok _, _) |- _ => discriminate H
  | H : raise_if _ _ _ _ = (Ok _, _) |- _ => apply raise_if_Ok in H as [? ?]
  | H : query _ _ _ = (Ok _, _) |- _ => apply query_Ok in H as [? ?]
  | H : read_env _ _ _ = (Ok _, _) |- _ => apply read_env_Ok in H as [? ?]
  | H : now _ _ = (Ok _, _) |- _ => apply now_Ok in H as [? ?]
  | H : uuid4 _ _ = (Ok _, _) |- _ => apply uuid4_Ok in H as [? ?]
  | H : token_urlsafe _ _ = (Ok _, _) |- _ => apply token_urlsafe_Ok in H as [? ?]
  | H : randbelow _ _ _ = (Ok _, _) |- _ => apply randbelow_Ok in H as [? ?]
  | H : get_row _ _ _ = (Ok _, _) |- _ => apply get_row_Ok in H as [? ?]
  | H : select _ _ _ = (Ok _, _) |- _ => apply select_Ok in H as [? ?]
  | H : select_one _ _ _ = (Ok _, _) |- _ => apply select_one_Ok in H as [? ?]
  | H : scalar_one_or_none _ _ _ = (Ok _, _) |- _ =>
      apply scalar_one_or_none_Ok in H as [? ?]
  | H : scalar_one _ _ _ = (Ok _, _) |- _ => apply scalar_one_Ok in H as [? ?]
  | H : assert_some _ _ _ = (Ok _, _) |- _ => apply assert_some_Ok in H as [? ?]
  | H : key_lookup _ _ _ = (Ok _, _) |- _ => apply key_lookup_Ok in H as [? ?]
  | H : insert_row _ _ _ = (Ok _, _) |- _ =>
      apply insert_row_Ok in H as (? & ? & ? & ?)
  | H : save _ _ _ = (Ok _, _) |- _ => apply save_Ok in H as (? & ? & ?)
  | H : update_where _ _ _ _ = (Ok _, _) |- _ => apply update_where_Ok in H
  | H : delete_where _ _ _ = (Ok _, _) |- _ => apply delete_where_Ok in H
  | H : put_db _ _ _ = (Ok _, _) |- _ => apply put_db_Ok in H
  | H : commit _ _ = (Ok _, _) |- _ => apply commit_Ok in H
  end.
Ltac inv_run := repeat (inv_run_step; subst).

(** ** Loops *)

Section loops.
Context (env : Env).
Implicit Types (s : Session).

Lemma for_each_Ok {A} s s' (body : A → M unit) (l : list A) (Rel : relation Session) b :
  PreOrder Rel →
  (∀ x s1 s2, x ∈ l → body x env s1 = (Ok tt, s2) → Rel s1 s2) →
  for_each l body env s = (Ok b, s') → Rel s s'.
Proof.
  intros HRel. revert s. induction l as [|x l IH]; cbn; intros s Hb H; inv_run.
  - done.
  - match goal with u : unit |- _ => destruct u end.
    etrans; [eapply Hb; [left|done]|].
    eapply IH; [|done]. intros y s2 s3 Hy. apply Hb. by right.
Qed.

(** A loop of checks leaves the session alone and establishes each check. *)
Lemma for_each_check {A} s s' (body : A → M unit) (l : list A) (Q : A → Prop) b :
  (∀ x s1 s2, body x env s1 = (Ok tt, s2) → s2 = s1 ∧ Q x) →
  for_each l body env s = (Ok b, s') → s' = s ∧ Forall Q l.
Proof.
  intros Hb. revert s. induction l as [|x l IH]; cbn; intros s H; inv_run; [done|].
  match goal with u : unit |- _ => destruct u end.
  match goal with H : body x env _ = _ |- _ => apply Hb in H as [-> ?] end.
  match goal with H : for_each _ _ _ _ = _ |- _ => apply IH in H as [-> ?] end.
  by split; [|constructor].
Qed.
End loops.

(** A loop whose body establishes [Q x] for its own element, where [Q] survives
    the later rounds, establishes [Q] for every element. *)
Lemma for_each_establishes {A} env (Rel : relation Session)
    (Q : A → Session → Prop) (body : A → M unit) (l : list A) s s' b :
  PreOrder Rel →
  (∀ x s1 s2, Q x s1 → Rel s1 s2 → Q x s2) →
  (∀ x s1 s2, x ∈ l → body x env s1 = (Ok tt, s2) → Rel s1 s2 ∧ Q x s2) →
  for_each l body env s = (Ok b, s') → Rel s s' ∧ ∀ x, x ∈ l → Q x s'.
Proof.
  intros HRel HQ. revert s. induction l as [|x l IH]; cbn; intros s Hb H; inv_run.
  - split; [done|]. intros x Hx. by apply not_elem_of_nil in Hx.
  - match goal with u : unit |- _ => destruct u end.
    match goal with H : body x env _ = _ |- _ => apply Hb in H as [Hr Hq]; [|left] end.
    match goal with H : for_each _ _ _ _ = _ |- _ => apply IH in H as [Hr' Hq'] end.
    + split; [by etrans|]. intros y [->|Hy]%elem_of_cons; [by eapply HQ|by apply Hq'].
    + intros y s1 s2 Hy. apply Hb. by right.
Qed.

Lemma keyed_rows_NoDup {R} `{Table R} d :
  keyed (R:=R) d → NoDup (pk <$> rows (table d)).
Proof.
  intros Hk. unfold rows. rewrite <- list_fmap_compose.
  replace ((pk ∘ snd) <$> map_to_list (table d)) with (map_to_list (table d)).*1;
    [apply NoDup_fst_map_to_list|].
  apply list_fmap_ext. intros i [k r] Hi. cbn. symmetry. apply Hk.
  apply elem_of_map_to_list. by eapply list_elem_of_lookup_2.
Qed.

(** A loop over the selected rows that replaces ([g r = Some r']) or removes
    ([g r = None]) the row it is at acts on the whole table at once. *)
Section row_loop.
Context {R : Type} `{Table R} (env : Env) (g : R → option R) (body : R → M unit).
Context (Hg : ∀ r r', g r = Some r' → pk r' = pk r).
Context (Hbody : ∀ r s s' b, keyed (R:=R) (working s) →
  body r env s = (Ok b, s') →
  table (working s') = partial_alter (λ _, g r) (pk r) (table (working s))).

Lemma row_loop_keyed r s s' b :
  keyed (R:=R) (working s) → body r env s = (Ok b, s') → keyed (R:=R) (working s').
Proof.
  intros Hk Hb k r'. rewrite (Hbody _ _ _ _ Hk Hb).
  destruct (decide (k = pk r)) as [->|Hne].
  - rewrite lookup_partial_alter_eq. apply Hg.
  - rewrite lookup_partial_alter_ne by done. apply Hk.
Qed.

Lemma row_loop_lookup s s' (l : list R) b :
  keyed (R:=R) (working s) →
  for_each l body env s = (Ok b, s') → NoDup (pk <$> l) →
  (∀ r, r ∈ l → table (working s') !! pk r = g r) ∧
  (∀ k, k ∉ pk <$> l → table (R:=R) (working s') !! k = table (working s) !! k).
Proof.
  revert s. induction l as [|r l IH]; cbn; intros s Hk Hl Hnd; inv_run.
  - split; [|done]. intros r Hr. by apply not_elem_of_nil in Hr.
  - apply NoDup_cons in Hnd as [Hr Hnd].
    match goal with H : body _ _ _ = _, H' : for_each _ _ _ _ = _ |- _ =>
      pose proof (Hbody _ _ _ _ Hk H) as Ht;
      destruct (IH _ (row_loop_keyed _ _ _ _ Hk H) H' Hnd) as [IHin IHout] end.
    rewrite Ht in IHout. split.
    + intros r' [->|Hr']%elem_of_cons; [|by apply IHin].
      by rewrite IHout, lookup_partial_alter_eq.
    + intros k [Hne Hkl]%not_elem_of_cons. rewrite IHout by done.
      by rewrite lookup_partial_alter_ne.
Qed.

Lemma row_loop_Ok s s' (P : R → Prop) `{∀ r, Decision (P r)} b :
  keyed (R:=R) (working s) →
  for_each (filter P (rows (table (working s)))) body env s = (Ok b, s') →
  table (working s') =
    omap (λ r, if decide (P r) then g r else Some r) (table (working s)).
Proof.
  intros Hk Hl. pose proof (keyed_rows_NoDup _ Hk) as Hnd.
  assert (NoDup (pk <$> filter P (rows (table (working s))))) as Hnd'.
  { eapply sublist_NoDup; [done|]. apply fmap_sublist. apply sublist_filter. }
  destruct (row_loop_lookup _ _ _ _ Hk Hl Hnd') as [Hin Hout].
  apply map_eq. intros k. rewrite lookup_omap.
  assert (∀ r', r' ∈ filter P (rows (table (working s))) → pk r' = k →
    table (working s) !! k = Some r' ∧ P r') as Hsel.
  { intros r' [HP' [k' Hk']]%elem_of_selected <-. by rewrite (Hk _ _ Hk'). }
  destruct (table (working s) !! k) as [r|] eqn:E; cbn.
  - case_decide as HP.
    + rewrite <- (Hk _ _ E). apply Hin. apply elem_of_selected. eauto.
    + rewrite Hout; [done|]. intros (r' & Hpk & Hr')%list_elem_of_fmap.
      apply Hsel in Hr'; naive_solver.
  - rewrite Hout; [done|]. intros (r' & Hpk & Hr')%list_elem_of_fmap.
    apply Hsel in Hr'; naive_solver.
Qed.
End row_loop.

(** Saving an updated copy of every selected row is an [UPDATE ... WHERE]. *)
Section for_each_save.
Context {R : Type} `{Table R} (env : Env) (f : R → R).
Context (Hf : ∀ r, pk (f r) = pk r).

Lemma save_step r s s' b :
  keyed (R:=R) (working s) → save (f r) env s = (Ok b, s') →
  table (working s') = partial_alter (λ _, Some (f r)) (pk r) (table (working s)).
Proof. intros _ Hs. inv_run. cbn. by rewrite table_on_table, Hf. Qed.

Lemma save_loop_frame s s' (l : list R) b :
  for_each l (λ r, save (f r)) env s = (Ok b, s') →
  ∃ g, working s' = on_table (R:=R) g (working s).
Proof.
  revert s. induction l as [|r l IH]; cbn; intros s Hl; inv_run.
  - exists (λ t, t). by rewrite on_table_same.
  - match goal with H : for_each _ _ _ _ = _ |- _ =>
      destruct (IH _ H) as [g Hg] end.
    cbn in Hg. rewrite on_table_compose in Hg. eauto.
Qed.

Lemma for_each_save_Ok s s' (P : R → Prop) `{∀ r, Decision (P r)} b :
  keyed (R:=R) (working s) →
  for_each (filter P (rows (table (working s)))) (λ r, save (f r)) env s
    = (Ok b, s') →
  working s' =
    on_table (fmap (λ r, if decide (P r) then f r else r)) (working s).
Proof.
  intros Hk Hl. destruct (save_loop_frame _ _ _ _ Hl) as [g Hg]. rewrite Hg.
  apply on_table_ext. rewrite <- table_on_table, <- Hg.
  rewrite (row_loop_Ok env (λ r, Some (f r)) _ ltac:(intros; naive_solver) save_step
             _ _ _ _ Hk Hl).
  apply map_eq. intros k. rewrite lookup_omap, lookup_fmap.
  destruct (table (working s) !! k); cbn; [by case_decide|done].
Qed.
End for_each_save.

(** ** Stability under a preorder on sessions *)

Class SessionRel (Rel : relation Session) := {
  session_rel_preorder :: PreOrder Rel;
  session_rel_same s s' :
    committed s = committed s' → working s = working s' → Rel s s';
}.

Definition stable (Rel : relation Session) {A} (m : M A) : Prop :=
  ∀ env s o s', m env s = (o, s') → Rel s s'.

Create HintDb stable.

Section stable.
Context (Rel : relation Session) `{!SessionRel Rel}.

Lemma stable_unchanged {A} (m : M A) :
  (∀ env s, committed s = committed (m env s).2 ∧
            working s = working (m env s).2) → stable Rel m.
Proof.
  intros Hm env s o s' E. destruct (Hm env s) as [Hc Hw]. rewrite E in *.
  by apply session_rel_same.
Qed.

Lemma stable_ret {A} (a : A) : stable Rel (mret a : M A).
Proof. by apply stable_unchanged. Qed.
Lemma stable_raise {A} e : stable Rel (raise e : M A).
Proof. by apply stable_unchanged. Qed.
Lemma stable_raise_if P `{Decision P} e : stable Rel (raise_if P e).
Proof. apply stable_unchanged. unfold raise_if. intros. by case_decide. Qed.
Lemma stable_query {A} (f : DB → A) : stable Rel (query f).
Proof. by apply stable_unchanged. Qed.
Lemma stable_read_env {A} (f : Env → A) : stable Rel (read_env f).
Proof. by apply stable_unchanged. Qed.
Lemma stable_now : stable Rel now.
Proof. by apply stable_unchanged. Qed.
Lemma stable_uuid4 : stable Rel uuid4.
Proof. by apply stable_unchanged. Qed.
Lemma stable_token : stable Rel token_urlsafe.
Proof. by apply stable_unchanged. Qed.
Lemma stable_randbelow n : stable Rel (randbelow n).
Proof. by apply stable_unchanged. Qed.
Lemma stable_scalar {R} (l : list R) : stable Rel (scalar_one_or_none l).
Proof. apply stable_unchanged. by destruct l as [|? [|]]. Qed.
Lemma stable_scalar_one {R} (o : option R) : stable Rel (scalar_one o).
Proof. apply stable_unchanged. by destruct o. Qed.
Lemma stable_assert_some {A} (o : option A) : stable Rel (assert_some o).
Proof. apply stable_unchanged. by destruct o. Qed.
Lemma stable_key_lookup {A} (o : option A) : stable Rel (key_lookup o).
Proof. apply stable_unchanged. by destruct o. Qed.

Lemma stable_bind {A B} (m : M A) (k : A → M B) :
  stable Rel m → (∀ a, stable Rel (k a)) → stable Rel (m ≫= k).
Proof.
  unfold stable, mbind, M_bind. intros Hm Hk env s o s' E.
  destruct (m env s) as [[a|e] s1] eqn:Em.
  - etrans; [by eapply Hm|by eapply Hk].
  - injection E as <- <-. by eapply Hm.
Qed.

Lemma stable_get_row {R} `{Table R} key : stable Rel (get_row (R:=R) key).
Proof. apply stable_query. Qed.
Lemma stable_select {R} `{Table R} (P : R → Prop) `{∀ r, Decision (P r)} :
  stable Rel (select P).
Proof. apply stable_query. Qed.
Lemma stable_select_one {R} `{Table R} (P : R → Prop) `{∀ r, Decision (P r)} :
  stable Rel (select_one P).
Proof. apply stable_bind; [apply stable_select|intros; apply stable_scalar]. Qed.

Lemma stable_for_each {A} (l : list A) (body : A → M unit) :
  (∀ x, stable Rel (body x)) → stable Rel (for_each l body).
Proof.
  intros Hb. induction l; [apply stable_ret|].
  by apply stable_bind; intros.
Qed.

Lemma stable_put_db f :
  (∀ s, Rel s (s <| working ::= f |>)) → stable Rel (put_db f).
Proof. intros Hf env s o s' E. injection E as <- <-. apply Hf. Qed.

Lemma stable_write_row {R} `{Table R} stored (r : R) :
  stable Rel (put_db (on_table (<[pk r := r]>))) → stable Rel (write_row stored r).
Proof.
  intros Hp. unfold write_row. destruct (column_error r); [apply stable_raise|].
  apply stable_bind; [apply stable_query|intros t].
  apply stable_bind; [apply stable_raise_if|intros _].
  apply stable_bind; [apply stable_query|intros d].
  apply stable_bind; [apply stable_raise_if|done].
Qed.
Lemma stable_save {R} `{Table R} (r : R) :
  stable Rel (put_db (on_table (<[pk r := r]>))) → stable Rel (save r).
Proof.
  intros Hp. apply stable_bind; [apply stable_get_row|intros o]. by apply stable_write_row.
Qed.
Lemma stable_insert_row {R} `{Table R} (r : R) :
  stable Rel (put_db (on_table (<[pk r := r]>))) → stable Rel (insert_row r).
Proof.
  intros Hp. unfold insert_row. apply stable_bind; [apply stable_get_row|intros o].
  apply stable_bind; [apply stable_raise_if|intros _]. by apply stable_write_row.
Qed.
Lemma stable_update_where {R} `{Table R} (P : R → Prop)
    `{∀ r, Decision (P r)} f :
  stable Rel (put_db (on_table (fmap (λ r, if decide (P r) then f r else r)))) →
  stable Rel (update_where P f).
Proof. done. Qed.
Lemma stable_delete_where {R} `{Table R} (P : R → Prop) `{∀ r, Decision (P r)} :
  stable Rel (put_db (on_table (R:=R) (filter (λ kr, ¬ P kr.2)))) →
  stable Rel (delete_where P).
Proof. done. Qed.

Lemma stable_except_integrity {A} (m h : M A) :
  stable Rel m → stable Rel h → stable Rel (except_integrity m h).
Proof.
  intros Hm Hh env s o s'. unfold except_integrity.
  destruct (m env s) as [[a|[|[]]] s1] eqn:E; intros Hr;
    try (injection Hr as <- <-; by eapply Hm).
  etrans; [by eapply Hm|by eapply Hh].
Qed.
End stable.

#[export] Hint Resolve stable_ret stable_raise stable_raise_if stable_query
  stable_read_env stable_now stable_uuid4 stable_token stable_randbelow stable_scalar stable_scalar_one
  stable_assert_some stable_key_lookup stable_get_row stable_select
  stable_select_one stable_for_each stable_put_db stable_save
  stable_insert_row stable_update_where stable_delete_where : stable.
#[export] Hint Extern 0 (SessionRel _) => apply _ : stable.

(** Drive [stable] through the branches of a program. *)
Ltac stable_step :=
  match goal with
  | |- ∀ _, _ => intros ?
  | |- stable _ (match ?x with _ => _ end) => destruct x
  | |- stable _ _ => solve [auto 2 with stable]
  | |- stable _ (mbind _ _) => apply stable_bind; [apply _| |]
  | |- stable _ (for_each _ _) => apply stable_for_each; [apply _|]
  | |- stable _ (insert_row _) => apply stable_insert_row; [apply _|]
  | |- stable _ (save _) => apply stable_save; [apply _|]
  | |- stable _ (update_where _ _) => apply stable_update_where
  | |- stable _ (delete_where _) => apply stable_delete_where
  | |- stable _ (put_db _) => apply stable_put_db
  end.
Ltac stable_tac := repeat stable_step.

(** The same through the definitions of the program. *)
Ltac head_of m := match m with ?f _ => head_of f | _ => m end.
Ltac stable_deep_step :=
  first
    [ stable_step
    | match goal with
      | |- stable _ (except_integrity _ _) => apply stable_except_integrity; [apply _| |]
      | |- stable _ ?m => let h := head_of m in unfold h
      end ].
Ltac stable_deep := repeat stable_deep_step.

(** *** Programs that never commit: a raised exception undoes everything *)

Definition same_committed : relation Session := λ s s',
  committed s' = committed s.
#[export] Instance same_committed_rel : SessionRel same_committed.
Proof.
  split; [split|]; unfold same_committed; [done|intros ???; congruence|done].
Qed.
Lemma same_committed_put f s : same_committed s (s <| working ::= f |>).
Proof. done. Qed.
#[export] Hint Resolve same_committed_put : stable.

(** *** Programs that leave a table alone *)

Definition same_table (R : Type) `{Table R} : relation Session := λ s s',
  table (R:=R) (working s') = table (R:=R) (working s).
#[export] Instance same_table_rel R `{Table R} : SessionRel (same_table R).
Proof.
  split; [split|]; unfold same_table; [done|intros ???; congruence|].
  intros s s' _ E. by rewrite E.
Qed.
#[export] Hint Extern 1 (same_table _ _ _) => reflexivity : stable.
#[export] Hint Extern 1 (stable (same_table _) commit) =>
  intros ? ? ? ? E; injection E as <- <-; reflexivity : stable.

(** ** Requests *)

Section requests.
Context {A : Type} (m : M A) (env : Env) (d d' : DB).

Lemma get_db_Ok a :
  get_db m env d = (Ok a, d') ↔
  ∃ s', m env (open_session d) = (Ok a, s') ∧ d' = working s'.
Proof.
  unfold get_db. destruct (m env (open_session d)) as [[b|e'] s1];
    (split; [intros E; simplify_eq; eauto|intros (s' & E & ->); by simplify_eq]).
Qed.

Lemma get_db_Raised e :
  get_db m env d = (Raised e, d') ↔
  ∃ s', m env (open_session d) = (Raised e, s') ∧ d' = committed s'.
Proof.
  unfold get_db. destruct (m env (open_session d)) as [[b|e'] s1];
    (split; [intros E; simplify_eq; eauto|intros (s' & E & ->); by simplify_eq]).
Qed.

(** A request whose program never commits is all-or-nothing. *)
Lemma get_db_atomic e :
  stable same_committed m → get_db m env d = (Raised e, d') → d' = d.
Proof. rewrite get_db_Raised. intros Hs (s' & Hm & ->). by apply Hs in Hm. Qed.
End requests.

(** *** Programs whose result is dropped *)

Lemma ignore_Ok {A} env s s' (m : M A) b :
  ignore m env s = (Ok b, s') → ∃ a, m env s = (Ok a, s').
Proof. unfold ignore. intros H. inv_run. eauto. Qed.

Lemma ignore_raised {A} env s (m : M A) e s' :
  m env s = (Raised e, s') → ignore m env s = (Raised e, s').
Proof. unfold ignore, mbind, M_bind. by intros ->. Qed.

(** ** Programs that commit last

    A program whose only commits are followed by steps that cannot fail leaves
    the committed database alone when it raises. *)

Definition atomic {A} (m : M A) : Prop :=
  ∀ env s e s', m env s = (Raised e, s') → committed s' = committed s.
Definition never_raises {A} (m : M A) : Prop :=
  ∀ env s, ∃ a s', m env s = (Ok a, s').

Lemma atomic_stable {A} (m : M A) : stable same_committed m → atomic m.
Proof. intros Hm env s e s' H. by apply Hm in H. Qed.

Lemma atomic_bind {A B} (m : M A) (k : A → M B) :
  stable same_committed m → (∀ a, atomic (k a)) → atomic (m ≫= k).
Proof.
  intros Hm Hk env s e s'. unfold mbind, M_bind.
  destruct (m env s) as [[a|e'] s1] eqn:E; apply Hm in E; unfold same_committed in E.
  - intros H. apply Hk in H. congruence.
  - intros [= _ <-]. done.
Qed.

Lemma atomic_commit {A} (k : unit → M A) :
  (∀ u, never_raises (k u)) → atomic (commit ≫= k).
Proof.
  intros Hk env s e s'. unfold mbind, M_bind. cbn.
  destruct (Hk tt env (s <| committed := working s |>)) as (a & s1 & H). cbn in H.
  by rewrite H.
Qed.
Lemma atomic_result {A B} (m : M A) (f : A → B) :
  atomic m → atomic (m ≫= λ a, mret (f a)).
Proof.
  intros Hm env s e s'. unfold mbind, M_bind. destruct (m env s) as [[a|e'] s1] eqn:E.
  - discriminate.
  - intros [= _ <-]. by apply Hm in E.
Qed.
Lemma atomic_commit_only : atomic commit.
Proof. done. Qed.

Ltac atomic_step :=
  match goal with
  | |- ∀ _, _ => intros ?
  | |- atomic (match ?x with _ => _ end) => destruct x
  | |- atomic commit => exact atomic_commit_only
  | |- atomic (mbind _ commit) => apply atomic_commit; intros ? ? ?; repeat eexists
  | |- atomic (mbind (λ _, mret _) _) => apply atomic_result
  | |- atomic (mbind _ _) => apply atomic_bind; [stable_tac|]
  | |- atomic _ => apply atomic_stable; stable_tac
  end.
Ltac atomic_tac := repeat atomic_step.

Lemma get_db_atomic_last {A} (m : M A) env d d' e :
  atomic m → get_db m env d = (Raised e, d') → d' = d.
Proof. rewrite get_db_Raised. intros Hm (s' & H & ->). by apply Hm in H. Qed.

(** ** Rows obey the constraints of their columns *)

Definition valid_rows (R : Type) `{Table R} (d : DB) : Prop :=
  map_Forall (λ _ r, column_error (R:=R) r = None) (table d).
Definition keeps_valid (R : Type) `{Table R} : relation Session := λ s s',
  valid_rows R (working s) → valid_rows R (working s').
#[export] Instance keeps_valid_rel R `{Table R} : SessionRel (keeps_valid R).
Proof.
  split; [split|].
  - by intros s Hk.
  - intros s1 s2 s3 H1 H2 Hk. auto.
  - intros s s' _ E Hk. by rewrite <- E.
Qed.

(** A refused write leaves the session alone. *)
Lemma write_row_raised {R} `{Table R} stored (r : R) env s e s' :
  write_row stored r env s = (Raised e, s') → s' = s.
Proof.
  unfold write_row. destruct (column_error r); [by intros [= _ <-]|].
  unfold mbind, M_bind, raise_if. cbn. case_decide; [by intros [= _ <-]|]. cbn.
  case_decide; [by intros [= _ <-]|discriminate].
Qed.

Lemma save_raised {R} `{Table R} (r : R) env s e s' :
  save r env s = (Raised e, s') → s' = s.
Proof. unfold save, mbind, M_bind. cbn. apply write_row_raised. Qed.

Section keeps_valid.
Context {R : Type} `{Table R}.

Lemma keeps_valid_write stored (r : R) : stable (keeps_valid R) (write_row stored r).
Proof.
  intros env s [b|e] s' E Hv; [|by apply write_row_raised in E as ->].
  apply write_row_Ok in E as [(Hc & _ & ->) _]. cbn. unfold valid_rows.
  rewrite table_on_table. by apply map_Forall_insert_2.
Qed.
Lemma keeps_valid_save (r : R) : stable (keeps_valid R) (save r).
Proof.
  apply stable_bind; [apply _|apply stable_get_row, _|intros o]. apply keeps_valid_write.
Qed.
Lemma keeps_valid_insert (r : R) : stable (keeps_valid R) (insert_row r).
Proof.
  unfold insert_row. apply stable_bind; [apply _|apply stable_get_row, _|intros o].
  apply stable_bind; [apply _|apply stable_raise_if, _|intros _]. apply keeps_valid_write.
Qed.

Lemma keeps_valid_delete (P : R → Prop) `{∀ r, Decision (P r)} :
  stable (keeps_valid R) (delete_where P).
Proof.
  apply stable_delete_where, stable_put_db. intros s Hv. cbn.
  intros k r. rewrite table_on_table, map_lookup_filter_Some. intros [? _]. by eapply Hv.
Qed.

Lemma keeps_valid_other f s :
  table (R:=R) (f (working s)) = table (working s) →
  keeps_valid R s (s <| working ::= f |>).
Proof. unfold keeps_valid, valid_rows. cbn. by intros ->. Qed.
End keeps_valid.

#[export] Hint Resolve keeps_valid_save keeps_valid_insert keeps_valid_delete : stable.
#[export] Hint Extern 2 (keeps_valid _ _ _) =>
  apply keeps_valid_other; reflexivity : stable.

(** ** Forward evaluation *)

Lemma write_row_runs {R} `{Table R} stored (r : R) env s :
  column_error r = None → ¬ has_conflict r (table (working s)) →
  refs_known stored (working s) r →
  write_row stored r env s = (Ok tt, s <| working ::= on_table (<[pk r := r]>) |>).
Proof.
  intros Hc Hn Hf. unfold write_row. rewrite Hc. unfold mbind, M_bind, raise_if. cbn.
  rewrite decide_False by done. cbn. rewrite decide_False by (intros Hx; by apply Hx). done.
Qed.

(** A flush of new attributes that leaves the foreign keys of the stored row. *)
Lemma save_runs {R} `{Table R} (r r0 : R) env s :
  table (working s) !! pk r = Some r0 → references r = references r0 →
  column_error r = None → ¬ has_conflict r (table (working s)) →
  save r env s = (Ok tt, s <| working ::= on_table (<[pk r := r]>) |>).
Proof.
  intros Hl Hr Hc Hn. unfold save, mbind, M_bind. cbn. rewrite Hl. cbn.
  apply write_row_runs; [done..|]. unfold refs_known. rewrite Hr.
  apply Forall_forall. intros ref Hin. by left.
Qed.

Lemma insert_runs {R} `{Table R} (r : R) env s :
  table (working s) !! pk r = None →
  column_error r = None → ¬ has_conflict r (table (working s)) →
  Forall (target_exists (working s)) (references r) →
  insert_row r env s = (Ok tt, s <| working ::= on_table (<[pk r := r]>) |>).
Proof.
  intros Hf Hc Hn Hr. unfold insert_row, mbind, M_bind, raise_if. cbn. rewrite Hf.
  rewrite decide_False by apply is_Some_None. apply write_row_runs; [done..|].
  eapply Forall_impl; [exact Hr|]. intros ref ?. by right.
Qed.

Lemma insert_fails {R} `{Table R} (r : R) env s :
  column_error r = None →
  is_Some (table (working s) !! pk r) ∨ has_conflict r (table (working s)) →
  insert_row r env s = (Raised IntegrityError, s).
Proof.
  intros Hc Hx. unfold insert_row, mbind, M_bind, raise_if. cbn.
  case_decide as Hs; [done|]. destruct Hx as [|Hx]; [done|]. cbn.
  unfold write_row. rewrite Hc. unfold mbind, M_bind, raise_if. cbn. by rewrite decide_True.
Qed.

Lemma insert_exists {R} `{Table R} (r : R) env s :
  is_Some (table (working s) !! pk r) → insert_row r env s = (Raised IntegrityError, s).
Proof. intros Hx. unfold insert_row, mbind, M_bind, raise_if. cbn. by rewrite decide_True. Qed.
Lemma insert_rejected {R} `{Table R} (r : R) e env s :
  table (working s) !! pk r = None → column_error r = Some e →
  insert_row r env s = (Raised e, s).
Proof.
  intros Hf Hc. unfold insert_row, mbind, M_bind, raise_if. cbn. rewrite Hf.
  rewrite decide_False by apply is_Some_None. unfold write_row. by rewrite Hc.
Qed.

(** A refused insert leaves the session alone. *)
Lemma insert_raised {R} `{Table R} (r : R) env s e s' :
  insert_row r env s = (Raised e, s') → s' = s.
Proof.
  unfold insert_row, mbind, M_bind, raise_if. cbn. case_decide; [by intros [= _ <-]|]. cbn.
  apply write_row_raised.
Qed.

(** A table without UNIQUE constraints. *)
Lemma no_conflicts {R} `{Table R} (r : R) t :
  (∀ a b : R, ¬ conflicts a b) → ¬ has_conflict r t.
Proof. intros Hn. apply no_conflict_spec. auto. Qed.

(** ** Uniqueness constraints *)

(** No two rows conflict. *)
Definition unique_rows {R} `{Table R} (d : DB) : Prop :=
  ∀ k1 k2 r1 r2, table d !! k1 = Some r1 → table d !! k2 = Some r2 →
    k1 ≠ k2 → ¬ conflicts r1 r2.

Lemma write_unique {R} `{Table R} (r : R) d :
  (∀ a b : R, conflicts a b → conflicts b a) → keyed (R:=R) d →
  unique_rows (R:=R) d → ¬ has_conflict r (table d) →
  unique_rows (R:=R) (on_table (<[pk r := r]>) d).
Proof.
  intros Hsym Hk Hu Hn k1 k2 r1 r2. rewrite !table_on_table.
  pose proof (proj1 (no_conflict_spec _ _) Hn) as Hn'.
  intros [[<- <-]|[Hne1 H1]]%lookup_insert_Some [[<- <-]|[Hne2 H2]]%lookup_insert_Some Hne;
    try done.
  - apply (Hn' _ _ H2). by rewrite (Hk _ _ H2).
  - intros Hc%Hsym. revert Hc. apply (Hn' _ _ H1). by rewrite (Hk _ _ H1).
  - by eapply Hu.
Qed.

(** ** Running a program forward *)

(** What [scalar_one_or_none] makes of the rows found. *)
Definition one_of {R} (l : list R) : outcome (option R) :=
  match l with [] => Ok None | [r] => Ok (Some r) | _ => Raised MultipleResultsFound end.
Lemma select_one_eq {R} `{Table R} (P : R → Prop) `{∀ r, Decision (P r)} env s :
  select_one P env s = (one_of (filter P (rows (table (working s)))), s).
Proof.
  unfold select_one, mbind, M_bind, select, query. cbn.
  by destruct (filter P _) as [|? [|]].
Qed.

Lemma bind_run {A B} (m : M A) (k : A → M B) env s o s' :
  m env s = (o, s') →
  (m ≫= k) env s = match o with Ok a => k a env s' | Raised e => (Raised e, s') end.
Proof. intros E. unfold mbind, M_bind. rewrite E. by destruct o. Qed.

Lemma raise_if_run {B} P `{Decision P} e (k : unit → M B) env s :
  (raise_if P e ≫= k) env s = if decide P then (Raised e, s) else k tt env s.
Proof. unfold raise_if, mbind, M_bind. by case_decide. Qed.

Lemma get_db_fst {A} (m : M A) env d : (get_db m env d).1 = (m env (open_session d)).1.
Proof. unfold get_db. by destruct (m env _) as [[]]. Qed.

Lemma one_of_unique {R} (t : gmap uuid R) (P : R → Prop) `{∀ r, Decision (P r)} :
  (∀ k1 k2 x y, t !! k1 = Some x → t !! k2 = Some y → P x → P y → k1 = k2) →
  (∃ k r, t !! k = Some r ∧ P r ∧ filter P (rows t) = [r]) ∨
  ((∀ k r, t !! k = Some r → ¬ P r) ∧ filter P (rows t) = []).
Proof.
  intros Hu. destruct (filter P (rows t)) as [|r l] eqn:E; [right|left].
  - split; [exact (proj1 (selected_nil t P) E)|done].
  - assert (r ∈ filter P (rows t)) as Hin by (rewrite E; left).
    apply elem_of_selected in Hin as [HP [k Hk]]. exists k, r. split_and!; [done..|].
    rewrite <- E. eapply selected_unique; eauto.
Qed.

Lemma rows_fmap {A B} (f : A → B) (t : gmap uuid A) : rows (f <$> t) = f <$> rows t.
Proof. unfold rows. rewrite map_to_list_fmap, <- !list_fmap_compose. done. Qed.

Lemma filter_fmap_same {A} (f : A → A) (P : A → Prop) `{∀ x, Decision (P x)} (l : list A) :
  (∀ x, P (f x) ↔ P x) → filter P (f <$> l) = f <$> filter P l.
Proof.
  intros Hf. induction l as [|x l IH]; [done|]. rewrite fmap_cons, !filter_cons.
  rewrite IH. destruct (decide (P x)), (decide (P (f x))); naive_solver.
Qed.
