(* ===== verification/Pages.v ===== *)
(** * Cursor pagination

    Every listing that pages does it the same way: the rows newest first, a
    page of at most [limit] rows from a cursor on, and a cursor that stands for
    the timestamp of the last row.  The walk of a client over the pages is
    verified here once, for any such listing. *)

From S2P Require Import Prelude.
From S2P Require Import Exceptions.
From S2P Require Import Models.
From S2P Require Import Session.
#[local] Open Scope Z_scope.

(** ** Newest-first lists *)

Section newest_first.
Context {A : Type} (key : A → Z).

Definition newer (a b : A) : Prop := key b < key a.

Lemma newest_first_sorted l :
  NoDup (key <$> l) → StronglySorted newer (order_by_desc key l).
Proof.
  intros Hnd. unfold order_by_desc.
  pose proof (StronglySorted_merge_sort (key_le (λ a, - key a)) l) as Hs.
  pose proof (merge_sort_Permutation (key_le (λ a, - key a)) l) as Hp.
  revert Hs Hp. generalize (merge_sort (key_le (λ a, - key a)) l). intros l' Hs Hp.
  assert (NoDup (key <$> l')) as Hnd' by by rewrite Hp. clear Hp Hnd.
  induction Hs as [|m l' Hs IH Hall]; constructor.
  - apply IH. by apply NoDup_cons in Hnd' as [_ ?].
  - apply NoDup_cons in Hnd' as [Hm _]. rewrite Forall_forall in Hall |- *.
    intros m' Hm'. specialize (Hall m' Hm'). unfold key_le in Hall. unfold newer.
    enough (key m' ≠ key m) by lia.
    intros E. apply Hm. rewrite <- E. by apply list_elem_of_fmap_2.
Qed.

Lemma newest_first_unique l1 l2 :
  StronglySorted newer l1 → StronglySorted newer l2 → l1 ≡ₚ l2 → l1 = l2.
Proof.
  apply StronglySorted_unique_strong. unfold newer. intros. exfalso. lia.
Qed.

Lemma sorted_filter (P : A → Prop) `{∀ m, Decision (P m)} l :
  StronglySorted newer l → StronglySorted newer (filter P l).
Proof.
  induction 1 as [|m l Hs IH Hall]; [constructor|].
  rewrite filter_cons. case_decide; [|done]. constructor; [done|].
  rewrite Forall_forall in Hall |- *. intros m' [_ Hm']%list_elem_of_filter. auto.
Qed.

(** Sorting a selection selects from the sorted list. *)
Lemma sort_before (P : A → Prop) `{∀ m, Decision (P m)} l :
  NoDup (key <$> l) →
  order_by_desc key (filter P l) = filter P (order_by_desc key l).
Proof.
  intros Hnd. apply newest_first_unique.
  - apply newest_first_sorted. eapply sublist_NoDup; [exact Hnd|].
    apply fmap_sublist, sublist_filter.
  - by apply sorted_filter, newest_first_sorted.
  - by rewrite !order_by_desc_perm.
Qed.

Lemma after_cursor pre x suf :
  StronglySorted newer (pre ++ x :: suf) →
  filter (λ m, key m < key x) (pre ++ x :: suf) = suf.
Proof.
  intros Hs. rewrite filter_app.
  assert (filter (λ m, key m < key x) pre = []) as ->.
  { induction pre as [|m pre IH]; [done|]. cbn in Hs. inversion_clear Hs as [|? ? Hs' Hall].
    rewrite filter_cons_False; [by apply IH|].
    rewrite Forall_app, Forall_cons in Hall. destruct Hall as (_ & Hx & _).
    unfold newer in Hx. lia. }
  rewrite app_nil_l, filter_cons_False by lia.
  assert (StronglySorted newer (x :: suf)) as Hx.
  { clear - Hs. induction pre as [|m pre IH]; [done|]. inversion_clear Hs. auto. }
  inversion_clear Hx as [|? ? _ Hall]. clear Hs.
  induction Hall as [|m suf Hm _ IH]; [done|]. by rewrite filter_cons_True, IH.
Qed.
End newest_first.

(** ** The walk of a client *)

Section follow.
Context {A C : Type}.

(** One page and the cursor of the next; [None] when the request fails. *)
Abbreviation fetcher := (option C → option (list A * option C)).

(** Follow the cursor, at most [fuel] pages. *)
Fixpoint follow (fetch : fetcher) (fuel : nat) (cursor : option C) : option (list A) :=
  match fuel with
  | O => None
  | S fuel' =>
      match fetch cursor with
      | None => None
      | Some (page, None) => Some page
      | Some (page, Some next) =>
          rest ← follow fetch fuel' (Some next);
          Some (page ++ rest)
      end
  end.

Context (key : A → Z) (all : list A) (Hnd : NoDup (key <$> all)).

(** The rows on the pages from the instant [before] on. *)
Definition remaining (before : option Z) : list A :=
  filter (λ a, nullable (λ t, key a < t) before) (order_by_desc key all).

Lemma remaining_all : remaining None = order_by_desc key all.
Proof.
  unfold remaining. induction (order_by_desc key all) as [|m l IH]; [done|].
  rewrite filter_cons_True by done. by rewrite IH.
Qed.

(** Behind the last row of a page the rest remains. *)
Lemma remaining_next page x rest before :
  remaining before = page ++ x :: rest → remaining (Some (key x)) = rest.
Proof.
  intros E.
  assert (StronglySorted (newer key) (order_by_desc key all)) as Hs
    by by apply newest_first_sorted.
  assert (StronglySorted (newer key) (remaining before)) as Hs' by by apply sorted_filter.
  rewrite E in Hs'. rewrite <- (after_cursor key page x rest Hs'), <- E.
  unfold remaining. rewrite list_filter_filter. apply list_filter_iff. intros m. cbn.
  split; [|naive_solver]. intros Hm. split; [done|].
  assert (x ∈ remaining before) as Hx by (rewrite E; set_solver).
  apply list_elem_of_filter in Hx as [Hx _]. destruct before; cbn in *; [lia|done].
Qed.

(** The cursor [c] stands for the instant of a row. *)
Context (means : C → Z → Prop).
Definition starts (cursor : option C) (before : option Z) : Prop :=
  match cursor, before with
  | None, None => True
  | Some c, Some t => means c t
  | _, _ => False
  end.

(** A page is a beginning of what remains; without a next cursor it is all of
    it, and a next cursor stands for its last row. *)
Definition serves (fetch : fetcher) : Prop :=
  ∀ cursor before, starts cursor before →
  ∃ page rest next, fetch cursor = Some (page, next) ∧ remaining before = page ++ rest ∧
    match next with
    | None => rest = []
    | Some c => ∃ x, last page = Some x ∧ means c (key x)
    end.

Lemma follow_runs fetch fuel cursor before :
  serves fetch → starts cursor before → (length (remaining before) < fuel)%nat →
  follow fetch fuel cursor = Some (remaining before).
Proof.
  intros Hf. revert cursor before.
  induction fuel as [|fuel IH]; intros cursor before Hc Hfuel; [lia|]. cbn.
  destruct (Hf cursor before Hc) as (page & rest & next & -> & E & Hnext).
  destruct next as [c|]; [|by rewrite E, Hnext, app_nil_r].
  destruct Hnext as (x & Hlast & Hm). apply last_Some in Hlast as [pre ->].
  rewrite <- app_assoc in E. cbn in E.
  rewrite (IH (Some c) (Some (key x)) Hm); rewrite (remaining_next _ _ _ _ E).
  - cbn. by rewrite E, <- app_assoc.
  - rewrite E, length_app in Hfuel. cbn in Hfuel. lia.
Qed.

(** The walk from the first page ends and collects every row once, in order. *)
Lemma follow_all fetch :
  serves fetch → follow fetch (S (length all)) None = Some (order_by_desc key all).
Proof.
  intros Hf. rewrite (follow_runs _ _ None None Hf I), remaining_all; [done|].
  rewrite remaining_all, order_by_desc_perm. lia.
Qed.
End follow.
