(* ===== verification/PyString.v ===== *)
(** * Python string methods

    [str.strip], [str.replace] and [str.lower] on ASCII text, over the list of
    the characters, with the facts the components use. *)

From Stdlib Require Import Ascii.
From S2P Require Import Prelude.
From S2P Require Import Session.
#[local] Open Scope string_scope.
#[local] Open Scope list_scope.

Fixpoint has_prefix (p l : list ascii) : bool :=
  match p, l with
  | [], _ => true
  | a :: p', b :: l' => bool_decide (a = b) && has_prefix p' l'
  | _, [] => false
  end.

(** [str.replace(needle, "")] ; one unit of fuel per character. *)
Fixpoint remove_all (fuel : nat) (needle l : list ascii) : list ascii :=
  match fuel, l with
  | S fuel', c :: l' =>
      if has_prefix needle l then remove_all fuel' needle (drop (length needle) l)
      else c :: remove_all fuel' needle l'
  | _, _ => []
  end.
Definition replace_empty (needle : string) (l : list ascii) : list ascii :=
  remove_all (length l) (String.list_ascii_of_string needle) l.

(** [str.replace(needle, sub)] for a non-empty needle. *)
Fixpoint replace_list (fuel : nat) (needle sub l : list ascii) : list ascii :=
  match fuel, l with
  | S fuel', c :: l' =>
      if has_prefix needle l then sub ++ replace_list fuel' needle sub (drop (length needle) l)
      else c :: replace_list fuel' needle sub l'
  | _, _ => []
  end.
Definition replace (needle sub s : string) : string :=
  let l := String.list_ascii_of_string s in
  String.string_of_list_ascii
    (replace_list (length l) (String.list_ascii_of_string needle)
       (String.list_ascii_of_string sub) l).

(** [needle in s] and [s.startswith(prefix)] *)
Fixpoint contains_list (needle l : list ascii) : bool :=
  has_prefix needle l || match l with [] => false | _ :: l' => contains_list needle l' end.
Definition contains (needle s : string) : bool :=
  contains_list (String.list_ascii_of_string needle) (String.list_ascii_of_string s).
Definition startswith (prefix s : string) : bool :=
  has_prefix (String.list_ascii_of_string prefix) (String.list_ascii_of_string s).

(** [str.strip(chars)] *)
Fixpoint strip_left (p : ascii → bool) (l : list ascii) : list ascii :=
  match l with
  | [] => []
  | c :: l' => if p c then strip_left p l' else l
  end.
Definition strip_both (p : ascii → bool) (l : list ascii) : list ascii :=
  reverse (strip_left p (reverse (strip_left p l))).

(** [str.rstrip(chars)] *)
Definition strip_right (p : ascii → bool) (l : list ascii) : list ascii :=
  reverse (strip_left p (reverse l)).
Definition rstrip (c : ascii) (s : string) : string :=
  String.string_of_list_ascii
    (strip_right (λ x, bool_decide (x = c)) (String.list_ascii_of_string s)).

(** [s.split(sep)] on one character *)
Fixpoint split_list (sep : ascii) (l : list ascii) : list (list ascii) :=
  match l with
  | [] => [[]]
  | c :: l' =>
      if decide (c = sep) then [] :: split_list sep l'
      else match split_list sep l' with
           | [] => [[c]]
           | part :: parts => (c :: part) :: parts
           end
  end.
Definition split (sep : ascii) (s : string) : list string :=
  String.string_of_list_ascii <$> split_list sep (String.list_ascii_of_string s).

(** [str.strip()] *)
Definition is_space (c : ascii) : bool :=
  bool_decide (nat_of_ascii c ∈ [9; 10; 11; 12; 13; 28; 29; 30; 31; 32]).
Definition strip (s : string) : string :=
  String.string_of_list_ascii (strip_both is_space (String.list_ascii_of_string s)).

(** ** Facts *)

Lemma strip_left_suffix p l : ∃ l1, l = l1 ++ strip_left p l.
Proof.
  induction l as [|c l [l1 IH]]; cbn; [by exists []|].
  destruct (p c); [exists (c :: l1); cbn; by rewrite <- IH|by exists []].
Qed.

(** Nothing to strip at the front: the list is empty or starts outside [p]. *)
Definition front_clean (p : ascii → bool) (l : list ascii) : Prop :=
  nullable (λ c, p c = false) (head l).
Lemma strip_left_clean p l : front_clean p (strip_left p l).
Proof. induction l as [|c l IH]; cbn; [done|]. destruct (p c) eqn:E; [done|exact E]. Qed.
Lemma strip_left_id p l : front_clean p l → strip_left p l = l.
Proof. destruct l as [|c l]; cbn; [done|]. by intros ->. Qed.

(** Stripping at the back keeps a clean front. *)
Lemma front_clean_prefix p l1 l2 : front_clean p (l1 ++ l2) → front_clean p l1.
Proof. by destruct l1. Qed.

Lemma strip_both_clean p l :
  front_clean p (strip_both p l) ∧ front_clean p (reverse (strip_both p l)).
Proof.
  unfold strip_both. rewrite reverse_involutive. split; [|apply strip_left_clean].
  destruct (strip_left_suffix p (reverse (strip_left p l))) as [l1 E].
  apply (f_equal reverse) in E. rewrite reverse_involutive, reverse_app in E.
  eapply front_clean_prefix. rewrite <- E. apply strip_left_clean.
Qed.

Lemma strip_both_id p l :
  front_clean p l → front_clean p (reverse l) → strip_both p l = l.
Proof.
  intros H1 H2. unfold strip_both.
  by rewrite (strip_left_id p l), strip_left_id, reverse_involutive.
Qed.

(** What is left lies within the text. *)
Lemma strip_both_infix p l : ∃ l1 l2, l = l1 ++ strip_both p l ++ l2.
Proof.
  unfold strip_both. destruct (strip_left_suffix p l) as [l1 E1].
  destruct (strip_left_suffix p (reverse (strip_left p l))) as [l2 E2].
  exists l1, (reverse l2). apply (f_equal reverse) in E2.
  rewrite reverse_involutive, reverse_app in E2. by rewrite <- E2.
Qed.
