(* ===== verification/Orders.v ===== *)
(** * Order lifecycle and fulfillment

    [services/order_service.py], lines 45-732: placing an order and every
    status transition up to cancellation, with the analytics snapshot written
    on completion. *)

From S2P Require Import Prelude.
From S2P Require Import Exceptions.
From S2P Require Import Models.
From S2P Require Import Session.
From S2P Require Import SessionFacts.
#[local] Open Scope string_scope.

(** ** State-machine definition *)

Definition ACTIVE_STATUSES : list OrderStatus :=
  [pending; accepted; preparing; out_for_delivery].
Definition TERMINAL_STATUSES : list OrderStatus := [completed; cancelled].

(** ** Helpers *)

(** An order with its eagerly loaded relationships. *)
Record LoadedOrder := mkLoadedOrder {
  lo_order : Order;
  lo_items : list OrderItem;
  lo_delivery : option Delivery;
  lo_assignments : list DriverAssignment;
}.

Definition _load_order_locked (order_id : uuid) : M (option Order) :=
  get_row order_id.

Definition _load_order_full (order_id : uuid) : M (option LoadedOrder) :=
  found ← get_row order_id;
  match found with
  | None => mret None
  | Some order =>
      items ← select (λ i, oi_order_id i = order_id);
      dlvs ← select (λ d, d_order_id d = order_id);
      asgs ← select (λ a, a_order_id a = order_id);
      mret (Some (mkLoadedOrder order items (head dlvs) asgs))
  end.

(** [loaded = await _load_order_full(db, order.id); assert loaded is not None] *)
Definition reload (order_id : uuid) : M LoadedOrder :=
  loaded ← _load_order_full order_id;
  assert_some loaded.

Definition _get_caller_seller (caller : User) : M Seller :=
  found ← select_one (λ r, se_user_id r = u_id caller ∧ se_deleted_at r = None);
  match found with
  | None => raise SellerProfileMissing
  | Some sl => mret sl
  end.

Definition _terminal_at (order : Order) : option datetime :=
  if decide (o_status order = completed) then o_completed_at order
  else if decide (o_status order = cancelled) then o_cancelled_at order
  else None.

(** ** Create order *)

Record LineItem := mkLineItem { li_product_id : uuid; li_quantity : Z }.
#[export] Instance LineItem_eq_dec : EqDecision LineItem.
Proof. solve_decision. Defined.

(** [d[pid] = d.get(pid, 0) + qty] on an insertion-ordered dict. *)
Fixpoint qty_add (d : list (uuid * Z)) (pid : uuid) (qty : Z) : list (uuid * Z) :=
  match d with
  | [] => [(pid, 0 + qty)%Z]
  | (k, v) :: d' =>
      if decide (k = pid) then (k, v + qty)%Z :: d' else (k, v) :: qty_add d' pid qty
  end.
Definition aggregate (items : list LineItem) : list (uuid * Z) :=
  foldl (λ d it, qty_add d (li_product_id it) (li_quantity it)) [] items.

(** The products of the order, as [{p.id: p for p in products}]. *)
Definition index_products (ps : list Product) : gmap uuid Product :=
  list_to_map ((λ p, (p_id p, p)) <$> ps).

Definition check_line (by_id : gmap uuid Product) (line : uuid * Z) : M unit :=
  product ← key_lookup (by_id !! line.1);
  raise_if (p_deleted_at product ≠ None ∨ p_is_active product = false)
    ProductNotVisible;;
  match p_stock_quantity product with
  | Some stock => raise_if (stock < line.2)%Z ProductOutOfStock
  | None => mret tt
  end.

Definition decrement_line (by_id : gmap uuid Product) (line : uuid * Z) : M unit :=
  product ← key_lookup (by_id !! line.1);
  match p_stock_quantity product with
  | Some stock =>
      save (product <| p_stock_quantity := Some (stock - line.2)%Z |>)
  | None => mret tt
  end.

Fixpoint sum_lines (by_id : gmap uuid Product) (lines : list (uuid * Z)) : M Z :=
  match lines with
  | [] => mret 0%Z
  | line :: lines' =>
      product ← key_lookup (by_id !! line.1);
      rest ← sum_lines by_id lines';
      mret (p_price_minor product * line.2 + rest)%Z
  end.

Definition add_item (by_id : gmap uuid Product) (order_id : uuid)
    (line : uuid * Z) : M unit :=
  product ← key_lookup (by_id !! line.1);
  item_id ← uuid4;
  insert_row (mkOrderItem item_id order_id (Some (p_id product)) (p_name product)
                (p_price_minor product) line.2).

(** [sorted({item["product_id"] for item in items})] *)
Definition product_ids (items : list LineItem) : list uuid :=
  merge_sort N.le (remove_dups (li_product_id <$> items)).

(** The whole of [create_order], given the locking read of the products. *)
Definition create_order_on (lock_products : list uuid → M (list Product))
    (cust : User) (items : list LineItem) (delivery_address : Address) : M LoadedOrder :=
  raise_if (u_role cust ≠ customer) ProductNotVisible;;
  raise_if (items = []) OrderInvalidTransition;;
  match u_referring_seller_id cust with
  | None => raise ProductNotVisible
  | Some expected_seller_id =>
      found ← lock_products (product_ids items);
      let products := order_by_asc (λ p, Z.of_N (p_id p)) found in
      let products_by_id := index_products products in
      raise_if (size products_by_id ≠ length (product_ids items)) ProductNotVisible;;
      let qty_by_id := aggregate items in
      let seller_ids : gset uuid := list_to_set (p_seller_id <$> products) in
      raise_if (size seller_ids ≠ 1 ∨ expected_seller_id ∉ seller_ids)
        ProductNotVisible;;
      for_each qty_by_id (check_line products_by_id);;
      for_each qty_by_id (decrement_line products_by_id);;
      match products with
      | [] => raise StopIteration
      | first_product :: _ =>
          let store_id := p_store_id first_product in
          subtotal ← sum_lines products_by_id qty_by_id;
          order_id ← uuid4;
          _now ← now;
          placed_at ← read_env server_now;
          insert_row
            {| o_id := order_id; o_customer_id := u_id cust;
               o_seller_id := expected_seller_id; o_store_id := store_id;
               o_status := pending; o_subtotal_minor := subtotal;
               o_total_minor := subtotal; o_delivery_address := delivery_address;
               o_placed_at := placed_at; o_accepted_at := None;
               o_preparing_at := None; o_out_for_delivery_at := None;
               o_delivered_at := None; o_completed_at := None;
               o_cancelled_at := None; o_cancellation_reason := None;
               o_driver_accepted_at := None; o_customer_visible_after := None;
               o_seller_full_visible_until := Some (_now + timedelta_days 7)%Z;
               o_delivery_code_locked := false; o_deleted_at := None |};;
          for_each qty_by_id (add_item products_by_id order_id);;
          reload order_id
      end
  end.
Definition create_order : User → list LineItem → Address → M LoadedOrder :=
  create_order_on (λ ids, select (λ p, p_id p ∈ ids)).

(** ** State transitions *)

Definition _lock_order_or_404 (order_id : uuid) (caller : User) : M Order :=
  found ← _load_order_locked order_id;
  match found with
  | None => raise OrderNotFound
  | Some order =>
      raise_if (o_deleted_at order ≠ None) OrderNotFound;;
      raise_if (u_role caller = seller ∧ o_seller_id order ≠ u_id caller)
        OrderNotFound;;
      raise_if (u_role caller = customer ∧ o_customer_id order ≠ u_id caller)
        OrderNotFound;;
      mret order
  end.

Definition accept_order (caller : User) (order_id : uuid) : M LoadedOrder :=
  raise_if (u_role caller ≠ seller) OrderNotFound;;
  order ← _lock_order_or_404 order_id caller;
  raise_if (o_status order ≠ pending) OrderInvalidTransition;;
  _now ← now;
  save (order <| o_status := accepted |> <| o_accepted_at := Some _now |>);;
  reload (o_id order).

Definition mark_preparing (caller : User) (order_id : uuid) : M LoadedOrder :=
  raise_if (u_role caller ≠ seller) OrderNotFound;;
  order ← _lock_order_or_404 order_id caller;
  raise_if (o_status order ≠ accepted) OrderInvalidTransition;;
  _now ← now;
  save (order <| o_status := preparing |> <| o_preparing_at := Some _now |>);;
  reload (o_id order).

(** Assignment statuses that count as an outstanding request. *)
Definition OPEN_ASSIGNMENT : list AssignmentStatus :=
  [asg_requested; asg_assigned; asg_accepted].
Definition ASSIGNED_DRIVER : list AssignmentStatus := [asg_assigned; asg_accepted].

(** The two existence checks shared by both fulfillment choices. *)
Definition fulfillment_not_chosen (order_id : uuid) : M unit :=
  existing_delivery ← select_one (λ d, d_order_id d = order_id);
  raise_if (is_Some existing_delivery) FulfillmentAlreadyChosen;;
  existing_req ←
    select_one (λ a, a_order_id a = order_id ∧ a_status a ∈ OPEN_ASSIGNMENT);
  raise_if (is_Some existing_req) FulfillmentAlreadyChosen.

Definition new_delivery (delivery_id order_id : uuid) (driver_id : option uuid)
    (seller_id : uuid) (st : DeliveryStatus) (started_at : option datetime) :
    Delivery :=
  {| d_id := delivery_id; d_order_id := order_id; d_driver_id := driver_id;
     d_seller_id := seller_id; d_status := st; d_started_at := started_at;
     d_delivered_at := None; d_current_lat := None; d_current_lng := None;
     d_last_location_at := None; d_distance_meters := None;
     d_duration_seconds := None; d_current_eta_seconds := None;
     d_current_eta_updated_at := None |}.

Definition choose_self_delivery (caller : User) (order_id : uuid) :
    M LoadedOrder :=
  raise_if (u_role caller ≠ seller) OrderNotFound;;
  order ← _lock_order_or_404 order_id caller;
  raise_if (o_status order ∉ [accepted; preparing]) OrderInvalidTransition;;
  fulfillment_not_chosen (o_id order);;
  sl ← _get_caller_seller caller;
  delivery_id ← uuid4;
  insert_row (new_delivery delivery_id (o_id order) None (se_id sl) dlv_pending None);;
  reload (o_id order).

Definition request_driver (caller : User) (order_id : uuid) : M LoadedOrder :=
  raise_if (u_role caller ≠ seller) OrderNotFound;;
  order ← _lock_order_or_404 order_id caller;
  raise_if (o_status order ∉ [accepted; preparing]) OrderInvalidTransition;;
  fulfillment_not_chosen (o_id order);;
  sl ← _get_caller_seller caller;
  assignment_id ← uuid4;
  requested_at ← read_env server_now;
  insert_row
    {| a_id := assignment_id; a_order_id := o_id order; a_driver_id := None;
       a_status := asg_requested; a_requested_by_seller_id := se_id sl;
       a_requested_at := requested_at; a_assigned_by_admin_id := None;
       a_assigned_at := None |};;
  reload (o_id order).

(** [User.role == "driver"], not deleted, active. *)
Definition is_active_driver (driver_id : uuid) (u : User) : Prop :=
  u_id u = driver_id ∧ u_role u = driver ∧ u_deleted_at u = None ∧
  u_is_active u = true.

Definition assign_driver (caller : User) (order_id driver_id : uuid) :
    M LoadedOrder :=
  raise_if (u_role caller ≠ admin) OrderNotFound;;
  order ← _lock_order_or_404 order_id caller;
  raise_if (o_status order ∉ [accepted; preparing]) OrderInvalidTransition;;
  driver_user ←
    select_one (λ u, u_id u = driver_id ∧ u_role u = driver ∧
                     u_deleted_at u = None ∧ u_is_active u = true);
  raise_if (¬ is_Some driver_user) OrderInvalidTransition;;
  found ← select (λ a, a_order_id a = o_id order);
  let assignments :=
    order_by_desc a_requested_at found in
  let active := filter (λ a, a_status a ∈ OPEN_ASSIGNMENT) assignments in
  match active with
  | [] => raise DriverNotRequested
  | pending_asg :: _ =>
      let already_assigned := filter (λ a, a_driver_id a ≠ None) active in
      raise_if (length already_assigned ≠ 0) DriverAlreadyAssigned;;
      _now ← now;
      save (pending_asg <| a_driver_id := Some driver_id |>
              <| a_status := asg_assigned |>
              <| a_assigned_by_admin_id := Some (u_id caller) |>
              <| a_assigned_at := Some _now |>);;
      reload (o_id order)
  end.

(** Who may act on a delivery row: the order's seller, or its driver. *)
Definition delivery_actor_or_404 (order : Order) (dlv : Delivery)
    (caller : User) : M unit :=
  match d_driver_id dlv with
  | None =>
      raise_if (u_role caller ≠ seller ∨ u_id caller ≠ o_seller_id order)
        OrderNotFound
  | Some driver_id =>
      raise_if (u_role caller = driver ∧ u_id caller ≠ driver_id) OrderNotFound;;
      raise_if (u_role caller = seller ∧ u_id caller ≠ o_seller_id order)
        OrderNotFound
  end.

Definition out_for_delivery (caller : User) (order_id : uuid) : M LoadedOrder :=
  raise_if (u_role caller ∉ [seller; driver]) OrderNotFound;;
  order ← _lock_order_or_404 order_id caller;
  raise_if (o_status order = Models.out_for_delivery ∨
            o_out_for_delivery_at order ≠ None) DeliveryAlreadyStarted;;
  raise_if (o_status order ≠ preparing) OrderInvalidTransition;;
  delivery ← select_one (λ d, d_order_id d = o_id order);
  match delivery with
  | None =>
      assignment ←
        select_one (λ a, a_order_id a = o_id order ∧
                         a_status a ∈ ASSIGNED_DRIVER ∧ a_driver_id a ≠ None);
      match assignment with
      | None => raise OrderInvalidTransition
      | Some asg =>
          let assigned_driver_id := a_driver_id asg in
          raise_if (u_role caller = driver ∧
                    Some (u_id caller) ≠ assigned_driver_id) OrderNotFound;;
          raise_if (u_role caller = seller ∧ u_id caller ≠ o_seller_id order)
            OrderNotFound;;
          delivery_id ← uuid4;
          started ← now;
          insert_row (new_delivery delivery_id (o_id order) assigned_driver_id
                        (o_seller_id order) dlv_in_transit (Some started))
      end
  | Some dlv =>
      delivery_actor_or_404 order dlv caller;;
      started ← now;
      save (dlv <| d_status := dlv_in_transit |>
              <| d_started_at := Some started |>)
  end;;
  _now ← now;
  save (order <| o_status := Models.out_for_delivery |>
          <| o_out_for_delivery_at := Some _now |>);;
  reload (o_id order).

Definition mark_delivered (caller : User) (order_id : uuid) : M LoadedOrder :=
  raise_if (u_role caller ∉ [seller; driver]) OrderNotFound;;
  order ← _lock_order_or_404 order_id caller;
  raise_if (o_status order ≠ Models.out_for_delivery) OrderInvalidTransition;;
  delivery ← select_one (λ d, d_order_id d = o_id order);
  match delivery with
  | None => raise OrderInvalidTransition
  | Some dlv =>
      delivery_actor_or_404 order dlv caller;;
      _now ← now;
      save (order <| o_status := delivered |> <| o_delivered_at := Some _now |>);;
      let dlv := dlv <| d_status := dlv_delivered |>
                     <| d_delivered_at := Some _now |> in
      save match d_started_at dlv, d_duration_seconds dlv with
           | Some started, None =>
               dlv <| d_duration_seconds :=
                        Some (Z.max 0 (total_seconds_int (_now - started))) |>
           | _, _ => dlv
           end;;
      reload (o_id order)
  end.

(** [INSERT ... ON CONFLICT (order_id) DO NOTHING] *)
Definition insert_snapshot (sn : OrderAnalyticsSnapshot) : M unit :=
  match column_error sn with
  | Some e => raise e
  | None =>
      existing ← select (λ r, sn_order_id r = sn_order_id sn);
      match existing with
      | [] => insert_row sn
      | _ :: _ => mret tt
      end
  end.

Definition _write_snapshot (order : Order) : M unit :=
  (* both branches of the store lookup read sellers.city *)
  store ← get_row (R:=Store) (o_store_id order);
  sl ← get_row (R:=Seller) (o_seller_id order);
  let city := from_option se_city "" sl in
  items ← select (λ i, oi_order_id i = o_id order);
  let item_count := foldr (λ i acc, oi_quantity i + acc)%Z 0%Z items in
  dlvs ← select (λ d, d_order_id d = o_id order);
  let row := head dlvs in
  snapshot_id ← uuid4;
  delivered_at ←
    match o_delivered_at order, o_completed_at order with
    | Some t, _ => mret t
    | None, Some t => mret t
    | None, None => now
    end;
  insert_snapshot
    {| sn_id := snapshot_id; sn_order_id := o_id order;
       sn_seller_id := o_seller_id order; sn_store_id := o_store_id order;
       sn_customer_id := o_customer_id order; sn_city := city;
       sn_item_count := item_count; sn_subtotal_minor := o_subtotal_minor order;
       sn_total_minor := o_total_minor order; sn_delivered_at := delivered_at;
       sn_delivery_duration_seconds := row ≫= d_duration_seconds;
       sn_delivery_distance_meters := row ≫= d_distance_meters |}.

Definition complete_order (caller : User) (order_id : uuid) : M LoadedOrder :=
  raise_if (u_role caller ≠ customer) OrderNotFound;;
  order ← _lock_order_or_404 order_id caller;
  raise_if (o_status order ≠ delivered) OrderInvalidTransition;;
  _now ← now;
  let order := order <| o_status := completed |> <| o_completed_at := Some _now |> in
  save order;;
  _write_snapshot order;;
  reload (o_id order).

Definition cancel_order (caller : User) (order_id : uuid)
    (reason : option string) : M LoadedOrder :=
  order ← _lock_order_or_404 order_id caller;
  raise_if (o_status order ∈ TERMINAL_STATUSES ∨ o_status order = delivered)
    OrderInvalidTransition;;
  match u_role caller with
  | customer => raise_if (o_status order ≠ pending) OrderInvalidTransition
  | seller =>
      raise_if (o_status order ∉ [pending; accepted; preparing])
        OrderInvalidTransition
  | admin => mret tt
  | driver => raise OrderNotFound
  end;;
  _now ← now;
  save (order <| o_status := cancelled |> <| o_cancelled_at := Some _now |>
          <| o_cancellation_reason := reason |>);;
  asgs ← select (λ a, a_order_id a = o_id order ∧ a_status a ∈ OPEN_ASSIGNMENT);
  for_each asgs (λ a, save (a <| a_status := asg_cancelled |>));;
  reload (o_id order).
