(* ===== verification/PyFloat.v ===== *)
(** * Python floats

    IEEE 754 binary64 arithmetic with round-to-nearest-even, on the
    specification floats of the Standard Library, and the functions of Python's
    [math] module.  The transcendental functions are those of the C library of
    the platform: operations of the class [Libm]. *)

From Stdlib Require Import Floats.SpecFloat.
From S2P Require Import Prelude.
From S2P Require Import Exceptions.
From S2P Require Import Models.
From S2P Require Import Session.
#[local] Open Scope Z_scope.

Definition prec : Z := 53.
Definition emax : Z := 1024.

Definition fadd (x y : float64) : float64 := SFadd prec emax x y.
Definition fsub (x y : float64) : float64 := SFsub prec emax x y.
Definition fmul (x y : float64) : float64 := SFmul prec emax x y.
Definition fdiv (x y : float64) : float64 := SFdiv prec emax x y.
Definition flt (x y : float64) : bool := SFltb x y.

(** [float(n)] of an integer, and the literal [n / 10^k]. *)
Definition float_of_Z (n : Z) : float64 := binary_normalize prec emax n 0 false.
Definition decimal (n : Z) (k : nat) : float64 :=
  fdiv (float_of_Z n) (float_of_Z (10 ^ Z.of_nat k)).

(** [int(x)] truncates toward zero. *)
Definition int_of_float (x : float64) : M Z :=
  match x with
  | S754_nan => raise ValueError
  | S754_infinity _ => raise OverflowError
  | S754_zero _ => mret 0
  | S754_finite s m e =>
      let n := if decide (0 <= e) then Zpos m * 2 ^ e else Zpos m / 2 ^ (- e) in
      mret (if s then - n else n)
  end.

Class Libm := {
  libm_sin : float64 → float64;
  libm_cos : float64 → float64;
  libm_asin : float64 → float64;
  libm_pow : float64 → float64 → float64;
  (** [float(s)] of a string, [None] for a [ValueError] *)
  parse_float : string → option float64;
}.

Section math.
Context `{Libm}.

Definition pi : float64 := S754_finite false 7074237752028440 (-51).
Definition radians (x : float64) : float64 := fmul x (fdiv pi (float_of_Z 180)).

(** [math.sqrt] and [math.asin] raise outside their domain. *)
Definition math_sqrt (x : float64) : M float64 :=
  if flt x (float_of_Z 0) then raise ValueError else mret (SFsqrt prec emax x).
Definition math_asin (x : float64) : M float64 :=
  if flt (float_of_Z 1) x || flt x (float_of_Z (-1)) then raise ValueError
  else mret (libm_asin x).

(** [float(v)] of a JSON scalar that is not null. *)
Definition float_of_json (v : json) : M float64 :=
  match v with
  | JNum x => mret x
  | JBool b => mret (float_of_Z (if b then 1 else 0))
  | JStr s => match parse_float s with Some x => mret x | None => raise ValueError end
  | JNull => raise TypeError
  end.
End math.

Example literal_8_333 : decimal 8333 3 = S754_finite false 4691061961859793 (-49).
Proof. vm_compute. reflexivity. Qed.
