(* ===== verification/OrdersFacts.v ===== *)
(** * What each order operation does when it succeeds

    One lemma per operation of [Orders]: the guards that hold and the exact
    change of the database.  The state machine, retention and view files build
    on these and never unfold the operations again. *)

From S2P Require Import Prelude.
From S2P Require Import Exceptions.
From S2P Require Import Models.
From S2P Require Import Session.
From S2P Require Import SessionFacts.
From S2P Require Import Orders.
#[local] Open Scope string_scope.

(** The caller may lock this order ([_lock_order_or_404]). *)
Definition may_lock (caller : User) (o : Order) : Prop :=
  o_deleted_at o = None ∧
  (u_role caller = seller → o_seller_id o = u_id caller) ∧
  (u_role caller = customer → o_customer_id o = u_id caller).

(** A row of a delivery lets this caller act on the order. *)
Definition delivery_actor (o : Order) (dlv : Delivery) (caller : User) : Prop :=
  match d_driver_id dlv with
  | None => u_role caller = seller ∧ u_id caller = o_seller_id o
  | Some drv =>
      (u_role caller = driver → u_id caller = drv) ∧
      (u_role caller = seller → u_id caller = o_seller_id o)
  end.

(** ** Helpers *)

Section helpers.
Context (env : Env).
Implicit Types (s : Session).

Lemma load_order_full_Ok s s' order_id r :
  _load_order_full order_id env s = (Ok r, s') →
  s' = s ∧ lo_order <$> r = orders (working s) !! order_id.
Proof.
  unfold _load_order_full. intros H. inv_run.
  destruct (table (working s) !! order_id) as [o|] eqn:E; inv_run; by split.
Qed.

Lemma reload_Ok s s' order_id r :
  reload order_id env s = (Ok r, s') →
  s' = s ∧ orders (working s) !! order_id = Some (lo_order r).
Proof.
  unfold reload. intros H. apply bind_Ok in H as (lo & s1 & Hl & H).
  apply load_order_full_Ok in Hl as [-> Hl]. inv_run. by split.
Qed.

Lemma lock_order_Ok s s' order_id caller o :
  _lock_order_or_404 order_id caller env s = (Ok o, s') →
  s' = s ∧ orders (working s) !! order_id = Some o ∧ may_lock caller o.
Proof.
  unfold _lock_order_or_404, _load_order_locked, may_lock. intros H. inv_run.
  destruct (table (working s) !! order_id) as [o1|] eqn:E; inv_run.
  split; [done|]. split; [done|].
  repeat match goal with H : ¬ _ ≠ _ |- _ => apply dec_stable in H end.
  split; [done|]. split; intros; apply dec_stable; naive_solver.
Qed.

Lemma get_caller_seller_Ok s s' caller sl :
  _get_caller_seller caller env s = (Ok sl, s') →
  s' = s ∧ se_user_id sl = u_id caller ∧ se_deleted_at sl = None ∧
  ∃ k, sellers (working s) !! k = Some sl.
Proof.
  unfold _get_caller_seller. intros H. apply bind_Ok in H as (o & s1 & Ho & H).
  apply select_one_Ok in Ho as [Ho ->]. destruct o as [sl'|]; [|by inv_run].
  inv_run. apply selected_Some in Ho as ([? ?] & Hk & _). done.
Qed.

Lemma fulfillment_not_chosen_Ok s s' order_id b :
  fulfillment_not_chosen order_id env s = (Ok b, s') →
  s' = s ∧
  (∀ k d, deliveries (working s) !! k = Some d → d_order_id d ≠ order_id) ∧
  (∀ k a, driver_assignments (working s) !! k = Some a →
          a_order_id a = order_id → a_status a ∉ OPEN_ASSIGNMENT).
Proof.
  unfold fulfillment_not_chosen. intros H. inv_run.
  repeat match goal with H : ¬ is_Some ?o |- _ =>
    apply eq_None_not_Some in H; subst end.
  split; [done|]. split.
  - by eapply selected_None.
  - intros k a Hk Ho Hs.
    match goal with H : filter _ (rows (table (R:=DriverAssignment) _)) = _ |- _ =>
      by apply (selected_None _ _ H k a Hk) end.
Qed.

Lemma delivery_actor_Ok s s' o dlv caller b :
  delivery_actor_or_404 o dlv caller env s = (Ok b, s') →
  s' = s ∧ delivery_actor o dlv caller.
Proof.
  unfold delivery_actor_or_404, delivery_actor.
  destruct (d_driver_id dlv); intros H; inv_run;
    (split; [done|]); split; intros; apply dec_stable; naive_solver.
Qed.
End helpers.

(** [inv_run] with the helpers of this component. *)
Ltac inv_orders_step :=
  match goal with
  | H : reload _ _ _ = (Ok _, _) |- _ => apply reload_Ok in H as [? ?]
  | H : _lock_order_or_404 _ _ _ _ = (Ok _, _) |- _ =>
      apply lock_order_Ok in H as (? & ? & ?)
  | H : _get_caller_seller _ _ _ = (Ok _, _) |- _ =>
      apply get_caller_seller_Ok in H as (? & ? & ? & ?)
  | H : fulfillment_not_chosen _ _ _ = (Ok _, _) |- _ =>
      apply fulfillment_not_chosen_Ok in H as (? & ? & ?)
  | H : delivery_actor_or_404 _ _ _ _ _ = (Ok _, _) |- _ =>
      apply delivery_actor_Ok in H as (? & ?)
  | _ => inv_run_step
  end.
(** Provide the locked order as the witness. *)
Ltac exists_order :=
  match goal with
  | H : orders _ !! ?i = Some ?o, H' : may_lock _ ?o |- _ => exists o
  end.
Ltac unneg := repeat match goal with H : ¬ ¬ _ |- _ => apply dec_stable in H end.
Ltac inv_orders := repeat (inv_orders_step; subst); unneg.

(** ** Snapshots *)

(** The snapshot row describes the order as it is in the database [d]. *)
Definition snapshot_of (d : DB) (o : Order) (sn : OrderAnalyticsSnapshot) : Prop :=
  sn_order_id sn = o_id o ∧ sn_seller_id sn = o_seller_id o ∧
  sn_store_id sn = o_store_id o ∧ sn_customer_id sn = o_customer_id o ∧
  sn_subtotal_minor sn = o_subtotal_minor o ∧ sn_total_minor sn = o_total_minor o ∧
  sn_item_count sn =
    foldr (λ i acc, oi_quantity i + acc)%Z 0%Z
      (filter (λ i, oi_order_id i = o_id o) (rows (order_items d))) ∧
  (∀ t, o_delivered_at o = Some t → sn_delivered_at sn = t).

(** The effect of [_write_snapshot]: at most one row per order, never changed. *)
Definition snapshot_written (o : Order) (d d' : DB) : Prop :=
  (∃ k sn, order_analytics_snapshots d !! k = Some sn ∧
     sn_order_id sn = o_id o ∧ d' = d) ∨
  (∃ sn, order_analytics_snapshots d !! sn_id sn = None ∧ snapshot_of d o sn ∧
     (∀ k r, order_analytics_snapshots d !! k = Some r → sn_order_id r ≠ o_id o) ∧
     d' = d <| order_analytics_snapshots ::= <[sn_id sn := sn]> |>).

Lemma insert_snapshot_Ok env s s' sn b :
  insert_snapshot sn env s = (Ok b, s') →
  (∃ k r, order_analytics_snapshots (working s) !! k = Some r ∧
     sn_order_id r = sn_order_id sn ∧ working s' = working s) ∨
  (order_analytics_snapshots (working s) !! sn_id sn = None ∧
   (∀ k r, order_analytics_snapshots (working s) !! k = Some r →
           sn_order_id r ≠ sn_order_id sn) ∧
   working s' = (working s) <| order_analytics_snapshots ::= <[sn_id sn := sn]> |>).
Proof.
  unfold insert_snapshot. destruct (column_error sn); [by intros ?; inv_run|].
  intros H. inv_run. destruct (filter _ _) as [|r l] eqn:E; inv_run.
  - right. split_and!; [done| |done]. by eapply selected_None.
  - left. assert (Hin : r ∈ r :: l) by left. rewrite <- E in Hin.
    apply elem_of_selected in Hin. naive_solver.
Qed.

Lemma write_snapshot_Ok env s s' o b :
  _write_snapshot o env s = (Ok b, s') →
  snapshot_written o (working s) (working s').
Proof.
  unfold _write_snapshot, snapshot_written. intros H. inv_run.
  match goal with H : match o_delivered_at o with _ => _ end _ _ = (Ok ?t, ?s1) |- _ =>
    assert (working s1 = working s ∧
            ∀ t', o_delivered_at o = Some t' → t = t') as [Hs1 Ht]
      by (destruct (o_delivered_at o), (o_completed_at o);
          inv_run; split; naive_solver) end.
  apply insert_snapshot_Ok in H. rewrite Hs1 in H.
  destruct H as [(k & r & Hk & Hr & Hw)|(Hfresh & Hno & Hw)].
  - left. by exists k, r.
  - right. eexists. split_and!; [exact Hfresh| |exact Hno|exact Hw].
    unfold snapshot_of; cbn. split_and!; try done.
Qed.

(** Close the conjunction of guards and effects of an operation. *)
Ltac finish_Ok := split_and!; [..|reflexivity]; first [eassumption|reflexivity|done|by eauto].

(** ** Transitions *)

Section transitions.
Context (env : Env) (s s' : Session) (caller : User) (order_id : uuid)
  (r : LoadedOrder).

Lemma accept_order_Ok :
  accept_order caller order_id env s = (Ok r, s') →
  ∃ o t, orders (working s) !! order_id = Some o ∧ may_lock caller o ∧
    u_role caller = seller ∧ o_status o = pending ∧
    t = clock env (clock_reads s) ∧
    working s' = (working s) <| orders ::=
      <[o_id o := o <| o_status := accepted |> <| o_accepted_at := Some t |>]> |>.
Proof. unfold accept_order. intros H. inv_orders. naive_solver. Qed.

Lemma mark_preparing_Ok :
  mark_preparing caller order_id env s = (Ok r, s') →
  ∃ o t, orders (working s) !! order_id = Some o ∧ may_lock caller o ∧
    u_role caller = seller ∧ o_status o = accepted ∧
    working s' = (working s) <| orders ::=
      <[o_id o := o <| o_status := preparing |> <| o_preparing_at := Some t |>]> |>.
Proof. unfold mark_preparing. intros H. inv_orders. naive_solver. Qed.
Lemma choose_self_delivery_Ok :
  choose_self_delivery caller order_id env s = (Ok r, s') →
  ∃ o sl i, orders (working s) !! order_id = Some o ∧ may_lock caller o ∧
    u_role caller = seller ∧ o_status o ∈ [accepted; preparing] ∧
    se_user_id sl = u_id caller ∧
    (∀ k d, deliveries (working s) !! k = Some d → d_order_id d ≠ o_id o) ∧
    (∀ k a, driver_assignments (working s) !! k = Some a →
            a_order_id a = o_id o → a_status a ∉ OPEN_ASSIGNMENT) ∧
    deliveries (working s) !! i = None ∧
    working s' = (working s) <| deliveries ::=
      <[i := new_delivery i (o_id o) None (se_id sl) dlv_pending None]> |>.
Proof.
  unfold choose_self_delivery. intros H. inv_orders.
  exists_order; eexists _, _. finish_Ok.
Qed.

Lemma request_driver_Ok :
  request_driver caller order_id env s = (Ok r, s') →
  ∃ o a, orders (working s) !! order_id = Some o ∧ may_lock caller o ∧
    u_role caller = seller ∧ o_status o ∈ [accepted; preparing] ∧
    (∀ k d, deliveries (working s) !! k = Some d → d_order_id d ≠ o_id o) ∧
    (∀ k a, driver_assignments (working s) !! k = Some a →
            a_order_id a = o_id o → a_status a ∉ OPEN_ASSIGNMENT) ∧
    a_order_id a = o_id o ∧ a_status a = asg_requested ∧ a_driver_id a = None ∧
    driver_assignments (working s) !! a_id a = None ∧
    working s' = (working s) <| driver_assignments ::= <[a_id a := a]> |>.
Proof.
  unfold request_driver. intros H. inv_orders.
  exists_order; eexists _. finish_Ok.
Qed.

Lemma assign_driver_Ok driver_id :
  assign_driver caller order_id driver_id env s = (Ok r, s') →
  ∃ o u a t, orders (working s) !! order_id = Some o ∧ may_lock caller o ∧
    u_role caller = admin ∧ o_status o ∈ [accepted; preparing] ∧
    is_active_driver driver_id u ∧
    (∃ k, driver_assignments (working s) !! k = Some a) ∧
    a_order_id a = o_id o ∧ a_status a ∈ OPEN_ASSIGNMENT ∧ a_driver_id a = None ∧
    working s' = (working s) <| driver_assignments ::=
      <[a_id a := a <| a_driver_id := Some driver_id |>
                    <| a_status := asg_assigned |>
                    <| a_assigned_by_admin_id := Some (u_id caller) |>
                    <| a_assigned_at := Some t |>]> |>.
Proof.
  unfold assign_driver. intros H. inv_orders.
  match goal with H : is_Some ?o |- _ => destruct H as [u ->] end.
  match goal with H : filter _ (rows (table (R:=User) _)) = _ |- _ =>
    apply selected_Some in H as (Hu & _ & _) end.
  match type of H with context [filter ?P ?l] =>
    destruct (filter P l) as [|a act] eqn:Ea end; inv_orders.
  assert (Hin : a ∈ a :: act) by left. rewrite <- Ea in Hin.
  apply list_elem_of_filter in Hin as [Hopen Hin].
  rewrite order_by_desc_perm in Hin. apply elem_of_selected in Hin as [? ?].
  assert (a_driver_id a = None).
  { apply dec_stable. intros Hd.
    match goal with H : length (filter _ _) = 0 |- _ =>
      by rewrite filter_cons_True in H end. }
  exists_order; eexists u, a, _. finish_Ok.
Qed.

(** The delivery row is either the existing one, restarted, or a new one for
    the driver the admin assigned. *)
Lemma out_for_delivery_Ok :
  Orders.out_for_delivery caller order_id env s = (Ok r, s') →
  ∃ o t dlv t0, orders (working s) !! order_id = Some o ∧ may_lock caller o ∧
    u_role caller ∈ [seller; driver] ∧
    o_status o = preparing ∧ o_out_for_delivery_at o = None ∧
    d_order_id dlv = o_id o ∧ d_status dlv = dlv_in_transit ∧
    d_started_at dlv = Some t0 ∧ delivery_actor o dlv caller ∧
    ((∃ k dlv0, deliveries (working s) !! k = Some dlv0 ∧
        dlv = dlv0 <| d_status := dlv_in_transit |> <| d_started_at := Some t0 |>) ∨
     (deliveries (working s) !! d_id dlv = None ∧ is_Some (d_driver_id dlv) ∧
      (∀ k d, deliveries (working s) !! k = Some d → d_order_id d ≠ o_id o) ∧
      ∃ k a, driver_assignments (working s) !! k = Some a ∧
        a_order_id a = o_id o ∧ a_status a ∈ ASSIGNED_DRIVER ∧
        a_driver_id a = d_driver_id dlv)) ∧
    working s' = (working s) <| deliveries ::= <[d_id dlv := dlv]> |>
      <| orders ::= <[o_id o := o <| o_status := Models.out_for_delivery |>
                                  <| o_out_for_delivery_at := Some t |>]> |>.
Proof.
  unfold Orders.out_for_delivery. intros H. inv_orders.
  match goal with H : ¬ (_ ∨ _) |- _ =>
    apply Decidable.not_or in H as [_ ?] end; unneg.
  match goal with H : filter _ (rows (table (R:=Delivery) _)) = option_list ?o |- _ =>
    destruct o as [dlv|] end.
  - match goal with H : filter _ (rows _) = _ |- _ =>
      apply selected_Some in H as (Hd & [k Hk] & _) end.
    inv_orders. exists_order; eexists _, (dlv <| d_status := _ |> <| d_started_at := _ |>), _.
    split_and!; [..|reflexivity]; [first [eassumption|done]..|].
    left. by eexists _, _.
  - match goal with H : filter _ (rows _) = _ |- _ =>
      pose proof (selected_None _ _ H) as Hnone; clear H end.
    inv_orders.
    match goal with H : filter _ (rows (table (R:=DriverAssignment) _)) = option_list ?o |- _ =>
      destruct o as [asg|]; inv_orders;
      apply selected_Some in H as ((? & ? & Hdrv) & [k Hk] & _) end.
    destruct (a_driver_id asg) as [drv|] eqn:Edrv; [|done].
    exists_order; eexists _, (new_delivery _ _ (Some drv) _ _ _), _.
    split_and!; [..|reflexivity]; [first [eassumption|done]..| |].
    + unfold delivery_actor; cbn. split; intros; apply dec_stable; naive_solver.
    + right. split_and!; [done..|by eauto|done|].
      eexists _, _. split_and!; [done..|by rewrite Edrv].
Qed.

Lemma mark_delivered_Ok :
  mark_delivered caller order_id env s = (Ok r, s') →
  ∃ o t dlv k dlv', orders (working s) !! order_id = Some o ∧ may_lock caller o ∧
    u_role caller ∈ [seller; driver] ∧ o_status o = Models.out_for_delivery ∧
    deliveries (working s) !! k = Some dlv ∧ d_order_id dlv = o_id o ∧
    delivery_actor o dlv caller ∧
    t = clock env (clock_reads s) ∧
    dlv' = (let d1 := dlv <| d_status := dlv_delivered |>
                          <| d_delivered_at := Some t |> in
            match d_started_at dlv, d_duration_seconds dlv with
            | Some started, None =>
                d1 <| d_duration_seconds :=
                        Some (Z.max 0 (total_seconds_int (t - started))) |>
            | _, _ => d1
            end) ∧
    working s' = (working s)
      <| orders ::= <[o_id o := o <| o_status := delivered |>
                                  <| o_delivered_at := Some t |>]> |>
      <| deliveries ::= <[d_id dlv' := dlv']> |>.
Proof.
  unfold mark_delivered. intros H. inv_orders.
  match goal with H : filter _ (rows (table (R:=Delivery) _)) = option_list ?o |- _ =>
    destruct o as [dlv|]; inv_orders;
    apply selected_Some in H as (Hd & [k Hk] & _) end.
  exists_order; eexists _, dlv, k, _. finish_Ok.
Qed.

Lemma complete_order_Ok :
  complete_order caller order_id env s = (Ok r, s') →
  ∃ o t o', orders (working s) !! order_id = Some o ∧ may_lock caller o ∧
    u_role caller = customer ∧ o_status o = delivered ∧
    o' = o <| o_status := completed |> <| o_completed_at := Some t |> ∧
    snapshot_written o' ((working s) <| orders ::= <[o_id o := o']> |>) (working s').
Proof.
  unfold complete_order. intros H. inv_orders.
  match goal with H : _write_snapshot _ _ _ = _ |- _ =>
    apply write_snapshot_Ok in H as Hw; clear H end.
  exists_order; eexists _, _. split_and!; [done..|exact Hw].
Qed.

(** Cancelling also cancels every outstanding driver request of the order. *)
Lemma cancel_order_Ok reason :
  keyed (R:=DriverAssignment) (working s) →
  cancel_order caller order_id reason env s = (Ok r, s') →
  ∃ o t, orders (working s) !! order_id = Some o ∧ may_lock caller o ∧
    (o_status o ∉ TERMINAL_STATUSES) ∧ o_status o ≠ delivered ∧
    (u_role caller = customer → o_status o = pending) ∧
    (u_role caller = seller → o_status o ∈ [pending; accepted; preparing]) ∧
    u_role caller ≠ driver ∧
    working s' = (working s)
      <| orders ::= <[o_id o := o <| o_status := cancelled |>
           <| o_cancelled_at := Some t |> <| o_cancellation_reason := reason |>]> |>
      <| driver_assignments ::= fmap (λ a,
           if decide (a_order_id a = o_id o ∧ a_status a ∈ OPEN_ASSIGNMENT)
           then a <| a_status := asg_cancelled |> else a) |>.
Proof.
  intros Hk. unfold cancel_order. intros H. inv_orders.
  match goal with H : ¬ (_ ∨ _) |- _ =>
    apply Decidable.not_or in H as [? ?] end.
  match goal with Ho : orders _ !! _ = Some ?o |- _ =>
    match goal with H : _ env s = (Ok _, ?s1) |- _ =>
      assert (s1 = s ∧
        (u_role caller = customer → o_status o = pending) ∧
        (u_role caller = seller → o_status o ∈ [pending; accepted; preparing]) ∧
        u_role caller ≠ driver) as (-> & ? & ? & ?)
        by (destruct (u_role caller); inv_orders; done) end end.
  match goal with H : for_each _ _ _ _ = _ |- _ =>
    apply for_each_save_Ok in H as Hw; [clear H|done..] end.
  exists_order; eexists _. split_and!; [done..|exact Hw].
Qed.
End transitions.
