(* ===== verification/Fixtures.v ===== *)
(** * A small concrete world

    The users, the catalogue and the process environment that the witnesses
    evaluate the modelled functions in. *)

From S2P Require Import Prelude.
From S2P Require Import Exceptions.
From S2P Require Import Models.
From S2P Require Import Session.
From S2P Require Import SessionFacts.
From S2P Require Import Orders.
#[local] Open Scope string_scope.

Definition mk_user (id : uuid) (email : string) (role : UserRole)
    (ref : option uuid) : User :=
  mkUser id email "argon2" role email None true None user_active None None None
    ref 0 None.

(** The invariant of ADR-0011 in the fixtures: a seller row has its user's id. *)
Definition root_admin : User := mk_user 1 "root@x" admin None.
Definition bob_seller : User := mk_user 2 "bob@x" seller None.
Definition alice : User := mk_user 3 "alice@x" customer (Some 2%N).
Definition dan_driver : User := mk_user 4 "dan@x" driver None.
Definition eve : User := mk_user 5 "eve@x" customer (Some 2%N).

Definition bob_shop : Seller := mkSeller 2 2 "Bob" None "Lisbon" "PT" 0%Z None.
Definition bob_store : Store := mkStore 10 2 "Bob" "bob" "" true false 0 None.
Definition tea : Product :=
  mkProduct 20 2 10 "Tea" "" 250 (Some 5%Z) true product_active None None 0 None.
Definition cake : Product :=
  mkProduct 21 2 10 "Cake" "" 900 None true product_active None None 0 None.

Definition world : DB :=
  empty_db
    <| users := list_to_map ((λ u, (u_id u, u)) <$>
                  [root_admin; bob_seller; alice; dan_driver; eve]) |>
    <| sellers := {[ 2%N := bob_shop ]} |>
    <| stores := {[ 10%N := bob_store ]} |>
    <| products := list_to_map ((λ p, (p_id p, p)) <$> [tea; cake]) |>
    <| platform_settings := {[ 1%N := mkPlatformSettings 1 30 72 90 "USD" 0 None ]} |>.

(** The n-th request of a scenario: one hour per request, fresh identifiers. *)
Definition env_at (n : nat) : Env := {|
  clock := λ i, (timedelta_hours (Z.of_nat n) + Z.of_nat i)%Z;
  uuids := λ i, (1000 * N.of_nat (S n) + N.of_nat i)%N;
  tokens := λ i, String.String (Ascii.ascii_of_nat (65 + i))
                   (String.String (Ascii.ascii_of_nat (48 + n)) "-token");
  randoms := λ i, (7 + N.of_nat (n + i))%N;
  server_now := timedelta_hours (Z.of_nat n) |}.

Definition after {A} (x : outcome A * DB) : DB := x.2.
Definition succeeds {A} (x : outcome A * DB) : bool :=
  match x.1 with Ok _ => true | Raised _ => false end.
Definition raised {A} (x : outcome A * DB) : option exc :=
  match x.1 with Ok _ => None | Raised e => Some e end.

(** A run that succeeds has a result. *)
Lemma succeeds_run {A} (x : outcome A * DB) :
  succeeds x = true → ∃ a, x = (Ok a, after x).
Proof. destruct x as [[a|e] d]; [by exists a|done]. Qed.

Lemma ignore_after {A} (m : M A) env d :
  after (get_db (ignore m) env d) = after (get_db m env d).
Proof. unfold get_db, ignore, mbind, M_bind, after. by destruct (m env _) as [[]]. Qed.

(** The order 1000 at each stage of its life. *)
Definition basket : list LineItem :=
  [mkLineItem 20 2; mkLineItem 21 1; mkLineItem 20 1].
Definition no_address : Address := ∅.
Definition oid : uuid := 1000%N.
Definition w_placed : DB :=
  after (get_db (create_order alice basket no_address) (env_at 0) world).
Definition w_accepted : DB := after (get_db (accept_order bob_seller oid) (env_at 1) w_placed).
Definition w_preparing : DB :=
  after (get_db (mark_preparing bob_seller oid) (env_at 2) w_accepted).
Definition w_requested : DB :=
  after (get_db (request_driver bob_seller oid) (env_at 3) w_preparing).
Definition w_assigned : DB :=
  after (get_db (assign_driver root_admin oid 4) (env_at 4) w_requested).
Definition w_out : DB :=
  after (get_db (out_for_delivery dan_driver oid) (env_at 5) w_assigned).
Definition w_delivered : DB :=
  after (get_db (mark_delivered dan_driver oid) (env_at 6) w_out).
Definition w_completed : DB :=
  after (get_db (complete_order alice oid) (env_at 7) w_delivered).

Example scenario_runs :
  succeeds (get_db (create_order alice basket no_address) (env_at 0) world) &&
  succeeds (get_db (complete_order alice oid) (env_at 7) w_delivered) &&
  bool_decide (o_status <$> orders w_completed !! oid = Some completed) &&
  bool_decide (o_total_minor <$> orders w_completed !! oid = Some 1650%Z) &&
  bool_decide (p_stock_quantity <$> products w_completed !! 20%N = Some (Some 2%Z))
  = true.
Proof. vm_compute. reflexivity. Qed.

(** Hypotheses about concrete tables are decided by evaluation. *)
Lemma keyed_eval {R} `{Table R} (d : DB) :
  bool_decide (map_Forall (λ k r, pk r = k) (table (R:=R) d)) = true →
  keyed (R:=R) d.
Proof. intros Hb. apply bool_decide_eq_true in Hb. exact Hb. Qed.

Lemma size_one_unique {R} (t : gmap uuid R) k1 k2 r1 r2 :
  size t = 1 → t !! k1 = Some r1 → t !! k2 = Some r2 → k1 = k2.
Proof.
  intros Hs H1%elem_of_dom_2 H2%elem_of_dom_2.
  assert (size (dom t) = 1) as [x Hx]%size_1_elem_of by by rewrite size_dom.
  rewrite Hx in H1, H2. apply elem_of_singleton in H1, H2. congruence.
Qed.
