(* ===== verification/Security.v ===== *)
(** * Settings, passwords and access tokens

    [core/config.py] (the JWT settings and their start-up validation),
    [core/security.py] and [core/password_policy.py].  Argon2 and the
    JOSE library are not part of the program: they are the operations of the
    class [Crypto], and what the program relies on is the record
    [CryptoLaws]. *)

From S2P Require Import Prelude.
From S2P Require Import Sha256.
From S2P Require Import Exceptions.
From S2P Require Import Models.
From S2P Require Import Session.
From S2P Require Import PyString.
From S2P Require Import SessionFacts.
#[local] Open Scope string_scope.

(** ** Settings *)

Inductive Environment := env_dev | env_test | env_prod.
#[export] Instance Environment_eq_dec : EqDecision Environment.
Proof. solve_decision. Defined.

Definition _INSECURE_JWT_DEFAULT : string := "change_me_phase_3".

(** The fields that the code reads, with the defaults of the class; the
    database URLs, the algorithm name and the Sentry fields only configure
    libraries. *)
Record Settings := mkSettings {
  environment : Environment;
  jwt_secret : string;
  jwt_secret_primary : string;
  jwt_secret_secondary : string;
  jwt_access_token_expire_minutes : Z;
  jwt_refresh_token_expire_days : Z;
  cors_origins : string;
  s3_bucket : string;
  s3_region : string;
  aws_access_key_id : string;
  aws_secret_access_key : string;
  s3_cdn_base_url : string;
  s3_upload_max_bytes : Z;
  s3_presign_expires_seconds : Z;
  fcm_server_key : string;
  apns_key_id : string;
  apns_team_id : string;
  apns_bundle_id : string;
  apns_key_pem : string;
  metrics_token : string;
}.
#[export] Instance eta_Settings : EtaRecord Settings := fun s =>
  mkSettings (environment s) (jwt_secret s) (jwt_secret_primary s) (jwt_secret_secondary s)
    (jwt_access_token_expire_minutes s) (jwt_refresh_token_expire_days s) (cors_origins s)
    (s3_bucket s) (s3_region s) (aws_access_key_id s) (aws_secret_access_key s)
    (s3_cdn_base_url s) (s3_upload_max_bytes s) (s3_presign_expires_seconds s)
    (fcm_server_key s) (apns_key_id s) (apns_team_id s) (apns_bundle_id s) (apns_key_pem s)
    (metrics_token s).
Definition default_config : Settings :=
  mkSettings env_dev _INSECURE_JWT_DEFAULT "" "" 15 7 "" "" "us-east-1" "" "" ""
    (10 * 1024 * 1024) 300 "" "" "" "" "" "".

(** [a or b] on strings. *)
Definition str_or (a b : string) : string := if decide (a = "") then b else a.

Definition jwt_signing_key (s : Settings) : string :=
  str_or (jwt_secret_primary s) (jwt_secret s).

Fixpoint add_keys (keys : list string) (candidates : list string) : list string :=
  match candidates with
  | [] => keys
  | c :: cs =>
      if decide (c ≠ "" ∧ c ∉ keys) then add_keys (keys ++ [c])%list cs
      else add_keys keys cs
  end.
Definition jwt_verification_keys (s : Settings) : list string :=
  let keys :=
    add_keys [] [jwt_secret_primary s; jwt_secret s; jwt_secret_secondary s] in
  match keys with [] => [jwt_secret s] | _ => keys end.

(** [_validate_jwt_secret]: [false] is the start-up [RuntimeError]. *)
Definition _validate_jwt_secret (s : Settings) : bool :=
  if decide (jwt_secret s = _INSECURE_JWT_DEFAULT) then
    bool_decide (environment s ∈ [env_dev; env_test])
  else true.

(** ** Password policy *)

Definition _COMMON_PASSWORDS : list string :=
  [
    "password"; "password1"; "password123"; "password1234"; "password12345";
    "passw0rd"; "p@ssw0rd"; "p@ssword1"; "qwerty"; "qwerty123"; "qwerty12345";
    "qwertyuiop"; "1q2w3e4r"; "1q2w3e4r5t"; "1qaz2wsx"; "zaq12wsx"; "123456";
    "12345678"; "123456789"; "1234567890"; "123123123"; "111111"; "1111111111";
    "000000"; "iloveyou"; "iloveyou1"; "iloveyou123"; "princess"; "princess1";
    "sunshine"; "sunshine1"; "abc12345"; "abcd1234"; "abcdefgh"; "asdfghjkl";
    "zxcvbnm"; "zxcvbnm123"; "letmein"; "letmein123"; "trustno1"; "football";
    "football1"; "baseball"; "baseball1"; "welcome1"; "welcome123"; "admin12345";
    "administrator"; "master1234"; "master12345"; "superman1"; "superman123";
    "batman1234"; "dragon1234"; "starwars1"; "pokemon12345"; "mustang1234";
    "computer1"; "computer123"; "whatever1"; "whatever123"; "changeme1";
    "changeme123"; "changeme12345"; "samantha1"; "jennifer1"; "michelle1";
    "jessica123"; "nicole1234"; "matthew123"; "michael1234"; "jordan1234";
    "hunter1234"; "shadow1234"; "thomas1234"; "football123"; "qwerty1234";
    "passpass123"; "liverpool1"; "arsenal1234"; "chelsea1234"; "manchester1";
    "marlboro123"; "ferrari1234"; "monkey1234"; "cheese1234"; "freedom123";
    "secret123"; "secret12345"; "iloveyou12345"; "trustme1234"; "welcome1234";
    "qazwsxedc"; "qazwsxedcrfv"; "changeit1234"; "temp1234test"; "hello1234world"
  ].

Definition is_common_password (password : string) : bool :=
  bool_decide (str_lower (strip password) ∈ _COMMON_PASSWORDS).

(** ** The cryptographic libraries *)

(** The claims of an access token as the code writes them. *)
Record Claims := mkClaims {
  cl_sub : uuid;
  cl_role : string;
  cl_jti : string;
  cl_exp : datetime;
  cl_iat : datetime;
}.

(** A decoded JSON payload: any claim may be missing or of a wrong type. *)
Record RawClaims := mkRawClaims {
  raw_sub : option uuid;
  raw_role : option string;
  raw_jti : option string;
  raw_exp : option Z;
  raw_iat : option Z;
}.

Inductive jwt_result :=
| JwtOk (c : RawClaims)
| JwtExpired
| JwtError.

Class Crypto := {
  (** [PasswordHasher.hash] with its random salt, [.verify] (an exception is
      [false]) and [.check_needs_rehash] *)
  ph_hash : string → string → string;
  ph_verify : string → string → bool;
  ph_needs_rehash : string → bool;
  (** [jose.jwt]: encode with a key, decode with a key at a time *)
  jwt_encode : Claims → string → string;
  jwt_decode : string → string → datetime → jwt_result;
}.

(** Whole seconds, as JWT carries timestamps. *)
Definition timestamp (t : datetime) : Z := (t / 1000000)%Z.
Definition fromtimestamp (n : Z) : datetime := timedelta_seconds n.

Class CryptoLaws `{Crypto} := {
  ph_verify_hash : ∀ salt p q, ph_verify (ph_hash salt p) q = bool_decide (p = q);
  jwt_decode_encode : ∀ c k t,
    jwt_decode (jwt_encode c k) k t =
      if decide (timestamp (cl_exp c) < timestamp t)%Z then JwtExpired
      else JwtOk (mkRawClaims (Some (cl_sub c)) (Some (cl_role c)) (Some (cl_jti c))
                    (Some (timestamp (cl_exp c))) (Some (timestamp (cl_iat c))));
  jwt_decode_other : ∀ c k k' t, k ≠ k' → jwt_decode (jwt_encode c k) k' t = JwtError;
}.

(** ** [core/security.py] *)

Section security.
Context `{Crypto} (settings : Settings).

Definition hash_password (password : string) : M string :=
  salt ← token_urlsafe;
  mret (ph_hash salt password).
Definition verify_password (password password_hash : string) : bool :=
  ph_verify password_hash password.
Definition needs_rehash (password_hash : string) : bool :=
  ph_needs_rehash password_hash.

Definition hash_refresh_token (plaintext : string) : string :=
  sha256_hex plaintext.
Definition generate_refresh_token : M (string * string) :=
  plaintext ← token_urlsafe;
  mret (plaintext, hash_refresh_token plaintext).

Definition create_access_token (user_id : uuid) (role : UserRole) :
    M (string * datetime) :=
  _now ← now;
  let exp := (_now + timedelta_minutes (jwt_access_token_expire_minutes settings))%Z in
  jti ← token_urlsafe;
  mret (jwt_encode (mkClaims user_id (user_role_str role) jti exp _now)
          (jwt_signing_key settings), exp).

Record AccessTokenPayload := mkPayload {
  at_sub : uuid;
  at_role : string;
  at_jti : string;
  at_exp : datetime;
  at_iat : datetime;
}.

(** The loop over the verification keys: [None] when every key fails. *)
Fixpoint decode_with (keys : list string) (token : string) : M (option RawClaims) :=
  match keys with
  | [] => mret None
  | key :: keys' =>
      t ← now;
      match jwt_decode token key t with
      | JwtOk payload => mret (Some payload)
      | JwtExpired => raise TokenExpired
      | JwtError => decode_with keys' token
      end
  end.

Definition decode_access_token (token : string) : M AccessTokenPayload :=
  payload ← decode_with (jwt_verification_keys settings) token;
  match payload with
  | None => raise InvalidTokenError
  | Some c =>
      match raw_sub c, raw_role c, raw_jti c, raw_exp c, raw_iat c with
      | Some sub, Some role, Some jti, Some exp, Some iat =>
          mret (mkPayload sub role jti (fromtimestamp exp) (fromtimestamp iat))
      | _, _, _, _, _ => raise InvalidTokenError
      end
  end.

(** ** [api/deps.py]: the caller of a request *)

Definition get_current_user (credentials : option string) : M User :=
  match credentials with
  | None => raise (AppExc AuthenticationError (Some "AUTH_TOKEN_INVALID") None)
  | Some token =>
      payload ← decode_access_token token;
      user ← select_one (λ u, u_id u = at_sub payload ∧ u_deleted_at u = None);
      match user with
      | None => raise (AppExc AuthenticationError (Some "AUTH_TOKEN_INVALID") None)
      | Some user =>
          raise_if (u_is_active user = false ∨ u_disabled_at user ≠ None)
            (AppExc AuthenticationError (Some "AUTH_TOKEN_INVALID") None);;
          raise_if (u_status user = user_suspended)
            (AppExc AuthenticationError (Some "AUTH_ACCOUNT_SUSPENDED") None);;
          mret user
      end
  end.

Definition require_roles (roles : list UserRole) (credentials : option string) :
    M User :=
  user ← get_current_user credentials;
  raise_if (u_role user ∉ roles) AuthorizationError;;
  mret user.
Definition get_current_admin : option string → M User := require_roles [admin].
Definition get_current_seller_or_admin : option string → M User :=
  require_roles [seller; admin].
End security.
