(* ===== verification/CryptoModel.v ===== *)
(** * A concrete instance of the cryptographic libraries

    A transparent stand-in for Argon2 and JOSE that satisfies
    [CryptoLaws]; the witnesses evaluate the modelled functions in it.  A token
    spells the pair of its claims and its key in binary. *)

From Stdlib Require Import Ascii.
From S2P Require Import Prelude.
From S2P Require Import Exceptions.
From S2P Require Import Models.
From S2P Require Import Session.
From S2P Require Import Security.
#[local] Open Scope string_scope.

Fixpoint pos_to_bits (p : positive) : string :=
  match p with
  | xH => ""
  | xO p' => String.String "0"%char (pos_to_bits p')
  | xI p' => String.String "1"%char (pos_to_bits p')
  end.
Fixpoint bits_to_pos (s : string) : positive :=
  match s with
  | EmptyString => xH
  | String.String c s' =>
      if decide (c = "1"%char) then xI (bits_to_pos s') else xO (bits_to_pos s')
  end.
Lemma bits_round_trip p : bits_to_pos (pos_to_bits p) = p.
Proof. induction p as [p IH|p IH|]; cbn; by rewrite ?IH. Qed.

Definition claims_tuple (c : Claims) : N * string * string * Z * Z :=
  (cl_sub c, cl_role c, cl_jti c, cl_exp c, cl_iat c).
Definition tuple_claims (t : N * string * string * Z * Z) : Claims :=
  match t with (s, r, j, e, i) => mkClaims s r j e i end.

Definition toy_encode (c : Claims) (key : string) : string :=
  pos_to_bits (encode (claims_tuple c, key)).
Definition toy_decode (token key : string) (t : datetime) : jwt_result :=
  match decode (A:=(N * string * string * Z * Z) * string) (bits_to_pos token) with
  | Some (ct, key') =>
      let c := tuple_claims ct in
      if decide (key = key') then
        if decide (timestamp (cl_exp c) < timestamp t)%Z then JwtExpired
        else JwtOk (mkRawClaims (Some (cl_sub c)) (Some (cl_role c)) (Some (cl_jti c))
                      (Some (timestamp (cl_exp c))) (Some (timestamp (cl_iat c))))
      else JwtError
  | None => JwtError
  end.

#[export] Instance toy_crypto : Crypto := {|
  ph_hash salt p := p;
  ph_verify h p := bool_decide (h = p);
  ph_needs_rehash _ := false;
  jwt_encode := toy_encode;
  jwt_decode := toy_decode |}.

#[export] Instance toy_crypto_laws : CryptoLaws.
Proof.
  split; cbn; [done|..]; intros; unfold toy_decode, toy_encode;
    rewrite bits_round_trip, decode_encode; destruct c; cbn.
  - by rewrite decide_True.
  - rewrite decide_False; [done|congruence].
Qed.

(** The account a token names, under whatever key. *)
Definition toy_subject (token : string) : option uuid :=
  x ← decode (A:=(N * string * string * Z * Z) * string) (bits_to_pos token);
  Some (cl_sub (tuple_claims x.1)).
Lemma toy_decode_subject token key t c :
  toy_decode token key t = JwtOk c → raw_sub c = toy_subject token.
Proof.
  unfold toy_decode, toy_subject. destruct (decode _) as [[ct key']|]; [|done].
  repeat case_decide; intros [= <-]; done.
Qed.
