(* ===== verification/Invites.v ===== *)
(** * Invite links

    [services/invite_service.py]: creating, listing, revoking, validating and
    consuming invite links. *)

From S2P Require Import Prelude.
From S2P Require Import Exceptions.
From S2P Require Import Models.
From S2P Require Import Session.
From S2P Require Import SessionFacts.
#[local] Open Scope string_scope.

(** ** Helpers *)

Definition VALID_ROLES : list string := ["admin"; "seller"; "customer"; "driver"].
Definition SELLER_REFERRAL_ROLES : list string := ["customer"; "seller"].

(** The enum column parses the role string. *)
Definition role_of_str (s : string) : option UserRole :=
  if decide (s = "admin") then Some admin
  else if decide (s = "seller") then Some seller
  else if decide (s = "customer") then Some customer
  else if decide (s = "driver") then Some driver
  else None.

Definition _token : M string := token_urlsafe.

Definition _is_expired (invite : InviteLink) : M bool :=
  match i_expires_at invite with
  | None => mret false
  | Some expires_at =>
      t ← now;
      mret (bool_decide (expires_at < t)%Z)
  end.

Definition _is_used (invite : InviteLink) : bool :=
  match i_max_uses invite with
  | None => false
  | Some max_uses => bool_decide (max_uses ≤ i_used_count invite)%Z
  end.

Record InviteResponse := mkInviteResponse {
  ir_id : uuid;
  ir_type : InviteLinkType;
  ir_token : option string;
  ir_role_target : option UserRole;
  ir_max_uses : option Z;
  ir_used_count : Z;
  ir_expires_at : option datetime;
  ir_revoked_at : option datetime;
  ir_created_at : datetime;
  ir_invite_url : option string;
}.

(** [frontend_base_url and token_plaintext]: neither [None] nor empty. *)
Definition _build_invite_response (invite : InviteLink)
    (token_plaintext frontend_base_url : option string) : InviteResponse :=
  let invite_url :=
    match frontend_base_url, token_plaintext with
    | Some b, Some t =>
        if decide (b ≠ "" ∧ t ≠ "") then Some (b +:+ "/invite?token=" +:+ t) else None
    | _, _ => None
    end in
  mkInviteResponse (i_id invite) (i_type invite) token_plaintext
    (i_role_target invite) (i_max_uses invite) (i_used_count invite)
    (i_expires_at invite) (i_revoked_at invite) (i_created_at invite) invite_url.

(** ** Creating *)

Definition create_admin_invite (issuer : User) (role_target : string)
    (expires_in_hours : Z) : M (InviteLink * string) :=
  raise_if (u_role issuer ≠ admin) AuthorizationError;;
  raise_if (role_target ∉ VALID_ROLES) InviteInvalid;;
  plaintext ← _token;
  t ← now;
  let expires_at := (t + timedelta_hours expires_in_hours)%Z in
  invite_id ← uuid4;
  created_at ← read_env server_now;
  let invite :=
    {| i_id := invite_id; i_issuer_id := u_id issuer; i_type := admin_invite;
       i_token := plaintext; i_role_target := role_of_str role_target;
       i_max_uses := Some 1%Z; i_used_count := 0; i_expires_at := Some expires_at;
       i_revoked_at := None; i_created_at := created_at |} in
  insert_row invite;;
  commit;;
  mret (invite, plaintext).

Definition new_referral (invite_id issuer_id : uuid) (token : string)
    (created_at : datetime) : InviteLink :=
  {| i_id := invite_id; i_issuer_id := issuer_id; i_type := seller_referral;
     i_token := token; i_role_target := None; i_max_uses := None;
     i_used_count := 0; i_expires_at := None; i_revoked_at := None;
     i_created_at := created_at |}.

(** An unrevoked referral of this issuer. *)
Definition active_referral (issuer_id : uuid) (i : InviteLink) : Prop :=
  i_issuer_id i = issuer_id ∧ i_type i = seller_referral ∧ i_revoked_at i = None.
#[export] Instance active_referral_dec issuer i : Decision (active_referral issuer i).
Proof. unfold active_referral. apply _. Defined.

Definition get_or_create_seller_referral (seller_user : User) :
    M (InviteLink * option string) :=
  raise_if (u_role seller_user ∉ [seller; admin]) AuthorizationError;;
  profile ← select_one (λ r, se_user_id r = u_id seller_user ∧ se_deleted_at r = None);
  raise_if (profile = None) AuthorizationError;;
  existing ← select_one (active_referral (u_id seller_user));
  match existing with
  | Some existing => mret (existing, Some (i_token existing))
  | None =>
      plaintext ← _token;
      invite_id ← uuid4;
      created_at ← read_env server_now;
      let invite := new_referral invite_id (u_id seller_user) plaintext created_at in
      insert_row invite;;
      commit;;
      mret (invite, Some plaintext)
  end.

Definition regenerate_seller_referral (seller_user : User) : M (InviteLink * string) :=
  raise_if (u_role seller_user ∉ [seller; admin]) AuthorizationError;;
  profile ← select_one (λ r, se_user_id r = u_id seller_user ∧ se_deleted_at r = None);
  raise_if (profile = None) AuthorizationError;;
  t ← now;
  update_where (active_referral (u_id seller_user))
    (λ i, i <| i_revoked_at := Some t |>);;
  plaintext ← _token;
  invite_id ← uuid4;
  created_at ← read_env server_now;
  let invite := new_referral invite_id (u_id seller_user) plaintext created_at in
  insert_row invite;;
  commit;;
  mret (invite, plaintext).

(** ** Listing and revoking *)

Definition list_own_invites (user : User) : M (list InviteLink) :=
  match u_role user with
  | admin =>
      found ← select (λ i, i_issuer_id i = u_id user ∧ i_type i = admin_invite);
      mret (order_by_desc i_created_at found)
  | seller =>
      found ← select (λ i, i_issuer_id i = u_id user ∧ i_type i = seller_referral);
      mret (order_by_desc i_created_at found)
  | _ => mret []
  end.

Definition revoke_invite (user : User) (invite_id : uuid) : M unit :=
  found ← get_row invite_id;
  match found with
  | None => raise NotFoundError
  | Some invite =>
      raise_if (_is_used invite = true) InviteAlreadyUsed;;
      match u_role user with
      | admin => mret tt
      | seller =>
          raise_if (i_issuer_id invite ≠ u_id user ∨ i_type invite ≠ seller_referral)
            AuthorizationError
      | _ => raise AuthorizationError
      end;;
      t ← now;
      save (invite <| i_revoked_at := Some t |>);;
      commit
  end.

(** ** Validating and consuming *)

Record ValidateInviteResponse := mkValidate {
  vi_type : string;
  vi_role_target : option UserRole;
  vi_issuer_display_name : string;
  vi_issuer_role : string;
  vi_valid : bool;
  vi_already_used : bool;
  vi_expired : bool;
  vi_revoked : bool;
}.

Definition validate_invite (token : string) : M ValidateInviteResponse :=
  found ← select_one (λ i, i_token i = token);
  match found with
  | None => mret (mkValidate "unknown" None "" "" false false false false)
  | Some invite =>
      issuer ← get_row (R:=User) (i_issuer_id invite);
      let issuer_name := from_option u_display_name "" issuer in
      let issuer_role := from_option (λ u, user_role_str (u_role u)) "" issuer in
      expired ← _is_expired invite;
      let revoked := bool_decide (i_revoked_at invite ≠ None) in
      let already_used := _is_used invite in
      let valid := negb expired && negb revoked && negb already_used in
      mret (mkValidate (invite_link_type_str (i_type invite)) (i_role_target invite)
              issuer_name issuer_role valid already_used expired revoked)
  end.

(** The checks on the requested role, per type of invite. *)
Definition check_invite_role (invite : InviteLink) (chosen_role : option string) :
    M unit :=
  match i_type invite with
  | admin_invite =>
      raise_if (chosen_role ≠ None ∧
                chosen_role ≠ user_role_str <$> i_role_target invite)
        InviteRoleMismatch;;
      raise_if (i_role_target invite = None) InviteInvalid
  | seller_referral =>
      raise_if (default "" chosen_role ∉ SELLER_REFERRAL_ROLES) InviteRoleMismatch;;
      issuer ← get_row (R:=User) (i_issuer_id invite);
      raise_if (u_role <$> issuer ≠ Some seller) InviteInvalid;;
      profile ← select_one (λ r, se_user_id r = i_issuer_id invite ∧ se_deleted_at r = None);
      raise_if (profile = None) InviteInvalid
  end.

(** The whole of [consume_invite], given the locking read of the invite. *)
Definition consume_invite_on (lock_invite : string → M (option InviteLink))
    (token : string) (chosen_role : option string) : M InviteLink :=
  found ← lock_invite token;
  match found with
  | None => raise InviteInvalid
  | Some invite =>
      raise_if (i_revoked_at invite ≠ None) InviteRevoked;;
      expired ← _is_expired invite;
      raise_if (expired = true) InviteExpired;;
      raise_if (_is_used invite = true) InviteAlreadyUsed;;
      check_invite_role invite chosen_role;;
      let invite := invite <| i_used_count := (i_used_count invite + 1)%Z |> in
      save invite;;
      mret invite
  end.
Definition consume_invite : string → option string → M InviteLink :=
  consume_invite_on (λ token, select_one (λ i, i_token i = token)).
