(* ===== verification/InviteFacts.v ===== *)
(** * What the invite operations do when they succeed *)

From S2P Require Import Prelude.
From S2P Require Import Exceptions.
From S2P Require Import Models.
From S2P Require Import Session.
From S2P Require Import SessionFacts.
From S2P Require Import Invites.
#[local] Open Scope Z_scope.

(** ** Conditions *)

Definition unexpired (t : datetime) (i : InviteLink) : Prop :=
  match i_expires_at i with Some e => t ≤ e | None => True end.

(** The invite may still be used for one more sign-up. *)
Definition has_room (i : InviteLink) : Prop :=
  match i_max_uses i with Some m => i_used_count i < m | None => True end.

(** The role the invite grants for this choice, in the database [d]. *)
Definition role_granted (d : DB) (i : InviteLink) (choice : option string)
    (role : UserRole) : Prop :=
  match i_type i with
  | admin_invite =>
      i_role_target i = Some role ∧ (choice = None ∨ choice = Some (user_role_str role))
  | seller_referral =>
      (role = customer ∨ role = seller) ∧ choice = Some (user_role_str role) ∧
      (∃ u, users d !! i_issuer_id i = Some u ∧ u_role u = seller) ∧
      (∃ k r, sellers d !! k = Some r ∧ se_user_id r = i_issuer_id i ∧
         se_deleted_at r = None)
  end.

Definition used_once (i : InviteLink) : InviteLink :=
  i <| i_used_count := i_used_count i + 1 |>.

(** ** Lemmas *)

Lemma is_used_false i : _is_used i = false ↔ has_room i.
Proof.
  unfold _is_used, has_room. destruct (i_max_uses i); [|done].
  rewrite bool_decide_eq_false. lia.
Qed.

Lemma is_expired_Ok env s s' i b :
  _is_expired i env s = (Ok b, s') →
  working s' = working s ∧ (b = false ↔ unexpired (clock env (clock_reads s)) i).
Proof.
  unfold _is_expired, unexpired. intros H. destruct (i_expires_at i); inv_run; [|done].
  split; [done|]. rewrite bool_decide_eq_false. lia.
Qed.

Lemma check_role_Ok env s s' i choice b :
  check_invite_role i choice env s = (Ok b, s') →
  s' = s ∧ ∃ role, role_granted (working s) i choice role.
Proof.
  unfold check_invite_role, role_granted. destruct (i_type i); intros H.
  - inv_run. split; [done|]. destruct (i_role_target i) as [r|]; [|done].
    exists r. split; [done|]. destruct choice; [|by left]. right.
    match goal with H : ¬ (_ ∧ _) |- _ => apply dec_stable; naive_solver end.
  - inv_run. split; [done|].
    match goal with H : ¬ (_ ∉ _) |- _ => apply dec_stable in H as Hc end.
    match goal with H : ¬ u_role <$> _ ≠ _ |- _ =>
      apply dec_stable, fmap_Some in H as (u & Hu & Hr) end.
    match goal with H : filter _ _ = option_list ?o |- _ =>
      destruct o as [r|]; [|done]; apply selected_Some in H as ([? ?] & [k Hk] & _) end.
    assert (∃ role, (role = customer ∨ role = seller) ∧
      choice = Some (user_role_str role)) as (role & Hrole & Hch).
    { destruct choice as [c|]; cbn in Hc; [|by apply (bool_decide_pack _) in Hc].
      unfold SELLER_REFERRAL_ROLES in Hc.
      apply elem_of_cons in Hc as [->|Hc%list_elem_of_singleton];
        [by exists customer; eauto|subst; by exists seller; eauto]. }
    exists role. split_and!; [done..|by exists u|by exists k, r].
Qed.

Lemma consume_Ok env s s' token choice i' :
  consume_invite token choice env s = (Ok i', s') →
  ∃ i k role, invite_links (working s) !! k = Some i ∧ i_token i = token ∧
    i_revoked_at i = None ∧ unexpired (clock env (clock_reads s)) i ∧ has_room i ∧
    role_granted (working s) i choice role ∧ i' = used_once i ∧
    ¬ has_conflict i' (invite_links (working s)) ∧
    working s' = (working s) <| invite_links ::= <[i_id i' := i']> |>.
Proof.
  unfold consume_invite, consume_invite_on. intros H. apply bind_Ok in H as (o & s1 & Ho & H).
  apply select_one_Ok in Ho as [Ho ->]. destruct o as [i|]; [|by inv_run].
  apply selected_Some in Ho as (Htok & [k Hk] & _).
  apply bind_Ok in H as (? & s1 & Hr & H). inv_run.
  match goal with H : _is_expired _ _ _ = _ |- _ =>
    apply is_expired_Ok in H as [Hw Hexp] end.
  match goal with H : check_invite_role _ _ _ _ = _ |- _ =>
    apply check_role_Ok in H as [-> [role Hrole]] end.
  match goal with H : ¬ _is_used _ = true |- _ =>
    apply not_true_is_false, is_used_false in H as Hroom end.
  match goal with H : ¬ ?x = true |- _ => apply not_true_is_false, Hexp in H end.
  rewrite Hw in Hrole. exists i, k, role. cbn in *. rewrite Hw in *.
  split_and!; try done. by apply dec_stable.
Qed.
