(* ===== verification/Auth.v ===== *)
(** * Sign-up, login and sessions

    [services/auth_service.py]: accounts are created by consuming an invite,
    logins issue an access token and a refresh token, refresh tokens are
    rotated with reuse detection. *)

From S2P Require Import Prelude.
From S2P Require Import Exceptions.
From S2P Require Import Models.
From S2P Require Import Session.
From S2P Require Import SessionFacts.
From S2P Require Import Security.
From S2P Require Import Invites.
#[local] Open Scope string_scope.

Record SignupRequest := mkSignup {
  sr_email : string;
  sr_password : string;
  sr_display_name : string;
  sr_phone : option string;
  sr_invite_token : string;
  sr_role_choice : option string;
}.

Record LoginResponse := mkLoginResponse {
  lr_user_id : uuid;
  lr_email : string;
  lr_role : UserRole;
  lr_display_name : string;
  lr_access_token : string;
  lr_refresh_token : string;
  lr_expires_in : Z;
}.

Record RefreshResponse := mkRefreshResponse {
  rr_access_token : string;
  rr_refresh_token : string;
  rr_expires_in : Z;
}.

Section auth.
Context `{Crypto} (settings : Settings).

(** ** Helpers *)

Definition _create_refresh_token_row (user : User) (device_label : option string) :
    M (string * RefreshToken) :=
  generated ← generate_refresh_token;
  let '(plaintext, token_hash) := generated in
  t ← now;
  let expires_at := (t + timedelta_days (jwt_refresh_token_expire_days settings))%Z in
  row_id ← uuid4;
  issued_at ← now;
  let row := mkRefreshToken row_id (u_id user) token_hash device_label issued_at
               None expires_at None in
  insert_row row;;
  mret (plaintext, row).

Definition _build_login_response (user : User)
    (access_token refresh_plaintext : string) (exp : datetime) : M LoginResponse :=
  t ← now;
  let expires_in := Z.max 0 (total_seconds_int (exp - t)) in
  mret (mkLoginResponse (u_id user) (u_email user) (u_role user) (u_display_name user)
          access_token refresh_plaintext expires_in).

(** ** Sign-up *)

Definition signup_on (lock_invite : string → M (option InviteLink)) (req : SignupRequest) :
    M LoginResponse :=
  raise_if (is_common_password (sr_password req) = true) PasswordTooCommon;;
  let role_choice := sr_role_choice req in
  invite_link ← consume_invite_on lock_invite (sr_invite_token req) role_choice;
  let role :=
    match i_type invite_link with
    | admin_invite => i_role_target invite_link
    | seller_referral => role_choice ≫= role_of_str
    end in
  existing ← select_one (λ u, citext_eq (u_email u) (sr_email req) ∧ u_deleted_at u = None);
  raise_if (is_Some existing) EmailTaken;;
  user_id ← uuid4;
  pw_hash ← hash_password (sr_password req);
  let referring_seller_id :=
    match i_type invite_link with
    | seller_referral => Some (i_issuer_id invite_link)
    | admin_invite => None
    end in
  created_at ← read_env server_now;
  match role with
  | None => raise IntegrityError  (* role is NOT NULL *)
  | Some role =>
      let user := mkUser user_id (sr_email req) pw_hash role (sr_display_name req)
        (sr_phone req) true None user_active None None None referring_seller_id
        created_at None in
      insert_row user;;
      referral_id ← uuid4;
      insert_row (mkReferral referral_id (i_issuer_id invite_link) (u_id user)
                    (i_id invite_link) created_at);;
      access ← create_access_token settings (u_id user) role;
      refresh_row ← _create_refresh_token_row user None;
      commit;;
      _build_login_response user access.1 refresh_row.1 access.2
  end.
Definition signup : SignupRequest → M LoginResponse :=
  signup_on (λ token, select_one (λ i, i_token i = token)).

(** ** Login *)

Definition login (email password : string) (device_label : option string) :
    M LoginResponse :=
  found ← select_one (λ u, citext_eq (u_email u) email ∧ u_deleted_at u = None);
  match found with
  | None => raise InvalidCredentials
  | Some user =>
      raise_if (verify_password password (u_password_hash user) = false)
        InvalidCredentials;;
      raise_if (u_is_active user = false) InvalidCredentials;;
      raise_if (u_status user = user_suspended) AccountSuspended;;
      (if needs_rehash (u_password_hash user) then
         new_hash ← hash_password password;
         save (user <| u_password_hash := new_hash |>)
       else mret tt);;
      access ← create_access_token settings (u_id user) (u_role user);
      refresh_row ← _create_refresh_token_row user device_label;
      commit;;
      _build_login_response user access.1 refresh_row.1 access.2
  end.

(** ** Rotation *)

(** [UPDATE refresh_tokens ... WHERE user_id = ... AND revoked_at IS NULL]. *)
Definition revoke_all (user_id : uuid) : M unit :=
  t ← now;
  update_where (λ r, rt_user_id r = user_id ∧ rt_revoked_at r = None)
    (λ r, r <| rt_revoked_at := Some t |>).

Definition refresh (plaintext_refresh : string) : M RefreshResponse :=
  let token_hash := hash_refresh_token plaintext_refresh in
  found ← select_one (λ r, rt_token_hash r = token_hash);
  match found with
  | None => raise InvalidTokenError
  | Some row =>
      match rt_revoked_at row with
      | Some _ =>
          revoke_all (rt_user_id row);;
          commit;;
          raise TokenReused
      | None =>
          _now ← now;
          raise_if (rt_expires_at row < _now)%Z TokenExpired;;
          user ← select_one (λ u, u_id u = rt_user_id row ∧ u_deleted_at u = None);
          match user with
          | None => raise AuthenticationError
          | Some user =>
              raise_if (u_is_active user = false ∨ u_disabled_at user ≠ None)
                AuthenticationError;;
              save (row <| rt_revoked_at := Some _now |>
                      <| rt_last_used_at := Some _now |>);;
              access ← create_access_token settings (u_id user) (u_role user);
              generated ← generate_refresh_token;
              let '(new_plaintext, new_hash) := generated in
              new_id ← uuid4;
              insert_row (mkRefreshToken new_id (u_id user) new_hash
                            (rt_device_label row) _now None
                            (_now + timedelta_days 7)%Z None);;
              commit;;
              mret (mkRefreshResponse access.1 new_plaintext
                      (Z.max 0 (total_seconds_int (access.2 - _now))))
          end
      end
  end.

(** ** Logout *)

Definition logout (plaintext_refresh : string) : M unit :=
  let token_hash := hash_refresh_token plaintext_refresh in
  found ← select_one (λ r, rt_token_hash r = token_hash);
  match found with
  | Some row =>
      match rt_revoked_at row with
      | None =>
          t ← now;
          save (row <| rt_revoked_at := Some t |>);;
          commit
      | Some _ => mret tt
      end
  | None => mret tt
  end.

Definition logout_all (user : User) : M unit :=
  revoke_all (u_id user);;
  commit.

(** ** Profile *)

Definition get_me (user : User) : M User :=
  found ← get_row (u_id user);
  scalar_one found.

Definition update_me (user : User) (display_name phone avatar_url : option string) :
    M User :=
  found ← get_row (u_id user);
  fresh ← scalar_one found;
  let fresh := fresh
    <| u_display_name := default (u_display_name fresh) display_name |>
    <| u_phone := match phone with Some p => Some p | None => u_phone fresh end |>
    <| u_avatar_url :=
         match avatar_url with Some a => Some a | None => u_avatar_url fresh end |> in
  save fresh;;
  commit;;
  mret fresh.

Definition change_password (user : User) (current_password new_password : string) :
    M unit :=
  found ← get_row (u_id user);
  fresh ← scalar_one found;
  raise_if (verify_password current_password (u_password_hash fresh) = false)
    ValueError;;
  new_hash ← hash_password new_password;
  save (fresh <| u_password_hash := new_hash |>);;
  commit.

(** ** Notification preferences *)

(** The column defaults of [models/user_notification_prefs.py]. *)
Definition default_prefs (user_id : uuid) : UserNotificationPrefs :=
  mkPrefs user_id true true true true false.

Definition get_or_create_notification_prefs (user : User) : M UserNotificationPrefs :=
  found ← get_row (u_id user);
  match found with
  | Some prefs => mret prefs
  | None =>
      let prefs := default_prefs (u_id user) in
      insert_row prefs;;
      commit;;
      mret prefs
  end.

Definition update_notification_prefs (user : User)
    (push_enabled email_enabled order_updates messages marketing : option bool) :
    M UserNotificationPrefs :=
  found ← get_row (u_id user);
  prefs ← match found with
          | Some prefs => mret prefs
          | None =>
              let prefs := default_prefs (u_id user) in
              insert_row prefs;;
              mret prefs
          end;
  let prefs := prefs
    <| np_push_enabled := default (np_push_enabled prefs) push_enabled |>
    <| np_email_enabled := default (np_email_enabled prefs) email_enabled |>
    <| np_order_updates := default (np_order_updates prefs) order_updates |>
    <| np_messages := default (np_messages prefs) messages |>
    <| np_marketing := default (np_marketing prefs) marketing |> in
  save prefs;;
  commit;;
  mret prefs.
End auth.
