(* ===== verification/AuthFacts.v ===== *)
(** * What the account operations do *)

From S2P Require Import Prelude.
From S2P Require Import Exceptions.
From S2P Require Import Models.
From S2P Require Import Session.
From S2P Require Import SessionFacts.
From S2P Require Import Security.
From S2P Require Import Invites.
From S2P Require Import InviteFacts.
From S2P Require Import Auth.
#[local] Open Scope Z_scope.

Lemma role_of_user_role r : role_of_str (user_role_str r) = Some r.
Proof. by destruct r. Qed.

(** The account a sign-up creates. *)
Definition account_of (req : SignupRequest) (i : InviteLink) (role : UserRole)
    (u : User) : Prop :=
  u_email u = sr_email req ∧ u_role u = role ∧ u_display_name u = sr_display_name req ∧
  u_phone u = sr_phone req ∧ u_is_active u = true ∧ u_status u = user_active ∧
  u_disabled_at u = None ∧ u_deleted_at u = None ∧
  u_referring_seller_id u =
    match i_type i with seller_referral => Some (i_issuer_id i) | admin_invite => None end.

(** A refresh token that may be exchanged at time [t]. *)
Definition live_token (t : datetime) (row : RefreshToken) : Prop :=
  rt_revoked_at row = None ∧ t ≤ rt_expires_at row.

Section auth_facts.
Context `{Crypto} (settings : Settings) (env : Env).
Implicit Types (s : Session).

Lemma hash_password_Ok s s' p h :
  hash_password p env s = (Ok h, s') →
  h = ph_hash (tokens env (token_draws s)) p ∧ s' = s <| token_draws ::= S |>.
Proof. unfold hash_password. intros Hr. inv_run. done. Qed.

Lemma generate_refresh_token_Ok s s' g :
  generate_refresh_token env s = (Ok g, s') →
  g = (tokens env (token_draws s), hash_refresh_token (tokens env (token_draws s))) ∧
  s' = s <| token_draws ::= S |>.
Proof. unfold generate_refresh_token. intros Hr. inv_run. done. Qed.

Lemma create_access_token_Ok s s' uid role a :
  create_access_token settings uid role env s = (Ok a, s') →
  working s' = working s ∧
  a.2 = clock env (clock_reads s) +
        timedelta_minutes (jwt_access_token_expire_minutes settings) ∧
  a.1 = jwt_encode (mkClaims uid (user_role_str role) (tokens env (token_draws s)) a.2
                      (clock env (clock_reads s))) (jwt_signing_key settings).
Proof. unfold create_access_token. intros Hr. inv_run. done. Qed.

Lemma create_refresh_row_Ok s s' user label p :
  _create_refresh_token_row settings user label env s = (Ok p, s') →
  rt_user_id p.2 = u_id user ∧ rt_token_hash p.2 = hash_refresh_token p.1 ∧
  rt_revoked_at p.2 = None ∧
  refresh_tokens (working s) !! rt_id p.2 = None ∧
  ¬ has_conflict p.2 (refresh_tokens (working s)) ∧
  working s' = (working s) <| refresh_tokens ::= <[rt_id p.2 := p.2]> |>.
Proof.
  unfold _create_refresh_token_row. intros Hr. apply bind_Ok in Hr as (g & s1 & Hg & Hr).
  apply generate_refresh_token_Ok in Hg as [-> ->]. inv_run. done.
Qed.

Lemma build_login_response_Ok s s' user a rt exp r :
  _build_login_response user a rt exp env s = (Ok r, s') →
  working s' = working s ∧ committed s' = committed s ∧
  lr_user_id r = u_id user ∧ lr_role r = u_role user ∧
  lr_access_token r = a ∧ lr_refresh_token r = rt.
Proof. unfold _build_login_response. intros Hr. inv_run. done. Qed.

(** The role of the new account is the one the invite grants. *)
Lemma granted_role d i choice role :
  role_granted d i choice role →
  match i_type i with
  | admin_invite => i_role_target i
  | seller_referral => choice ≫= role_of_str
  end = Some role.
Proof.
  unfold role_granted. destruct (i_type i).
  - by intros [-> _].
  - intros (_ & -> & _). cbn. apply role_of_user_role.
Qed.

Lemma signup_Ok s s' req r :
  signup settings req env s = (Ok r, s') →
  ∃ i k role u rf row, invite_links (working s) !! k = Some i ∧
    i_token i = sr_invite_token req ∧ i_revoked_at i = None ∧ has_room i ∧
    unexpired (clock env (clock_reads s)) i ∧
    role_granted (working s) i (sr_role_choice req) role ∧
    is_common_password (sr_password req) = false ∧
    account_of req i role u ∧
    (∃ salt, u_password_hash u = ph_hash salt (sr_password req)) ∧
    users (working s) !! u_id u = None ∧
    (∀ k' u', users (working s) !! k' = Some u' → u_deleted_at u' = None →
       ¬ citext_eq (u_email u') (sr_email req)) ∧
    referrals (working s) !! rf_id rf = None ∧
    rf_referrer_id rf = i_issuer_id i ∧ rf_referred_user_id rf = u_id u ∧
    rf_invite_link_id rf = i_id i ∧
    rt_user_id row = u_id u ∧ lr_user_id r = u_id u ∧ lr_role r = role ∧
    ¬ has_conflict (used_once i) (invite_links (working s)) ∧
    working s' = (working s) <| invite_links ::= <[i_id i := used_once i]> |>
      <| users ::= <[u_id u := u]> |> <| referrals ::= <[rf_id rf := rf]> |>
      <| refresh_tokens ::= <[rt_id row := row]> |>.
Proof.
  unfold signup, signup_on. intros Hr. apply bind_Ok in Hr as (? & s1 & Hpw & Hr).
  apply raise_if_Ok in Hpw as [Hpw ->]. apply not_true_is_false in Hpw.
  apply bind_Ok in Hr as (i' & s1 & Hc & Hr).
  apply consume_Ok in Hc
    as (i & k & role & Hk & Htok & Hrev & Hexp & Hroom & Hrole & -> & Hconf & Hw).
  pose proof (granted_role _ _ _ _ Hrole) as Hgr.
  change (i_type (used_once i)) with (i_type i) in Hr.
  change (i_role_target (used_once i)) with (i_role_target i) in Hr.
  change (i_issuer_id (used_once i)) with (i_issuer_id i) in Hr.
  change (i_id (used_once i)) with (i_id i) in *.
  apply bind_Ok in Hr as (ex & s2 & Hex & Hr).
  apply select_one_Ok in Hex as [Hex ->]. rewrite Hgr in Hr. inv_run.
  match goal with Hx : ¬ is_Some ?e |- _ =>
    apply eq_None_not_Some in Hx; subst e end.
  pose proof (selected_None _ _ Hex) as Hfree. cbn in Hfree. rewrite Hw in Hfree.
  match goal with Hx : hash_password _ _ _ = _ |- _ =>
    apply hash_password_Ok in Hx as [-> ->] end.
  match goal with Hx : create_access_token _ _ _ _ _ = _ |- _ =>
    apply create_access_token_Ok in Hx as (Hw1 & _ & _) end.
  match goal with Hx : _create_refresh_token_row _ _ _ _ _ = _ |- _ =>
    apply create_refresh_row_Ok in Hx as (Hru & _ & _ & _ & _ & Hw2) end.
  apply build_login_response_Ok in Hr as (Hw3 & _ & Hid & Hlr & _ & _).
  match goal with
  | Hu : _ !! pk ?u0 = None, Hr : _ !! pk ?rf0 = None |- _ =>
      match type of u0 with User => match type of rf0 with Referral =>
        exists i, k, role, u0, rf0; rename Hu into Hnu, Hr into Hnr end end
  end.
  cbn in Hnu, Hnr, Hw3, Hid, Hlr, Hw2. rewrite Hw in Hnu, Hnr.
  eexists. split_and!; try done; try (by eexists).
  - intros k' u' Hu' Hdel Hce. by apply (Hfree k' u' Hu').
  - rewrite Hw3, Hw2, Hw1. cbn. rewrite Hw. reflexivity.
Qed.
End auth_facts.
