(* ===== verification/AccountMachine.v ===== *)
(** * Accounts and invites as one machine

    Every operation of [auth_service] and [invite_service] as one request, the
    invariants that hold in every reachable database, and what a failing
    request leaves behind. *)

From S2P Require Import Prelude.
From S2P Require Import Exceptions.
From S2P Require Import Models.
From S2P Require Import Session.
From S2P Require Import SessionFacts.
From S2P Require Import Security.
From S2P Require Import Invites.
From S2P Require Import InviteFacts.
From S2P Require Import Auth.
From S2P Require Import AuthFacts.
#[local] Open Scope Z_scope.

Inductive AccountCall :=
| Signup (req : SignupRequest)
| Login (email password : string) (label : option string)
| Refresh (token : string)
| Logout (token : string)
| LogoutAll (user : User)
| UpdateMe (user : User) (display_name phone avatar : option string)
| ChangePassword (user : User) (current new : string)
| GetPrefs (user : User)
| UpdatePrefs (user : User) (push email orders_ messages_ marketing : option bool)
| CreateAdminInvite (issuer : User) (role_target : string) (hours : Z)
| GetReferral (seller_user : User)
| RegenerateReferral (seller_user : User)
| RevokeInvite (user : User) (invite_id : uuid)
| ValidateInvite (token : string).

(** ** Invariants *)

(** How many accounts were created with the invite [k]. *)
Definition signups_with (d : DB) (k : uuid) : Z :=
  Z.of_nat (size (filter (λ kr : uuid * Referral, rf_invite_link_id kr.2 = k) (referrals d))).

(** The use counter of an invite counts its sign-ups, within its limit. *)
Definition uses_counted (d : DB) : Prop :=
  ∀ k i, invite_links d !! k = Some i →
    i_id i = k ∧ i_used_count i = signups_with d k ∧
    nullable (λ m, i_used_count i ≤ m) (i_max_uses i).

(** Every referral names an invite of the table (its foreign key). *)
Definition referrals_linked (d : DB) : Prop :=
  ∀ k r, referrals d !! k = Some r → is_Some (invite_links d !! rf_invite_link_id r).

Definition invites_ok (d : DB) : Prop :=
  uses_counted d ∧ referrals_linked d ∧ unique_rows (R:=InviteLink) d.

Lemma invites_keyed d : invites_ok d → keyed (R:=InviteLink) d.
Proof. intros (Hu & _ & _) k i Hk. by apply Hu in Hk as [? _]. Qed.

Lemma conflicts_sym (a b : InviteLink) : conflicts a b → conflicts b a.
Proof. cbn. naive_solver. Qed.

(** What the invariant says of one invite. *)
Lemma invites_ok_limits d :
  invites_ok d →
  ∀ k i, invite_links d !! k = Some i →
    i_used_count i = signups_with d k ∧
    (∀ m, i_max_uses i = Some m → signups_with d k ≤ m) ∧
    (∀ k' i', invite_links d !! k' = Some i' →
       active_referral (i_issuer_id i) i → active_referral (i_issuer_id i) i' → k' = k).
Proof.
  intros (Hu & _ & Hq) k i Hk. pose proof (Hu k i Hk) as (_ & Hc & Hm). split_and!; [done| |].
  - intros m Hmax. rewrite Hmax in Hm. cbn in Hm. lia.
  - intros k' i' Hk' (_ & Ht & Hrev) (Hi' & Ht' & Hrev').
    destruct (decide (k' = k)) as [|Hne]; [done|]. exfalso.
    apply (Hq k' k i' i Hk' Hk Hne). cbn. right. by rewrite Hi'.
Qed.

(** *** Steps that keep the invariant *)

Lemma invites_ok_same d d' :
  invite_links d' = invite_links d → referrals d' = referrals d →
  invites_ok d → invites_ok d'.
Proof.
  intros Hi Hr (H1 & H2 & H3). unfold invites_ok, uses_counted, referrals_linked,
    unique_rows, signups_with. cbn. rewrite Hi, Hr. by split_and!.
Qed.

(** A new invite that nobody has used. *)
Lemma invites_ok_new d i :
  invites_ok d → invite_links d !! i_id i = None → i_used_count i = 0 →
  nullable (λ m, 0 ≤ m) (i_max_uses i) → ¬ has_conflict i (invite_links d) →
  invites_ok (d <| invite_links ::= <[i_id i := i]> |>).
Proof.
  intros Hok Hnone H0 Hmax Hconf. pose proof (invites_keyed _ Hok) as Hk.
  destruct Hok as (Hu & Hl & Hq). split_and!.
  - intros k j. cbn. intros [[<- <-]|[_ Hj]]%lookup_insert_Some; [|by apply Hu].
    split; [done|]. rewrite H0. split; [|done]. unfold signups_with. cbn.
    rewrite map_empty_filter_2; [done|]. intros k r Hr Hl'.
    apply Hl in Hr as [j Hj]. cbn in Hl'. congruence.
  - intros k r Hr. cbn. rewrite lookup_insert_is_Some'. right. by eapply Hl.
  - exact (write_unique (R:=InviteLink) i d conflicts_sym Hk Hq Hconf).
Qed.

(** A revocation, by whoever. *)
Lemma invites_ok_map d (f : InviteLink → InviteLink) :
  invites_ok d →
  (∀ i, i_id (f i) = i_id i ∧ i_used_count (f i) = i_used_count i ∧
        i_max_uses (f i) = i_max_uses i ∧ i_token (f i) = i_token i ∧
        i_issuer_id (f i) = i_issuer_id i ∧ i_type (f i) = i_type i ∧
        (i_revoked_at (f i) = None → i_revoked_at i = None)) →
  invites_ok (d <| invite_links ::= fmap f |>).
Proof.
  intros (Hu & Hl & Hq) Hf. split_and!.
  - intros k j. cbn. intros (i & <- & Hi)%lookup_fmap_Some. apply Hu in Hi as (Hid & Hc & Hm).
    destruct (Hf i) as (-> & -> & -> & _). by split_and!.
  - intros k r Hr. cbn. rewrite lookup_fmap, fmap_is_Some. by eapply Hl.
  - intros k1 k2 r1 r2. cbn. intros (i1 & <- & H1)%lookup_fmap_Some (i2 & <- & H2)%lookup_fmap_Some Hne.
    specialize (Hq k1 k2 i1 i2 H1 H2 Hne). cbn in Hq.
    destruct (Hf i1) as (_ & _ & _ & -> & -> & -> & ?).
    destruct (Hf i2) as (_ & _ & _ & -> & -> & -> & ?). naive_solver.
Qed.

(** A sign-up: one more use and one more referral. *)
Lemma invites_ok_signup d i k rf :
  invites_ok d → invite_links d !! k = Some i → has_room i →
  ¬ has_conflict (used_once i) (invite_links d) →
  referrals d !! rf_id rf = None → rf_invite_link_id rf = i_id i →
  invites_ok (d <| invite_links ::= <[i_id i := used_once i]> |>
                <| referrals ::= <[rf_id rf := rf]> |>).
Proof.
  intros Hok Hk Hroom Hconf Hfresh Hlink. pose proof (invites_keyed _ Hok) as Hkey.
  destruct Hok as (Hu & Hl & Hq).
  assert (i_id i = k) as Hid by by apply Hu in Hk as [? _].
  split_and!.
  - intros k' j. cbn. intros [[<- <-]|[Hne Hj]]%lookup_insert_Some.
    + pose proof (Hu _ _ Hk) as (_ & Hc & Hm). split; [done|].
      unfold signups_with in *. cbn. rewrite Hid in Hlink |- *.
      rewrite map_filter_insert_True by done. rewrite map_size_insert_None.
      * split; [lia|]. unfold has_room in Hroom. destruct (i_max_uses i); cbn in *; lia.
      * apply map_lookup_filter_None_2. by left.
    + pose proof (Hu _ _ Hj) as (? & Hc & Hm). split_and!; [done| |done].
      rewrite Hc. unfold signups_with. cbn. f_equal.
      rewrite map_filter_insert_False; [|cbn; congruence].
      by rewrite delete_id.
  - intros k' r. cbn. intros [[<- <-]|[_ Hr]]%lookup_insert_Some.
    + rewrite Hlink. rewrite lookup_insert_eq. eauto.
    + rewrite lookup_insert_is_Some'. right. by eapply Hl.
  - exact (write_unique (R:=InviteLink) (used_once i) d conflicts_sym Hkey Hq Hconf).
Qed.

(** ** Requests *)

(** The invite tables are left alone, in the working and the committed database. *)
Definition invite_frame : relation Session := λ s s',
  (invite_links (working s') = invite_links (working s) ∧
   referrals (working s') = referrals (working s)) ∧
  ((invite_links (committed s') = invite_links (committed s) ∧
    referrals (committed s') = referrals (committed s)) ∨
   (invite_links (committed s') = invite_links (working s) ∧
    referrals (committed s') = referrals (working s))).
#[export] Instance invite_frame_rel : SessionRel invite_frame.
Proof.
  split; [split|].
  - intros s. split; [done|by left].
  - intros s1 s2 s3 [[Hi Hr] Hc] [[Hi' Hr'] Hc']. split; [split; congruence|].
    destruct Hc as [[? ?]|[? ?]], Hc' as [[? ?]|[? ?]];
      first [left; split; congruence | right; split; congruence].
  - intros s s' Hc Hw. unfold invite_frame. rewrite Hc, Hw. split; [done|by left].
Qed.
#[export] Hint Extern 2 (invite_frame _ _) =>
  split; [split; reflexivity|left; split; reflexivity] : stable.
#[export] Hint Extern 1 (stable invite_frame commit) =>
  intros ? ? ? ? E; injection E as <- <-; split; [done|by right] : stable.

Section account_machine.
Context `{Crypto} (settings : Settings).

Definition account_exec (call : AccountCall) : M unit :=
  match call with
  | Signup req => ignore (signup settings req)
  | Login email pw label => ignore (login settings email pw label)
  | Refresh token => ignore (refresh settings token)
  | Logout token => logout token
  | LogoutAll user => logout_all user
  | UpdateMe user n p a => ignore (update_me user n p a)
  | ChangePassword user c n => change_password user c n
  | GetPrefs user => ignore (get_or_create_notification_prefs user)
  | UpdatePrefs user a b c d e =>
      ignore (update_notification_prefs user a b c d e)
  | CreateAdminInvite issuer role hours => ignore (create_admin_invite issuer role hours)
  | GetReferral user => ignore (get_or_create_seller_referral user)
  | RegenerateReferral user => ignore (regenerate_seller_referral user)
  | RevokeInvite user id => revoke_invite user id
  | ValidateInvite token => ignore (validate_invite token)
  end.

Inductive account_request (d d' : DB) : Prop :=
| AccountRequest env call out :
    get_db (account_exec call) env d = (out, d') → account_request d d'.

(** The calls that never touch an invite. *)
Definition invite_free (call : AccountCall) : bool :=
  match call with
  | Signup _ | CreateAdminInvite _ _ _ | GetReferral _ | RegenerateReferral _
  | RevokeInvite _ _ => false
  | _ => true
  end.

Lemma decode_with_stable Rel `{!SessionRel Rel} keys token :
  stable Rel (decode_with keys token).
Proof. induction keys; cbn; stable_tac. Qed.

Ltac unfold_account :=
  unfold ignore, signup, signup_on, login, refresh, logout, logout_all, update_me,
    change_password, get_or_create_notification_prefs, update_notification_prefs,
    create_admin_invite, get_or_create_seller_referral, regenerate_seller_referral,
    revoke_invite, validate_invite, consume_invite, consume_invite_on, check_invite_role, _is_expired,
    _create_refresh_token_row, _build_login_response, revoke_all,
    create_access_token, generate_refresh_token, hash_password, _token.

Lemma free_calls_frame call :
  invite_free call = true → stable invite_frame (account_exec call).
Proof.
  destruct call; intros Hf; try discriminate Hf; clear Hf; cbn [account_exec];
    unfold_account; stable_tac.
Qed.

(** Only a replayed refresh token makes a failing request leave a trace. *)
Lemma failing_calls_atomic call :
  (∀ token, call ≠ Refresh token) → atomic (account_exec call).
Proof.
  intros Hr. destruct call; try (by destruct (Hr token)); cbn [account_exec];
    unfold_account; atomic_tac.
Qed.

Lemma signup_invites env s s' req r :
  signup settings req env s = (Ok r, s') →
  invites_ok (working s) → invites_ok (working s').
Proof.
  intros Hr Hok. apply signup_Ok in Hr
    as (i & k & role & u & rf & row & Hk & _ & _ & Hroom & _ & _ & _ & _ & _ & _ & _ &
        Hrf & _ & _ & Hlink & _ & _ & _ & Hconf & ->).
  eapply invites_ok_same; [| |by eapply (invites_ok_signup (working s) i k rf)]; done.
Qed.

Lemma create_admin_invites env s s' user role hours r :
  create_admin_invite user role hours env s = (Ok r, s') →
  invites_ok (working s) → invites_ok (working s').
Proof.
  unfold create_admin_invite, _token. intros Hr Hok. inv_run.
  by apply (invites_ok_new (working s)).
Qed.

Lemma get_referral_invites env s s' user r :
  get_or_create_seller_referral user env s = (Ok r, s') →
  invites_ok (working s) → invites_ok (working s').
Proof.
  unfold get_or_create_seller_referral, _token. intros Hr Hok. inv_run.
  match goal with Hx : match ?o with _ => _ end _ _ = _ |- _ => destruct o end; inv_run;
    [done|by apply (invites_ok_new (working s))].
Qed.

Lemma regenerate_invites env s s' user r :
  regenerate_seller_referral user env s = (Ok r, s') →
  invites_ok (working s) → invites_ok (working s').
Proof.
  unfold regenerate_seller_referral, _token. intros Hr Hok. inv_run.
  match goal with |- context [fmap ?f] =>
    apply (invites_ok_new ((working s) <| invite_links ::= fmap f |>)) end; try done.
  apply invites_ok_map; [done|]. intros i. by case_decide.
Qed.

Lemma revoke_invites env s s' user iid b :
  revoke_invite user iid env s = (Ok b, s') →
  invites_ok (working s) → invites_ok (working s').
Proof.
  unfold revoke_invite. intros Hr Hok. inv_run.
  destruct (table (working s) !! iid) as [i|] eqn:E; inv_run. cbn in E.
  match goal with Hx : match u_role user with _ => _ end _ _ = (Ok _, ?s1) |- _ =>
    assert (s1 = s) as -> by (destruct (u_role user); by inv_run) end.
  pose proof (invites_keyed _ Hok) as Hk. pose proof (Hk _ _ E) as Hid.
  set (f := λ j : InviteLink, j <| i_revoked_at := Some (clock env (clock_reads s)) |>).
  pose proof (insert_as_fmap f (working s) iid i Hk E) as Hmap.
  eapply invites_ok_same; [| |apply (invites_ok_map (working s)
    (λ j, if decide (pk j = iid) then f j else j)); [done|]].
  - cbn in Hid, Hmap |- *. subst iid. exact Hmap.
  - done.
  - intros j. unfold f. cbn. destruct (decide (i_id j = iid)); cbn; split_and!; congruence || done.
Qed.

Lemma request_invites_ok d d' : account_request d d' → invites_ok d → invites_ok d'.
Proof.
  intros [env call [u|e] Hr] Hok.
  - apply get_db_Ok in Hr as (s' & Hr & ->).
    destruct (invite_free call) eqn:Hfree.
    { apply free_calls_frame in Hr as [[Hi Hrf] _]; [|done].
      by eapply invites_ok_same in Hok. }
    destruct call; try discriminate Hfree; cbn [account_exec] in Hr;
      try (apply ignore_Ok in Hr as [r Hr]).
    + by apply signup_invites in Hr.
    + by apply create_admin_invites in Hr.
    + by apply get_referral_invites in Hr.
    + by apply regenerate_invites in Hr.
    + by apply revoke_invites in Hr.
  - destruct (invite_free call) eqn:Hfree.
    + apply get_db_Raised in Hr as (s' & Hr & ->).
      apply free_calls_frame in Hr as [_ Hc]; [|done].
      destruct Hc as [[Hi Hrf]|[Hi Hrf]]; by eapply invites_ok_same in Hok.
    + apply get_db_atomic_last in Hr as ->; [done|].
      apply failing_calls_atomic. intros token ->. discriminate Hfree.
Qed.
End account_machine.
