(* ===== verification/CheckoutFacts.v ===== *)
(** * Placing an order: checkout

    What [Orders.create_order] does when it succeeds, against a reference that
    never builds the aggregated dict: the quantity of a product is the sum over
    the raw line items, the subtotal is the sum of price times quantity over
    the raw line items. *)

From S2P Require Import Prelude.
From S2P Require Import Exceptions.
From S2P Require Import Models.
From S2P Require Import Session.
From S2P Require Import SessionFacts.
From S2P Require Import Orders.
From S2P Require Import OrdersFacts.
#[local] Open Scope Z_scope.
#[local] Arguments Z.add : simpl never.
#[local] Arguments Z.mul : simpl never.
#[local] Arguments Z.sub : simpl never.

(** ** Reference definitions *)

(** The weighted sum of a dict or list of (product, quantity) pairs. *)
Fixpoint line_sum (w : uuid → Z) (d : list (uuid * Z)) : Z :=
  match d with
  | [] => 0
  | l :: d' => w l.1 * l.2 + line_sum w d'
  end.
Definition lines_of (items : list LineItem) : list (uuid * Z) :=
  (λ it, (li_product_id it, li_quantity it)) <$> items.
Definition only (pid : uuid) (k : uuid) : Z := if decide (k = pid) then 1 else 0.

(** Total quantity requested of one product. *)
Definition ordered_qty (items : list LineItem) (pid : uuid) : Z :=
  line_sum (only pid) (lines_of items).

Definition price_in (t : gmap uuid Product) (pid : uuid) : Z :=
  from_option p_price_minor 0 (t !! pid).

(** Stock is tracked only when it is not [None]. *)
Definition take_stock (q : Z) (p : Product) : Product :=
  p <| p_stock_quantity ::= fmap (λ stock, stock - q) |>.
Definition stock_taken (lines : list (uuid * Z)) (t : gmap uuid Product) :
    gmap uuid Product :=
  map_imap (λ pid p, Some (take_stock (line_sum (only pid) lines) p)) t.

(** ** The aggregated dict *)

Lemma line_sum_ext w w' d :
  (∀ l, l ∈ d → w l.1 = w' l.1) → line_sum w d = line_sum w' d.
Proof.
  induction d as [|l d IH]; cbn; intros Hw; [done|].
  rewrite (Hw l) by left. rewrite IH; [done|]. intros l' ?. apply Hw. by right.
Qed.

Lemma line_sum_qty_add w d pid q :
  line_sum w (qty_add d pid q) = line_sum w d + w pid * q.
Proof.
  induction d as [|[k v] d IH]; cbn; [lia|].
  case_decide; subst; cbn; [lia|]. rewrite IH. lia.
Qed.

Lemma line_sum_foldl w items d :
  line_sum w (foldl (λ d it, qty_add d (li_product_id it) (li_quantity it)) d items) =
  line_sum w d + line_sum w (lines_of items).
Proof.
  revert d. induction items as [|it items IH]; cbn; intros d; [lia|].
  rewrite IH, line_sum_qty_add. fold (lines_of items). lia.
Qed.

Lemma line_sum_aggregate w items :
  line_sum w (aggregate items) = line_sum w (lines_of items).
Proof. apply line_sum_foldl. Qed.

Lemma qty_add_keys d pid q k :
  k ∈ (qty_add d pid q).*1 ↔ k = pid ∨ k ∈ d.*1.
Proof.
  induction d as [|[k' v] d IH]; cbn.
  - rewrite list_elem_of_singleton, elem_of_nil. naive_solver.
  - case_decide; subst; cbn; rewrite !elem_of_cons; [naive_solver|].
    rewrite IH. naive_solver.
Qed.

Lemma qty_add_NoDup d pid q : NoDup d.*1 → NoDup (qty_add d pid q).*1.
Proof.
  induction d as [|[k v] d IH]; cbn; intros Hnd.
  - apply NoDup_singleton.
  - apply NoDup_cons in Hnd as [Hk Hnd]. case_decide; subst; cbn.
    + by apply NoDup_cons.
    + apply NoDup_cons. split; [|by apply IH].
      rewrite qty_add_keys. naive_solver.
Qed.

Lemma aggregate_fold_spec items d :
  NoDup d.*1 →
  let d' := foldl (λ d it, qty_add d (li_product_id it) (li_quantity it)) d items in
  NoDup d'.*1 ∧ ∀ k, k ∈ d'.*1 ↔ k ∈ d.*1 ∨ k ∈ li_product_id <$> items.
Proof.
  revert d. induction items as [|it items IH]; cbn; intros d Hnd.
  - split; [done|]. intros k. rewrite elem_of_nil. naive_solver.
  - destruct (IH (qty_add d (li_product_id it) (li_quantity it))) as [Hnd' Hk];
      [by apply qty_add_NoDup|].
    split; [done|]. intros k. rewrite Hk, qty_add_keys, elem_of_cons. naive_solver.
Qed.

Lemma aggregate_NoDup items : NoDup (aggregate items).*1.
Proof. apply (aggregate_fold_spec items []). constructor. Qed.

Lemma aggregate_keys items k :
  k ∈ (aggregate items).*1 ↔ k ∈ li_product_id <$> items.
Proof.
  destruct (aggregate_fold_spec items []) as [_ Hk]; [constructor|].
  unfold aggregate. rewrite Hk. cbn. rewrite elem_of_nil. naive_solver.
Qed.

Lemma line_sum_absent pid d : pid ∉ d.*1 → line_sum (only pid) d = 0.
Proof.
  induction d as [|[k v] d IH]; cbn; [done|].
  intros [Hne Hd]%not_elem_of_cons. unfold only at 1.
  rewrite decide_False by done. rewrite IH by done. lia.
Qed.

Lemma line_sum_unique d pid q :
  NoDup d.*1 → (pid, q) ∈ d → line_sum (only pid) d = q.
Proof.
  induction d as [|[k v] d IH]; cbn; intros Hnd Hin; [by apply not_elem_of_nil in Hin|].
  apply NoDup_cons in Hnd as [Hk Hnd]. apply elem_of_cons in Hin as [Heq|Hin].
  - simplify_eq. rewrite line_sum_absent by done. unfold only.
    rewrite decide_True by done. lia.
  - rewrite IH by done. unfold only. rewrite decide_False; [lia|].
    intros ->. apply Hk. apply list_elem_of_fmap. by exists (pid, q).
Qed.

(** A line of the dict carries the total quantity of its product. *)
Lemma aggregate_line items pid q :
  (pid, q) ∈ aggregate items → q = ordered_qty items pid.
Proof.
  intros Hin. unfold ordered_qty. rewrite <- line_sum_aggregate.
  symmetry. apply line_sum_unique; [apply aggregate_NoDup|done].
Qed.

Lemma ordered_qty_nonneg items pid :
  Forall (λ it, 0 < li_quantity it) items → 0 ≤ ordered_qty items pid.
Proof.
  unfold ordered_qty, lines_of, only. induction 1 as [|it items Hq _ IH]; cbn; [done|].
  case_decide; lia.
Qed.

Lemma ordered_qty_absent items pid :
  pid ∉ li_product_id <$> items → ordered_qty items pid = 0.
Proof.
  intros Hp. apply line_sum_absent. unfold lines_of. by rewrite <- list_fmap_compose.
Qed.

(** ** The loops of [create_order] *)

Lemma take_stock_untracked q p : p_stock_quantity p = None → take_stock q p = p.
Proof. destruct p; cbn. by intros ->. Qed.
Lemma take_stock_0 p : take_stock 0 p = p.
Proof.
  destruct p as [? ? ? ? ? ? [st|] ? ? ? ? ? ?]; unfold take_stock; cbn; [|done].
  by rewrite Z.sub_0_r.
Qed.
Lemma stock_taken_nil t : stock_taken [] t = t.
Proof.
  apply map_eq. intros k. unfold stock_taken. rewrite map_lookup_imap. cbn.
  destruct (t !! k); cbn; [by rewrite take_stock_0|done].
Qed.

Section loops.
Context (env : Env) (by_id : gmap uuid Product).
Implicit Types (s : Session).

Lemma check_lines_Ok s s' lines b :
  for_each lines (check_line by_id) env s = (Ok b, s') →
  s' = s ∧ Forall (λ line, ∃ p, by_id !! line.1 = Some p ∧
    p_deleted_at p = None ∧ p_is_active p = true ∧
    ∀ stock, p_stock_quantity p = Some stock → line.2 ≤ stock) lines.
Proof.
  apply for_each_check. intros line s1 s2. unfold check_line. intros H. inv_run.
  match goal with H : ¬ (_ ∨ _) |- _ => apply Decidable.not_or in H as [? Hact] end.
  unneg. apply not_false_iff_true in Hact.
  destruct (p_stock_quantity _) eqn:?; inv_run; split; try done;
    eexists; split_and!; try done; intros; simplify_eq; lia.
Qed.

Lemma decrement_lines_Ok s s' lines b :
  keyed (R:=Product) (working s) → NoDup lines.*1 →
  (∀ l p, l ∈ lines → by_id !! l.1 = Some p → products (working s) !! l.1 = Some p) →
  for_each lines (decrement_line by_id) env s = (Ok b, s') →
  working s' = (working s) <| products ::= stock_taken lines |>.
Proof.
  revert s. induction lines as [|[pid q] lines IH]; cbn; intros s Hkey Hnd Hagree H.
  - inv_run. cbn. rewrite stock_taken_nil. by destruct (working s).
  - apply NoDup_cons in Hnd as [Hpid Hnd].
    apply bind_Ok in H as ([] & s1 & Hdec & H). unfold decrement_line in Hdec. inv_run.
    match goal with H : by_id !! _ = Some ?p0 |- _ => rename p0 into p, H into Hp end.
    cbn in Hp. pose proof (Hagree (pid, q) p ltac:(left) Hp) as Hrow. cbn in Hrow.
    pose proof (Hkey _ _ Hrow) as Hpk. cbn in Hpk.
    assert (working s1 = (working s) <| products ::= <[pid := take_stock q p]> |>) as Hs1.
    { destruct (p_stock_quantity p) as [st|] eqn:Est; inv_run; cbn.
      - unfold take_stock; cbn. by rewrite Est.
      - rewrite take_stock_untracked by done. rewrite insert_id by done.
        by destruct (working s). }
    apply IH in H; [| | done |].
    + rewrite H, Hs1. cbn. f_equal. apply map_eq. intros k.
      unfold stock_taken. rewrite !map_lookup_imap. cbn.
      destruct (decide (k = pid)) as [->|Hne].
      * rewrite lookup_insert_eq, Hrow. cbn. rewrite (line_sum_absent pid lines) by done.
        rewrite take_stock_0. unfold only. rewrite decide_True by done.
        do 2 f_equal. lia.
      * rewrite lookup_insert_ne by done. destruct (products _ !! k); cbn; [|done].
        unfold only at 2. rewrite decide_False by done. do 2 f_equal; lia.
    + intros k r. rewrite Hs1. cbn. rewrite lookup_insert_Some.
      intros [[<- <-]|[_ Hk]]; [done|]. by apply Hkey.
    + intros l p' Hl Hp'. rewrite Hs1. cbn. rewrite lookup_insert_ne.
      * apply Hagree; [by right|done].
      * intros ->. apply Hpid. by apply list_elem_of_fmap; exists l.
Qed.

Lemma sum_lines_Ok s s' lines n :
  sum_lines by_id lines env s = (Ok n, s') →
  s' = s ∧ n = line_sum (price_in by_id) lines.
Proof.
  revert n s'. induction lines as [|l lines IH]; cbn; intros n s' H; inv_run; [done|].
  match goal with H : sum_lines _ _ _ _ = _ |- _ => apply IH in H as [-> ->] end.
  match goal with H : by_id !! _ = _ |- _ => unfold price_in at 2; rewrite H end.
  done.
Qed.

(** The rows of the new items, in dict order. *)
Definition item_row (oid : uuid) (i : OrderItem) (line : uuid * Z) : Prop :=
  ∃ p, by_id !! line.1 = Some p ∧
    i = mkOrderItem (oi_id i) oid (Some (p_id p)) (p_name p) (p_price_minor p) line.2.

Lemma add_items_Ok s s' oid lines b :
  for_each lines (add_item by_id oid) env s = (Ok b, s') →
  ∃ new, Forall2 (item_row oid) new lines ∧
    working s' = (working s) <| order_items ::= λ t,
      foldl (λ t i, <[oi_id i := i]> t) t new |> ∧
    NoDup (oi_id <$> new) ∧
    (∀ i, i ∈ new → order_items (working s) !! oi_id i = None).
Proof.
  revert s. induction lines as [|l lines IH]; cbn; intros s H.
  - inv_run. exists []. split_and!; [constructor|by destruct (working s)|constructor|].
    intros i Hi. by apply not_elem_of_nil in Hi.
  - apply bind_Ok in H as ([] & s1 & Hadd & H). unfold add_item in Hadd. inv_run.
    apply IH in H as (new & Hnew & Hw & Hnd & Hfresh). cbn in Hw, Hfresh.
    match goal with H : by_id !! _ = Some ?p |- _ => rename H into Hp end.
    match goal with H : _ !! pk ?i = None |- _ =>
      rename H into Hnone; set (i0 := i) in * end.
    exists (i0 :: new). split_and!.
    + constructor; [|done]. eexists. split; [exact Hp|done].
    + rewrite Hw. done.
    + cbn. apply NoDup_cons. split; [|done].
      intros (i & Hi & Hin)%list_elem_of_fmap. specialize (Hfresh i Hin).
      rewrite <- Hi, lookup_insert_eq in Hfresh. done.
    + intros i [->|Hi]%elem_of_cons; [done|].
      specialize (Hfresh i Hi). by apply lookup_insert_None in Hfresh as [? _].
Qed.
End loops.

(** ** The whole operation *)

Lemma index_products_Some ps pid p :
  index_products ps !! pid = Some p → p ∈ ps ∧ p_id p = pid.
Proof.
  intros H. apply elem_of_list_to_map_2, list_elem_of_fmap in H as (p' & Heq & Hin).
  by simplify_eq.
Qed.

Lemma same_seller (ps : list Product) sid :
  size (list_to_set (p_seller_id <$> ps) : gset uuid) = 1%nat →
  sid ∈ (list_to_set (p_seller_id <$> ps) : gset uuid) →
  ∀ p, p ∈ ps → p_seller_id p = sid.
Proof.
  intros [x Hx]%size_1_elem_of Hsid p Hp. rewrite Hx in Hsid.
  assert (p_seller_id p ∈ (list_to_set (p_seller_id <$> ps) : gset uuid)) as Hin.
  { apply elem_of_list_to_set, list_elem_of_fmap. by exists p. }
  rewrite Hx in Hin. set_solver.
Qed.

(** A product this order may contain, in the given amount. *)
Definition orderable (sid : uuid) (q : Z) (p : Product) : Prop :=
  p_seller_id p = sid ∧ p_deleted_at p = None ∧ p_is_active p = true ∧
  ∀ stock, p_stock_quantity p = Some stock → q ≤ stock.

(** The order row a checkout writes. *)
Definition placed_order (cust : User) (sid : uuid) (addr : Address) (total : Z)
    (o : Order) : Prop :=
  o_customer_id o = u_id cust ∧ o_seller_id o = sid ∧ o_status o = pending ∧
  o_subtotal_minor o = total ∧ o_total_minor o = total ∧
  o_delivery_address o = addr ∧ o_deleted_at o = None ∧
  o_accepted_at o = None ∧ o_preparing_at o = None ∧
  o_out_for_delivery_at o = None ∧ o_delivered_at o = None ∧
  o_completed_at o = None ∧ o_cancelled_at o = None ∧ int8 total.

(** The item rows of the new order, one per distinct product. *)
Definition item_of (t : gmap uuid Product) (oid : uuid) (i : OrderItem)
    (line : uuid * Z) : Prop :=
  ∃ p, t !! line.1 = Some p ∧
    i = mkOrderItem (oi_id i) oid (Some line.1) (p_name p) (p_price_minor p) line.2.

Definition items_added (new : list OrderItem) (t : gmap uuid OrderItem) :
    gmap uuid OrderItem := foldl (λ t i, <[oi_id i := i]> t) t new.

Lemma stock_taken_aggregate items t :
  stock_taken (aggregate items) t = stock_taken (lines_of items) t.
Proof.
  apply map_eq. intros k. unfold stock_taken. rewrite !map_lookup_imap.
  by rewrite line_sum_aggregate.
Qed.

(** What the products read for the order are, given the database they were
    read from. *)
Lemma products_read d (P : Product → Prop) `{∀ p, Decision (P p)} :
  keyed (R:=Product) d →
  let ps := order_by_asc (λ p, Z.of_N (p_id p)) (filter P (rows (products d))) in
  ∀ p, p ∈ ps → products d !! p_id p = Some p.
Proof.
  intros Hkey ps p Hp. unfold ps in Hp. rewrite order_by_asc_perm in Hp.
  apply elem_of_selected in Hp as [_ [k Hk]]. pose proof (Hkey _ _ Hk) as Hpk.
  cbn in Hpk. by rewrite Hpk.
Qed.

(** The checked lines, read back through the index of locked products. *)
Lemma checked_lines by_id t sid items :
  (∀ pid p, by_id !! pid = Some p → t !! pid = Some p ∧ p_seller_id p = sid) →
  Forall (λ line, ∃ p, by_id !! line.1 = Some p ∧
    p_deleted_at p = None ∧ p_is_active p = true ∧
    ∀ stock, p_stock_quantity p = Some stock → line.2 ≤ stock) (aggregate items) →
  (∀ pid, pid ∈ li_product_id <$> items → ∃ p,
     t !! pid = Some p ∧ orderable sid (ordered_qty items pid) p) ∧
  line_sum (price_in by_id) (aggregate items) =
    line_sum (price_in t) (lines_of items).
Proof.
  rewrite Forall_forall. intros Hidx Hlines. split.
  - intros pid [[k q] [-> Hin]]%aggregate_keys%list_elem_of_fmap.
    change (k, q).1 with k. rewrite <- (aggregate_line _ _ _ Hin).
    apply Hlines in Hin as (p & Hp & ? & ? & ?).
    apply Hidx in Hp as [? ?]. by exists p.
  - rewrite <- line_sum_aggregate. apply line_sum_ext. intros l Hin.
    apply Hlines in Hin as (p & Hp & _). apply Hidx in Hp as Hp'.
    unfold price_in. by rewrite Hp, (proj1 Hp').
Qed.

Lemma item_rows_products by_id t sid oid new lines :
  (∀ pid p, by_id !! pid = Some p →
     t !! pid = Some p ∧ p_seller_id p = sid ∧ p_id p = pid) →
  Forall2 (item_row by_id oid) new lines → Forall2 (item_of t oid) new lines.
Proof.
  intros Hidx Hnew. eapply Forall2_impl; [done|]. intros i line (p & Hp & Hi).
  apply Hidx in Hp as (Hp & _ & Hid). exists p. split; [done|]. by rewrite <- Hid.
Qed.

Lemma order_column_range (o : Order) :
  column_error o = None → int8 (o_subtotal_minor o) ∧ int8 (o_total_minor o).
Proof. unfold column_error, orders_table, check. repeat case_decide; done. Qed.

Lemma create_order_Ok env s s' cust items addr r :
  keyed (R:=Product) (working s) →
  create_order cust items addr env s = (Ok r, s') →
  ∃ sid o new total,
    u_role cust = customer ∧ items ≠ [] ∧ u_referring_seller_id cust = Some sid ∧
    (∀ pid, pid ∈ li_product_id <$> items → ∃ p,
       products (working s) !! pid = Some p ∧
       orderable sid (ordered_qty items pid) p) ∧
    total = line_sum (price_in (products (working s))) (lines_of items) ∧
    orders (working s) !! o_id o = None ∧ placed_order cust sid addr total o ∧
    Forall2 (item_of (products (working s)) (o_id o)) new (aggregate items) ∧
    (∀ i, i ∈ new → order_items (working s) !! oi_id i = None) ∧
    NoDup (oi_id <$> new) ∧
    working s' = (working s)
      <| products ::= stock_taken (lines_of items) |>
      <| orders ::= <[o_id o := o]> |>
      <| order_items ::= items_added new |>.
Proof.
  intros Hkey. unfold create_order, create_order_on. intros H.
  destruct (u_referring_seller_id cust) as [sid|] eqn:Eref; inv_run; unneg.
  match goal with H : ¬ (_ ∨ _) |- _ => apply Decidable.not_or in H as [Hsize Hsid] end.
  unneg. set (ps := order_by_asc _ _) in *.
  assert (∀ p, p ∈ ps → products (working s) !! p_id p = Some p) as Hps
    by by apply products_read.
  clearbody ps. pose proof (same_seller _ _ Hsize Hsid) as Hsame.
  assert (∀ pid p, index_products ps !! pid = Some p →
    products (working s) !! pid = Some p ∧ p_seller_id p = sid ∧ p_id p = pid) as Hidx.
  { intros pid p [Hp <-]%index_products_Some. auto. }
  set (by_id := index_products ps) in *. clearbody by_id.
  match goal with H : for_each _ (check_line _) _ _ = _ |- _ =>
    apply check_lines_Ok in H as [-> Hlines] end.
  destruct (checked_lines by_id (products (working s)) sid items)
    as [Hgood Hsum]; [naive_solver|done|].
  match goal with H : for_each _ (decrement_line _) _ _ = _ |- _ =>
    apply decrement_lines_Ok in H as Hdec; [clear H|done|apply aggregate_NoDup|];
      [|intros l p _ Hp; by apply Hidx] end.
  destruct ps as [|p0 ps']; inv_run.
  match goal with H : sum_lines _ _ _ _ = _ |- _ => apply sum_lines_Ok in H as [-> ->] end.
  rewrite Hsum in *.
  match goal with H : for_each _ (add_item _ _) _ _ = _ |- _ =>
    apply add_items_Ok in H as (new & Hnew & Hw & Hnd & Hfresh) end.
  match goal with H : reload _ _ _ = _ |- _ => apply reload_Ok in H as [-> _] end.
  match goal with H : _ !! pk ?o0 = None, H' : column_error _ = None |- _ =>
    rename H into Hnone, H' into Hcol; set (o := o0) in * end.
  cbn in Hnone, Hfresh. rewrite Hdec in Hnone, Hfresh.
  exists sid, o, new, (line_sum (price_in (products (working s))) (lines_of items)).
  split_and!; try done.
  - apply order_column_range in Hcol as [? _]. unfold placed_order. by split_and!.
  - by eapply item_rows_products.
  - rewrite Hw. cbn. rewrite Hdec. cbn. rewrite stock_taken_aggregate. done.
Qed.
