(* ===== verification/Retention.v ===== *)
(** * Listing, retention-gated deletion and the purge job

    [services/order_service.py], lines 105-138 (who may view an order) and
    735-991 (listing, deletion, purge and the retention settings). *)

From S2P Require Import Prelude.
From S2P Require Import Exceptions.
From S2P Require Import Models.
From S2P Require Import Session.
From S2P Require Import SessionFacts.
From S2P Require Import Orders.
#[local] Open Scope string_scope.

(** ** Viewing *)

Definition assigned_to (driver_id : uuid) (a : DriverAssignment) : Prop :=
  a_driver_id a = Some driver_id ∧ a_status a ∈ ASSIGNED_DRIVER.
#[export] Instance assigned_to_dec drv a : Decision (assigned_to drv a).
Proof. unfold assigned_to. apply _. Defined.

Definition delivery_of (driver_id : uuid) (d : Delivery) : Prop :=
  d_driver_id d = Some driver_id.
#[export] Instance delivery_of_dec drv d : Decision (delivery_of drv d).
Proof. unfold delivery_of. apply _. Defined.

Definition _ensure_can_view (lo : LoadedOrder) (caller : User) : M unit :=
  match u_role caller with
  | admin => mret tt
  | seller => raise_if (o_seller_id (lo_order lo) ≠ u_id caller) OrderNotFound
  | customer => raise_if (o_customer_id (lo_order lo) ≠ u_id caller) OrderNotFound
  | driver =>
      if decide (nullable (delivery_of (u_id caller)) (lo_delivery lo) ∧
                 is_Some (lo_delivery lo)) then mret tt
      else raise_if (¬ Exists (assigned_to (u_id caller)) (lo_assignments lo))
             OrderNotFound
  end.

Definition get_order_for_caller (caller : User) (order_id : uuid) :
    M LoadedOrder :=
  found ← _load_order_full order_id;
  match found with
  | None => raise OrderNotFound
  | Some lo =>
      raise_if (o_deleted_at (lo_order lo) ≠ None) OrderNotFound;;
      _ensure_can_view lo caller;;
      mret lo
  end.

(** The [WHERE] clause the caller's role adds to the listing. *)
Definition listed_for (caller : User) (dlvs : list Delivery)
    (asgs : list DriverAssignment) (o : Order) : Prop :=
  match u_role caller with
  | admin => True
  | seller => o_seller_id o = u_id caller
  | customer => o_customer_id o = u_id caller
  | driver =>
      o_id o ∈ (d_order_id <$> filter (delivery_of (u_id caller)) dlvs) ∨
      o_id o ∈ (a_order_id <$> filter (assigned_to (u_id caller)) asgs)
  end.
#[export] Instance listed_for_dec caller dlvs asgs o :
  Decision (listed_for caller dlvs asgs o).
Proof. unfold listed_for. destruct (u_role caller); apply _. Defined.

(** The orders of the page; the caller of the service loads their items,
    delivery and assignments like [_load_order_full] does. *)
Definition list_orders_for_caller (caller : User) (status : option OrderStatus)
    (limit : Z) : M (list Order) :=
  dlvs ← query (λ d, rows (deliveries d));
  asgs ← query (λ d, rows (driver_assignments d));
  found ← select (λ o, o_deleted_at o = None ∧
                       nullable (λ st, o_status o = st) status ∧
                       listed_for caller dlvs asgs o);
  mret (take (Z.to_nat (Z.min (Z.max limit 1) 200))
          (order_by_desc o_placed_at found)).

(** ** Deletion *)

Definition default_settings (updated_at : datetime) : PlatformSettings :=
  mkPlatformSettings 1 30 72 90 "USD" updated_at None.

Definition _get_retention_settings : M PlatformSettings :=
  found ← get_row (R:=PlatformSettings) 1%N;
  match found with
  | Some ps => mret ps
  | None =>
      updated_at ← read_env server_now;
      let ps := default_settings updated_at in
      insert_row ps;;
      mret ps
  end.

(** [DELETE FROM orders WHERE id = ...] with the [ON DELETE CASCADE] foreign
    keys of the tables that reference [orders]. *)
Definition delete_order_row (order_id : uuid) : M unit :=
  delete_where (R:=Order) (λ o, o_id o = order_id);;
  delete_where (R:=OrderItem) (λ i, oi_order_id i = order_id);;
  delete_where (R:=Delivery) (λ d, d_order_id d = order_id);;
  delete_where (R:=DriverAssignment) (λ a, a_order_id a = order_id);;
  delete_where (R:=OrderTrackingPoint) (λ p, tp_order_id p = order_id);;
  delete_where (R:=OrderMessage) (λ m, om_order_id m = order_id);;
  delete_where (R:=DeliveryCode) (λ c, dc_order_id c = order_id);;
  delete_where (R:=DeliveryCodeAttempt) (λ t, at_order_id t = order_id).

Definition delete_order (caller : User) (order_id : uuid) : M unit :=
  found ← _load_order_locked order_id;
  match found with
  | None => raise OrderNotFound
  | Some order =>
      raise_if (o_deleted_at order ≠ None) OrderNotFound;;
      raise_if (u_role caller = customer ∧ o_customer_id order ≠ u_id caller)
        OrderNotFound;;
      raise_if (u_role caller = seller ∧ o_seller_id order ≠ u_id caller)
        OrderNotFound;;
      raise_if (u_role caller = driver) OrderNotFound;;
      raise_if (u_role caller ∉ [customer; seller; admin]) OrderNotFound;;
      match _terminal_at order with
      | None => raise OrderRetentionNotMet
      | Some terminal_at =>
          ps ← _get_retention_settings;
          _now ← now;
          raise_if (_now - terminal_at < timedelta_days (ps_retention_min_days ps))%Z
            OrderRetentionNotMet;;
          (if decide (o_status order = completed) then _write_snapshot order
           else mret tt);;
          delete_order_row (o_id order)
      end
  end.

(** ** Purge and auto-complete job *)

Definition auto_completable (grace_cutoff : datetime) (o : Order) : Prop :=
  o_status o = delivered ∧ o_deleted_at o = None ∧
  match o_delivered_at o with Some t => (t ≤ grace_cutoff)%Z | None => False end.
#[export] Instance auto_completable_dec cutoff o :
  Decision (auto_completable cutoff o).
Proof. unfold auto_completable. destruct (o_delivered_at o); apply _. Defined.

Definition purgeable (retention_cutoff : datetime) (o : Order) : Prop :=
  o_deleted_at o = None ∧
  ((o_status o = completed ∧
    match o_completed_at o with Some t => (t ≤ retention_cutoff)%Z | None => False end) ∨
   (o_status o = cancelled ∧
    match o_cancelled_at o with Some t => (t ≤ retention_cutoff)%Z | None => False end)).
#[export] Instance purgeable_dec cutoff o : Decision (purgeable cutoff o).
Proof.
  unfold purgeable. destruct (o_completed_at o), (o_cancelled_at o); apply _.
Defined.

Definition auto_completed (now : datetime) (o : Order) : Order :=
  o <| o_status := completed |> <| o_completed_at := Some now |>.

Definition auto_complete_one (now : datetime) (order : Order) : M unit :=
  save (auto_completed now order);;
  _write_snapshot (auto_completed now order).

Definition purge_one (order : Order) : M unit :=
  (if decide (o_status order = completed) then _write_snapshot order else mret tt);;
  delete_order_row (o_id order).

Record PurgeResult := mkPurgeResult { purged_count : nat; auto_completed_count : nat }.

Definition run_purge_job : M PurgeResult :=
  ps ← _get_retention_settings;
  _now ← now;
  let grace_cutoff :=
    (_now - timedelta_hours (ps_order_auto_complete_grace_hours ps))%Z in
  ac_result ← select (auto_completable grace_cutoff);
  for_each ac_result (auto_complete_one _now);;
  let retention_cutoff := (_now - timedelta_days (ps_retention_min_days ps))%Z in
  purge_candidates ← select (purgeable retention_cutoff);
  for_each purge_candidates purge_one;;
  mret (mkPurgeResult (length purge_candidates) (length ac_result)).

(** ** Settings *)

Definition get_retention_settings : M PlatformSettings := _get_retention_settings.

Definition update_retention_settings (caller : User)
    (retention_min_days order_auto_complete_grace_hours : option Z) :
    M PlatformSettings :=
  ps ← _get_retention_settings;
  raise_if (is_Some retention_min_days ∧ (default 0 retention_min_days < 1)%Z)
    RetentionSettingInvalid;;
  raise_if (is_Some order_auto_complete_grace_hours ∧
            (default 0 order_auto_complete_grace_hours < 1)%Z)
    RetentionSettingInvalid;;
  _now ← now;
  let ps := ps
    <| ps_retention_min_days := default (ps_retention_min_days ps) retention_min_days |>
    <| ps_order_auto_complete_grace_hours :=
         default (ps_order_auto_complete_grace_hours ps)
           order_auto_complete_grace_hours |>
    <| ps_updated_at := _now |>
    <| ps_updated_by_user_id := Some (u_id caller) |> in
  save ps;;
  mret ps.
