(* ===== verification/RetentionFacts.v ===== *)
(** * What deletion, purge and listing do when they succeed *)

From S2P Require Import Prelude.
From S2P Require Import Exceptions.
From S2P Require Import Models.
From S2P Require Import Session.
From S2P Require Import SessionFacts.
From S2P Require Import Orders.
From S2P Require Import OrdersFacts.
From S2P Require Import Retention.
#[local] Open Scope Z_scope.

(** ** Settings *)

(** The settings in force in a database: the singleton row, or the default one
    the service seeds. *)
Definition settings_in_force (env : Env) (d : DB) : PlatformSettings :=
  default (default_settings (server_now env)) (platform_settings d !! 1%N).
Definition settings_seeded (env : Env) (d : DB) : DB :=
  d <| platform_settings ::= <[1%N := settings_in_force env d]> |>.

Lemma get_settings_Ok env s s' ps :
  _get_retention_settings env s = (Ok ps, s') →
  ps = settings_in_force env (working s) ∧
  s' = s <| working := settings_seeded env (working s) |>.
Proof.
  unfold _get_retention_settings, settings_seeded, settings_in_force. intros H. inv_run.
  destruct (table (working s) !! 1%N) as [ps0|] eqn:E; inv_run; cbn in E;
    rewrite E; split; try done.
  cbn. rewrite insert_id by done. destruct s as [c w ? ? ?]. by destruct w.
Qed.

(** ** Deletion *)

(** The database without an order and the rows that reference it. *)
Definition order_removed (oid : uuid) (d : DB) : DB :=
  d <| orders ::= filter (λ kr, ¬ o_id kr.2 = oid) |>
    <| order_items ::= filter (λ kr, ¬ oi_order_id kr.2 = oid) |>
    <| deliveries ::= filter (λ kr, ¬ d_order_id kr.2 = oid) |>
    <| driver_assignments ::= filter (λ kr, ¬ a_order_id kr.2 = oid) |>
    <| order_tracking_points ::= filter (λ kr, ¬ tp_order_id kr.2 = oid) |>
    <| order_messages ::= filter (λ kr, ¬ om_order_id kr.2 = oid) |>
    <| delivery_codes ::= filter (λ kr, ¬ dc_order_id kr.2 = oid) |>
    <| delivery_code_attempts ::= filter (λ kr, ¬ at_order_id kr.2 = oid) |>.

Lemma delete_order_row_Ok env s s' oid b :
  delete_order_row oid env s = (Ok b, s') →
  working s' = order_removed oid (working s).
Proof. unfold delete_order_row. intros H. inv_run. reflexivity. Qed.

(** Who may delete the order at all. *)
Definition may_delete (caller : User) (o : Order) : Prop :=
  may_lock caller o ∧ u_role caller ≠ driver.

Definition has_snapshot (oid : uuid) (d : DB) : Prop :=
  ∃ k sn, order_analytics_snapshots d !! k = Some sn ∧ sn_order_id sn = oid.

Lemma snapshot_written_has o d d' : snapshot_written o d d' → has_snapshot (o_id o) d'.
Proof.
  intros [(k & sn & Hk & Ho & ->)|(sn & Hf & Hsn & _ & ->)]; [by exists k, sn|].
  exists (sn_id sn), sn. cbn. rewrite lookup_insert_eq. by destruct Hsn.
Qed.

Lemma delete_order_Ok env s s' caller oid b :
  delete_order caller oid env s = (Ok b, s') →
  ∃ o t0 t d1, orders (working s) !! oid = Some o ∧ may_delete caller o ∧
    _terminal_at o = Some t0 ∧
    timedelta_days (ps_retention_min_days (settings_in_force env (working s))) ≤ t - t0 ∧
    t = clock env (clock_reads s) ∧
    (if decide (o_status o = completed)
     then snapshot_written o (settings_seeded env (working s)) d1
     else d1 = settings_seeded env (working s)) ∧
    working s' = order_removed (o_id o) d1.
Proof.
  unfold delete_order, _load_order_locked. intros H. inv_run.
  destruct (table (working s) !! oid) as [o|] eqn:E; inv_run; unneg.
  destruct (_terminal_at o) as [t0|] eqn:Et; inv_run.
  match goal with H : _get_retention_settings _ _ = _ |- _ =>
    apply get_settings_Ok in H as [-> ->] end.
  match goal with H : delete_order_row _ _ _ = _ |- _ =>
    apply delete_order_row_Ok in H as Hw end.
  match goal with H : (if decide (o_status o = completed) then _ else _) _ _ = (Ok _, ?s1) |- _ =>
    rename H into Hsn; exists o, t0; eexists _, (working s1) end.
  assert (may_delete caller o) as Hmay
    by (split; [split_and!; [done|intros; apply dec_stable; naive_solver..]|done]).
  cbn. split_and!; [done|done|done| |reflexivity| |done].
  - by apply Z.nlt_ge.
  - case_decide; [by apply write_snapshot_Ok in Hsn|by inv_run].
Qed.

(** ** Purge *)

Definition snapshots_grow (d d' : DB) : Prop :=
  ∀ k sn, order_analytics_snapshots d !! k = Some sn →
          order_analytics_snapshots d' !! k = Some sn.
#[export] Instance snapshots_grow_preorder : PreOrder snapshots_grow.
Proof. split; [by intros d k sn|intros d1 d2 d3 H1 H2 k sn ?; auto]. Qed.

Lemma snapshot_written_grows o d d' : snapshot_written o d d' → snapshots_grow d d'.
Proof.
  intros [(k & sn & _ & _ & ->)|(sn & Hf & _ & _ & ->)]; [done|].
  intros k sn' Hk. cbn. rewrite lookup_insert_ne; [done|]. congruence.
Qed.
Lemma snapshot_written_orders o d d' : snapshot_written o d d' → orders d' = orders d.
Proof. by intros [(k & sn & _ & _ & ->)|(sn & _ & _ & _ & ->)]. Qed.
Lemma has_snapshot_grows oid d d' :
  has_snapshot oid d → snapshots_grow d d' → has_snapshot oid d'.
Proof. intros (k & sn & Hk & Ho) Hg. exists k, sn. auto. Qed.

(** One round of the job writes the snapshot and then touches [orders] only
    as the loop says. *)
Definition grows_rel : relation Session := λ s s',
  snapshots_grow (working s) (working s').
#[export] Instance grows_rel_preorder : PreOrder grows_rel.
Proof. unfold grows_rel. split; [by intros s|]. intros s1 s2 s3 ??. by etrans. Qed.

Lemma auto_complete_one_Ok env t o s s' b :
  auto_complete_one t o env s = (Ok b, s') →
  orders (working s') = <[o_id o := auto_completed t o]> (orders (working s)) ∧
  snapshots_grow (working s) (working s') ∧ has_snapshot (o_id o) (working s').
Proof.
  unfold auto_complete_one. intros H. inv_run.
  apply write_snapshot_Ok in H as Hw. split_and!.
  - apply snapshot_written_orders in Hw. rewrite Hw. done.
  - by apply snapshot_written_grows in Hw.
  - by apply snapshot_written_has in Hw.
Qed.

(** Removing an order by its id from a keyed table is [delete]. *)
Lemma filter_delete (t : gmap uuid Order) (oid : uuid) :
  (∀ k o, t !! k = Some o → o_id o = k) →
  filter (λ kr : uuid * Order, ¬ o_id kr.2 = oid) t = delete oid t.
Proof.
  intros Hk. apply map_eq. intros k. rewrite map_lookup_filter.
  destruct (decide (k = oid)) as [->|Hne].
  - rewrite lookup_delete_eq. destruct (t !! oid) as [o|] eqn:E; cbn; [|done].
    apply Hk in E. case_guard; naive_solver.
  - rewrite lookup_delete_ne by done. destruct (t !! k) as [o|] eqn:E; cbn; [|done].
    apply Hk in E. case_guard; naive_solver.
Qed.

Lemma purge_one_Ok env o s s' b :
  purge_one o env s = (Ok b, s') →
  (keyed (R:=Order) (working s) →
   orders (working s') = delete (o_id o) (orders (working s))) ∧
  snapshots_grow (working s) (working s') ∧
  (o_status o = completed → has_snapshot (o_id o) (working s')).
Proof.
  unfold purge_one. intros H. inv_run.
  match goal with H : (if decide _ then _ else _) _ _ = (Ok _, ?s1) |- _ =>
    assert (orders (working s1) = orders (working s) ∧
            snapshots_grow (working s) (working s1) ∧
            (o_status o = completed → has_snapshot (o_id o) (working s1)))
      as (Ho & Hg & Hs) end.
  { case_decide; inv_run; [|done].
    match goal with H : _write_snapshot _ _ _ = _ |- _ =>
      apply write_snapshot_Ok in H as Hw end.
    split_and!; [by eapply snapshot_written_orders|by eapply snapshot_written_grows|].
    intros _. by eapply snapshot_written_has. }
  apply delete_order_row_Ok in H as ->. split_and!; [|done|done].
  intros Hk. unfold order_removed. cbn. rewrite Ho. apply filter_delete, Hk.
Qed.

(** The orders after the job: the overdue delivered ones completed, then the
    expired terminal ones removed. *)
Definition purged_orders (now grace days : Z) (t : gmap uuid Order) :
    gmap uuid Order :=
  let completed_ := omap (λ o, Some (if decide (auto_completable (now - grace) o)
                                     then auto_completed now o else o)) t in
  omap (λ o, if decide (purgeable (now - days) o) then None else Some o) completed_.

Lemma keyed_omap (t : gmap uuid Order) (f : Order → option Order) :
  (∀ o o', f o = Some o' → o_id o' = o_id o) →
  (∀ k o, t !! k = Some o → o_id o = k) →
  ∀ k o, omap f t !! k = Some o → o_id o = k.
Proof.
  intros Hf Hk k o' (o & Ho & Hfo)%lookup_omap_Some.
  rewrite (Hf _ _ Ho). by apply Hk.
Qed.

Lemma auto_complete_loop env t cutoff s s' b :
  keyed (R:=Order) (working s) →
  for_each (filter (auto_completable cutoff) (rows (orders (working s))))
    (auto_complete_one t) env s = (Ok b, s') →
  snapshots_grow (working s) (working s') ∧
  orders (working s') = omap (λ o, Some (if decide (auto_completable cutoff o)
    then auto_completed t o else o)) (orders (working s)) ∧
  ∀ o, o ∈ filter (auto_completable cutoff) (rows (orders (working s))) →
       has_snapshot (o_id o) (working s').
Proof.
  intros Hk Hl.
  assert (table (R:=Order) (working s') = omap (λ o, if decide (auto_completable cutoff o)
    then Some (auto_completed t o) else Some o) (table (working s))) as Htab.
  { eapply row_loop_Ok; [| |done|exact Hl]; [by intros r r' [= <-]|].
    intros r s1 s2 b' _ H. apply auto_complete_one_Ok in H as [Ho _]. exact Ho. }
  apply (for_each_establishes env grows_rel
           (λ o s, has_snapshot (o_id o) (working s))) in Hl as [Hr Hq].
  - split_and!; [done| |done]. cbn in Htab. rewrite Htab. apply map_eq.
    intros k. rewrite !lookup_omap. destruct (orders (working s) !! k); cbn; [|done].
    by case_decide.
  - apply _.
  - intros o s1 s2 ??. by eapply has_snapshot_grows.
  - intros o s1 s2 _ H. apply auto_complete_one_Ok in H. naive_solver.
Qed.

Lemma purge_loop env cutoff s s' b :
  keyed (R:=Order) (working s) →
  for_each (filter (purgeable cutoff) (rows (orders (working s)))) purge_one env s
    = (Ok b, s') →
  snapshots_grow (working s) (working s') ∧
  orders (working s') = omap (λ o, if decide (purgeable cutoff o) then None else Some o)
    (orders (working s)) ∧
  ∀ o, o ∈ filter (purgeable cutoff) (rows (orders (working s))) →
       o_status o = completed → has_snapshot (o_id o) (working s').
Proof.
  intros Hk Hl.
  assert (table (R:=Order) (working s') =
    omap (λ o, if decide (purgeable cutoff o) then None else Some o)
      (table (working s))) as Htab.
  { eapply (row_loop_Ok env (λ _, None)); [done| |done|exact Hl].
    intros r s1 s2 b' Hk1 H. apply purge_one_Ok in H as [Ho _]. by apply Ho in Hk1. }
  apply (for_each_establishes env grows_rel
           (λ o s, o_status o = completed → has_snapshot (o_id o) (working s)))
    in Hl as [Hr Hq].
  - done.
  - apply _.
  - intros o s1 s2 Hs ??. eapply has_snapshot_grows; eauto.
  - intros o s1 s2 _ H. by apply purge_one_Ok in H as (_ & ? & ?).
Qed.

(** The job: exactly the overdue orders are completed and exactly the expired
    ones removed, and every order it completes or removes as completed is in
    the analytics snapshots. *)
Lemma run_purge_job_Ok env s s' res :
  keyed (R:=Order) (working s) →
  run_purge_job env s = (Ok res, s') →
  let ps := settings_in_force env (working s) in
  let t := clock env (clock_reads s) in
  let grace := timedelta_hours (ps_order_auto_complete_grace_hours ps) in
  let days := timedelta_days (ps_retention_min_days ps) in
  orders (working s') = purged_orders t grace days (orders (working s)) ∧
  snapshots_grow (working s) (working s') ∧
  (∀ k o, orders (working s) !! k = Some o →
     auto_completable (t - grace) o ∨ (o_status o = completed ∧ purgeable (t - days) o) →
     has_snapshot (o_id o) (working s')).
Proof.
  intros Hk H. cbv zeta. unfold run_purge_job in H. inv_run.
  match goal with H : _get_retention_settings _ _ = _ |- _ =>
    apply get_settings_Ok in H as [-> ->] end.
  match goal with H1 : for_each _ (auto_complete_one _) _ _ = _,
                  H2 : for_each _ purge_one _ _ = _ |- _ =>
    apply auto_complete_loop in H1 as (Hg1 & Ho1 & Hs1);
    [|done]; apply purge_loop in H2 as (Hg2 & Ho2 & Hs2) end.
  - cbn in *. split_and!.
    + rewrite Ho2, Ho1. done.
    + etrans; [|exact Hg2]. exact Hg1.
    + intros k o Ho [Hac|[Hst Hp]].
      * eapply has_snapshot_grows; [|exact Hg2]. apply Hs1.
        apply elem_of_selected. eauto.
      * apply Hs2; [|done]. apply elem_of_selected. split; [done|].
        exists k. rewrite Ho1, lookup_omap, Ho. cbn. rewrite decide_False; [done|].
        intros [? _]. congruence.
  - intros k o. cbn in Ho1 |- *. rewrite Ho1. apply keyed_omap; [|done].
    intros o1 o2 [= <-]. by case_decide.
Qed.
