(* ===== verification/AccountProps.v ===== *)
(** * Correctness of accounts, invites and sessions *)

From S2P Require Import Prelude.
From S2P Require Import Exceptions.
From S2P Require Import Models.
From S2P Require Import Session.
From S2P Require Import SessionFacts.
From S2P Require Import Security.
From S2P Require Import CryptoModel.
From S2P Require Import Invites.
From S2P Require Import InviteFacts.
From S2P Require Import Auth.
From S2P Require Import AuthFacts.
From S2P Require Import AccountMachine.
From S2P Require Import Fixtures.
#[local] Open Scope Z_scope.

(** ** Refresh tokens *)

(** The row a presented refresh token selects. *)
Definition token_row `{Crypto} (d : DB) (plaintext : string) (k : uuid)
    (row : RefreshToken) : Prop :=
  refresh_tokens d !! k = Some row ∧ rt_token_hash row = hash_refresh_token plaintext.

(** No two refresh tokens share a hash (the UNIQUE constraint). *)
Definition tokens_ok (d : DB) : Prop :=
  keyed (R:=RefreshToken) d ∧ unique_rows (R:=RefreshToken) d.

Section refresh_facts.
Context `{Crypto} (settings : Settings) (env : Env).
Implicit Types (s : Session).

Lemma select_token s plaintext k row :
  tokens_ok (working s) → token_row (working s) plaintext k row →
  select_one (λ r, rt_token_hash r = hash_refresh_token plaintext) env s
    = (Ok (Some row), s).
Proof.
  intros [Hk Hu] [Hrow Hhash]. unfold select_one, mbind, M_bind, select, query. cbn.
  rewrite (selected_unique (refresh_tokens (working s)) _ k row); [done|done|done|].
  intros k' r' Hr' Hh. destruct (decide (k' = k)) as [|Hne]; [done|].
  exfalso. eapply (Hu k' k r' row); [done..|cbn; congruence].
Qed.

Lemma refresh_Ok s s' plaintext r :
  refresh settings plaintext env s = (Ok r, s') →
  ∃ k row user new t, token_row (working s) plaintext k row ∧
    rt_revoked_at row = None ∧ t ≤ rt_expires_at row ∧
    t = clock env (clock_reads s) ∧
    (∃ ku, users (working s) !! ku = Some user) ∧ u_id user = rt_user_id row ∧
    u_deleted_at user = None ∧ u_is_active user = true ∧ u_disabled_at user = None ∧
    rt_user_id new = rt_user_id row ∧ rt_revoked_at new = None ∧
    rt_token_hash new = hash_refresh_token (rr_refresh_token r) ∧
    rt_expires_at new = t + timedelta_days 7 ∧
    let row' := row <| rt_revoked_at := Some t |> <| rt_last_used_at := Some t |> in
    refresh_tokens (working s) !! rt_id new = None ∧
    ¬ has_conflict row' (refresh_tokens (working s)) ∧
    ¬ has_conflict new (<[rt_id row := row']> (refresh_tokens (working s))) ∧
    working s' = (working s)
      <| refresh_tokens ::= λ tb, <[rt_id new := new]> (<[rt_id row := row']> tb) |>.
Proof.
  unfold refresh. intros Hr. apply bind_Ok in Hr as (o & s1 & Ho & Hr).
  apply select_one_Ok in Ho as [Ho ->]. destruct o as [row|]; [|by inv_run].
  apply selected_Some in Ho as (Hhash & [k Hk] & _).
  destruct (rt_revoked_at row) eqn:Hrev; [by inv_run|].
  inv_run.
  match goal with Hx : match ?o with _ => _ end _ _ = _ |- _ =>
    destruct o as [user|] end; [|by inv_run].
  match goal with Hx : filter _ (rows (table (R:=User) _)) = _ |- _ =>
    apply selected_Some in Hx as ([Hu1 Hu2] & [ku Hku] & _) end.
  apply bind_Ok in Hr as (u0 & s1 & Hguard & Hr).
  apply raise_if_Ok in Hguard as [Hguard ->].
  apply Decidable.not_or in Hguard as [Hact Hdis].
  apply dec_stable in Hdis. apply not_false_iff_true in Hact.
  apply bind_Ok in Hr as (u1 & s1 & Hsave & Hr).
  apply save_Ok in Hsave as (_ & Hc1 & ->).
  apply bind_Ok in Hr as (a & s1 & Ha & Hr).
  apply create_access_token_Ok in Ha as (Hw1 & _ & _).
  apply bind_Ok in Hr as (g & s2 & Hg & Hr).
  apply generate_refresh_token_Ok in Hg as [-> ->]. inv_run.
  match goal with Hx : _ !! pk ?n = None, Hy : ¬ has_conflict ?n _ |- _ =>
    match type of n with RefreshToken =>
      rename Hx into Hnone, Hy into Hc2;
      exists k, row, user, n, (clock env (clock_reads s)) end end.
  cbn in Hnone. rewrite Hw1 in Hnone. cbn in Hnone, Hc2. rewrite Hw1 in Hc2. cbn in Hc2.
  cbn. rewrite Hw1. cbn.
  split_and!; try done; try (by eexists); try lia.
  by rewrite lookup_insert_None in Hnone; destruct Hnone.
Qed.

(** Presenting a revoked token: the error, and the committed revocation. *)
Lemma refresh_replay s plaintext k row :
  tokens_ok (working s) → token_row (working s) plaintext k row →
  rt_revoked_at row ≠ None →
  ∃ s' t, refresh settings plaintext env s = (Raised TokenReused, s') ∧
    committed s' = (working s) <| refresh_tokens ::= fmap (λ r,
      if decide (rt_user_id r = rt_user_id row ∧ rt_revoked_at r = None)
      then r <| rt_revoked_at := Some t |> else r) |>.
Proof.
  intros Hok Hrow Hrev. unfold refresh, mbind, M_bind.
  rewrite (select_token s plaintext k row Hok Hrow).
  destruct (rt_revoked_at row); [|done]. cbn. by eexists _, _.
Qed.
End refresh_facts.

Lemma token_conflicts_sym (a b : RefreshToken) : conflicts a b → conflicts b a.
Proof. cbn. congruence. Qed.

Lemma tokens_ok_write d (row : RefreshToken) :
  tokens_ok d → ¬ has_conflict row (refresh_tokens d) →
  tokens_ok (d <| refresh_tokens ::= <[rt_id row := row]> |>).
Proof.
  intros [Hk Hu] Hc. split.
  - intros k r. cbn. intros [[<- <-]|[_ ?]]%lookup_insert_Some; [done|by apply Hk].
  - exact (write_unique (R:=RefreshToken) row d token_conflicts_sym Hk Hu Hc).
Qed.

(** ** Properties *)

Section properties.
Context `{Crypto} (settings : Settings).

(** In every reachable database the use counter of an invite is the
    number of accounts created with it and never exceeds its limit (so an
    admin invite admits one account), and a seller has at most one unrevoked
    referral link. *)
Theorem invites_are_limited d d' :
  invites_ok d → rtc (account_request settings) d d' →
  ∀ k i, invite_links d' !! k = Some i →
    i_used_count i = signups_with d' k ∧
    (∀ m, i_max_uses i = Some m → signups_with d' k ≤ m) ∧
    (∀ k' i', invite_links d' !! k' = Some i' →
       active_referral (i_issuer_id i) i → active_referral (i_issuer_id i) i' → k' = k).
Proof.
  intros Hok Hr. assert (invites_ok d') as Hok'.
  { induction Hr as [d|d d1 d' Hr _ IH]; [done|]. apply IH. by eapply request_invites_ok. }
  by apply invites_ok_limits.
Qed.

(** C12: a sign-up consumes exactly one use of a live invite and creates
    exactly one account, whose role is the one the invite grants: the target
    role of an admin invite, or customer or seller under the referral of an
    active seller, who is recorded as the referrer.  No choice of role in the
    request gives any other role. *)
Theorem signup_grants_invited_role env d d' req r :
  get_db (signup settings req) env d = (Ok r, d') →
  ∃ k i u, invite_links d !! k = Some i ∧ i_token i = sr_invite_token req ∧
    i_revoked_at i = None ∧ unexpired (clock env 0) i ∧ has_room i ∧
    invite_links d' = <[i_id i := used_once i]> (invite_links d) ∧
    users d !! u_id u = None ∧ users d' = <[u_id u := u]> (users d) ∧
    lr_user_id r = u_id u ∧ lr_role r = u_role u ∧
    role_granted d i (sr_role_choice req) (u_role u) ∧
    (u_role u = admin ∨ u_role u = driver →
       i_type i = admin_invite ∧ i_role_target i = Some (u_role u)) ∧
    (i_type i = seller_referral → u_referring_seller_id u = Some (i_issuer_id i)).
Proof.
  intros Hr. apply get_db_Ok in Hr as (s' & Hr & ->).
  apply signup_Ok in Hr
    as (i & k & role & u & rf & row & Hk & Htok & Hrev & Hroom & Hexp & Hrole & _ & Hacc &
        _ & Hnu & _ & _ & _ & _ & _ & _ & Hid & Hlr & _ & ->).
  destruct Hacc as (_ & Hur & _ & _ & _ & _ & _ & _ & Href). subst role.
  exists k, i, u. cbn. split_and!; try done.
  - unfold role_granted in Hrole. destruct (i_type i).
    + intros _. split; [done|]. by destruct Hrole.
    + destruct Hrole as [[Hc|Hc] _]; rewrite Hc; naive_solver congruence.
  - intros Ht. by rewrite Ht in Href.
Qed.

(** when a sign-up, login or any other account or invite operation
    except the refresh of a token fails, the database is unchanged; in
    particular a rejected sign-up does not consume its invite. *)
Theorem failed_account_requests_leave_no_trace env d d' call e :
  (∀ token, call ≠ Refresh token) →
  get_db (account_exec settings call) env d = (Raised e, d') → d' = d.
Proof.
  intros Hc Hr. eapply get_db_atomic_last; [|done]. by apply failing_calls_atomic.
Qed.

(** C14: a successful refresh revokes the presented token and
    issues one new token of the same user; presenting the old token again is
    answered with [AUTH_TOKEN_REUSED] and revokes every token of the user,
    the new one included, durably although the request fails. *)
Theorem refresh_rotates_and_detects_replay env d d' plaintext r :
  tokens_ok d →
  get_db (refresh settings plaintext) env d = (Ok r, d') →
  ∃ k k' row row' new, token_row d plaintext k row ∧ live_token (clock env 0) row ∧
    token_row d' plaintext k row' ∧ rt_revoked_at row' ≠ None ∧
    token_row d' (rr_refresh_token r) k' new ∧ rt_revoked_at new = None ∧
    rt_user_id new = rt_user_id row ∧
    ∀ env', ∃ d'', get_db (refresh settings plaintext) env' d' = (Raised TokenReused, d'') ∧
      ∀ k2 r2, refresh_tokens d'' !! k2 = Some r2 → rt_user_id r2 = rt_user_id row →
        rt_revoked_at r2 ≠ None.
Proof.
  intros Hok Hr. apply get_db_Ok in Hr as (s' & Hr & ->).
  apply refresh_Ok in Hr
    as (k & row & user & new & t & [Hk Hhash] & Hrev & Hle & -> & _ & Hu & _ & _ & _ & Hnu &
        Hnr & Hnh & _ & Hfresh & Hc1 & Hc2 & Hw).
  cbv zeta in Hfresh, Hc1, Hc2, Hw.
  set (t := clock env 0) in *. change (clock env (clock_reads (open_session d))) with t in *.
  set (row' := row <| rt_revoked_at := Some t |> <| rt_last_used_at := Some t |>) in *.
  pose proof (proj1 Hok _ _ Hk) as Hid. cbn in Hid, Hw, Hfresh, Hc1, Hc2.
  assert (rt_id new ≠ k) as Hne by (intros <-; cbn in Hk; congruence).
  assert (tokens_ok (working s')) as Hok'.
  { rewrite Hw.
    exact (tokens_ok_write (d <| refresh_tokens ::= <[rt_id row' := row']> |>) new
             (tokens_ok_write d row' Hok Hc1) Hc2). }
  assert (token_row (working s') plaintext k row') as Hrow'.
  { split; [|done]. rewrite Hw. cbn. by rewrite lookup_insert_ne, Hid, lookup_insert_eq. }
  exists k, (rt_id new), row, row', new. split_and!; try done.
  - split; [|done]. rewrite Hw. cbn. apply lookup_insert_eq.
  - intros env'.
    destruct (refresh_replay settings env' (open_session (working s')) plaintext k row'
      Hok' Hrow' ltac:(done)) as (s'' & t' & Hraise & Hcom).
    exists (committed s''). split; [apply get_db_Raised; eauto|].
    intros k2 r2. rewrite Hcom. cbn. intros (r0 & <- & _)%lookup_fmap_Some.
    case_decide as Hd; [done|]. intros Hu2 Hn. by apply Hd.
Qed.
End properties.

(** ** Validation predicts consumption *)

(** The error [consume_invite] owes to an invite that [validate_invite] reports
    as not valid. *)
Definition predicted_error (v : ValidateInviteResponse) : exc_class :=
  if decide (vi_type v = "unknown"%string) then InviteInvalid
  else if vi_revoked v then InviteRevoked
  else if vi_expired v then InviteExpired
  else InviteAlreadyUsed.

Lemma is_expired_eq env s i :
  ∃ b s', _is_expired i env s = (Ok b, s') ∧
    working s' = working s ∧ committed s' = committed s.
Proof. unfold _is_expired. destruct (i_expires_at i); cbn; by eexists _, _. Qed.

(** For the same token at the same moment, an invite that the public
    validation reports as not valid is rejected by the sign-up with the error
    for the reported reason (in the order unknown, revoked, expired, used),
    and nothing changes; an invite a sign-up consumes was reported as valid. *)
Theorem validation_predicts_consumption env d d' token choice v :
  get_db (validate_invite token) env d = (Ok v, d') →
  d' = d ∧
  (vi_valid v = false →
     get_db (consume_invite token choice) env d = (Raised (predicted_error v), d)) ∧
  (∀ i d2, get_db (consume_invite token choice) env d = (Ok i, d2) → vi_valid v = true).
Proof.
  intros Hr. apply get_db_Ok in Hr as (s' & Hr & ->).
  enough (working s' = d ∧ (vi_valid v = false →
    get_db (consume_invite token choice) env d = (Raised (predicted_error v), d)))
    as [-> Hfalse].
  { split_and!; [done..|]. intros i d2 Hok. destruct (vi_valid v) eqn:E; [done|].
    rewrite Hfalse in Hok by done. discriminate. }
  unfold validate_invite in Hr. apply bind_Ok in Hr as (o & s1 & Ho & Hr).
  unfold get_db, consume_invite, consume_invite_on, mbind, M_bind. rewrite Ho.
  apply select_one_Ok in Ho as [_ ->].
  destruct o as [i|]; [|by inv_run].
  inv_run.
  match goal with Hx : _is_expired i env _ = (Ok ?b, ?s1) |- _ =>
    destruct (is_expired_eq env (open_session d) i) as (expired & s2 & He & Hw & Hc);
    rewrite He in Hx; injection Hx as <- <- end.
  split; [done|]. unfold predicted_error. cbn. rewrite decide_False by by destruct (i_type i).
  unfold raise_if. destruct (i_revoked_at i); cbn -[_is_expired]; [done|].
  rewrite decide_False by congruence. cbn -[_is_expired]. rewrite He. 
  destruct expired; cbn -[_is_used].
  - rewrite decide_True by done. cbn. by rewrite Hc.
  - rewrite decide_False by done. cbn -[_is_used].
    destruct (_is_used i); [|done]. rewrite decide_True by done. cbn. by rewrite Hc.
Qed.

(** ** Login *)

Section login.
Context `{Crypto} (settings : Settings).

(** The active, not deleted account of this email whose password this is. *)
Definition credentials_match (d : DB) (email password : string) : Prop :=
  ∃ k u, users d !! k = Some u ∧ citext_eq (u_email u) email ∧ u_deleted_at u = None ∧
    verify_password password (u_password_hash u) = true ∧ u_is_active u = true.

(** No two accounts that are not deleted share an email. *)
Definition emails_unique (d : DB) : Prop :=
  ∀ k1 k2 u1 u2, users d !! k1 = Some u1 → users d !! k2 = Some u2 →
    citext_eq (u_email u1) (u_email u2) → k1 = k2.

(** C21: an unknown email, a deleted account, a wrong password and a
    deactivated account all give the same error with the same (empty)
    effect; the account of a suspended user is not opened either, and a
    successful login means that the credentials matched. *)
Theorem login_failures_are_opaque env d email password label :
  emails_unique d →
  (¬ credentials_match d email password →
     get_db (login settings email password label) env d
       = (Raised InvalidCredentials, d)) ∧
  (∀ r d', get_db (login settings email password label) env d = (Ok r, d') →
     ∃ k u, users d !! k = Some u ∧ citext_eq (u_email u) email ∧
       verify_password password (u_password_hash u) = true ∧
       u_is_active u = true ∧ u_deleted_at u = None ∧ u_status u ≠ user_suspended ∧
       lr_user_id r = u_id u ∧ lr_role r = u_role u).
Proof.
  intros Hu. split.
  - intros Hno. unfold get_db, login, mbind, M_bind.
    assert (∃ o, select_one (λ u, citext_eq (u_email u) email ∧ u_deleted_at u = None)
        env (open_session d) = (Ok o, open_session d) ∧
      ∀ u, o = Some u → ∃ k, users d !! k = Some u ∧ citext_eq (u_email u) email ∧
        u_deleted_at u = None) as (o & -> & Ho).
    { unfold select_one, mbind, M_bind, select, query. cbn.
      destruct (filter _ (rows (users d))) as [|u l] eqn:E; [by exists None|].
      assert (u ∈ u :: l) as Hin by left. rewrite <- E in Hin.
      apply elem_of_selected in Hin as [[He Hd] [k Hk]].
      assert ([u] = u :: l) as [= <-].
      { rewrite <- E. symmetry. apply (selected_unique _ _ k u); [done|done|].
        intros k' u' Hk' [He' Hd']. eapply Hu; [done..|].
        unfold citext_eq in *. congruence. }
      exists (Some u). split; [done|]. intros ? [= <-]. by exists k. }
    destruct o as [u|]; [|done]. destruct (Ho u eq_refl) as (k & Hk & He & Hd).
    unfold raise_if. case_decide as Hv; [done|]. cbn. case_decide as Ha; [done|].
    destruct Hno. exists k, u. apply not_false_iff_true in Hv, Ha. by split_and!.
  - intros r d' Hr. apply get_db_Ok in Hr as (s' & Hr & ->).
    unfold login in Hr. apply bind_Ok in Hr as (o & s1 & Ho & Hr).
    apply select_one_Ok in Ho as [Ho ->]. destruct o as [u|]; [|by inv_run].
    apply selected_Some in Ho as ([He Hd] & [k Hk] & _).
    do 3 (apply bind_Ok in Hr as (? & ? & Hg & Hr); apply raise_if_Ok in Hg as [? ->]).
    do 4 (apply bind_Ok in Hr as (? & ? & _ & Hr)).
    apply build_login_response_Ok in Hr as (_ & _ & Hid & Hrole & _).
    exists k, u. split_and!; try done; by apply not_false_iff_true.
Qed.

(** A decoded payload comes from a key of the list. *)
Lemma decode_with_sound env keys token s s' c :
  decode_with keys token env s = (Ok (Some c), s') →
  working s' = working s ∧
  ∃ key n, key ∈ keys ∧ jwt_decode token key (clock env n) = JwtOk c.
Proof.
  revert s. induction keys as [|key keys IH]; cbn; intros s Hr; [inv_run; done|].
  inv_run. destruct (jwt_decode token key _) eqn:E; [|by inv_run|].
  - inv_run. simplify_eq. split; [done|]. exists key. eexists. split; [left|done].
  - apply IH in Hr as (Hw & key' & n & Hin & Hd). split; [done|].
    exists key', n. split; [by right|done].
Qed.

Lemma decode_sound env d token p s' :
  decode_access_token settings token env (open_session d) = (Ok p, s') →
  working s' = d ∧ ∃ key n c, key ∈ jwt_verification_keys settings ∧
    jwt_decode token key (clock env n) = JwtOk c ∧ raw_sub c = Some (at_sub p).
Proof.
  unfold decode_access_token. intros Hr. apply bind_Ok in Hr as (o & s1 & Ho & Hr).
  destruct o as [c|]; [|by inv_run].
  apply decode_with_sound in Ho as (Hw & key & n & Hin & Hd).
  destruct (raw_sub c) eqn:Hs, (raw_role c), (raw_jti c), (raw_exp c), (raw_iat c);
    inv_run; try done.
  split; [done|]. by exists key, n, c.
Qed.

(** An authenticated request runs as an account that exists, is neither
    deleted, deactivated, disabled nor suspended, and is the subject of an
    access token that verifies under one of the configured keys and has not
    expired. *)
Theorem request_callers_are_entitled env d d' token u :
  get_db (get_current_user settings (Some token)) env d = (Ok u, d') →
  (∃ k, users d !! k = Some u) ∧ u_deleted_at u = None ∧ u_is_active u = true ∧
  u_disabled_at u = None ∧ u_status u ≠ user_suspended ∧
  ∃ key n c, key ∈ jwt_verification_keys settings ∧
    jwt_decode token key (clock env n) = JwtOk c ∧ raw_sub c = Some (u_id u).
Proof.
  intros Hr. apply get_db_Ok in Hr as (s' & Hr & ->). unfold get_current_user in Hr.
  apply bind_Ok in Hr as (p & s1 & Hp & Hr).
  assert (working s1 = d ∧ ∃ key n c, key ∈ jwt_verification_keys settings ∧
    jwt_decode token key (clock env n) = JwtOk c ∧ raw_sub c = Some (at_sub p))
    as (Hw & key & n & c & Hkey & Hc & Hsub) by by eapply decode_sound.
  apply bind_Ok in Hr as (o & s2 & Ho & Hr). apply select_one_Ok in Ho as [Ho ->].
  destruct o as [u'|]; [|by inv_run].
  apply selected_Some in Ho as ([Hid Hd] & Hk & _). cbn in Hk. rewrite Hw in Hk.
  do 2 (apply bind_Ok in Hr as (? & ? & Hg & Hr); apply raise_if_Ok in Hg as [? ->]).
  inv_run.
  match goal with Hx : ¬ (_ ∨ _) |- _ => apply Decidable.not_or in Hx as [Hact Hdis] end.
  split_and!; try done; [by apply not_false_iff_true|by apply dec_stable|].
  exists key, n, c. split_and!; [done..|congruence].
Qed.
End login.

(** ** Access tokens *)

Section access_tokens.
Context `{Crypto}.

Lemma add_keys_spec keys candidates :
  NoDup keys → NoDup (add_keys keys candidates) ∧
  ∀ k, k ∈ add_keys keys candidates ↔ k ∈ keys ∨ (k ∈ candidates ∧ k ≠ ""%string).
Proof.
  revert keys. induction candidates as [|c cs IH]; cbn; intros keys Hnd.
  - split; [done|]. intros k. rewrite elem_of_nil. tauto.
  - case_decide as Hc.
    + destruct (IH (keys ++ [c])) as [Hnd' Hk].
      { apply NoDup_app. split_and!; [done| |apply NoDup_singleton].
        intros x Hx ->%list_elem_of_singleton. by apply Hc. }
      split; [done|]. intros k.
      rewrite Hk, elem_of_app, list_elem_of_singleton, elem_of_cons. naive_solver.
    + destruct (IH keys Hnd) as [Hnd' Hk]. split; [done|]. intros k.
      rewrite Hk, elem_of_cons.
      destruct (decide (c = ""%string)), (decide (c ∈ keys)); naive_solver.
Qed.

Lemma verification_keys_spec s :
  NoDup (jwt_verification_keys s) ∧
  (∀ k, k ≠ ""%string →
     k ∈ [jwt_secret_primary s; jwt_secret s; jwt_secret_secondary s] →
     k ∈ jwt_verification_keys s).
Proof.
  unfold jwt_verification_keys.
  destruct (add_keys_spec [] [jwt_secret_primary s; jwt_secret s; jwt_secret_secondary s])
    as [Hnd Hk]; [constructor|].
  destruct (add_keys [] _) as [|k0 ks].
  - split; [apply NoDup_singleton|]. intros k Hne Hin.
    destruct (not_elem_of_nil k). apply Hk. by right.
  - split; [done|]. intros k Hne Hin. apply Hk. by right.
Qed.

Lemma signing_key_candidate s :
  jwt_signing_key s ∈ [jwt_secret_primary s; jwt_secret s; jwt_secret_secondary s].
Proof. unfold jwt_signing_key, str_or. case_decide; [right; left|left]. Qed.

(** Decoding a token of a listed key, whatever keys come first. *)
Lemma decode_own `{!CryptoLaws} env keys c key s :
  key ∈ keys →
  ∃ n s', (clock_reads s ≤ n)%nat ∧ committed s' = committed s ∧ working s' = working s ∧
    decode_with keys (jwt_encode c key) env s =
    (if decide (timestamp (cl_exp c) < timestamp (clock env n))
     then Raised TokenExpired
     else Ok (Some (mkRawClaims (Some (cl_sub c)) (Some (cl_role c)) (Some (cl_jti c))
                      (Some (timestamp (cl_exp c))) (Some (timestamp (cl_iat c))))), s').
Proof.
  revert s. induction keys as [|k keys IH]; intros s Hin; [by apply not_elem_of_nil in Hin|].
  cbn. unfold mbind, M_bind. cbn. destruct (decide (k = key)) as [->|Hne].
  - rewrite jwt_decode_encode. exists (clock_reads s). eexists.
    case_decide; (split_and!; [lia| | |reflexivity]); done.
  - rewrite jwt_decode_other by done. apply elem_of_cons in Hin as [->|Hin]; [done|].
    destruct (IH (s <| clock_reads ::= S |>) Hin) as (n & s' & Hn & Hc & Hw & Hd).
    exists n, s'. cbn in Hn, Hc, Hw. by split_and!; [lia|..].
Qed.

(** After the signing key is rotated (a new primary secret, the old
    signing key as secondary secret) an access token issued before still
    authenticates the same user with the same role until it expires, and is
    rejected as expired from then on. *)
Theorem access_tokens_survive_key_rotation `{!CryptoLaws} s s' env d uid role token exp d1 :
  jwt_signing_key s ≠ ""%string → jwt_secret_secondary s' = jwt_signing_key s →
  get_db (create_access_token s uid role) env d = (Ok (token, exp), d1) →
  ∀ env2 d2,
    ((∀ n, timestamp (clock env2 n) ≤ timestamp exp) →
     ∃ p, get_db (decode_access_token s' token) env2 d2 = (Ok p, d2) ∧
       at_sub p = uid ∧ at_role p = user_role_str role) ∧
    ((∀ n, timestamp exp < timestamp (clock env2 n)) →
     get_db (decode_access_token s' token) env2 d2 = (Raised TokenExpired, d2)).
Proof.
  intros Hne Hsec Hr env2 d2. apply get_db_Ok in Hr as (s1 & Hr & _).
  apply create_access_token_Ok in Hr as (_ & Hexp & Htok). cbn in Hexp, Htok.
  assert (jwt_signing_key s ∈ jwt_verification_keys s') as Hin.
  { apply verification_keys_spec; [done|]. rewrite <- Hsec. right. right. left. }
  unfold get_db, decode_access_token, mbind, M_bind. rewrite Htok.
  match goal with |- context [jwt_encode ?c _] =>
    destruct (decode_own env2 _ c _ (open_session d2) Hin) as (n & s2 & _ & Hc & Hw & ->) end.
  cbn in Hc, Hw |- *. split; intros Ht; specialize (Ht n).
  - rewrite decide_False by lia. cbn. rewrite Hw. eexists. split; [reflexivity|done].
  - rewrite decide_True by lia. cbn. by rewrite Hc.
Qed.
End access_tokens.

(** ** Witnesses *)

Definition app_settings : Settings :=
  default_config <| environment := env_test |> <| jwt_secret := "s3cret" |>.
Definition driver_signup : SignupRequest :=
  mkSignup "dora@x" "correct horse battery" "Dora" None "A0-token" None.

(** An admin invites a driver, the driver signs up and refreshes the session. *)
Definition w_invited : DB :=
  after (get_db (create_admin_invite root_admin "driver" 24) (env_at 0) world).
Definition w_signed_up : DB :=
  after (get_db (signup app_settings driver_signup) (env_at 1) w_invited).
Definition signup_refresh : string := "C1-token".
Definition w_refreshed : DB :=
  after (get_db (refresh app_settings signup_refresh) (env_at 2) w_signed_up).

Example account_scenario :
  succeeds (get_db (signup app_settings driver_signup) (env_at 1) w_invited) &&
  succeeds (get_db (refresh app_settings signup_refresh) (env_at 2) w_signed_up) &&
  bool_decide (raised (get_db (signup app_settings driver_signup) (env_at 3) w_signed_up)
    = Some (app_exc InviteAlreadyUsed)) = true.
Proof. vm_compute. reflexivity. Qed.

Lemma world_invites_ok : invites_ok world.
Proof.
  split_and!; [intros k i Hk|intros k r Hk|intros k k2 r1 r2 Hk];
    vm_compute in Hk; by destruct k.
Qed.

Lemma account_request_in (env : Env) call d :
  account_request app_settings d (after (get_db (account_exec app_settings call) env d)).
Proof.
  apply (AccountRequest _ _ _ env call (get_db (account_exec app_settings call) env d).1).
  apply surjective_pairing.
Qed.

Lemma signup_reached : rtc (account_request app_settings) world w_signed_up.
Proof.
  apply (rtc_l _ _ w_invited).
  - unfold w_invited. rewrite <- ignore_after.
    apply (account_request_in (env_at 0) (CreateAdminInvite root_admin "driver" 24)).
  - apply rtc_once. unfold w_signed_up at 1. rewrite <- ignore_after.
    apply (account_request_in (env_at 1) (Signup driver_signup)).
Qed.

(** The driver's invite has one use, counted by its one referral. *)
Lemma invites_are_limited_witness :
  ∃ i, invite_links w_signed_up !! 1000%N = Some i ∧ i_used_count i = 1 ∧
    signups_with w_signed_up 1000 ≤ 1.
Proof.
  assert (∃ i, invite_links w_signed_up !! 1000%N = Some i ∧ i_used_count i = 1 ∧
    i_max_uses i = Some 1) as (i & Hi & Hused & Hmax)
    by (eexists; split; [vm_compute; reflexivity|by split]).
  exists i. split; [exact Hi|]. split; [exact Hused|].
  destruct (invites_are_limited app_settings world w_signed_up world_invites_ok
    signup_reached 1000%N i Hi) as (_ & Hle & _).
  exact (Hle 1 Hmax).
Defined.

Lemma signup_grants_invited_role_witness :
  ∃ u, users w_signed_up !! u_id u = Some u ∧ u_role u = driver.
Proof.
  destruct (succeeds_run (get_db (signup app_settings driver_signup) (env_at 1) w_invited))
    as [r Hr]; [vm_compute; reflexivity|].
  destruct (signup_grants_invited_role _ _ _ _ _ _ Hr)
    as (k & i & u & Hk & Htok & _ & _ & _ & _ & _ & Hu & _ & _ & Hrole & _).
  exists u. split; [unfold w_signed_up; rewrite Hu; apply lookup_insert_eq|].
  assert (map_Forall (λ _ i, i_type i = admin_invite ∧ i_role_target i = Some driver)
    (invite_links w_invited)) as Hall
    by (apply (bool_decide_eq_true_1 _); vm_compute; reflexivity).
  destruct (Hall k i Hk) as [Ht Hd]. unfold role_granted in Hrole. rewrite Ht in Hrole.
  destruct Hrole as [Hr' _]. congruence.
Defined.

Lemma failed_account_requests_leave_no_trace_witness :
  raised (get_db (account_exec app_settings (Signup driver_signup)) (env_at 3) w_signed_up)
    = Some (app_exc InviteAlreadyUsed) ∧
  after (get_db (account_exec app_settings (Signup driver_signup)) (env_at 3) w_signed_up)
    = w_signed_up.
Proof.
  split; [vm_compute; reflexivity|].
  apply (failed_account_requests_leave_no_trace app_settings (env_at 3) w_signed_up _
    (Signup driver_signup) InviteAlreadyUsed); [done|].
  destruct (get_db _ _ _) as [[u|e] d'] eqn:E.
  - assert (succeeds (get_db (account_exec app_settings (Signup driver_signup)) (env_at 3)
      w_signed_up) = true) as Hs by by rewrite E. vm_compute in Hs. discriminate.
  - assert (raised (get_db (account_exec app_settings (Signup driver_signup)) (env_at 3)
      w_signed_up) = Some e) as Hs by by rewrite E. vm_compute in Hs.
    by injection Hs as <-.
Defined.

Lemma w_signed_up_tokens : tokens_ok w_signed_up.
Proof.
  split; [apply keyed_eval; vm_compute; reflexivity|].
  assert (size (refresh_tokens w_signed_up) = 1%nat) as Hs by (vm_compute; reflexivity).
  intros k1 k2 r1 r2 H1 H2 Hne. destruct Hne.
  exact (size_one_unique _ _ _ _ _ Hs H1 H2).
Qed.

Lemma refresh_rotates_and_detects_replay_witness :
  raised (get_db (refresh app_settings signup_refresh) (env_at 3) w_refreshed)
    = Some (app_exc TokenReused).
Proof.
  destruct (succeeds_run (get_db (refresh app_settings signup_refresh) (env_at 2) w_signed_up))
    as [r Hr]; [vm_compute; reflexivity|].
  destruct (refresh_rotates_and_detects_replay app_settings (env_at 2) _ _ _ _
    w_signed_up_tokens Hr) as (_ & _ & row & _ & _ & _ & _ & _ & _ & _ & _ & _ & Hreplay).
  destruct (Hreplay (env_at 3)) as (d'' & Hd & _). unfold w_refreshed. by rewrite Hd.
Defined.

Lemma validation_predicts_consumption_witness :
  get_db (consume_invite "A0-token" None) (env_at 1000) w_invited
    = (Raised InviteExpired, w_invited).
Proof.
  destruct (succeeds_run (get_db (validate_invite "A0-token") (env_at 1000) w_invited))
    as [v Hv]; [vm_compute; reflexivity|].
  destruct (validation_predicts_consumption (env_at 1000) w_invited _ "A0-token" None v Hv)
    as (_ & Hrej & _).
  assert (Some v = match (get_db (validate_invite "A0-token") (env_at 1000) w_invited).1 with
                   | Ok v => Some v | Raised _ => None end) as Ev by by rewrite Hv.
  vm_compute in Ev. injection Ev as ->. apply (Hrej eq_refl).
Defined.

Lemma w_signed_up_emails : emails_unique w_signed_up.
Proof.
  assert (map_Forall (λ k1 u1, map_Forall (λ k2 u2,
    citext_eq (u_email u1) (u_email u2) → k1 = k2) (users w_signed_up)) (users w_signed_up))
    as Hall by (apply (bool_decide_eq_true_1 _); vm_compute; reflexivity).
  intros k1 k2 u1 u2 H1 H2. exact (Hall k1 u1 H1 k2 u2 H2).
Qed.

Lemma login_failures_are_opaque_witness :
  get_db (login app_settings "DORA@x" "wrong" None) (env_at 4) w_signed_up
    = (Raised InvalidCredentials, w_signed_up).
Proof.
  apply (login_failures_are_opaque app_settings (env_at 4) w_signed_up "DORA@x" "wrong" None
    w_signed_up_emails).
  intros (k & u & Hk & _ & _ & Hv & _).
  assert (map_Forall (λ _ u, verify_password "wrong" (u_password_hash u) = false)
    (users w_signed_up)) as Hall by (apply (bool_decide_eq_true_1 _); vm_compute; reflexivity).
  rewrite (Hall k u Hk) in Hv. discriminate.
Defined.

(** Dora's access token, as the sign-up returned it. *)
Definition dora_token : string :=
  match (get_db (signup app_settings driver_signup) (env_at 1) w_invited).1 with
  | Ok r => lr_access_token r
  | Raised _ => ""
  end.

Lemma request_callers_are_entitled_witness :
  ∃ u, get_db (get_current_user app_settings (Some dora_token)) (env_at 1) w_signed_up
    = (Ok u, after (get_db (get_current_user app_settings (Some dora_token)) (env_at 1)
                      w_signed_up)) ∧ u_status u ≠ user_suspended.
Proof.
  destruct (succeeds_run (get_db (get_current_user app_settings (Some dora_token))
    (env_at 1) w_signed_up)) as [u Hu]; [vm_compute; reflexivity|].
  exists u. split; [exact Hu|].
  exact (proj1 (proj2 (proj2 (proj2 (proj2
    (request_callers_are_entitled app_settings _ _ _ _ _ Hu)))))).
Defined.

Definition rotated_settings : Settings :=
  app_settings <| jwt_secret_primary := "new" |> <| jwt_secret_secondary := "s3cret" |>.

(** A process whose clock stands still. *)
Definition frozen (t : datetime) : Env :=
  {| clock _ := t; uuids := uuids (env_at 1); tokens := tokens (env_at 1);
     randoms := randoms (env_at 1); server_now := t |}.

Lemma access_tokens_survive_key_rotation_witness :
  ∃ token exp, (get_db (create_access_token app_settings 4 driver) (frozen 0) world).1
      = Ok (token, exp) ∧
    succeeds (get_db (decode_access_token rotated_settings token)
      (frozen (timedelta_minutes 15)) world) = true ∧
    get_db (decode_access_token rotated_settings token) (frozen (timedelta_minutes 16)) world
      = (Raised TokenExpired, world).
Proof.
  destruct (succeeds_run (get_db (create_access_token app_settings 4 driver) (frozen 0) world))
    as [[token exp] Hr]; [vm_compute; reflexivity|].
  exists token, exp. split; [by rewrite Hr|].
  pose proof (access_tokens_survive_key_rotation app_settings rotated_settings (frozen 0)
    world 4 driver token exp _ ltac:(discriminate) eq_refl Hr) as Hrot.
  assert (exp = timedelta_minutes 15) as ->.
  { apply get_db_Ok in Hr as (s' & Hr & _).
    by apply create_access_token_Ok in Hr as (_ & Hexp & _). }
  split.
  - destruct (Hrot (frozen (timedelta_minutes 15)) world) as [Hlive _].
    destruct Hlive as (p & Hp & _); [by intros n|by rewrite Hp].
  - destruct (Hrot (frozen (timedelta_minutes 16)) world) as [_ Hdead]. by apply Hdead.
Defined.
