(* ===== verification/OrderMachine.v ===== *)
(** * The order state machine

    Every operation of [order_service] as one request, the abstract evolution
    of a single order row, and the refinement between them.  The delivery-code
    path of [delivery_flow_service] changes orders outside this machine; it is
    treated in [DeliveryFlow]. *)

From S2P Require Import Prelude.
From S2P Require Import Exceptions.
From S2P Require Import Models.
From S2P Require Import Session.
From S2P Require Import SessionFacts.
From S2P Require Import Orders.
From S2P Require Import OrdersFacts.
From S2P Require Import CheckoutFacts.
From S2P Require Import Retention.
From S2P Require Import RetentionFacts.
#[local] Open Scope Z_scope.

(** ** Requests *)

Inductive OrderCall :=
| CreateOrder (items : list LineItem) (addr : Address)
| AcceptOrder (oid : uuid)
| MarkPreparing (oid : uuid)
| ChooseSelfDelivery (oid : uuid)
| RequestDriver (oid : uuid)
| AssignDriver (oid driver_id : uuid)
| OutForDelivery (oid : uuid)
| MarkDelivered (oid : uuid)
| CompleteOrder (oid : uuid)
| CancelOrder (oid : uuid) (reason : option string)
| DeleteOrder (oid : uuid)
| RunPurgeJob
| UpdateRetentionSettings (days hours : option Z).

Definition exec (caller : User) (call : OrderCall) : M unit :=
  match call with
  | CreateOrder items addr => ignore (create_order caller items addr)
  | AcceptOrder oid => ignore (accept_order caller oid)
  | MarkPreparing oid => ignore (mark_preparing caller oid)
  | ChooseSelfDelivery oid => ignore (choose_self_delivery caller oid)
  | RequestDriver oid => ignore (request_driver caller oid)
  | AssignDriver oid drv => ignore (assign_driver caller oid drv)
  | OutForDelivery oid => ignore (out_for_delivery caller oid)
  | MarkDelivered oid => ignore (mark_delivered caller oid)
  | CompleteOrder oid => ignore (complete_order caller oid)
  | CancelOrder oid reason => ignore (cancel_order caller oid reason)
  | DeleteOrder oid => delete_order caller oid
  | RunPurgeJob => ignore run_purge_job
  | UpdateRetentionSettings d h => ignore (update_retention_settings caller d h)
  end.

(** One request: the database before and after, whatever the outcome. *)
Inductive order_request (d d' : DB) : Prop :=
| OrderRequest env caller call out :
    get_db (exec caller call) env d = (out, d') → order_request d d'.

(** ** The abstract machine: how one row may evolve *)

Definition fresh_order (o : Order) : Prop :=
  o_status o = pending ∧ o_deleted_at o = None ∧
  o_accepted_at o = None ∧ o_preparing_at o = None ∧
  o_out_for_delivery_at o = None ∧ o_delivered_at o = None ∧
  o_completed_at o = None ∧ o_cancelled_at o = None ∧
  o_total_minor o = o_subtotal_minor o.

Inductive evolves : option Order → option Order → Prop :=
| ev_same x : evolves x x
| ev_place o : fresh_order o → evolves None (Some o)
| ev_accept o t :
    o_status o = pending → o_deleted_at o = None →
    evolves (Some o) (Some (o <| o_status := accepted |> <| o_accepted_at := Some t |>))
| ev_prepare o t :
    o_status o = accepted → o_deleted_at o = None →
    evolves (Some o) (Some (o <| o_status := preparing |> <| o_preparing_at := Some t |>))
| ev_dispatch o t :
    o_status o = preparing → o_deleted_at o = None → o_out_for_delivery_at o = None →
    evolves (Some o) (Some (o <| o_status := Models.out_for_delivery |>
                              <| o_out_for_delivery_at := Some t |>))
| ev_deliver o t :
    o_status o = Models.out_for_delivery → o_deleted_at o = None →
    evolves (Some o) (Some (o <| o_status := delivered |> <| o_delivered_at := Some t |>))
| ev_complete o t :
    o_status o = delivered → o_deleted_at o = None →
    evolves (Some o) (Some (o <| o_status := completed |> <| o_completed_at := Some t |>))
| ev_cancel o t reason :
    o_status o ∈ ACTIVE_STATUSES → o_deleted_at o = None →
    evolves (Some o) (Some (o <| o_status := cancelled |> <| o_cancelled_at := Some t |>
                              <| o_cancellation_reason := reason |>))
| ev_remove o :
    o_status o ∈ [delivered; completed; cancelled] → o_deleted_at o = None →
    evolves (Some o) None.

(** Each row of a table evolves by one step of the abstract machine. *)
Definition table_evolves (t t' : gmap uuid Order) : Prop :=
  ∀ k, evolves (t !! k) (t' !! k).

Lemma table_evolves_refl t : table_evolves t t.
Proof. intros k. constructor. Qed.

Lemma table_evolves_insert t k o :
  evolves (t !! k) (Some o) → table_evolves t (<[k := o]> t).
Proof.
  intros He k'. destruct (decide (k' = k)) as [->|].
  - by rewrite lookup_insert_eq.
  - rewrite lookup_insert_ne by done. constructor.
Qed.

(** ** Requests keep the tables keyed and never commit early *)

Definition keeps_keyed (R : Type) `{Table R} : relation Session := λ s s',
  keyed (R:=R) (working s) → keyed (R:=R) (working s').
#[export] Instance keeps_keyed_rel R `{Table R} : SessionRel (keeps_keyed R).
Proof.
  split; [split|].
  - by intros s Hk.
  - intros s1 s2 s3 H1 H2 Hk. auto.
  - intros s s' _ E Hk. by rewrite <- E.
Qed.

(** The tables whose rows this component keeps under their own key. *)
Definition well_keyed (d : DB) : Prop :=
  keyed (R:=Order) d ∧ keyed (R:=Product) d ∧ keyed (R:=DriverAssignment) d.

Section keeps_keyed.
Context {R : Type} `{Table R}.
Implicit Types (s : Session).

Lemma keeps_keyed_insert (r : R) s :
  keeps_keyed R s (s <| working ::= on_table (<[pk r := r]>) |>).
Proof.
  intros Hk k r'. cbn. rewrite table_on_table, lookup_insert_Some.
  intros [[<- <-]|[_ ?]]; [done|by apply Hk].
Qed.

Lemma keeps_keyed_delete_where (P : R → Prop) `{∀ r, Decision (P r)} :
  stable (keeps_keyed R) (delete_where P).
Proof.
  apply stable_delete_where, stable_put_db. intros s Hk k r'. cbn.
  rewrite table_on_table, map_lookup_filter_Some. intros [? _]. by apply Hk.
Qed.

Lemma keeps_keyed_other f s :
  table (R:=R) (f (working s)) = table (working s) →
  keeps_keyed R s (s <| working ::= f |>).
Proof. intros E Hk k r'. cbn. rewrite E. apply Hk. Qed.
End keeps_keyed.

#[export] Hint Resolve keeps_keyed_insert keeps_keyed_delete_where : stable.
#[export] Hint Extern 2 (keeps_keyed _ _ _) =>
  apply keeps_keyed_other; reflexivity : stable.

Ltac stable_call :=
  unfold ignore, create_order, create_order_on, accept_order, mark_preparing, choose_self_delivery,
    request_driver, assign_driver, out_for_delivery, mark_delivered, complete_order,
    cancel_order, delete_order, run_purge_job, update_retention_settings,
    auto_complete_one, purge_one, delete_order_row, _get_retention_settings,
    _write_snapshot, reload, _load_order_full, _lock_order_or_404,
    _load_order_locked, fulfillment_not_chosen, _get_caller_seller,
    delivery_actor_or_404, check_line, decrement_line, add_item;
  stable_tac; unfold insert_snapshot; stable_tac.

Lemma sum_lines_stable Rel `{!SessionRel Rel} by_id lines :
  stable Rel (sum_lines by_id lines).
Proof. induction lines; cbn; stable_tac. Qed.
#[export] Hint Resolve sum_lines_stable : stable.

Lemma exec_keyed_orders caller call : stable (keeps_keyed Order) (exec caller call).
Proof. destruct call; cbn; stable_call. Qed.
Lemma exec_keyed_products caller call : stable (keeps_keyed Product) (exec caller call).
Proof. destruct call; cbn; stable_call. Qed.
Lemma exec_keyed_assignments caller call :
  stable (keeps_keyed DriverAssignment) (exec caller call).
Proof. destruct call; cbn; stable_call. Qed.
Lemma exec_uncommitted caller call : stable same_committed (exec caller call).
Proof. destruct call; cbn; stable_call. Qed.

(** ** Refinement *)

(** A write to one row of a keyed table. *)
Lemma write_evolves (t : gmap uuid Order) k k' o o' :
  t !! k = Some o → k' = k → evolves (Some o) (Some o') →
  table_evolves t (<[k' := o']> t).
Proof. intros Hk -> He. apply table_evolves_insert. by rewrite Hk. Qed.

Lemma purged_evolves now grace days t :
  table_evolves t (purged_orders now grace days t).
Proof.
  intros k. unfold purged_orders. rewrite !lookup_omap.
  destruct (t !! k) as [o|]; cbn; [|constructor].
  destruct (decide (auto_completable (now - grace) o)) as [(Hst & Hdel & _)|_];
    case_decide as Hp.
  - apply ev_remove; [rewrite Hst; set_solver|done].
  - by apply ev_complete.
  - destruct Hp as [Hdel [[Hst _]|[Hst _]]]; apply ev_remove; try done;
      rewrite Hst; set_solver.
  - constructor.
Qed.

Lemma removed_evolves t oid :
  (∀ k o, t !! k = Some o → o_id o = k) →
  (∀ o, t !! oid = Some o →
     o_status o ∈ [delivered; completed; cancelled] ∧ o_deleted_at o = None) →
  table_evolves t (delete oid t).
Proof.
  intros Hk Ho k. destruct (decide (k = oid)) as [->|Hne].
  - rewrite lookup_delete_eq. destruct (t !! oid) as [o|] eqn:E; [|constructor].
    apply ev_remove; by apply Ho.
  - rewrite lookup_delete_ne by done. constructor.
Qed.

Lemma placed_is_fresh cust sid addr total o :
  placed_order cust sid addr total o → fresh_order o.
Proof. unfold placed_order, fresh_order. naive_solver congruence. Qed.

Lemma terminal_removable o t :
  _terminal_at o = Some t → o_status o ∈ [delivered; completed; cancelled].
Proof.
  unfold _terminal_at. repeat case_decide; [set_solver..|done].
Qed.

Lemma active_status o :
  o_status o ∉ TERMINAL_STATUSES → o_status o ≠ delivered → o_status o ∈ ACTIVE_STATUSES.
Proof.
  unfold TERMINAL_STATUSES, ACTIVE_STATUSES. destruct (o_status o); set_solver.
Qed.

Lemma delete_order_evolves env s s' caller oid b :
  keyed (R:=Order) (working s) → delete_order caller oid env s = (Ok b, s') →
  table_evolves (orders (working s)) (orders (working s')).
Proof.
  intros Hk H. apply delete_order_Ok in H
    as (o & t0 & t & d1 & Ho & [[Hdel _] _] & Hterm & _ & _ & Hd1 & ->).
  assert (orders d1 = orders (working s)) as Hor.
  { case_decide; [by apply snapshot_written_orders in Hd1|by subst]. }
  unfold order_removed. cbn. rewrite Hor, filter_delete by exact Hk.
  pose proof (Hk _ _ Ho) as Hid. cbn in Hid. rewrite Hid.
  apply removed_evolves; [exact Hk|]. intros o' Ho'.
  assert (o' = o) as -> by congruence. split; [by eapply terminal_removable|done].
Qed.

Lemma exec_evolves env s s' caller call b :
  well_keyed (working s) → exec caller call env s = (Ok b, s') →
  table_evolves (orders (working s)) (orders (working s')).
Proof.
  intros (Hko & Hkp & Hka) H.
  assert (∀ k o, orders (working s) !! k = Some o → o_id o = k) as Hid by exact Hko.
  destruct call; cbn in H;
    first [apply ignore_Ok in H as [r H] | by eapply delete_order_evolves].
  - apply create_order_Ok in H as
      (sid & o & new & total & _ & _ & _ & _ & _ & Hf & Hp & _ & _ & _ & ->); [|done].
    cbn. apply table_evolves_insert. rewrite Hf.
    apply ev_place. by eapply placed_is_fresh.
  - apply accept_order_Ok in H as (o & t & Ho & [? _] & _ & ? & _ & ->).
    eapply (write_evolves _ oid _ o); [done|by eapply Hid|by apply ev_accept].
  - apply mark_preparing_Ok in H as (o & t & Ho & [? _] & _ & ? & ->).
    eapply (write_evolves _ oid _ o); [done|by eapply Hid|by apply ev_prepare].
  - apply choose_self_delivery_Ok in H
      as (o & sl & i & _ & _ & _ & _ & _ & _ & _ & _ & ->).
    apply table_evolves_refl.
  - apply request_driver_Ok in H
      as (o & a & _ & _ & _ & _ & _ & _ & _ & _ & _ & _ & ->).
    apply table_evolves_refl.
  - apply assign_driver_Ok in H
      as (o & u & a & t & _ & _ & _ & _ & _ & _ & _ & _ & _ & ->).
    apply table_evolves_refl.
  - apply out_for_delivery_Ok in H
      as (o & t & dlv & t0 & Ho & [? _] & _ & ? & ? & _ & _ & _ & _ & _ & ->).
    eapply (write_evolves _ oid _ o); [done|by eapply Hid|by apply ev_dispatch].
  - apply mark_delivered_Ok in H
      as (o & t & dlv & k & dlv' & Ho & [? _] & _ & ? & _ & _ & _ & _ & _ & ->).
    eapply (write_evolves _ oid _ o); [done|by eapply Hid|by apply ev_deliver].
  - apply complete_order_Ok in H as (o & t & o' & Ho & [? _] & _ & ? & -> & Hw).
    apply snapshot_written_orders in Hw. rewrite Hw.
    eapply (write_evolves _ oid _ o); [done|by eapply Hid|by apply ev_complete].
  - apply cancel_order_Ok in H as (o & t & Ho & [? _] & ? & ? & _ & _ & _ & ->); [|done].
    eapply (write_evolves _ oid _ o); [done|by eapply Hid|].
    apply ev_cancel; [by apply active_status|done].
  - apply run_purge_job_Ok in H as (-> & _ & _); [|done]. apply purged_evolves.
  - unfold update_retention_settings in H. inv_run.
    match goal with H : _get_retention_settings _ _ = _ |- _ =>
      apply get_settings_Ok in H as [-> ->] end.
    apply table_evolves_refl.
Qed.

Lemma request_well_keyed d d' : order_request d d' → well_keyed d → well_keyed d'.
Proof.
  intros [env caller call out H] (Hko & Hkp & Hka).
  unfold get_db in H. destruct (exec caller call env (open_session d)) as [o s'] eqn:E.
  assert (committed s' = d) as Hc by by apply exec_uncommitted in E.
  assert (well_keyed (working s')).
  { split_and!; [by apply exec_keyed_orders in E; apply E
      |by apply exec_keyed_products in E; apply E
      |by apply exec_keyed_assignments in E; apply E]. }
  destruct o; by simplify_eq.
Qed.

(** A request that raises leaves the database as it was. *)
Lemma request_evolves d d' :
  well_keyed d → order_request d d' → table_evolves (orders d) (orders d').
Proof.
  intros Hk [env caller call [u|e] H].
  - apply get_db_Ok in H as (s' & H & ->). by apply exec_evolves in H.
  - apply get_db_atomic in H as ->; [apply table_evolves_refl|apply exec_uncommitted].
Qed.

(** ** Snapshots *)

(** At most one snapshot row per order. *)
Definition snapshots_unique (d : DB) : Prop :=
  ∀ k1 k2 s1 s2, order_analytics_snapshots d !! k1 = Some s1 →
    order_analytics_snapshots d !! k2 = Some s2 →
    sn_order_id s1 = sn_order_id s2 → k1 = k2.

Definition snap_rel : relation Session := λ s s',
  snapshots_grow (working s) (working s') ∧
  (snapshots_unique (working s) → snapshots_unique (working s')).
#[export] Instance snap_rel_session : SessionRel snap_rel.
Proof.
  split; [split|].
  - by intros s.
  - intros s1 s2 s3 [Hg1 Hu1] [Hg2 Hu2]. split; [by etrans|auto].
  - intros s s' _ E. unfold snap_rel. by rewrite E.
Qed.

Lemma snap_rel_other f s :
  order_analytics_snapshots (f (working s)) = order_analytics_snapshots (working s) →
  snap_rel s (s <| working ::= f |>).
Proof.
  intros E. split.
  - intros k sn. cbn. by rewrite E.
  - intros Hu k1 k2 s1 s2. cbn. rewrite E. apply Hu.
Qed.
#[export] Hint Extern 2 (snap_rel _ _) => apply snap_rel_other; reflexivity : stable.

Lemma insert_snapshot_stable sn : stable snap_rel (insert_snapshot sn).
Proof.
  intros env s out s' H. destruct out as [u|e].
  - apply insert_snapshot_Ok in H as [(k & r & _ & _ & Hw)|(Hf & Hno & Hw)].
    + split; rewrite Hw; done.
    + unfold snap_rel. rewrite Hw. split.
      * intros k r Hk. cbn. rewrite lookup_insert_ne; [done|]. congruence.
      * intros Hu k1 k2 s1 s2 H1 H2 E. cbn in H1, H2.
        apply lookup_insert_Some in H1 as [[<- <-]|[? H1]];
          apply lookup_insert_Some in H2 as [[<- <-]|[? H2]]; [done|..].
        -- by apply Hno in H2.
        -- by apply Hno in H1.
        -- by eapply Hu.
  - assert (working s' = working s) as Hw; [|split; rewrite Hw; done].
    revert H. unfold insert_snapshot, insert_row, write_row.
    destruct (column_error sn); [by intros [= <- <-]|].
    cbn. unfold mbind, M_bind, select, query, raise_if, mret, M_ret, raise, put_db.
    destruct (filter _ _); [|done]. cbn. repeat case_decide; by intros [= <- <-].
Qed.
#[export] Hint Resolve insert_snapshot_stable : stable.

Lemma exec_snapshots caller call : stable snap_rel (exec caller call).
Proof. destruct call; cbn; stable_call. Qed.

(** Every completed order has its snapshot. *)
Definition completed_recorded (d : DB) : Prop :=
  ∀ k o, orders d !! k = Some o → o_status o = completed → has_snapshot (o_id o) d.

Lemma insert_not_completed (t : gmap uuid Order) k0 o0 k o :
  o_status o0 ≠ completed → <[k0 := o0]> t !! k = Some o → o_status o = completed →
  t !! k = Some o.
Proof. intros Hn [[_ <-]|[_ ?]]%lookup_insert_Some ?; done. Qed.

(** A request that completes an order records it in the same transaction. *)
Lemma exec_completes env s s' caller call b k o :
  well_keyed (working s) → exec caller call env s = (Ok b, s') →
  orders (working s') !! k = Some o → o_status o = completed →
  orders (working s) !! k = Some o ∨ has_snapshot (o_id o) (working s').
Proof.
  intros (Hko & Hkp & Hka) H Ho Hc.
  destruct call; cbn in H; try (apply ignore_Ok in H as [r H]).
  - apply create_order_Ok in H as
      (sid & o1 & new & total & _ & _ & _ & _ & _ & _ & Hp & _ & _ & _ & Hw); [|done].
    rewrite Hw in Ho. left. eapply insert_not_completed; [|exact Ho|done].
    destruct Hp as (_ & _ & -> & _). done.
  - apply accept_order_Ok in H as (o1 & t & _ & _ & _ & _ & _ & Hw).
    rewrite Hw in Ho. left. by eapply insert_not_completed; [|exact Ho|].
  - apply mark_preparing_Ok in H as (o1 & t & _ & _ & _ & _ & Hw).
    rewrite Hw in Ho. left. by eapply insert_not_completed; [|exact Ho|].
  - apply choose_self_delivery_Ok in H
      as (o1 & sl & i & _ & _ & _ & _ & _ & _ & _ & _ & Hw).
    rewrite Hw in Ho. by left.
  - apply request_driver_Ok in H
      as (o1 & a & _ & _ & _ & _ & _ & _ & _ & _ & _ & _ & Hw).
    rewrite Hw in Ho. by left.
  - apply assign_driver_Ok in H
      as (o1 & u & a & t & _ & _ & _ & _ & _ & _ & _ & _ & _ & Hw).
    rewrite Hw in Ho. by left.
  - apply out_for_delivery_Ok in H
      as (o1 & t & dlv & t0 & _ & _ & _ & _ & _ & _ & _ & _ & _ & _ & Hw).
    rewrite Hw in Ho. left. by eapply insert_not_completed; [|exact Ho|].
  - apply mark_delivered_Ok in H
      as (o1 & t & dlv & k1 & dlv' & _ & _ & _ & _ & _ & _ & _ & _ & _ & Hw).
    rewrite Hw in Ho. left. by eapply insert_not_completed; [|exact Ho|].
  - apply complete_order_Ok in H as (o1 & t & o' & Ho1 & _ & _ & _ & Ho' & Hw).
    pose proof (snapshot_written_orders _ _ _ Hw) as Hor. rewrite Hor in Ho. cbn in Ho.
    apply lookup_insert_Some in Ho as [[_ <-]|[_ Ho]]; [|by left].
    right. by apply snapshot_written_has in Hw.
  - apply cancel_order_Ok in H as (o1 & t & _ & _ & _ & _ & _ & _ & _ & Hw); [|done].
    rewrite Hw in Ho. left. by eapply insert_not_completed; [|exact Ho|].
  - apply delete_order_Ok in H as (o1 & t0 & t & d1 & _ & _ & _ & _ & _ & Hd1 & Hw).
    left. rewrite Hw in Ho. apply map_lookup_filter_Some in Ho as [Ho _].
    case_decide; [by rewrite (snapshot_written_orders _ _ _ Hd1) in Ho|by subst].
  - apply run_purge_job_Ok in H as (Hor & _ & Hs); [|done]. rewrite Hor in Ho.
    unfold purged_orders in Ho. rewrite !lookup_omap in Ho.
    destruct (orders (working s) !! k) as [o1|] eqn:E; cbn in Ho; [|done].
    case_decide as Hac; case_decide; simplify_eq; [|by left].
    right. change (o_id (auto_completed _ o1)) with (o_id o1).
    eapply Hs; [exact E|by left].
  - unfold update_retention_settings in H. inv_run.
    match goal with H : _get_retention_settings _ _ = _ |- _ =>
      apply get_settings_Ok in H as [-> ->] end.
    by left.
Qed.

Lemma request_snapshots d d' :
  well_keyed d → order_request d d' →
  snapshots_grow d d' ∧ (snapshots_unique d → snapshots_unique d') ∧
  (completed_recorded d → completed_recorded d').
Proof.
  intros Hk [env caller call [u|e] H].
  - apply get_db_Ok in H as (s' & H & ->).
    destruct (exec_snapshots _ _ _ _ _ _ H) as [Hg Hu]. split_and!; [done..|].
    intros Hrec k o Ho Hc. eapply exec_completes in H as [Hold|?]; [|done..].
    eapply has_snapshot_grows; [by eapply Hrec|done].
  - apply get_db_atomic in H as ->; [by split_and!|apply exec_uncommitted].
Qed.

(** ** Fulfillment *)

(** A seller who delivers an order has no outstanding driver request for it,
    and an order has at most one outstanding request. *)
Definition fulfillment_exclusive (d : DB) : Prop :=
  (∀ k1 k2 dlv a, deliveries d !! k1 = Some dlv → driver_assignments d !! k2 = Some a →
     d_order_id dlv = a_order_id a → d_driver_id dlv = None →
     a_status a ∉ OPEN_ASSIGNMENT) ∧
  (∀ k1 k2 a1 a2, driver_assignments d !! k1 = Some a1 →
     driver_assignments d !! k2 = Some a2 → a_order_id a1 = a_order_id a2 →
     a_status a1 ∈ OPEN_ASSIGNMENT → a_status a2 ∈ OPEN_ASSIGNMENT → k1 = k2).

(** Deletion only removes deliveries and assignments. *)
Definition only_removes : relation Session := λ s s',
  deliveries (working s') ⊆ deliveries (working s) ∧
  driver_assignments (working s') ⊆ driver_assignments (working s).
#[export] Instance only_removes_rel : SessionRel only_removes.
Proof.
  split; [split|].
  - by intros s.
  - intros s1 s2 s3 [? ?] [? ?]. split; by etrans.
  - intros s s' _ E. unfold only_removes. by rewrite E.
Qed.
Lemma only_removes_delete_where {R} `{Table R} (P : R → Prop) `{∀ r, Decision (P r)} :
  (∀ s, only_removes s (s <| working ::= on_table (filter (λ kr, ¬ P kr.2)) |>)) →
  stable only_removes (delete_where P).
Proof. intros. apply stable_delete_where, stable_put_db; auto. Qed.
#[export] Hint Extern 2 (only_removes _ _) =>
  split; cbn; first [reflexivity | apply map_filter_subseteq] : stable.

Lemma delete_only_removes caller oid : stable only_removes (delete_order caller oid).
Proof. stable_call. Qed.
Lemma purge_only_removes : stable only_removes run_purge_job.
Proof. stable_call. Qed.

Lemma only_removes_exclusive s s' :
  only_removes s s' → fulfillment_exclusive (working s) →
  fulfillment_exclusive (working s').
Proof.
  intros [Hd Ha] [H1 H2]. split.
  - intros k1 k2 dlv a ???. eapply H1; try done; by eapply lookup_weaken.
  - intros k1 k2 a1 a2 ???. eapply H2; try done; by eapply lookup_weaken.
Qed.

(** Writing a delivery that has a driver, or whose order had such a row. *)
Lemma exclusive_delivery d dlv k :
  fulfillment_exclusive d →
  (d_driver_id dlv = None → ∀ k' a, driver_assignments d !! k' = Some a →
     a_order_id a = d_order_id dlv → a_status a ∉ OPEN_ASSIGNMENT) →
  fulfillment_exclusive (d <| deliveries ::= <[k := dlv]> |>).
Proof.
  intros [H1 H2] Hnew. split; [|done]. cbn.
  intros k1 k2 dlv' a [[_ <-]|[_ ?]]%lookup_insert_Some ? E ?; [by eapply Hnew|by eapply H1].
Qed.

(** Rewriting a delivery row without changing its driver. *)
Lemma exclusive_restart d dlv dlv' k k' :
  fulfillment_exclusive d → deliveries d !! k = Some dlv →
  d_order_id dlv' = d_order_id dlv → d_driver_id dlv' = d_driver_id dlv →
  fulfillment_exclusive (d <| deliveries ::= <[k' := dlv']> |>).
Proof.
  intros Hx Hk Ho Hd. apply exclusive_delivery; [done|]. rewrite Ho, Hd.
  intros Hn k2 a Ha ?. destruct Hx as [H1 _]. by eapply H1.
Qed.

Lemma exclusive_orders d f :
  fulfillment_exclusive d → fulfillment_exclusive (d <| orders ::= f |>).
Proof. done. Qed.

(** Writing an open assignment: a first one, or one that replaces the open one. *)
Lemma exclusive_assignment d a k :
  fulfillment_exclusive d →
  (∀ k' dlv, deliveries d !! k' = Some dlv → d_order_id dlv = a_order_id a →
     d_driver_id dlv ≠ None) →
  (∀ k' a', driver_assignments d !! k' = Some a' → a_order_id a' = a_order_id a →
     a_status a' ∈ OPEN_ASSIGNMENT → k' = k) →
  fulfillment_exclusive (d <| driver_assignments ::= <[k := a]> |>).
Proof.
  intros [H1 H2] Hd Ha. split; cbn.
  - intros k1 k2 dlv a' ? [[_ <-]|[_ ?]]%lookup_insert_Some ? Hn; [|by eapply H1].
    exfalso. by eapply Hd.
  - intros k1 k2 a1 a2 [[<- <-]|[_ H]]%lookup_insert_Some
      [[<- <-]|[_ H']]%lookup_insert_Some E ??; try done.
    + symmetry. by eapply Ha.
    + by eapply Ha.
    + by eapply H2.
Qed.

(** Closing assignments. *)
Lemma exclusive_close d (P : DriverAssignment → Prop) `{∀ a, Decision (P a)} :
  fulfillment_exclusive d →
  fulfillment_exclusive (d <| driver_assignments ::= fmap (λ a,
    if decide (P a) then a <| a_status := asg_cancelled |> else a) |>).
Proof.
  intros [H1 H2].
  assert (∀ k a, ((λ a, if decide (P a) then a <| a_status := asg_cancelled |> else a) <$>
     driver_assignments d) !! k = Some a → a_status a ∈ OPEN_ASSIGNMENT →
     driver_assignments d !! k = Some a) as Hopen.
  { intros k a (a0 & <- & Ha0)%lookup_fmap_Some. case_decide; [|done].
    unfold OPEN_ASSIGNMENT. cbn. set_solver. }
  split; cbn.
  - intros k1 k2 dlv a Hdl Ha E Hn Ho. eapply H1; [exact Hdl|by apply Hopen|done..].
  - intros k1 k2 a1 a2 Ha1 Ha2 E Ho1 Ho2.
    eapply H2; [by apply Hopen|by apply Hopen|done..].
Qed.

Lemma exec_exclusive env s s' caller call b :
  well_keyed (working s) → exec caller call env s = (Ok b, s') →
  fulfillment_exclusive (working s) → fulfillment_exclusive (working s').
Proof.
  intros (Hko & Hkp & Hka) H Hx.
  destruct call; cbn in H; try (apply ignore_Ok in H as [r H]).
  - apply create_order_Ok in H as
      (sid & o1 & new & total & _ & _ & _ & _ & _ & _ & _ & _ & _ & _ & ->); done.
  - by apply accept_order_Ok in H as (o1 & t & _ & _ & _ & _ & _ & ->).
  - by apply mark_preparing_Ok in H as (o1 & t & _ & _ & _ & _ & ->).
  - apply choose_self_delivery_Ok in H
      as (o1 & sl & i & _ & _ & _ & _ & _ & _ & Hno & _ & ->).
    apply exclusive_delivery; [done|]. cbn. intros _ k' a Ha E. by eapply Hno.
  - apply request_driver_Ok in H
      as (o1 & a & _ & _ & _ & _ & Hd & Hno & E & Hst & _ & _ & ->).
    apply exclusive_assignment; [done|..].
    + intros k' dlv Hk E'. exfalso. eapply Hd; [done|congruence].
    + intros k' a' Ha' E' Ho. exfalso. eapply Hno; [done|congruence|done].
  - apply assign_driver_Ok in H
      as (o1 & u & a & t & _ & _ & _ & _ & _ & [k Hk] & _ & Ho & _ & ->).
    apply exclusive_assignment; [done|cbn..].
    + intros k' dlv Hk' E Hn. destruct Hx as [H1 _]. exact (H1 _ _ _ _ Hk' Hk E Hn Ho).
    + intros k' a' Ha' E Ho'. destruct Hx as [_ H2].
      rewrite (H2 k' k a' a) by done. symmetry. apply (Hka _ _ Hk).
  - apply out_for_delivery_Ok in H
      as (o1 & t & dlv & t0 & _ & _ & _ & _ & _ & _ & _ & _ & _ & Hdlv & ->).
    apply exclusive_orders.
    destruct Hdlv as [(k & dlv0 & Hk & ->)|(_ & [drv Hdrv] & _)].
    + by eapply exclusive_restart.
    + apply exclusive_delivery; [done|]. by rewrite Hdrv.
  - apply mark_delivered_Ok in H
      as (o1 & t & dlv & k1 & dlv' & _ & _ & _ & _ & Hk & _ & _ & _ & Hdlv & ->).
    eapply exclusive_restart; [by apply exclusive_orders|exact Hk|..];
      rewrite Hdlv; by destruct (d_started_at dlv), (d_duration_seconds dlv).
  - apply complete_order_Ok in H as (o1 & t & o' & _ & _ & _ & _ & _ & Hw).
    by destruct Hw as [(? & ? & _ & _ & ->)|(? & _ & _ & _ & ->)].
  - apply cancel_order_Ok in H as (o1 & t & _ & _ & _ & _ & _ & _ & _ & ->); [|done].
    apply exclusive_close. done.
  - by apply delete_only_removes, only_removes_exclusive in H.
  - by apply purge_only_removes, only_removes_exclusive in H.
  - unfold update_retention_settings in H. inv_run.
    match goal with H : _get_retention_settings _ _ = _ |- _ =>
      apply get_settings_Ok in H as [-> ->] end.
    done.
Qed.

Lemma request_exclusive d d' :
  well_keyed d → order_request d d' → fulfillment_exclusive d → fulfillment_exclusive d'.
Proof.
  intros Hk [env caller call [u|e] H] Hx.
  - apply get_db_Ok in H as (s' & H & ->). by apply exec_exclusive in H.
  - apply get_db_atomic in H as ->; [done|apply exec_uncommitted].
Qed.
