(* ===== verification/OrderProps.v ===== *)
(** * Correctness of the order service

    The theorems about [order_service]: refinement of the abstract machine,
    what is invariant in every reachable database, checkout, retention, and
    who may do what. *)

From S2P Require Import Prelude.
From S2P Require Import Exceptions.
From S2P Require Import Models.
From S2P Require Import Session.
From S2P Require Import SessionFacts.
From S2P Require Import Orders.
From S2P Require Import OrdersFacts.
From S2P Require Import Fixtures.
From S2P Require Import CheckoutFacts.
From S2P Require Import Retention.
From S2P Require Import RetentionFacts.
From S2P Require Import OrderMachine.
#[local] Open Scope Z_scope.

(** ** Vocabulary of the statements *)

(** Position of a status on the main line of the lifecycle. *)
Definition stage (st : OrderStatus) : nat :=
  match st with
  | pending => 0 | accepted => 1 | preparing => 2 | Models.out_for_delivery => 3
  | delivered => 4 | completed => 5 | cancelled => 6
  end.

Definition is_set {A} (x : option A) : bool :=
  match x with Some _ => true | None => false end.

(** The timestamps of an order agree with its status: each stage reached has
    its timestamp, no later stage has one, and a cancelled order keeps the
    timestamps of a prefix of the main line. *)
Definition timeline (o : Order) : Prop :=
  match o_status o with
  | cancelled =>
      is_set (o_cancelled_at o) = true ∧ is_set (o_delivered_at o) = false ∧
      is_set (o_completed_at o) = false ∧
      implb (is_set (o_out_for_delivery_at o)) (is_set (o_preparing_at o)) = true ∧
      implb (is_set (o_preparing_at o)) (is_set (o_accepted_at o)) = true
  | st =>
      is_set (o_accepted_at o) = (1 <=? stage st)%nat ∧
      is_set (o_preparing_at o) = (2 <=? stage st)%nat ∧
      is_set (o_out_for_delivery_at o) = (3 <=? stage st)%nat ∧
      is_set (o_delivered_at o) = (4 <=? stage st)%nat ∧
      is_set (o_completed_at o) = (5 <=? stage st)%nat ∧
      is_set (o_cancelled_at o) = false
  end.

Definition timelines (d : DB) : Prop := map_Forall (λ _ o, timeline o) (orders d).

(** What the parties agreed on when the order was placed. *)
Definition same_terms (o o' : Order) : Prop :=
  o_id o' = o_id o ∧ o_customer_id o' = o_customer_id o ∧
  o_seller_id o' = o_seller_id o ∧ o_store_id o' = o_store_id o ∧
  o_subtotal_minor o' = o_subtotal_minor o ∧ o_total_minor o' = o_total_minor o ∧
  o_delivery_address o' = o_delivery_address o ∧ o_placed_at o' = o_placed_at o.

Definition terminal (o : Order) : Prop := o_status o ∈ TERMINAL_STATUSES.

(** ** Lemmas *)

Lemma fresh_timeline o : fresh_order o → timeline o.
Proof.
  intros (Hs & _ & Ha & Hp & Ho & Hd & Hc & Hx & _). unfold timeline.
  by rewrite Hs, Ha, Hp, Ho, Hd, Hc, Hx.
Qed.

(** Close a goal from a membership in a list of statuses that evaluates to
    false. *)
Ltac status_absurd :=
  exfalso;
  match goal with
  | H : _ ∈ _ |- _ => apply (bool_decide_pack _) in H; vm_compute in H; exact H
  end.

Lemma evolves_timeline x y :
  evolves x y → (∀ o, x = Some o → timeline o) → ∀ o', y = Some o' → timeline o'.
Proof.
  intros He Hx o' Hy. destruct He as [| |o t Hs|o t Hs|o t Hs|o t Hs|o t Hs|o t reason Hs|];
    simplify_eq; try (by apply Hx); try (by apply fresh_timeline).
  all: specialize (Hx _ eq_refl); unfold timeline in *; cbn.
  6: destruct (o_status o); try status_absurd.
  1-5: rewrite Hs in Hx.
  all: cbn in *; destruct_and!; split_and!; try done.
  all: repeat match goal with E : is_set _ = _ |- _ => rewrite E; clear E end; done.
Qed.

Lemma table_evolves_timelines d d' :
  table_evolves (orders d) (orders d') → timelines d → timelines d'.
Proof.
  intros He Ht k o' Ho'. eapply evolves_timeline; [apply (He k)| |done].
  intros o Ho. by eapply Ht.
Qed.

Lemma evolves_terms o o' : evolves (Some o) (Some o') → same_terms o o'.
Proof. inversion_clear 1; done. Qed.

Lemma evolves_terminal o y : terminal o → evolves (Some o) y → y = Some o ∨ y = None.
Proof.
  unfold terminal, TERMINAL_STATUSES. intros Ht He.
  inversion He as [| |? ? Hs|? ? Hs|? ? Hs|? ? Hs|? ? Hs|? ? ? Hs|]; subst; auto.
  1-5: rewrite Hs in Ht; status_absurd.
  unfold ACTIVE_STATUSES in Hs. destruct (o_status o); status_absurd.
Qed.

(** ** The state machine *)

(** C1: every request to the order service, successful or not, moves
    every order row by at most one step of the abstract machine [evolves]; no
    request ever skips a stage, revives a terminal order or touches two stages
    of one order. *)
Theorem order_requests_refine_machine d d' :
  well_keyed d → order_request d d' → ∀ k, evolves (orders d !! k) (orders d' !! k).
Proof. intros Hk Hr. by apply request_evolves. Qed.


(** No request changes what was agreed when an order was placed:
    its parties, its store, its totals, its address and the time of placement;
    and a completed or cancelled order is not changed at all until it is
    removed. *)
Theorem order_terms_never_change d d' k o :
  well_keyed d → order_request d d' → orders d !! k = Some o →
  (∀ o', orders d' !! k = Some o' → same_terms o o') ∧
  (terminal o → orders d' !! k = Some o ∨ orders d' !! k = None).
Proof.
  intros Hk Hr Ho. pose proof (request_evolves _ _ Hk Hr k) as He. rewrite Ho in He.
  split.
  - intros o' Ho'. rewrite Ho' in He. by apply evolves_terms.
  - intros Ht. by apply evolves_terminal in He.
Qed.

(** In every database reachable by requests from one where each
    completed order has an analytics snapshot and no order has two, this still
    holds, and no snapshot was ever changed or removed; completing an order and
    recording it are one transaction, whoever completes it. *)
Theorem completed_orders_are_recorded d d' :
  well_keyed d → snapshots_unique d → completed_recorded d → rtc order_request d d' →
  snapshots_grow d d' ∧ snapshots_unique d' ∧ completed_recorded d'.
Proof.
  intros Hk Hu Hc Hr. induction Hr as [d|d d1 d' Hr _ IH]; [done|].
  destruct (request_snapshots _ _ Hk Hr) as (Hg & Hu' & Hc').
  destruct IH as (Hg' & ? & ?); [by eapply request_well_keyed|auto..].
  split_and!; [by etrans|done..].
Qed.

(** In every reachable database a seller who delivers an order
    themselves has no outstanding driver request for it, and no order has two
    outstanding requests. *)
Theorem fulfillment_stays_exclusive d d' :
  well_keyed d → fulfillment_exclusive d → rtc order_request d d' →
  fulfillment_exclusive d'.
Proof.
  intros Hk Hx Hr. induction Hr as [d|d d1 d' Hr _ IH]; [done|].
  apply IH; [by eapply request_well_keyed|by eapply request_exclusive].
Qed.

(** ** Checkout *)

(** C13: a successful checkout was made by a customer, contains only active
    products of the customer's referring seller with enough stock, is priced as
    the sum of price times quantity over the submitted lines (within the
    BIGINT range), takes exactly the ordered quantity out of each tracked
    stock, and adds one pending order and nothing else but its items. *)
Theorem create_order_spec env d d' cust items addr r :
  keyed (R:=Product) d →
  get_db (create_order cust items addr) env d = (Ok r, d') →
  ∃ sid o new,
    u_role cust = customer ∧ items ≠ [] ∧ u_referring_seller_id cust = Some sid ∧
    (∀ pid, pid ∈ li_product_id <$> items →
       ∃ p, products d !! pid = Some p ∧ orderable sid (ordered_qty items pid) p) ∧
    placed_order cust sid addr
      (line_sum (price_in (products d)) (lines_of items)) o ∧
    orders d !! o_id o = None ∧
    Forall2 (item_of (products d) (o_id o)) new (aggregate items) ∧
    d' = d <| products ::= stock_taken (lines_of items) |>
           <| orders ::= <[o_id o := o]> |>
           <| order_items ::= items_added new |>.
Proof.
  intros Hk H. apply get_db_Ok in H as (s' & H & ->).
  apply create_order_Ok in H as
    (sid & o & new & total & Hr & Hi & Hs & Hp & -> & Hf & Ho & Hn & _ & _ & Hw); [|done].
  exists sid, o, new. by split_and!.
Qed.

(** A successful checkout with positive quantities never takes a stock
    below zero, never increases one, and leaves untracked stock untracked. *)
Theorem checkout_never_oversells env d d' cust items addr r pid p :
  keyed (R:=Product) d → Forall (λ it, 0 < li_quantity it) items →
  get_db (create_order cust items addr) env d = (Ok r, d') →
  products d !! pid = Some p →
  nullable (λ stock, 0 ≤ stock) (p_stock_quantity p) →
  ∃ p', products d' !! pid = Some p' ∧ p' = take_stock (ordered_qty items pid) p ∧
    match p_stock_quantity p, p_stock_quantity p' with
    | Some stock, Some stock' => 0 ≤ stock' ≤ stock
    | None, None => True
    | _, _ => False
    end.
Proof.
  intros Hk Hpos H Hp Hstock. apply get_db_Ok in H as (s' & H & ->).
  apply create_order_Ok in H as
    (sid & o & new & total & _ & _ & _ & Hlines & _ & _ & _ & _ & _ & _ & ->); [|done].
  cbn in Hlines |- *. unfold stock_taken. rewrite map_lookup_imap, Hp.
  eexists. split_and!; [reflexivity..|].
  assert (0 ≤ ordered_qty items pid) as Hq by by apply ordered_qty_nonneg.
  destruct (p_stock_quantity p) as [stock|] eqn:E; unfold take_stock; cbn; rewrite E; cbn;
    [|done].
  fold (ordered_qty items pid).
  destruct (decide (pid ∈ li_product_id <$> items)) as [Hin|Hout].
  - destruct (Hlines _ Hin) as (p' & Hp' & _ & _ & _ & Hle). simplify_eq.
    specialize (Hle _ E). lia.
  - rewrite ordered_qty_absent by done. cbn in Hstock. lia.
Qed.

(** ** Retention *)

(** C15: an order is deleted only on request of its customer, its seller or
    an admin, only once it is completed or cancelled, and only when at least
    the configured number of days has passed since then; a deleted completed
    order is in the analytics snapshots, and exactly the rows of that order are
    removed. *)
Theorem deletion_needs_retention env d d' caller oid :
  get_db (delete_order caller oid) env d = (Ok tt, d') →
  ∃ o t0, orders d !! oid = Some o ∧ may_lock caller o ∧ u_role caller ≠ driver ∧
    _terminal_at o = Some t0 ∧ terminal o ∧
    t0 + timedelta_days (ps_retention_min_days (settings_in_force env d))
      ≤ clock env 0 ∧
    (o_status o = completed → has_snapshot (o_id o) d') ∧
    orders d' = filter (λ kr, ¬ o_id kr.2 = o_id o) (orders d) ∧
    order_items d' = filter (λ kr, ¬ oi_order_id kr.2 = o_id o) (order_items d).
Proof.
  intros H. apply get_db_Ok in H as (s' & H & ->).
  apply delete_order_Ok in H
    as (o & t0 & t & d1 & Ho & [Hm Hr] & Ht & Hle & -> & Hd1 & ->).
  exists o, t0. cbn in *. split_and!; try done; try lia.
  - unfold terminal, TERMINAL_STATUSES. unfold _terminal_at in Ht.
    repeat case_decide; [set_solver..|done].
  - intros Hc. rewrite decide_True in Hd1 by done.
    apply snapshot_written_has in Hd1 as (k & sn & Hk & Hsn). exists k, sn. by split.
  - case_decide; subst; [|done].
    destruct Hd1 as [(? & ? & _ & _ & ->)|(? & _ & _ & _ & ->)]; done.
  - case_decide; subst; [|done].
    destruct Hd1 as [(? & ? & _ & _ & ->)|(? & _ & _ & _ & ->)]; done.
Qed.

(** C19: the purge job completes exactly the delivered orders older than the
    grace period and then removes exactly the terminal orders older than the
    retention period, changes no other order, and every order it completes or
    removes as completed is in the analytics snapshots. *)
Theorem purge_job_is_exact env d d' res :
  keyed (R:=Order) d →
  get_db run_purge_job env d = (Ok res, d') →
  let ps := settings_in_force env d in
  let grace_cutoff :=
    clock env 0 - timedelta_hours (ps_order_auto_complete_grace_hours ps) in
  let retention_cutoff := clock env 0 - timedelta_days (ps_retention_min_days ps) in
  (∀ k o, orders d !! k = Some o →
     let o' := if decide (auto_completable grace_cutoff o)
               then auto_completed (clock env 0) o else o in
     orders d' !! k = (if decide (purgeable retention_cutoff o') then None else Some o')) ∧
  (∀ k, orders d !! k = None → orders d' !! k = None) ∧
  (∀ k o, orders d !! k = Some o →
     auto_completable grace_cutoff o ∨
     (o_status o = completed ∧ purgeable retention_cutoff o) → has_snapshot (o_id o) d').
Proof.
  intros Hk H. apply get_db_Ok in H as (s' & H & ->).
  apply run_purge_job_Ok in H as (Ho & _ & Hs); [|done]. cbv zeta.
  split_and!; [| |exact Hs]; rewrite Ho; unfold purged_orders.
  - intros k o Hko. cbn in Hko |- *. rewrite !lookup_omap, Hko. done.
  - intros k Hko. cbn in Hko |- *. by rewrite !lookup_omap, Hko.
Qed.

(** ** Who may act *)

(** The order a call is about. *)
Definition order_target (call : OrderCall) : option uuid :=
  match call with
  | AcceptOrder oid | MarkPreparing oid | ChooseSelfDelivery oid | RequestDriver oid
  | AssignDriver oid _ | OutForDelivery oid | MarkDelivered oid | CompleteOrder oid
  | CancelOrder oid _ | DeleteOrder oid => Some oid
  | CreateOrder _ _ | RunPurgeJob | UpdateRetentionSettings _ _ => None
  end.

(** The order does not exist, is soft-deleted, or belongs to somebody else. *)
Definition hidden_from (caller : User) (oid : uuid) (d : DB) : Prop :=
  ∀ o, orders d !! oid = Some o → ¬ may_lock caller o.

Lemma run_raise_if {A} env s P `{Decision P} (k : M A) out :
  (P → out = (Raised OrderNotFound, s)) → (¬ P → k env s = out) →
  (raise_if P OrderNotFound ;; k) env s = out.
Proof.
  unfold mbind, M_bind, raise_if. intros HP HnP. case_decide; cbn; [|auto].
  symmetry. auto.
Qed.

Lemma lock_hidden {A} env s caller oid (k : Order → M A) :
  hidden_from caller oid (working s) →
  (_lock_order_or_404 oid caller ≫= k) env s = (Raised OrderNotFound, s).
Proof.
  intros Hh. unfold _lock_order_or_404, _load_order_locked, mbind, M_bind.
  cbn. destruct (orders (working s) !! oid) as [o|] eqn:E; [|done].
  specialize (Hh o E). unfold raise_if.
  case_decide; [done|]. cbn. case_decide; [done|]. cbn. case_decide; [done|].
  destruct Hh. unneg. unfold may_lock. split_and!; [done|intros; apply dec_stable; naive_solver..].
Qed.

Lemma delete_hidden env s caller oid :
  hidden_from caller oid (working s) →
  delete_order caller oid env s = (Raised OrderNotFound, s).
Proof.
  intros Hh. unfold delete_order, _load_order_locked, mbind, M_bind. cbn.
  destruct (orders (working s) !! oid) as [o|] eqn:E; [|done].
  specialize (Hh o E). unfold raise_if.
  case_decide; [done|]. cbn. case_decide; [done|]. cbn. case_decide; [done|].
  destruct Hh. unneg. unfold may_lock. split_and!; [done|intros; apply dec_stable; naive_solver..].
Qed.

(** C17: for an order that does not exist, is deleted, or belongs to another
    seller or customer, every operation of the order service gives the same
    404 error and changes nothing: existence is not revealed. *)
Theorem strangers_get_404 env d caller call oid :
  order_target call = Some oid → hidden_from caller oid d →
  get_db (exec caller call) env d = (Raised OrderNotFound, d) ∧
  er_status (error_envelope OrderNotFound) = 404.
Proof.
  intros Ht Hh. split; [|reflexivity].
  change d with (committed (open_session d)) at 2. apply get_db_Raised.
  exists (open_session d). split; [|done].
  assert (hidden_from caller oid (working (open_session d))) as Hw by exact Hh.
  destruct call; cbn in Ht |- *; simplify_eq.
  all: first [by apply delete_hidden | apply ignore_raised].
  9: by apply lock_hidden.
  all: apply run_raise_if; [done|intros _; by apply lock_hidden].
Qed.

Lemma lock_visible env s caller oid o :
  orders (working s) !! oid = Some o → may_lock caller o →
  _lock_order_or_404 oid caller env s = (Ok o, s).
Proof.
  intros Ho (Hd & Hs & Hc).
  unfold _lock_order_or_404, _load_order_locked, mbind, M_bind, raise_if. cbn.
  rewrite Ho. rewrite decide_False by (intros []; done). cbn.
  rewrite decide_False by naive_solver. cbn. by rewrite decide_False by naive_solver.
Qed.

Lemma dispatch_again env s caller oid o :
  orders (working s) !! oid = Some o → may_lock caller o →
  u_role caller ∈ [seller; driver] → o_out_for_delivery_at o ≠ None →
  out_for_delivery caller oid env s = (Raised DeliveryAlreadyStarted, s).
Proof.
  intros Ho Hm Hr Hout. unfold out_for_delivery, mbind, M_bind, raise_if.
  rewrite decide_False by (intros []; done). cbn.
  rewrite (lock_visible _ _ _ _ _ Ho Hm). by rewrite decide_True by auto.
Qed.

(** an order is dispatched only from [preparing], by its seller or its
    assigned driver; from then on every repetition of the request, by anybody
    who may see the order, is answered with [DELIVERY_ALREADY_STARTED] and
    changes nothing. *)
Theorem dispatch_happens_once env d d' caller oid r :
  keyed (R:=Order) d →
  get_db (out_for_delivery caller oid) env d = (Ok r, d') →
  (∃ o dlv, orders d !! oid = Some o ∧ o_status o = preparing ∧
     deliveries d' !! d_id dlv = Some dlv ∧ d_order_id dlv = oid ∧
     d_status dlv = dlv_in_transit ∧ delivery_actor o dlv caller) ∧
  (∀ env' caller', u_role caller' ∈ [seller; driver] →
     (∀ o, orders d' !! oid = Some o → may_lock caller' o) →
     get_db (out_for_delivery caller' oid) env' d' = (Raised DeliveryAlreadyStarted, d')).
Proof.
  intros Hk H. apply get_db_Ok in H as (s' & H & ->).
  apply out_for_delivery_Ok in H
    as (o & t & dlv & t0 & Ho & _ & _ & Hs & _ & Hid & Hst & _ & Hact & _ & ->).
  pose proof (Hk _ _ Ho) as Hoid. cbn in Hoid. split.
  - exists o, dlv. cbn. rewrite lookup_insert_eq. split_and!; try done. congruence.
  - intros env' caller' Hrole Hmay. apply get_db_Raised.
    eexists (open_session _). split; [|reflexivity].
    match type of Hmay with context [<[o_id o := ?o1]>] =>
      assert (<[o_id o := o1]> (orders (working (open_session d))) !! oid = Some o1)
        as Ho1 by by rewrite Hoid, lookup_insert_eq end.
    eapply dispatch_again; [exact Ho1|by apply Hmay|done|done].
Qed.

(** ** Witnesses *)

Lemma world_well_keyed : well_keyed world.
Proof. split_and!; apply keyed_eval; vm_compute; reflexivity. Qed.

Lemma request_in (env : Env) caller call d : order_request d (after (get_db (exec caller call) env d)).
Proof. apply (OrderRequest _ _ env caller call (get_db (exec caller call) env d).1). apply surjective_pairing. Qed.

Lemma placed_request : order_request world w_placed.
Proof. unfold w_placed. rewrite <- ignore_after. apply (request_in _ alice (CreateOrder basket no_address)). Qed.

(** The life of the sample order, as requests. *)
Lemma sample_life : rtc order_request world w_completed.
Proof.
  eapply rtc_l; [apply placed_request|].
  eapply rtc_l; [apply (request_in (env_at 1) bob_seller (AcceptOrder oid))|].
  cbn [exec]. rewrite ignore_after. fold w_accepted.
  eapply rtc_l; [apply (request_in (env_at 2) bob_seller (MarkPreparing oid))|].
  cbn [exec]. rewrite ignore_after. fold w_preparing.
  eapply rtc_l; [apply (request_in (env_at 3) bob_seller (RequestDriver oid))|].
  cbn [exec]. rewrite ignore_after. fold w_requested.
  eapply rtc_l; [apply (request_in (env_at 4) root_admin (AssignDriver oid 4))|].
  cbn [exec]. rewrite ignore_after. fold w_assigned.
  eapply rtc_l; [apply (request_in (env_at 5) dan_driver (OutForDelivery oid))|].
  cbn [exec]. rewrite ignore_after. fold w_out.
  eapply rtc_l; [apply (request_in (env_at 6) dan_driver (MarkDelivered oid))|].
  cbn [exec]. rewrite ignore_after. fold w_delivered.
  eapply rtc_l; [apply (request_in (env_at 7) alice (CompleteOrder oid))|].
  cbn [exec]. rewrite ignore_after. fold w_completed. done.
Qed.

Lemma order_requests_refine_machine_witness :
  order_request world w_placed ∧
  is_Some (orders w_placed !! oid) ∧ evolves (orders world !! oid) (orders w_placed !! oid).
Proof.
  split_and!; [apply placed_request|vm_compute; eauto|].
  apply (order_requests_refine_machine world w_placed);
    [apply world_well_keyed|apply placed_request].
Defined.


Lemma request_closure_keyed {d d'} :
  rtc order_request d d' → well_keyed d → well_keyed d'.
Proof. induction 1; [done|]. eauto using request_well_keyed. Qed.

Lemma w_placed_keyed : well_keyed w_placed.
Proof. eapply request_well_keyed; [apply placed_request|apply world_well_keyed]. Qed.

Lemma order_terms_never_change_witness :
  ∃ o, orders w_placed !! oid = Some o ∧ o_total_minor o = 1650 ∧
    ∀ o', orders w_accepted !! oid = Some o' → same_terms o o'.
Proof.
  eexists. split; [vm_compute; reflexivity|]. split; [vm_compute; reflexivity|].
  apply (order_terms_never_change w_placed w_accepted oid);
    [apply w_placed_keyed| |vm_compute; reflexivity].
  pose proof (request_in (env_at 1) bob_seller (AcceptOrder oid) w_placed) as H.
  cbn [exec] in H. by rewrite ignore_after in H.
Defined.

Lemma completed_orders_are_recorded_witness :
  completed_recorded w_completed ∧ size (order_analytics_snapshots w_completed) = 1%nat.
Proof.
  split; [|vm_compute; reflexivity].
  apply (completed_orders_are_recorded world w_completed);
    [apply world_well_keyed|intros k1 k2 s1 s2 H; vm_compute in H; by destruct k1
    |intros k o H; vm_compute in H; by destruct k|apply sample_life].
Defined.

Lemma fulfillment_stays_exclusive_witness :
  fulfillment_exclusive w_completed ∧ size (driver_assignments w_completed) = 1%nat.
Proof.
  split; [|vm_compute; reflexivity].
  apply (fulfillment_stays_exclusive world w_completed);
    [apply world_well_keyed| |apply sample_life].
  split; [intros k1 k2 dlv a H|intros k1 k2 a1 a2 H]; vm_compute in H; by destruct k1.
Defined.

Lemma create_order_spec_witness :
  ∃ sid o, u_referring_seller_id alice = Some sid ∧
    placed_order alice sid no_address 1650 o ∧
    ordered_qty basket 20 = 3 ∧ orders w_placed !! o_id o = Some o.
Proof.
  destruct (succeeds_run (get_db (create_order alice basket no_address) (env_at 0) world))
    as [r Hr]; [vm_compute; reflexivity|].
  destruct (create_order_spec _ _ _ _ _ _ _ (proj1 (proj2 world_well_keyed)) Hr)
    as (sid & o & new & _ & _ & Hs & _ & Ho & _ & _ & Hd).
  exists sid, o. split; [exact Hs|]. split; [exact Ho|]. split; [reflexivity|].
  unfold w_placed. rewrite Hd. cbn. apply lookup_insert_eq.
Defined.

Lemma checkout_never_oversells_witness :
  ∃ p', products w_placed !! 20%N = Some p' ∧ p_stock_quantity p' = Some 2.
Proof.
  destruct (succeeds_run (get_db (create_order alice basket no_address) (env_at 0) world))
    as [r Hr]; [vm_compute; reflexivity|].
  destruct (checkout_never_oversells (env_at 0) world _ alice basket no_address r 20 tea
    (proj1 (proj2 world_well_keyed))
    ltac:(repeat constructor) Hr eq_refl ltac:(cbn; lia)) as (p' & Hp & -> & _).
  exists (take_stock (ordered_qty basket 20) tea). split; [exact Hp|vm_compute; reflexivity].
Defined.

(** The retention period of the sample world is 30 days. *)
Definition late_env : Env := env_at 1000.

Lemma deletion_needs_retention_witness :
  ∃ t0, t0 + timedelta_days 30 ≤ clock late_env 0 ∧
    raised (get_db (delete_order alice oid) (env_at 8) w_completed) =
      Some (app_exc OrderRetentionNotMet).
Proof.
  destruct (succeeds_run (get_db (delete_order alice oid) late_env w_completed))
    as [[] Hr]; [vm_compute; reflexivity|].
  destruct (deletion_needs_retention _ _ _ _ _ Hr) as (o & t0 & _ & _ & _ & _ & _ & Hle & _).
  exists t0. split; [exact Hle|vm_compute; reflexivity].
Defined.

Lemma purge_job_is_exact_witness :
  orders (after (get_db run_purge_job late_env w_completed)) !! oid = None ∧
  o_status <$> orders (after (get_db run_purge_job (env_at 100) w_delivered)) !! oid
    = Some completed.
Proof.
  destruct (succeeds_run (get_db run_purge_job late_env w_completed))
    as [res Hr]; [vm_compute; reflexivity|].
  destruct (purge_job_is_exact _ _ _ _
    (proj1 (request_closure_keyed sample_life world_well_keyed)) Hr) as (Hsome & _).
  split; [|vm_compute; reflexivity].
  destruct (orders w_completed !! oid) as [o|] eqn:E; [|vm_compute in E; done].
  rewrite (Hsome _ _ E). vm_compute in E. injection E as <-. vm_compute. reflexivity.
Defined.

Lemma strangers_get_404_witness :
  get_db (exec eve (CancelOrder oid None)) (env_at 9) w_placed
    = (Raised OrderNotFound, w_placed).
Proof.
  apply (strangers_get_404 (env_at 9) w_placed eve (CancelOrder oid None) oid);
    [reflexivity|].
  intros o Ho [_ [_ Hc]]. vm_compute in Ho. injection Ho as <-.
  by specialize (Hc eq_refl).
Defined.

Lemma dispatch_happens_once_witness :
  get_db (out_for_delivery bob_seller oid) (env_at 6) w_out
    = (Raised DeliveryAlreadyStarted, w_out).
Proof.
  destruct (succeeds_run (get_db (out_for_delivery dan_driver oid) (env_at 5) w_assigned))
    as [r Hr]; [vm_compute; reflexivity|]. fold w_out in Hr.
  destruct (dispatch_happens_once (env_at 5) w_assigned w_out dan_driver oid r
    ltac:(apply keyed_eval; vm_compute; reflexivity) Hr) as [_ Hagain].
  apply Hagain; [by left|].
  intros o Ho. vm_compute in Ho. injection Ho as <-. split_and!; done.
Defined.
