(* ===== verification/DeliveryFlow.v ===== *)
(** * The delivery flow: acceptance, tracking, chat and the delivery code

    [services/delivery_flow_service.py] and the endpoints of
    [api/v1/delivery_flow.py] that add checks of their own. *)

From Stdlib Require Import Ascii.
From S2P Require Import Prelude.
From S2P Require Import Sha256.
From S2P Require Import Exceptions.
From S2P Require Import Models.
From S2P Require Import Session.
From S2P Require Import SessionFacts.
From S2P Require Import PyFloat.
From S2P Require Import Orders.
#[local] Open Scope string_scope.

(** ** The delivery code *)

Definition _hash_code (plain : string) : string := sha256_hex plain.

(** The [k] low decimal digits of [n], most significant first. *)
Fixpoint decimal_digits (k : nat) (n : N) : string :=
  match k with
  | O => ""
  | S k' =>
      decimal_digits k' (n / 10) +:+
      String.String (ascii_of_N (48 + n mod 10)) EmptyString
  end.
Fixpoint count_digits (fuel : nat) (n : N) : nat :=
  match fuel with
  | O => 0
  | S fuel' => if decide (n < 10)%N then 1 else S (count_digits fuel' (n / 10))
  end.
(** [f"{n:06d}"]; a number has at most one decimal digit per bit. *)
Definition format_06d (n : N) : string :=
  decimal_digits (Nat.max 6 (count_digits (S (N.size_nat n)) n)) n.

Definition _generate_code : M string :=
  n ← randbelow 1000000;
  mret (format_06d n).

(** The pattern of [CompleteDeliveryRequest.code]. *)
Definition is_digit (c : ascii) : bool :=
  bool_decide (48 ≤ nat_of_ascii c ∧ nat_of_ascii c ≤ 57)%nat.
Definition valid_code (code : string) : bool :=
  bool_decide (String.length code = 6%nat) &&
  forallb is_digit (String.list_ascii_of_string code).

(** ** Errors with an explicit code *)

Definition ORDER_NOT_FOUND : exc := AppExc NotFoundError (Some "ORDER_NOT_FOUND") None.
Definition PERMISSION_DENIED : exc :=
  AppExc AuthorizationError (Some "PERMISSION_DENIED") None.
Definition DELIVERY_CODE_LOCKED : exc :=
  AppExc DeliveryCodeLocked (Some "DELIVERY_CODE_LOCKED") None.
Definition CODE_NOT_AVAILABLE : exc :=
  AppExc NotFoundError (Some "CODE_NOT_AVAILABLE") None.

Definition _get_order_or_404 (order_id : uuid) : M Order :=
  found ← get_row order_id;
  match found with
  | None => raise ORDER_NOT_FOUND
  | Some order =>
      raise_if (o_deleted_at order ≠ None) ORDER_NOT_FOUND;;
      mret order
  end.

(** ** Driver *)

(** The delivery row of the order passes to the driver; without one, a new row
    that is already in transit. *)
Definition hand_to_driver (order : Order) (drv : User) : M unit :=
  delivery ← select_one (λ d, d_order_id d = o_id order);
  match delivery with
  | None =>
      delivery_id ← uuid4;
      insert_row (new_delivery delivery_id (o_id order) (Some (u_id drv))
                    (o_seller_id order) dlv_in_transit None)
  | Some dlv => save (dlv <| d_driver_id := Some (u_id drv) |>)
  end.

Definition accept_order (drv : User) (order_id : uuid) : M (Order * DeliveryCode) :=
  raise_if (u_role drv ≠ driver) PERMISSION_DENIED;;
  order ← _get_order_or_404 order_id;
  existing ← match o_driver_accepted_at order with
             | Some _ => get_row (R:=DeliveryCode) (o_id order)
             | None => mret None
             end;
  match existing with
  | Some existing => mret (order, existing)
  | None =>
      _now ← now;
      let order := order <| o_driver_accepted_at := Some _now |> in
      save order;;
      hand_to_driver order drv;;
      plain ← _generate_code;
      let code := mkDeliveryCode (o_id order) (_hash_code plain) plain 0 false None in
      insert_row code;;
      mret (order, code)
  end.

Definition record_location (drv : User) (order_id : uuid) (lat lng : float64) :
    M OrderTrackingPoint :=
  raise_if (u_role drv ∉ [driver; seller; admin]) PERMISSION_DENIED;;
  order ← _get_order_or_404 order_id;
  point_id ← uuid4;
  recorded_at ← read_env server_now;
  let point := mkTrackingPoint point_id (o_id order)
    (if decide (u_role drv = driver) then Some (u_id drv) else None)
    lat lng recorded_at in
  delivery ← select_one (λ d, d_order_id d = o_id order);
  match delivery with
  | None => mret tt
  | Some dlv => save (dlv <| d_current_lat := Some lat |> <| d_current_lng := Some lng |>)
  end;;
  insert_row point;;
  mret point.

(** [addr.get(key)], where a JSON null is [None] as well. *)
Definition addr_get (addr : Address) (key : string) : option json :=
  match addr !! key with Some JNull | None => None | Some v => Some v end.

Record Route := mkRoute {
  route_order_id : uuid;
  route_customer_lat : option json;
  route_customer_lng : option json;
}.

Definition get_route (order_id : uuid) : M Route :=
  order ← _get_order_or_404 order_id;
  let addr := o_delivery_address order in
  mret (mkRoute (o_id order) (addr_get addr "lat") (addr_get addr "lng")).

(** The endpoint [GET /driver/orders/{id}/route]. *)
Definition driver_route (caller : User) (order_id : uuid) : M Route :=
  raise_if (u_role caller ∉ [driver; admin]) PERMISSION_DENIED;;
  get_route order_id.

Definition complete_delivery (drv : User) (order_id : uuid) (submitted : string) :
    M Order :=
  raise_if (u_role drv ≠ driver) PERMISSION_DENIED;;
  order ← _get_order_or_404 order_id;
  found ← get_row (R:=DeliveryCode) (o_id order);
  match found with
  | None => raise (AppExc ConflictError (Some "DELIVERY_NOT_ACCEPTED") None)
  | Some code =>
      attempt_id ← uuid4;
      let attempt := mkAttempt attempt_id (o_id order) (Some (u_id drv)) submitted false in
      if dc_locked code then
        insert_row attempt;;
        raise DELIVERY_CODE_LOCKED
      else if decide (_hash_code submitted ≠ dc_code_hash code) then
        let code := code <| dc_attempts_used := (dc_attempts_used code + 1)%Z |> in
        let lock := bool_decide (3 ≤ dc_attempts_used code)%Z in
        let code := if lock then code <| dc_locked := true |> else code in
        let order := if lock then order <| o_delivery_code_locked := true |> else order in
        save order;;
        save code;;
        insert_row attempt;;
        raise_if (dc_locked code = true) DELIVERY_CODE_LOCKED;;
        raise (AppExc DeliveryCodeInvalid (Some "DELIVERY_CODE_INVALID")
                 (Some (3 - dc_attempts_used code)%Z))
      else
        let attempt := attempt <| at_success := true |> in
        _now ← now;
        let code := code <| dc_consumed_at := Some _now |> in
        let order := order <| o_delivered_at := Some _now |>
                           <| o_status := delivered |>
                           <| o_customer_visible_after :=
                                Some (_now + timedelta_minutes 30)%Z |> in
        update_where (λ m, om_order_id m = o_id order ∧ om_archived_at m = None)
          (λ m, m <| om_archived_at := Some _now |>);;
        save order;;
        save code;;
        insert_row attempt;;
        mret order
  end.

(** ** ETA *)

Section eta.
Context `{Libm}.

Definition haversine_seconds (p_lat p_lng dest_lat dest_lng : float64) : M Z :=
  let lat1 := radians p_lat in
  let lon1 := radians p_lng in
  let lat2 := radians dest_lat in
  let lon2 := radians dest_lng in
  let dlat := fsub lat2 lat1 in
  let dlon := fsub lon2 lon1 in
  let two := float_of_Z 2 in
  let a := fadd (libm_pow (libm_sin (fdiv dlat two)) two)
             (fmul (fmul (libm_cos lat1) (libm_cos lat2))
                (libm_pow (libm_sin (fdiv dlon two)) two)) in
  root ← math_sqrt a;
  angle ← math_asin root;
  let distance_m := fmul (float_of_Z 6371000) (fmul two angle) in
  int_of_float (fdiv distance_m (decimal 8333 3)).

Definition compute_eta_seconds (order_id : uuid) : M (option Z * option datetime) :=
  points ← select (λ p, tp_order_id p = order_id);
  point ← scalar_one_or_none (take 1 (order_by_desc tp_recorded_at points));
  match point with
  | None => mret (None, None)
  | Some point =>
      found ← get_row (R:=Order) order_id;
      match found with
      | None => mret (None, None)
      | Some order =>
          let addr := o_delivery_address order in
          match addr_get addr "lat", addr_get addr "lng" with
          | Some dest_lat, Some dest_lng =>
              dest_lat ← float_of_json dest_lat;
              dest_lng ← float_of_json dest_lng;
              seconds ← haversine_seconds (tp_lat point) (tp_lng point) dest_lat dest_lng;
              mret (Some seconds, Some (tp_recorded_at point))
          | _, _ => mret (None, Some (tp_recorded_at point))
          end
      end
  end.

(** The endpoint [GET /customer/orders/{id}/eta]. *)
Definition customer_eta (caller : User) (order_id : uuid) :
    M (uuid * option Z * option datetime) :=
  found ← get_row (R:=Order) order_id;
  match found with
  | None => raise ORDER_NOT_FOUND
  | Some order =>
      raise_if (o_deleted_at order ≠ None) ORDER_NOT_FOUND;;
      raise_if (u_role caller ≠ admin ∧ o_customer_id order ≠ u_id caller)
        ORDER_NOT_FOUND;;
      eta ← compute_eta_seconds order_id;
      mret (order_id, eta.1, eta.2)
  end.
End eta.

(** ** Customer *)

Definition get_delivery_code_for_customer (cust : User) (order_id : uuid) :
    M DeliveryCode :=
  order ← _get_order_or_404 order_id;
  raise_if (o_customer_id order ≠ u_id cust ∧ u_role cust ≠ admin) ORDER_NOT_FOUND;;
  found ← get_row (R:=DeliveryCode) (o_id order);
  match found with
  | None => raise CODE_NOT_AVAILABLE
  | Some code =>
      raise_if (o_driver_accepted_at order = None ∨ o_delivered_at order ≠ None)
        CODE_NOT_AVAILABLE;;
      mret code
  end.

(** ** Tracking points and order chat *)

Definition list_tracking_points (order_id : uuid) : M (list OrderTrackingPoint) :=
  points ← select (λ p, tp_order_id p = order_id);
  mret (order_by_asc tp_recorded_at points).

Definition list_order_messages (order_id : uuid) (include_archived : bool) :
    M (list OrderMessage) :=
  found ← select (λ m, om_order_id m = order_id ∧
                       (include_archived = true ∨ om_archived_at m = None));
  mret (order_by_asc om_created_at found).

(** The role of a sender in the chat of an order, [None] for an outsider. *)
Definition chat_role (sender : User) (order : Order) (delivery : option Delivery) :
    option string :=
  if decide (u_role sender = admin) then Some "admin"
  else if decide (u_id sender = o_customer_id order) then Some "customer"
  else match delivery with
       | Some dlv =>
           if decide (d_driver_id dlv = Some (u_id sender)) then Some "driver" else None
       | None => None
       end.

Definition post_order_message (sender : User) (order_id : uuid)
    (ciphertext nonce : string) : M OrderMessage :=
  order ← _get_order_or_404 order_id;
  raise_if (o_driver_accepted_at order = None)
    (AppExc ConflictError (Some "CHAT_NOT_OPEN") None);;
  raise_if (o_delivered_at order ≠ None)
    (AppExc ConflictError (Some "CHAT_CLOSED") None);;
  delivery ← select_one (λ d, d_order_id d = o_id order);
  match chat_role sender order delivery with
  | None => raise PERMISSION_DENIED
  | Some role =>
      raise_if (role = "admin") PERMISSION_DENIED;;
      msg_id ← uuid4;
      created_at ← read_env server_now;
      let msg := mkOrderMessage msg_id (o_id order) (Some (u_id sender)) role
                   ciphertext nonce created_at None in
      insert_row msg;;
      mret msg
  end.

(** The endpoint [GET /orders/{id}/chat]. *)
Definition list_chat (caller : User) (order_id : uuid) : M (list OrderMessage) :=
  found ← get_row (R:=Order) order_id;
  match found with
  | None => raise ORDER_NOT_FOUND
  | Some order =>
      raise_if (o_deleted_at order ≠ None) ORDER_NOT_FOUND;;
      if decide (u_role caller = admin) then list_order_messages order_id true
      else
        delivery ← select_one (λ d, d_order_id d = o_id order);
        let is_customer := bool_decide (u_id caller = o_customer_id order) in
        let is_driver :=
          match delivery with
          | Some dlv => bool_decide (d_driver_id dlv = Some (u_id caller))
          | None => false
          end in
        raise_if (is_customer || is_driver = false) ORDER_NOT_FOUND;;
        match o_delivered_at order with
        | Some _ => mret []
        | None => list_order_messages order_id false
        end
  end.
