(* ===== verification/DeliveryFlowFacts.v ===== *)
(** * What each operation of the delivery flow does

    One lemma per operation of [DeliveryFlow] that writes: the guards that
    held and the exact change of the database. *)

From Stdlib Require Import Ascii.
From S2P Require Import Prelude.
From S2P Require Import Sha256.
From S2P Require Import Exceptions.
From S2P Require Import Models.
From S2P Require Import Session.
From S2P Require Import SessionFacts.
From S2P Require Import PyFloat.
From S2P Require Import Orders.
From S2P Require Import DeliveryFlow.
#[local] Arguments String.append !_ _ /.

(** ** Codes *)

Lemma list_ascii_app s t :
  String.list_ascii_of_string (s +:+ t) =
    String.list_ascii_of_string s ++ String.list_ascii_of_string t.
Proof. induction s as [|c s IH]; cbn; [done|]. by rewrite IH. Qed.

Lemma string_length_app s t :
  String.length (s +:+ t) = (String.length s + String.length t)%nat.
Proof. induction s as [|c s IH]; cbn; [done|]. by rewrite IH. Qed.

Lemma decimal_digits_length k n : String.length (decimal_digits k n) = k.
Proof.
  revert n. induction k as [|k IH]; intros n; cbn; [done|].
  rewrite string_length_app, IH. cbn. lia.
Qed.

Lemma decimal_digits_are_digits k n :
  forallb is_digit (String.list_ascii_of_string (decimal_digits k n)) = true.
Proof.
  revert n. induction k as [|k IH]; intros n; cbn; [done|].
  rewrite list_ascii_app, forallb_app, IH. cbn. rewrite andb_true_r.
  unfold is_digit, nat_of_ascii. apply bool_decide_eq_true.
  assert (n `mod` 10 < 10)%N as Hm by (apply N.mod_lt; lia).
  revert Hm. generalize (n `mod` 10)%N. intros m Hm.
  rewrite N_ascii_embedding by lia. lia.
Qed.

Lemma count_digits_le fuel n k :
  (n < 10 ^ N.of_nat k)%N → (1 ≤ k)%nat → (count_digits fuel n ≤ k)%nat.
Proof.
  revert n k. induction fuel as [|fuel IH]; intros n k Hn Hk; cbn; [lia|].
  case_decide; [lia|]. destruct k as [|[|k]]; [lia| |].
  - change (N.of_nat 1) with 1%N in Hn. rewrite N.pow_1_r in Hn. lia.
  - enough (count_digits fuel (n / 10) ≤ S k)%nat by lia. apply IH; [|lia].
    apply N.Div0.div_lt_upper_bound. rewrite <- N.pow_succ_r'. by rewrite <- Nat2N.inj_succ.
Qed.

Lemma format_06d_small n : (n < 1000000)%N → format_06d n = decimal_digits 6 n.
Proof.
  intros Hn. unfold format_06d.
  replace (Nat.max 6 _) with 6%nat; [done|].
  pose proof (count_digits_le (S (N.size_nat n)) n 6 Hn ltac:(lia)). lia.
Qed.

Lemma generated_code_valid n : (n < 1000000)%N → valid_code (format_06d n) = true.
Proof.
  intros Hn. rewrite format_06d_small by done. unfold valid_code.
  rewrite decimal_digits_length, decimal_digits_are_digits.
  by rewrite bool_decide_eq_true_2.
Qed.

(** ** Operations *)

Section lookups.
Context (env : Env).
Implicit Types (s : Session).

Lemma flow_order_Ok s s' oid o :
  _get_order_or_404 oid env s = (Ok o, s') →
  s' = s ∧ orders (working s) !! oid = Some o ∧ o_deleted_at o = None.
Proof.
  unfold _get_order_or_404. intros H. inv_run.
  destruct (table (working s) !! oid) as [o1|] eqn:E; inv_run.
  match goal with H : ¬ _ ≠ None |- _ => apply dec_stable in H end. done.
Qed.

End lookups.

(** [inv_run] with the helpers of this component. *)
Ltac inv_flow_step :=
  match goal with
  | H : _get_order_or_404 _ _ _ = (Ok _, _) |- _ =>
      apply flow_order_Ok in H as (? & ? & ?)
  | H : ¬ _ ≠ _ |- _ => apply dec_stable in H
  | _ => inv_run_step
  end.
Ltac inv_flow := repeat (inv_flow_step; subst).

Section operations.
Context (env : Env).
Implicit Types (s : Session).

(** A fresh, unused code. *)
Definition fresh_code (oid : uuid) (c : DeliveryCode) : Prop :=
  ∃ n, (n < 1000000)%N ∧
    c = mkDeliveryCode oid (_hash_code (format_06d n)) (format_06d n) 0 false None.

(** The delivery row after acceptance: the existing one or a new one, in the
    hands of the driver. *)
Definition accepted_delivery (d : DB) (o : Order) (drv : User) (dlv : Delivery) : Prop :=
  d_order_id dlv = o_id o ∧ d_driver_id dlv = Some (u_id drv) ∧
  ((∃ k dlv0, deliveries d !! k = Some dlv0 ∧
      dlv = dlv0 <| d_driver_id := Some (u_id drv) |>) ∨
   (deliveries d !! d_id dlv = None ∧ d_status dlv = dlv_in_transit ∧
    ∀ k d0, deliveries d !! k = Some d0 → d_order_id d0 ≠ o_id o)).

Lemma hand_to_driver_Ok s s' o drv b :
  hand_to_driver o drv env s = (Ok b, s') →
  ∃ dlv, accepted_delivery (working s) o drv dlv ∧ committed s' = committed s ∧
    working s' = (working s) <| deliveries ::= <[d_id dlv := dlv]> |>.
Proof.
  unfold hand_to_driver. intros H. inv_run.
  match goal with H : filter _ _ = option_list ?x |- _ => destruct x as [dlv|] end; inv_run.
  - match goal with H : filter _ _ = _ |- _ => apply selected_Some in H as (Hd & [k Hk] & _) end.
    exists (dlv <| d_driver_id := Some (u_id drv) |>). split; [|done].
    split_and!; [done..|]. left. by exists k, dlv.
  - match goal with H : filter _ _ = _ |- _ => pose proof (selected_None _ _ H) as Hno end.
    eexists (new_delivery _ _ _ _ _ _). split; [|done]. split_and!; [done..|]. by right.
Qed.

Lemma generate_code_Ok s s' c :
  _generate_code env s = (Ok c, s') →
  ∃ n, (n < 1000000)%N ∧ c = format_06d n ∧ working s' = working s.
Proof.
  unfold _generate_code. intros H. inv_run. eexists. split_and!; [|done..].
  by apply N.mod_lt.
Qed.

Lemma driver_accept_Ok s s' drv oid o' c :
  accept_order drv oid env s = (Ok (o', c), s') →
  ∃ o, orders (working s) !! oid = Some o ∧ o_deleted_at o = None ∧
    u_role drv = driver ∧
    ((o_driver_accepted_at o ≠ None ∧ delivery_codes (working s) !! o_id o = Some c ∧
      o' = o ∧ working s' = working s) ∨
     (delivery_codes (working s) !! o_id o = None ∧ fresh_code (o_id o) c ∧
      ∃ t dlv, o' = o <| o_driver_accepted_at := Some t |> ∧
        accepted_delivery (working s) o drv dlv ∧
        working s' = (working s) <| orders ::= <[o_id o := o']> |>
          <| deliveries ::= <[d_id dlv := dlv]> |>
          <| delivery_codes ::= <[o_id o := c]> |>)).
Proof.
  unfold accept_order. intros H. inv_flow.
  match goal with H : (match o_driver_accepted_at ?o with _ => _ end) _ _ = (Ok ?e, ?s1) |- _ =>
    assert (s1 = s ∧ (e = None ∨ (o_driver_accepted_at o ≠ None ∧
      e = delivery_codes (working s) !! o_id o))) as [-> Hex]
      by (destruct (o_driver_accepted_at o); inv_run; auto);
    clear H; destruct e as [existing|]; exists o end; inv_flow.
  - split_and!; [done..|]. left. naive_solver.
  - split_and!; [done..|]. right.
    match goal with H : hand_to_driver _ _ _ _ = _ |- _ =>
      apply hand_to_driver_Ok in H as (dlv & Hdlv & _ & Hw1) end.
    match goal with H : _generate_code _ _ = _ |- _ =>
      apply generate_code_Ok in H as (n & Hn & -> & Hw2) end.
    match goal with H : (_, _) = (_, _) |- _ => injection H as -> -> end.
    clear Hex. match goal with H : table _ !! _ = None |- _ => rename H into Hfresh end.
    rewrite Hw1 in Hw2. rewrite Hw2 in Hfresh. split_and!; [exact Hfresh|by exists n|].
    eexists _, dlv. split_and!; [reflexivity|exact Hdlv|].
    cbn. by rewrite Hw2.
Qed.

(** Every message of the order that is still visible is archived. *)
Definition archive_messages (oid : uuid) (t : datetime) (d : DB) : DB :=
  d <| order_messages ::= fmap (λ m,
    if decide (om_order_id m = oid ∧ om_archived_at m = None)
    then m <| om_archived_at := Some t |> else m) |>.

(** The order after the hand-over at time [t]. *)
Definition handed_over (t : datetime) (o : Order) : Order :=
  o <| o_delivered_at := Some t |> <| o_status := delivered |>
    <| o_customer_visible_after := Some (t + timedelta_minutes 30)%Z |>.

Lemma complete_delivery_Ok s s' drv oid submitted o' :
  complete_delivery drv oid submitted env s = (Ok o', s') →
  ∃ o c at_,
    let t := clock env (clock_reads s) in
    orders (working s) !! oid = Some o ∧ o_deleted_at o = None ∧ u_role drv = driver ∧
    delivery_codes (working s) !! o_id o = Some c ∧ dc_locked c = false ∧
    _hash_code submitted = dc_code_hash c ∧ o' = handed_over t o ∧
    at_success at_ = true ∧ at_order_id at_ = o_id o ∧ at_driver_id at_ = Some (u_id drv) ∧
    working s' = (archive_messages (o_id o) t (working s))
      <| orders ::= <[o_id o := o']> |>
      <| delivery_codes ::= <[dc_order_id c := c <| dc_consumed_at := Some t |>]> |>
      <| delivery_code_attempts ::= <[at_id at_ := at_]> |>.
Proof.
  unfold complete_delivery. intros H. inv_flow.
  match type of H with (match ?x with _ => _ end) _ _ = _ =>
    destruct x as [c|] eqn:Hc end; inv_flow.
  destruct (dc_locked c) eqn:Hlocked; [by inv_flow|].
  case_decide as Hcode; inv_flow.
  match goal with o : Order |- _ => eexists o, c, _ end.
  cbn zeta. split_and!; [..|reflexivity]; done.
Qed.
End operations.
