(* ===== verification/DeliveryProps.v ===== *)
(** * Correctness of the delivery flow

    The requests of [delivery_flow_service] interleaved with those of
    [order_service]: the delivery code, the hand-over and the order chat. *)

From S2P Require Import Prelude.
From S2P Require Import Exceptions.
From S2P Require Import Models.
From S2P Require Import Session.
From S2P Require Import SessionFacts.
From S2P Require Import Fixtures.
From S2P Require Import Orders.
From S2P Require Import OrderMachine.
From S2P Require Import DeliveryFlow.
From S2P Require Import DeliveryFlowFacts.
#[local] Open Scope Z_scope.

(** ** Requests *)

Inductive FlowCall :=
| DriverAccept (oid : uuid)
| DriverLocation (oid : uuid) (lat lng : float64)
| DriverRoute (oid : uuid)
| DriverComplete (oid : uuid) (code : string)
| CustomerCode (oid : uuid)
| PostChat (oid : uuid) (ciphertext nonce : string)
| ListChat (oid : uuid)
| AdminTracking (oid : uuid)
| AdminMessages (oid : uuid).

Definition flow_exec (caller : User) (call : FlowCall) : M unit :=
  match call with
  | DriverAccept oid => ignore (DeliveryFlow.accept_order caller oid)
  | DriverLocation oid lat lng => ignore (record_location caller oid lat lng)
  | DriverRoute oid => ignore (driver_route caller oid)
  | DriverComplete oid code => ignore (complete_delivery caller oid code)
  | CustomerCode oid => ignore (get_delivery_code_for_customer caller oid)
  | PostChat oid ct nonce => ignore (post_order_message caller oid ct nonce)
  | ListChat oid => ignore (list_chat caller oid)
  | AdminTracking oid => ignore (list_tracking_points oid)
  | AdminMessages oid => ignore (list_order_messages oid true)
  end.

Inductive flow_request (d d' : DB) : Prop :=
| FlowRequest env caller call out :
    get_db (flow_exec caller call) env d = (out, d') → flow_request d d'.

(** The two services that change orders. *)
Definition delivery_request (d d' : DB) : Prop := order_request d d' ∨ flow_request d d'.

Ltac stable_flow :=
  unfold ignore, DeliveryFlow.accept_order, hand_to_driver, record_location, driver_route,
    get_route, complete_delivery, get_delivery_code_for_customer, post_order_message,
    list_chat, list_order_messages, list_tracking_points, _generate_code,
    DeliveryFlow._get_order_or_404;
  stable_tac.

Lemma flow_uncommitted caller call : stable same_committed (flow_exec caller call).
Proof. destruct call; cbn; stable_flow. Qed.

Lemma exec_valid_orders caller call : stable (keeps_valid Order) (exec caller call).
Proof. destruct call; cbn; stable_call. Qed.
Lemma flow_valid_orders caller call : stable (keeps_valid Order) (flow_exec caller call).
Proof. destruct call; cbn; stable_flow. Qed.
Lemma flow_keyed_orders caller call : stable (keeps_keyed Order) (flow_exec caller call).
Proof. destruct call; cbn; stable_flow. Qed.

(** Orders lie under their own key and within the ranges of their columns. *)
Definition orders_sound (d : DB) : Prop := keyed (R:=Order) d ∧ valid_rows Order d.

(** ** The state of the delivery codes *)

(** A code that no failed attempt has touched: the digest belongs to the plain
    code, which has the form that the completion request accepts. *)
Definition code_sound (c : DeliveryCode) : Prop :=
  dc_attempts_used c = 0 ∧ dc_locked c = false ∧
  dc_code_hash c = _hash_code (dc_code_plain c) ∧ valid_code (dc_code_plain c) = true.

Definition codes_sound (d : DB) : Prop :=
  keyed (R:=DeliveryCode) d ∧ map_Forall (λ _ c, code_sound c) (delivery_codes d) ∧
  map_Forall (λ _ t, at_success t = true) (delivery_code_attempts d).

(** The codes and the attempts of [d'] are among those of [d]. *)
Definition codes_shrink : relation Session := λ s s',
  delivery_codes (working s') ⊆ delivery_codes (working s) ∧
  delivery_code_attempts (working s') ⊆ delivery_code_attempts (working s).
#[export] Instance codes_shrink_rel : SessionRel codes_shrink.
Proof.
  split; [split|].
  - by intros s.
  - intros s1 s2 s3 [? ?] [? ?]. split; by etrans.
  - intros s s' _ E. unfold codes_shrink. by rewrite E.
Qed.

Lemma codes_shrink_other f s :
  delivery_codes (f (working s)) = delivery_codes (working s) →
  delivery_code_attempts (f (working s)) = delivery_code_attempts (working s) →
  codes_shrink s (s <| working ::= f |>).
Proof. intros E1 E2. unfold codes_shrink. cbn. by rewrite E1, E2. Qed.
#[export] Hint Extern 3 (codes_shrink _ _) =>
  apply codes_shrink_other; reflexivity : stable.

Lemma codes_shrink_filter_codes (P : uuid * DeliveryCode → Prop) `{∀ kr, Decision (P kr)} s :
  codes_shrink s (s <| working ::= on_table (filter P) |>).
Proof. split; cbn; [apply map_filter_subseteq|done]. Qed.
Lemma codes_shrink_filter_attempts (P : uuid * DeliveryCodeAttempt → Prop)
    `{∀ kr, Decision (P kr)} s :
  codes_shrink s (s <| working ::= on_table (filter P) |>).
Proof. split; cbn; [done|apply map_filter_subseteq]. Qed.
#[export] Hint Resolve codes_shrink_filter_codes codes_shrink_filter_attempts : stable.

Lemma exec_codes_shrink caller call : stable codes_shrink (exec caller call).
Proof. destruct call; cbn; stable_call. Qed.

Lemma codes_sound_shrink s s' :
  codes_shrink s s' → codes_sound (working s) → codes_sound (working s').
Proof.
  intros [Hc Ha] (Hk & Hs & Ht). split_and!.
  - intros k c Hkc. apply Hk. by eapply lookup_weaken.
  - intros k c Hkc. eapply Hs. by eapply lookup_weaken.
  - intros k t Hkt. eapply Ht. by eapply lookup_weaken.
Qed.

(** A program that neither adds nor changes codes. *)
Ltac shrinks_by H :=
  match type of H with ?m _ _ = _ =>
    assert (stable codes_shrink m) as Hst by stable_flow; by apply Hst in H
  end.

Lemma flow_codes_sound env s s' caller call b :
  codes_sound (working s) → flow_exec caller call env s = (Ok b, s') →
  codes_sound (working s').
Proof.
  intros Hcs H. pose proof Hcs as (Hk & Hs & Ht).
  destruct call; cbn in H.
  all: try (by eapply codes_sound_shrink; [shrinks_by H|exact Hcs]).
  - apply ignore_Ok in H as [[o' c] H].
    apply driver_accept_Ok in H as (o & _ & _ & _ & [(_ & _ & _ & ->)|
      (_ & (n & Hn & ->) & t & dlv & _ & _ & ->)]); [done|].
    split_and!; cbn; [| |done].
    + intros k c. cbn. intros [[<- <-]|[_ ?]]%lookup_insert_Some; [done|by apply Hk].
    + apply map_Forall_insert_2; [|done]. split_and!; [done..|by apply generated_code_valid].
  - apply ignore_Ok in H as [o' H].
    apply complete_delivery_Ok in H as (o & c & a & _ & _ & _ & Hc & _ & _ & _ & Ha & _ & _ & ->).
    pose proof (Hs _ _ Hc) as Hc'. split_and!; cbn.
    + intros k c'. cbn. intros [[<- <-]|[_ ?]]%lookup_insert_Some; [done|by apply Hk].
    + by apply map_Forall_insert_2.
    + by apply map_Forall_insert_2.
Qed.

(** ** Requests as a whole *)

Lemma order_request_sound d d' : order_request d d' →
  (codes_sound d → codes_sound d') ∧ (orders_sound d → orders_sound d').
Proof.
  intros [env caller call out H]. unfold get_db in H.
  destruct (exec caller call env (open_session d)) as [o s'] eqn:E.
  pose proof (exec_uncommitted _ _ _ _ _ _ E) as Hc.
  pose proof (exec_codes_shrink _ _ _ _ _ _ E) as Hs.
  pose proof (exec_valid_orders _ _ _ _ _ _ E) as Hv.
  pose proof (exec_keyed_orders _ _ _ _ _ _ E) as Hk.
  destruct o; simplify_eq; [|by rewrite Hc].
  split; [exact (codes_sound_shrink _ _ Hs)|intros []; split; [by apply Hk|by apply Hv]].
Qed.

Lemma flow_request_sound d d' : flow_request d d' →
  (codes_sound d → codes_sound d') ∧ (orders_sound d → orders_sound d').
Proof.
  intros [env caller call [b|e] H].
  - apply get_db_Ok in H as (s' & H & ->). split.
    + intros Hcs. exact (flow_codes_sound _ (open_session d) _ _ _ _ Hcs H).
    + pose proof (flow_keyed_orders _ _ _ _ _ _ H) as Hk.
      pose proof (flow_valid_orders _ _ _ _ _ _ H) as Hv.
      intros []; split; [by apply Hk|by apply Hv].
  - apply get_db_atomic in H as ->; [done|apply flow_uncommitted].
Qed.

Lemma delivery_closure_sound d d' : rtc delivery_request d d' →
  (codes_sound d → codes_sound d') ∧ (orders_sound d → orders_sound d').
Proof.
  induction 1 as [d|d d1 d' [Hr|Hr] _ [IHc IHv]]; [done|..].
  - apply order_request_sound in Hr as [? ?]. auto.
  - apply flow_request_sound in Hr as [? ?]. auto.
Qed.

(** The right code of an order that is not soft-deleted completes its delivery,
    whatever the status of the order. *)
Lemma complete_delivery_runs env s drv oid submitted o c :
  keyed (R:=Order) (working s) → keyed (R:=DeliveryCode) (working s) →
  is_Some (users (working s) !! u_id drv) →
  u_role drv = driver → orders (working s) !! oid = Some o → o_deleted_at o = None →
  delivery_codes (working s) !! o_id o = Some c → dc_locked c = false →
  _hash_code submitted = dc_code_hash c → column_error o = None → column_error c = None →
  delivery_code_attempts (working s) !! uuids env (uuid_draws s) = None →
  ∃ s', complete_delivery drv oid submitted env s
    = (Ok (handed_over (clock env (clock_reads s)) o), s').
Proof.
  intros Hko Hkc Hu Hr Ho Hd Hc Hl Hh Hvo Hvc Ha.
  pose proof (Hko _ _ Ho) as Eo. pose proof (Hkc _ _ Hc) as Ec. cbn in Eo, Ec. subst oid.
  unfold complete_delivery, DeliveryFlow._get_order_or_404, mbind, M_bind, raise_if.
  rewrite decide_False by (intros []; done). cbn. rewrite Ho.
  rewrite decide_False by (intros []; done). cbn. rewrite Hc, Hl, Hh.
  rewrite decide_False by (intros []; done). cbn -[save insert_row].
  rewrite (save_runs _ o) by (exact Ho || exact Hvo || done || (apply no_conflicts; intros ? ? [])).
  rewrite (save_runs _ c) by
    (cbn; rewrite ?Ec; exact Hc || exact Hvc || done || (apply no_conflicts; intros ? ? [])).
  rewrite insert_runs.
  - by eexists.
  - exact Ha.
  - done.
  - apply no_conflicts; intros ? ? [].
  - cbn. repeat constructor; [|done]. unfold target_exists. cbn. rewrite lookup_insert_eq. by eexists.
Qed.

(** Column ranges of a sound code. *)
Lemma code_sound_column c : code_sound c → column_error c = None.
Proof. intros (Ha & _). cbn. rewrite Ha. reflexivity. Qed.

Lemma delivery_code_Ok env s s' cust oid c :
  get_delivery_code_for_customer cust oid env s = (Ok c, s') →
  s' = s ∧ ∃ o, orders (working s) !! oid = Some o ∧ o_deleted_at o = None ∧
    (o_customer_id o = u_id cust ∨ u_role cust = admin) ∧
    delivery_codes (working s) !! o_id o = Some c ∧
    o_driver_accepted_at o ≠ None ∧ o_delivered_at o = None.
Proof.
  unfold get_delivery_code_for_customer. intros H. inv_flow.
  match type of H with (match ?x with _ => _ end) _ _ = _ =>
    destruct x as [c'|] eqn:Hc end; inv_flow.
  split; [done|]. eexists.
  repeat match goal with H : ¬ (_ ∨ _) |- _ => apply Decidable.not_or in H as [? ?] end.
  split_and!; [done..|apply dec_stable; naive_solver|done|done|by apply dec_stable].
Qed.

(** ** Properties *)

(** C22: the attempt counter and the lock-out of the delivery code have no
    effect: in every database reachable by requests of the two order services,
    however many wrong codes were submitted, no code is locked, every counter
    is zero and the audit log holds no failed attempt; a completion request
    that fails leaves the database as it was. *)
Theorem lockout_never_engages d d' :
  codes_sound d → rtc delivery_request d d' →
  map_Forall (λ _ c, dc_attempts_used c = 0 ∧ dc_locked c = false) (delivery_codes d') ∧
  map_Forall (λ _ t, at_success t = true) (delivery_code_attempts d') ∧
  ∀ env drv oid submitted e d2,
    get_db (complete_delivery drv oid submitted) env d' = (Raised e, d2) → d2 = d'.
Proof.
  intros Hcs Hr. apply delivery_closure_sound in Hr as [Hs _].
  destruct (Hs Hcs) as (_ & Hc & Ht). split_and!; [|done|].
  - intros k c Hk. by destruct (Hc k c Hk) as (? & ? & _).
  - intros env drv oid submitted e d2 H. apply get_db_atomic in H; [done|]. stable_flow.
Qed.

(** C23: a code is shown only to the customer of the order or an
    admin, only after a driver accepted and before the delivery; it has six
    digits, and in every reachable database submitting it succeeds for any
    registered driver and leaves the order delivered, so a hand-over cannot get stuck. *)
Theorem shown_code_completes_delivery d d' env cust oid c d2 :
  codes_sound d → orders_sound d → rtc delivery_request d d' →
  get_db (get_delivery_code_for_customer cust oid) env d' = (Ok c, d2) →
  d2 = d' ∧ valid_code (dc_code_plain c) = true ∧
  (∃ o, orders d' !! oid = Some o ∧ (o_customer_id o = u_id cust ∨ u_role cust = admin) ∧
     o_driver_accepted_at o ≠ None ∧ o_delivered_at o = None) ∧
  ∀ drv env', u_role drv = driver → is_Some (users d' !! u_id drv) →
    delivery_code_attempts d' !! uuids env' 0 = None →
    ∃ o' d3, get_db (complete_delivery drv oid (dc_code_plain c)) env' d' = (Ok o', d3) ∧
      o_status o' = delivered ∧ o_delivered_at o' = Some (clock env' 0).
Proof.
  intros Hcs Hv Hr H. apply delivery_closure_sound in Hr as [Hs Hv'].
  destruct (Hs Hcs) as (Hkc & Hc & _). destruct (Hv' Hv) as [Hko Hvo].
  apply get_db_Ok in H as (s' & H & ->).
  apply delivery_code_Ok in H as (-> & o & Ho & Hd & Hcust & Hco & Hacc & Hdel).
  cbn in Ho, Hco. destruct (Hc _ _ Hco) as (Ha & Hl & Hh & Hvc). split_and!; [done|done| |].
  { by exists o. }
  intros drv env' Hdrv Hu Hfresh.
  destruct (complete_delivery_runs env' (open_session d') drv oid (dc_code_plain c) o c)
    as [s' Hs']; try done.
  { by eapply Hvo. }
  { by apply code_sound_column. }
  eexists _, (working s'). split; [apply get_db_Ok; by eexists|done].
Qed.


(** A select over a UNIQUE column never raises. *)
Lemma delivery_of_order_runs env s oid :
  unique_rows (R:=Delivery) (working s) →
  ∃ o, select_one (λ d, d_order_id d = oid) env s = (Ok o, s) ∧
    ∀ d, o = Some d → d_order_id d = oid.
Proof.
  intros Hu. unfold select_one, mbind, M_bind, select, query. cbn.
  destruct (filter _ _) as [|d l] eqn:E; [by exists None|].
  assert (d ∈ d :: l) as Hd by left. rewrite <- E in Hd.
  apply elem_of_selected in Hd as [Hd [k Hk]].
  erewrite (selected_unique (deliveries (working s)) _ k d) in E; [|done..|].
  - injection E as <-. exists (Some d). split; [done|]. by intros d' [= <-].
  - intros k' d' Hk' Hd'. destruct (decide (k' = k)) as [|Hne]; [done|].
    exfalso. apply (Hu k' k d' d Hk' Hk Hne). cbn. congruence.
Qed.

(** Once a delivery is completed the chat of the order is closed:
    every message is archived, nobody can post, and nobody but an admin sees
    any message. *)
Theorem chat_closes_with_delivery env d d' drv oid submitted o' :
  keyed (R:=Order) d → unique_rows (R:=Delivery) d →
  get_db (complete_delivery drv oid submitted) env d = (Ok o', d') →
  (∀ k m, order_messages d' !! k = Some m → om_order_id m = oid → om_archived_at m ≠ None) ∧
  (∀ env' caller ct nonce, ∃ e,
     get_db (post_order_message caller oid ct nonce) env' d' = (Raised e, d')) ∧
  (∀ env' caller, u_role caller ≠ admin →
     get_db (list_chat caller oid) env' d' = (Ok [], d') ∨
     get_db (list_chat caller oid) env' d' = (Raised ORDER_NOT_FOUND, d')).
Proof.
  intros Hko Hu H. apply get_db_Ok in H as (s' & H & ->).
  apply complete_delivery_Ok in H
    as (o & c & a & Ho & Hd & Hr & Hc & Hl & Hh & -> & Ha & Hao & Had & Hw).
  pose proof (Hko _ _ Ho) as Hid. cbn in Hid, Ho, Hd, Hw.
  set (t := clock env 0) in *.
  assert (orders (working s') !! oid = Some (handed_over t o)) as Ho'.
  { rewrite Hw. cbn. by rewrite Hid, lookup_insert_eq. }
  assert (unique_rows (R:=Delivery) (working s')) as Hu' by by rewrite Hw.
  split_and!.
  - intros k m. rewrite Hw. cbn. intros (m0 & <- & _)%lookup_fmap_Some.
    rewrite Hid. case_decide as Hm; [done|]. intros Hmo Hn. by apply Hm.
  - intros env' caller ct nonce.
    assert (∃ e, post_order_message caller oid ct nonce env' (open_session (working s'))
      = (Raised e, open_session (working s'))) as [e He].
    { unfold post_order_message, DeliveryFlow._get_order_or_404, mbind, M_bind, raise_if.
      cbn. rewrite Ho'. cbn. rewrite decide_False by (intros []; done). cbn.
      case_decide; cbn; [by eexists|]. by eexists. }
    exists e. apply get_db_Raised. by eexists.
  - intros env' caller Hcaller.
    unfold get_db, list_chat, mbind, M_bind, raise_if. cbn. rewrite Ho'. cbn.
    rewrite decide_False by (intros []; done). cbn. rewrite decide_False by done.
    destruct (delivery_of_order_runs env' (open_session (working s')) (o_id o) Hu')
      as (dlv & Hdlv & _).
    rewrite Hdlv. case_decide; cbn; auto.
Qed.

(** after a driver has accepted an order, accepting it again, by the
    same or any other driver, gives the same order and the same code and
    changes nothing. *)
Theorem acceptance_is_idempotent env d d' drv oid o c :
  keyed (R:=Order) d →
  get_db (DeliveryFlow.accept_order drv oid) env d = (Ok (o, c), d') →
  orders d' !! oid = Some o ∧ delivery_codes d' !! oid = Some c ∧
  ∀ env' drv', u_role drv' = driver →
    get_db (DeliveryFlow.accept_order drv' oid) env' d' = (Ok (o, c), d').
Proof.
  intros Hko H. apply get_db_Ok in H as (s' & H & ->).
  apply driver_accept_Ok in H as (o0 & Ho & Hd & Hr & H). cbn in Ho, H.
  pose proof (Hko _ _ Ho) as Hid. cbn in Hid.
  assert (orders (working s') !! oid = Some o ∧ delivery_codes (working s') !! o_id o = Some c ∧
    o_driver_accepted_at o ≠ None ∧ o_deleted_at o = None ∧ o_id o = oid)
    as (Ho' & Hc' & Hacc & Hd' & Hid').
  { destruct H as [(Hacc & Hc & -> & ->)|(_ & _ & t & dlv & -> & _ & ->)]; [done|].
    cbn. rewrite Hid, !lookup_insert_eq. by split_and!. }
  split_and!; [done|by rewrite <- Hid'|]. intros env' drv' Hdrv'.
  unfold get_db, DeliveryFlow.accept_order, DeliveryFlow._get_order_or_404, mbind, M_bind,
    raise_if.
  rewrite decide_False by (intros []; done). cbn. rewrite Ho'.
  rewrite decide_False by (intros []; done). cbn.
  destruct (o_driver_accepted_at o); [|done]. cbn. by rewrite Hc'.
Qed.

(** ** Witnesses *)

(** Dan accepts the placed order, guesses wrong three times, and hands it over
    with the right code although Alice cancelled it meanwhile. *)
Definition w_flow_accepted : DB :=
  after (get_db (DeliveryFlow.accept_order dan_driver oid) (env_at 1) w_placed).
Definition w_flow_guessed : DB :=
  after (get_db (complete_delivery dan_driver oid "000000")
    (env_at 4) (after (get_db (complete_delivery dan_driver oid "111111") (env_at 3)
      (after (get_db (complete_delivery dan_driver oid "222222") (env_at 2) w_flow_accepted))))).
Definition w_flow_cancelled : DB :=
  after (get_db (cancel_order alice oid None) (env_at 5) w_flow_accepted).
Definition w_flow_delivered : DB :=
  after (get_db (complete_delivery dan_driver oid "000008") (env_at 6) w_flow_cancelled).

Example flow_scenario :
  succeeds (get_db (DeliveryFlow.accept_order dan_driver oid) (env_at 1) w_placed) &&
  bool_decide (dc_code_plain <$> delivery_codes w_flow_guessed !! oid = Some "000008"%string) &&
  bool_decide (dc_locked <$> delivery_codes w_flow_guessed !! oid = Some false) &&
  bool_decide (o_status <$> orders w_flow_cancelled !! oid = Some cancelled) &&
  bool_decide (o_status <$> orders w_flow_delivered !! oid = Some delivered) = true.
Proof. vm_compute. reflexivity. Qed.

Lemma flow_request_in (env : Env) caller call d :
  delivery_request d (after (get_db (flow_exec caller call) env d)).
Proof.
  right. apply (FlowRequest _ _ env caller call (get_db (flow_exec caller call) env d).1).
  apply surjective_pairing.
Qed.
Lemma placed_reached : rtc delivery_request world w_placed.
Proof.
  apply rtc_once. left. unfold w_placed. rewrite <- ignore_after.
  apply (OrderRequest _ _ (env_at 0) alice (CreateOrder basket no_address)
    (get_db (exec alice (CreateOrder basket no_address)) (env_at 0) world).1).
  apply surjective_pairing.
Qed.
Lemma accepted_reached : rtc delivery_request world w_flow_accepted.
Proof.
  eapply rtc_r; [apply placed_reached|]. unfold w_flow_accepted. rewrite <- ignore_after.
  apply (flow_request_in (env_at 1) dan_driver (DriverAccept oid)).
Qed.
Lemma guessed_reached : rtc delivery_request world w_flow_guessed.
Proof.
  unfold w_flow_guessed. rewrite <- !(ignore_after (complete_delivery _ _ _)).
  do 3 (eapply rtc_r; [|apply (flow_request_in _ dan_driver (DriverComplete oid _))]).
  apply accepted_reached.
Qed.

Lemma world_codes : codes_sound world.
Proof. split_and!; intros k c Hk; vm_compute in Hk; by destruct k. Qed.
Lemma world_sound_orders : orders_sound world.
Proof. split; intros k o Hk; vm_compute in Hk; by destruct k. Qed.

Lemma lockout_never_engages_witness :
  (∃ c, delivery_codes w_flow_guessed !! oid = Some c ∧ dc_locked c = false) ∧
  size (delivery_code_attempts w_flow_guessed) = 0%nat.
Proof.
  destruct (lockout_never_engages world w_flow_guessed world_codes guessed_reached)
    as (Hc & _ & _).
  split; [|vm_compute; reflexivity].
  destruct (delivery_codes w_flow_guessed !! oid) as [c|] eqn:E; [|vm_compute in E; done].
  exists c. split; [reflexivity|]. exact (proj2 (Hc oid c E)).
Defined.

Lemma shown_code_completes_delivery_witness :
  ∃ o' d3, get_db (complete_delivery dan_driver oid "000008") (env_at 7) w_flow_guessed
    = (Ok o', d3) ∧ o_status o' = delivered.
Proof.
  destruct (succeeds_run (get_db (get_delivery_code_for_customer alice oid) (env_at 5)
    w_flow_guessed)) as [c Hc]; [vm_compute; reflexivity|].
  destruct (shown_code_completes_delivery _ _ _ _ _ _ _ world_codes world_sound_orders
    guessed_reached Hc) as (_ & _ & _ & Hgo).
  assert (Some c = match (get_db (get_delivery_code_for_customer alice oid) (env_at 5)
    w_flow_guessed).1 with Ok c => Some c | Raised _ => None end) as Ec by by rewrite Hc.
  vm_compute in Ec. injection Ec as ->.
  destruct (Hgo dan_driver (env_at 7) eq_refl ltac:(vm_compute; by eexists)
      ltac:(vm_compute; reflexivity))
    as (o' & d3 & Hrun & Hs & _).
  exists o', d3. split; [exact Hrun|exact Hs].
Defined.

Lemma handed_over_lookup (d : DB) t o c a :
  orders ((archive_messages (o_id o) t d)
    <| orders ::= <[o_id o := handed_over t o]> |>
    <| delivery_codes ::= <[dc_order_id c := c <| dc_consumed_at := Some t |>]> |>
    <| delivery_code_attempts ::= <[at_id a := a]> |>) !! o_id o = Some (handed_over t o).
Proof. apply lookup_insert_eq. Qed.


Lemma w_flow_cancelled_deliveries : unique_rows (R:=Delivery) w_flow_cancelled.
Proof.
  intros k1 k2 r1 r2 H1 H2 Hne. destruct Hne.
  eapply (size_one_unique (deliveries w_flow_cancelled)); [vm_compute; reflexivity|done..].
Qed.

Lemma chat_closes_with_delivery_witness :
  get_db (list_chat alice oid) (env_at 7) w_flow_delivered = (Ok [], w_flow_delivered) ∨
  get_db (list_chat alice oid) (env_at 7) w_flow_delivered
    = (Raised ORDER_NOT_FOUND, w_flow_delivered).
Proof.
  destruct (succeeds_run (get_db (complete_delivery dan_driver oid "000008") (env_at 6)
    w_flow_cancelled)) as [o' Hr]; [vm_compute; reflexivity|].
  apply (chat_closes_with_delivery (env_at 6) w_flow_cancelled w_flow_delivered dan_driver oid
    "000008" o' ltac:(apply keyed_eval; vm_compute; reflexivity)
    w_flow_cancelled_deliveries Hr). done.
Defined.

Lemma acceptance_is_idempotent_witness :
  ∃ o c, get_db (DeliveryFlow.accept_order dan_driver oid) (env_at 9) w_flow_accepted
    = (Ok (o, c), w_flow_accepted) ∧ dc_code_plain c = "000008"%string.
Proof.
  destruct (succeeds_run (get_db (DeliveryFlow.accept_order dan_driver oid) (env_at 1) w_placed))
    as [[o c] Hr]; [vm_compute; reflexivity|].
  destruct (acceptance_is_idempotent (env_at 1) w_placed w_flow_accepted dan_driver oid o c
    ltac:(apply keyed_eval; vm_compute; reflexivity) Hr) as (_ & Hc & Hagain).
  exists o, c. split; [by apply Hagain|]. vm_compute in Hc. by injection Hc as <-.
Defined.
