(* ===== verification/Base64.v ===== *)
(** * Base64url as Python's [base64] module computes it

    [base64.urlsafe_b64encode] and [base64.urlsafe_b64decode] of the standard
    library: the decoder is lenient, it skips characters outside the alphabet
    and stops at complete padding.  The helpers of the services and schemas are
    built on them: [_b64url_encode] ([services/messaging_service.py] and
    [schemas/keys.py]) strips the padding, [_decode_b64url]
    ([schemas/conversations.py], [schemas/keys.py]) restores it and checks the
    decoded length. *)

From Stdlib Require Import Ascii.
From S2P Require Import Prelude.
#[local] Open Scope Z_scope.

(** A byte is a [Z] between 0 and 255. *)
Definition is_byte (b : Z) : Prop := 0 <= b < 256.

(** ** The alphabet *)

Definition char_of (n : Z) : ascii := ascii_of_nat (Z.to_nat n).
Definition code_of (c : ascii) : Z := Z.of_nat (nat_of_ascii c).

(** The digit of a 6-bit value, in the URL-safe alphabet. *)
Definition b64_char (v : Z) : ascii :=
  char_of (if decide (v < 26) then 65 + v
           else if decide (v < 52) then 71 + v
           else if decide (v < 62) then v - 4
           else if decide (v = 62) then 45 else 95).

(** [urlsafe_b64decode] maps [-_] to [+/] and then uses the standard table. *)
Definition b64_value (c : ascii) : option Z :=
  let n := code_of c in
  if decide (65 <= n <= 90) then Some (n - 65)
  else if decide (97 <= n <= 122) then Some (n - 71)
  else if decide (48 <= n <= 57) then Some (n + 4)
  else if decide (n = 43 ∨ n = 45) then Some 62
  else if decide (n = 47 ∨ n = 95) then Some 63
  else None.

Definition pad_char : ascii := "="%char.

(** ** Encoding *)

Fixpoint b64_encode (bytes : list Z) : list ascii :=
  match bytes with
  | [] => []
  | [a] =>
      [b64_char (Z.shiftr a 2); b64_char (Z.shiftl (Z.land a 3) 4); pad_char; pad_char]
  | [a; b] =>
      [b64_char (Z.shiftr a 2);
       b64_char (Z.lor (Z.shiftl (Z.land a 3) 4) (Z.shiftr b 4));
       b64_char (Z.shiftl (Z.land b 15) 2); pad_char]
  | a :: b :: c :: rest =>
      b64_char (Z.shiftr a 2)
        :: b64_char (Z.lor (Z.shiftl (Z.land a 3) 4) (Z.shiftr b 4))
        :: b64_char (Z.lor (Z.shiftl (Z.land b 15) 2) (Z.shiftr c 6))
        :: b64_char (Z.land c 63) :: b64_encode rest
  end.

(** [.rstrip(b"=")] *)
Fixpoint lstrip_pad (l : list ascii) : list ascii :=
  match l with
  | [] => []
  | c :: l' => if decide (c = pad_char) then lstrip_pad l' else l
  end.
Definition rstrip_pad (l : list ascii) : list ascii := rev (lstrip_pad (rev l)).

Definition _b64url_encode (raw : list Z) : list ascii := rstrip_pad (b64_encode raw).

(** ** Decoding *)

(** [binascii.a2b_base64] in its default, non-strict mode: position in the
    quad, left-over bits and number of pads seen; [None] is [binascii.Error]. *)
Fixpoint a2b (l : list ascii) (quad_pos leftchar pads : Z) : option (list Z) :=
  match l with
  | [] => if decide (quad_pos = 0) then Some [] else None
  | c :: l' =>
      if decide (c = pad_char) then
        if decide (2 <= quad_pos ∧ 4 <= quad_pos + (pads + 1)) then Some []
        else a2b l' quad_pos leftchar (if decide (2 <= quad_pos) then pads + 1 else pads)
      else
        match b64_value c with
        | None => a2b l' quad_pos leftchar pads
        | Some v =>
            if decide (quad_pos = 0) then a2b l' 1 v 0
            else if decide (quad_pos = 1) then
              cons (Z.lor (Z.land (Z.shiftl leftchar 2) 255) (Z.shiftr v 4))
                <$> a2b l' 2 (Z.land v 15) 0
            else if decide (quad_pos = 2) then
              cons (Z.lor (Z.land (Z.shiftl leftchar 4) 255) (Z.shiftr v 2))
                <$> a2b l' 3 (Z.land v 3) 0
            else
              cons (Z.lor (Z.land (Z.shiftl leftchar 6) 255) v) <$> a2b l' 0 0 0
        end
  end.
Definition urlsafe_b64decode (s : list ascii) : option (list Z) := a2b s 0 0 0.

Definition is_ascii (c : ascii) : bool := bool_decide (code_of c < 128).

(** [-len(v) % 4] pads; [None] is the [ValueError] of the validator.  A
    character outside ASCII fails in [.encode("ascii")]. *)
Definition _decode_b64url (v : list ascii) (min_len max_len : Z) : option (list Z) :=
  if forallb is_ascii v then
    let padded := v ++ repeat pad_char (Z.to_nat (- Z.of_nat (length v) mod 4)) in
    raw ← urlsafe_b64decode padded;
    if decide (min_len <= Z.of_nat (length raw) <= max_len) then Some raw else None
  else None.
Definition _decode_b64url_32 (v : list ascii) : option (list Z) := _decode_b64url v 32 32.
