(* ===== verification/Base64Facts.v ===== *)
(** * The base64url round trip *)

From Stdlib Require Import Ascii.
From S2P Require Import Prelude.
From S2P Require Import Base64.
#[local] Open Scope Z_scope.

(** ** Bit fields as arithmetic *)

Lemma lor_fields x y n :
  0 <= n → 0 <= y < 2 ^ n → Z.lor (Z.shiftl x n) y = x * 2 ^ n + y.
Proof.
  intros Hn Hy. rewrite <- Z.shiftl_mul_pow2 by done.
  rewrite <- Z.add_lor_land.
  replace (Z.land (Z.shiftl x n) y) with 0; [lia|].
  symmetry. apply Z.bits_inj'. intros i Hi. rewrite Z.land_spec, Z.bits_0.
  destruct (decide (i < n)) as [Hlt|Hge].
  - by rewrite Z.shiftl_spec_low.
  - rewrite <- (Z.mod_small y (2 ^ n)) by done.
    rewrite Z.mod_pow2_bits_high by lia. apply andb_false_r.
Qed.

Lemma land_mod x k n : 0 <= n → k = 2 ^ n - 1 → Z.land x k = x mod 2 ^ n.
Proof. intros Hn ->. rewrite <- Z.land_ones by done. by rewrite Z.ones_equiv, Z.sub_1_r. Qed.

Lemma shiftr_div x n : 0 <= n → Z.shiftr x n = x / 2 ^ n.
Proof. apply Z.shiftr_div_pow2. Qed.

(** The 6-bit fields of a byte string. *)
Fixpoint fields (bytes : list Z) : list Z :=
  match bytes with
  | [] => []
  | [a] => [a / 4; (a mod 4) * 16]
  | [a; b] => [a / 4; (a mod 4) * 16 + b / 16; (b mod 16) * 4]
  | a :: b :: c :: rest =>
      a / 4 :: (a mod 4) * 16 + b / 16 :: (b mod 16) * 4 + c / 64 :: c mod 64
        :: fields rest
  end.

Definition pads_of (fs : list Z) : nat := Z.to_nat (- Z.of_nat (length fs) mod 4).

(** Induction three bytes at a time. *)
Lemma list_ind3 {A} (P : list A → Prop) :
  P [] → (∀ a, P [a]) → (∀ a b, P [a; b]) → (∀ a b c l, P l → P (a :: b :: c :: l)) →
  ∀ l, P l.
Proof.
  intros H0 H1 H2 H3. fix IH 1. intros [|a [|b [|c l]]]; [done|done|done|].
  apply H3, IH.
Qed.

Ltac bytes_tac :=
  repeat match goal with H : Forall is_byte (_ :: _) |- _ =>
    apply Forall_cons in H as [? H] end;
  unfold is_byte in *.

(** Bring the bit operations of [b64_encode] and [a2b] into [div] and [mod]. *)
Ltac fields_tac :=
  rewrite ?shiftr_div, ?(land_mod _ 3 2), ?(land_mod _ 15 4), ?(land_mod _ 63 6),
    ?(land_mod _ 255 8) by (lia || done);
  repeat (rewrite lor_fields; [|lia|change (2 ^ 4) with 16; change (2 ^ 2) with 4;
    change (2 ^ 6) with 64; Z.to_euclidean_division_equations; lia]);
  rewrite ?Z.shiftl_mul_pow2 by lia;
  change (2 ^ 2) with 4; change (2 ^ 4) with 16; change (2 ^ 6) with 64;
  change (2 ^ 8) with 256.

Lemma fields_small l : Forall is_byte l → Forall (λ v, 0 <= v < 64) (fields l).
Proof.
  induction l as [|a|a b|a b c l IH] using list_ind3; cbn [fields]; intros Hl;
    bytes_tac; repeat constructor; try (apply IH; done);
    Z.to_euclidean_division_equations; lia.
Qed.

Lemma encode_fields l :
  Forall is_byte l →
  b64_encode l = (b64_char <$> fields l) ++ repeat pad_char (pads_of (fields l)).
Proof.
  induction l as [|a|a b|a b c l IH] using list_ind3; cbn [fields b64_encode]; intros Hl;
    bytes_tac.
  - done.
  - fields_tac. done.
  - fields_tac. done.
  - fields_tac. rewrite IH by done. cbn [fmap list_fmap app]. do 5 f_equal.
    unfold pads_of. cbn [length]. do 2 f_equal.
    rewrite !Nat2Z.inj_succ. Z.to_euclidean_division_equations; lia.
Qed.

(** ** The alphabet *)

Lemma char_ok v :
  0 <= v < 64 →
  b64_value (b64_char v) = Some v ∧ b64_char v ≠ pad_char ∧ is_ascii (b64_char v) = true.
Proof.
  assert (Forall (λ v, b64_value (b64_char v) = Some v ∧ b64_char v ≠ pad_char ∧
    is_ascii (b64_char v) = true) (seqZ 0 64)) as Hall
    by (apply (bool_decide_eq_true_1 _); vm_compute; reflexivity).
  intros Hv. rewrite Forall_forall in Hall. apply Hall, elem_of_seqZ. lia.
Qed.

(** ** Stripping the padding *)

Lemma lstrip_pads k l : lstrip_pad (repeat pad_char k ++ l) = lstrip_pad l.
Proof. induction k as [|k IH]; cbn; [done|]. by rewrite decide_True. Qed.

Lemma rstrip_padding fs k :
  Forall (λ v, 0 <= v < 64) fs →
  rstrip_pad ((b64_char <$> fs) ++ repeat pad_char k) = b64_char <$> fs.
Proof.
  intros Hf. unfold rstrip_pad. rewrite rev_app_distr, rev_repeat, lstrip_pads.
  rewrite <- (rev_involutive (b64_char <$> fs)) at 2. f_equal.
  destruct fs as [|fs v _] using rev_ind; [done|].
  rewrite fmap_app, rev_app_distr. cbn.
  apply Forall_app in Hf as [_ Hv]. inversion_clear Hv.
  rewrite decide_False; [done|]. by apply char_ok.
Qed.

Lemma encode_is_fields l :
  Forall is_byte l → _b64url_encode l = b64_char <$> fields l.
Proof.
  intros Hl. unfold _b64url_encode. rewrite encode_fields by done.
  by apply rstrip_padding, fields_small.
Qed.

(** ** Decoding *)

(** One step of the decoder on a character of the alphabet, per position. *)
Section a2b_steps.
Context (v left_ pads : Z) (l : list ascii) (Hv : 0 <= v < 64).

Ltac a2b_step :=
  destruct (char_ok v Hv) as (Hval & Hne & _); cbn; by rewrite decide_False, Hval.

Lemma a2b_char0 : a2b (b64_char v :: l) 0 left_ pads = a2b l 1 v 0.
Proof. a2b_step. Qed.
Lemma a2b_char1 :
  a2b (b64_char v :: l) 1 left_ pads =
    cons (Z.lor (Z.land (Z.shiftl left_ 2) 255) (Z.shiftr v 4)) <$> a2b l 2 (Z.land v 15) 0.
Proof. a2b_step. Qed.
Lemma a2b_char2 :
  a2b (b64_char v :: l) 2 left_ pads =
    cons (Z.lor (Z.land (Z.shiftl left_ 4) 255) (Z.shiftr v 2)) <$> a2b l 3 (Z.land v 3) 0.
Proof. a2b_step. Qed.
Lemma a2b_char3 :
  a2b (b64_char v :: l) 3 left_ pads =
    cons (Z.lor (Z.land (Z.shiftl left_ 6) 255) v) <$> a2b l 0 0 0.
Proof. a2b_step. Qed.
End a2b_steps.

(** The bytes reassembled from neighbouring fields. *)
Lemma reassemble x y k n m :
  0 <= n → 0 <= m → n + m = 8 → 0 <= x < 2 ^ m → 0 <= y < 2 ^ n → k = x * 2 ^ n + y →
  Z.lor (Z.land (Z.shiftl x n) 255) y = k.
Proof.
  intros Hn Hm Hs Hx Hy ->. rewrite (land_mod _ 255 8) by lia.
  rewrite Z.shiftl_mul_pow2, Z.mod_small by
    (done || (split; [nia|]; replace 8 with (m + n) by lia; rewrite Z.pow_add_r by lia; nia)).
  rewrite <- (lor_fields x y n) by done. by rewrite Z.shiftl_mul_pow2.
Qed.

(** Evaluate the decoder on the fields of one group. *)
Ltac decode_group :=
  repeat first
    [ rewrite a2b_char0 | rewrite a2b_char1 | rewrite a2b_char2 | rewrite a2b_char3 ];
  try (Z.to_euclidean_division_equations; lia).
Ltac byte_tac n m :=
  apply (reassemble _ _ _ n m); rewrite ?shiftr_div, ?(land_mod _ 3 2), ?(land_mod _ 15 4) by done;
  try done; cbn -[Z.div Z.modulo Z.mul]; Z.to_euclidean_division_equations; lia.

Lemma decode_fields l :
  Forall is_byte l →
  a2b ((b64_char <$> fields l) ++ repeat pad_char (pads_of (fields l))) 0 0 0 = Some l.
Proof.
  induction l as [|a|a b|a b c l IH] using list_ind3; intros Hl; bytes_tac.
  - done.
  - cbn [fields fmap list_fmap app]. decode_group.
    change (repeat pad_char _) with [pad_char; pad_char].
    change (a2b [pad_char; pad_char] 2 _ 0) with (Some (A:=list Z) []). cbn [fmap option_fmap option_map].
    do 2 f_equal. byte_tac 2 6.
  - cbn [fields fmap list_fmap app]. decode_group.
    change (repeat pad_char _) with [pad_char].
    change (a2b [pad_char] 3 _ 0) with (Some (A:=list Z) []). cbn [fmap option_fmap option_map].
    do 2 f_equal; [byte_tac 2 6|]. f_equal. byte_tac 4 4.
  - cbn [fields fmap list_fmap app]. decode_group.
    replace (pads_of _) with (pads_of (fields l)); [rewrite IH by done|].
    + cbn [fmap option_fmap option_map]. do 2 f_equal; [byte_tac 2 6|].
      f_equal; [byte_tac 4 4|]. f_equal. byte_tac 6 2.
    + unfold pads_of. cbn [length]. f_equal.
      rewrite !Nat2Z.inj_succ. Z.to_euclidean_division_equations; lia.
Qed.

(** ** The round trip *)

Lemma alphabet_is_ascii fs :
  Forall (λ v, 0 <= v < 64) fs → forallb is_ascii (b64_char <$> fs) = true.
Proof.
  induction 1 as [|v fs Hv _ IH]; cbn; [done|].
  destruct (char_ok v Hv) as (_ & _ & ->). exact IH.
Qed.

(** The bytes of a key, a nonce or a ciphertext survive the transport:
    decoding the unpadded base64url text that the server renders gives back
    exactly the bytes, whenever their number is within the bounds of the
    field. *)
Theorem b64url_round_trip raw min_len max_len :
  Forall is_byte raw → min_len <= Z.of_nat (length raw) <= max_len →
  _decode_b64url (_b64url_encode raw) min_len max_len = Some raw.
Proof.
  intros Hb Hlen. rewrite encode_is_fields by done. unfold _decode_b64url.
  rewrite alphabet_is_ascii by by apply fields_small.
  rewrite length_fmap. fold (pads_of (fields raw)).
  unfold urlsafe_b64decode. rewrite decode_fields by done. cbn.
  by rewrite decide_True.
Qed.

Lemma b64url_round_trip_witness :
  _decode_b64url (_b64url_encode [0; 255; 16; 62; 63]) 5 12 = Some [0; 255; 16; 62; 63].
Proof.
  apply (b64url_round_trip [0; 255; 16; 62; 63] 5 12); [|cbn; lia].
  apply (bool_decide_eq_true_1 _). vm_compute. reflexivity.
Defined.
