(* ===== verification/Messaging.v ===== *)
(** * Conversations and ciphertext messages

    [services/messaging_service.py] and the endpoints of
    [api/v1/conversations.py] that add behaviour: who may open a conversation,
    the canonical pair, opaque messages with a cursor over their send times,
    read receipts, and the retention of messages. *)

From Stdlib Require Import Ascii.
From S2P Require Import Prelude.
From S2P Require Import Exceptions.
From S2P Require Import Models.
From S2P Require Import Session.
From S2P Require Import SessionFacts.
From S2P Require Import Base64.
#[local] Open Scope string_scope.

(** ** Helpers *)

(** [a.bytes < b.bytes] is the order of the 128-bit integers. *)
Definition _canonical_pair (a b : uuid) : uuid * uuid :=
  if decide (a < b)%N then (a, b) else (b, a).

Definition _peer_of (conv : Conversation) (caller_id : uuid) : uuid :=
  if decide (c_user_a_id conv = caller_id) then c_user_b_id conv else c_user_a_id conv.

(** ** Eligibility *)

Definition _can_converse (caller : User) (peer_id : uuid) : M bool :=
  if decide (u_id caller = peer_id) then mret false
  else if decide (u_role caller = admin) then mret true
  else
    peer ← select_one (λ u, u_id u = peer_id ∧ u_deleted_at u = None ∧
                            u_is_active u = true);
    match peer with
    | None => mret false
    | Some peer =>
        mret match u_role caller, u_role peer with
             | _, admin => true
             | customer, seller =>
                 bool_decide (u_referring_seller_id caller = Some (u_id peer))
             | seller, customer =>
                 bool_decide (u_referring_seller_id peer = Some (u_id caller))
             | _, _ => false
             end
    end.

Definition _load_conversation_for_caller (caller : User) (conversation_id : uuid) :
    M Conversation :=
  found ← get_row conversation_id;
  match found with
  | None => raise ConversationNotFound
  | Some conv =>
      raise_if (u_role caller ≠ admin ∧
                u_id caller ∉ [c_user_a_id conv; c_user_b_id conv]) ConversationNotFound;;
      mret conv
  end.

(** ** Conversations *)

Definition create_conversation (caller : User) (peer_user_id : uuid) : M Conversation :=
  eligible ← _can_converse caller peer_user_id;
  raise_if (eligible = false) ConversationIneligible;;
  let '(a, b) := _canonical_pair (u_id caller) peer_user_id in
  existing ← select_one (λ c, c_user_a_id c = a ∧ c_user_b_id c = b);
  match existing with
  | Some conv => mret conv
  | None =>
      conversation_id ← uuid4;
      _now ← now;
      let conv := mkConversation conversation_id a b _now None in
      insert_row conv;;
      mret conv
  end.

Definition list_conversations_for_caller (caller : User) (limit : Z) :
    M (list Conversation) :=
  found ← select (λ c, c_user_a_id c = u_id caller ∨ c_user_b_id c = u_id caller);
  mret (take (Z.to_nat limit)
          (order_by_desc (λ c, default (c_created_at c) (c_last_message_at c)) found)).

Definition get_conversation (caller : User) (conversation_id : uuid) : M Conversation :=
  _load_conversation_for_caller caller conversation_id.

Definition unread_count (conversation_id caller_id : uuid) : M nat :=
  found ← select (λ m, m_conversation_id m = conversation_id ∧
                       m_sender_id m ≠ caller_id ∧ m_read_at m = None ∧
                       m_deleted_at m = None);
  mret (length found).

Record ConversationResponse := mkConversationResponse {
  cr_id : uuid;
  cr_peer_user_id : uuid;
  cr_created_at : datetime;
  cr_last_message_at : option datetime;
  cr_unread_count : nat;
}.
Definition conversation_to_response_dict (conv : Conversation) (caller_id : uuid)
    (unread : nat) : ConversationResponse :=
  mkConversationResponse (c_id conv) (_peer_of conv caller_id) (c_created_at conv)
    (c_last_message_at conv) unread.

(** ** Messages *)

Definition store_message (caller : User) (conversation_id : uuid)
    (ciphertext nonce ephemeral_public_key : list Z) (recipient_key_id : option uuid) :
    M Message :=
  conv ← _load_conversation_for_caller caller conversation_id;
  message_id ← uuid4;
  sent_at ← now;
  let msg := mkMessage message_id (c_id conv) (u_id caller) ciphertext nonce
               ephemeral_public_key recipient_key_id sent_at None None in
  insert_row msg;;
  save (conv <| c_last_message_at := Some sent_at |>);;
  mret msg.

(** The messages of a conversation a page may contain. *)
Definition on_page (conversation_id : uuid) (before : option datetime) (m : Message) : Prop :=
  m_conversation_id m = conversation_id ∧ m_deleted_at m = None ∧
  nullable (λ t, m_sent_at m < t)%Z before.
#[export] Instance on_page_dec conv before m : Decision (on_page conv before m).
Proof. unfold on_page. apply _. Defined.

Definition list_messages (caller : User) (conversation_id : uuid)
    (before : option datetime) (limit : Z) : M (list Message) :=
  _load_conversation_for_caller caller conversation_id;;
  found ← select (on_page conversation_id before);
  mret (take (Z.to_nat limit) (order_by_desc m_sent_at found)).

(** The endpoint [GET /conversations/{id}/messages]: the page and the cursor of
    the next one, the send time of the last message of a full page. *)
Definition messages_page (caller : User) (conversation_id : uuid)
    (before : option datetime) (limit : Z) : M (list Message * option datetime) :=
  rows ← list_messages caller conversation_id before limit;
  let next_cursor :=
    if decide (Z.of_nat (length rows) = limit) then m_sent_at <$> last rows else None in
  mret (rows, next_cursor).

Definition mark_message_read (caller : User) (conversation_id message_id : uuid) :
    M Message :=
  _load_conversation_for_caller caller conversation_id;;
  found ← select_one (λ m, m_id m = message_id ∧ m_conversation_id m = conversation_id ∧
                           m_deleted_at m = None);
  match found with
  | None => raise NotFoundError
  | Some msg =>
      raise_if (m_sender_id msg = u_id caller) NotFoundError;;
      match m_read_at msg with
      | Some _ => mret msg
      | None =>
          _now ← now;
          let msg := msg <| m_read_at := Some _now |> in
          save msg;;
          mret msg
      end
  end.

Record MessageResponse := mkMessageResponse {
  mr_id : uuid;
  mr_conversation_id : uuid;
  mr_sender_id : uuid;
  mr_ciphertext_b64url : list ascii;
  mr_nonce_b64url : list ascii;
  mr_ephemeral_public_key_b64url : list ascii;
  mr_recipient_key_id : option uuid;
  mr_sent_at : datetime;
  mr_read_at : option datetime;
}.
Definition message_to_response_dict (msg : Message) : MessageResponse :=
  mkMessageResponse (m_id msg) (m_conversation_id msg) (m_sender_id msg)
    (_b64url_encode (m_ciphertext msg)) (_b64url_encode (m_nonce msg))
    (_b64url_encode (m_ephemeral_public_key msg)) (m_recipient_key_id msg)
    (m_sent_at msg) (m_read_at msg).

(** ** The request body of a message *)

Record SendMessageRequest := mkSend {
  sm_ciphertext_b64url : list ascii;
  sm_nonce_b64url : list ascii;
  sm_ephemeral_public_key_b64url : list ascii;
  sm_recipient_key_id : option uuid;
}.
(** The validated bytes; [None] is the 422 of the field validators. *)
Definition send_bytes (body : SendMessageRequest) : option (list Z * list Z * list Z) :=
  ciphertext ← _decode_b64url (sm_ciphertext_b64url body) 1 65536;
  nonce ← _decode_b64url (sm_nonce_b64url body) 12 12;
  epk ← _decode_b64url (sm_ephemeral_public_key_b64url body) 32 32;
  Some (ciphertext, nonce, epk).

(** ** Retention *)

Definition _get_settings : M PlatformSettings :=
  found ← get_row (R:=PlatformSettings) 1%N;
  match found with
  | Some ps => mret ps
  | None =>
      updated_at ← read_env server_now;
      let ps := mkPlatformSettings 1 30 72 90 "USD" updated_at None in
      insert_row ps;;
      mret ps
  end.

Definition get_message_retention_days : M Z :=
  ps ← _get_settings;
  mret (ps_message_retention_days ps).

Definition update_message_retention_days (caller : User) (days : Z) : M Z :=
  raise_if (days < 7)%Z MessageRetentionInvalid;;
  ps ← _get_settings;
  _now ← now;
  let ps := ps <| ps_message_retention_days := days |>
               <| ps_updated_by_user_id := Some (u_id caller) |>
               <| ps_updated_at := _now |> in
  save ps;;
  mret (ps_message_retention_days ps).

Definition purge_old_messages : M nat :=
  ps ← _get_settings;
  _now ← now;
  let cutoff := (_now - timedelta_days (ps_message_retention_days ps))%Z in
  old ← select (λ m, m_sent_at m < cutoff)%Z;
  delete_where (λ m, m_sent_at m < cutoff)%Z;;
  mret (length old).
