(* ===== verification/Keys.v ===== *)
(** * Public keys

    [services/key_service.py] and the eligibility check of the endpoint that
    fetches the key of another user ([api/v1/keys.py]). *)

From S2P Require Import Prelude.
From S2P Require Import Exceptions.
From S2P Require Import Models.
From S2P Require Import Session.
From S2P Require Import SessionFacts.
From S2P Require Import Messaging.

(** The current keys of a user. *)
Definition active_key_of (user_id : uuid) (k : UserPublicKey) : Prop :=
  k_user_id k = user_id ∧ k_status k = key_active.
#[export] Instance active_key_of_dec u k : Decision (active_key_of u k).
Proof. unfold active_key_of. apply _. Defined.

Definition rotated (_now : datetime) (old : UserPublicKey) : UserPublicKey :=
  old <| k_status := key_rotated |> <| k_rotated_at := Some _now |>.

Definition register_key (user : User) (public_key_raw : list Z) (key_version : Z) :
    M UserPublicKey :=
  _now ← now;
  existing ← select (active_key_of (u_id user));
  for_each existing (λ old, save (rotated _now old));;
  key_id ← uuid4;
  let new_row := mkUserPublicKey key_id (u_id user) public_key_raw key_version
    key_active _now None None _now in
  insert_row new_row;;
  mret new_row.

Definition get_active_key_for_user (user_id : uuid) : M UserPublicKey :=
  row ← select_one (active_key_of user_id);
  match row with
  | None => raise PublicKeyNotFound
  | Some row => mret row
  end.

Definition list_keys_for_user (user_id : uuid) : M (list UserPublicKey) :=
  found ← select (λ k, k_user_id k = user_id);
  mret (order_by_desc k_created_at found).

Definition revoke_key (caller : User) (key_id : uuid) : M UserPublicKey :=
  found ← get_row key_id;
  match found with
  | None => raise KeyOwnershipError
  | Some row =>
      raise_if (k_user_id row ≠ u_id caller) KeyOwnershipError;;
      if decide (k_status row = key_revoked) then mret row
      else
        t ← now;
        let row := row <| k_status := key_revoked |> <| k_revoked_at := Some t |> in
        save row;;
        mret row
  end.

(** The endpoint [GET /keys/{user_id}]. *)
Definition get_user_active_key (caller : User) (user_id : uuid) : M UserPublicKey :=
  (if decide (u_id caller = user_id) then mret tt
   else
     can ← _can_converse caller user_id;
     raise_if (can = false) PublicKeyNotFound);;
  get_active_key_for_user user_id.
