(* ===== verification/KeysProps.v ===== *)
(** * Correctness of the public-key registry *)

From S2P Require Import Prelude.
From S2P Require Import Exceptions.
From S2P Require Import Models.
From S2P Require Import Session.
From S2P Require Import SessionFacts.
From S2P Require Import Fixtures.
From S2P Require Import Messaging.
From S2P Require Import Keys.
#[local] Open Scope Z_scope.

(** ** Operations *)

Section operations.
Context (env : Env).
Implicit Types (s : Session).

(** Rotating the current keys of a user, as an [UPDATE]. *)
Definition keys_rotated (user_id : uuid) (t : datetime) :
    gmap uuid UserPublicKey → gmap uuid UserPublicKey :=
  fmap (λ k, if decide (active_key_of user_id k) then rotated t k else k).

Lemma register_key_Ok s s' user raw version row :
  keyed (R:=UserPublicKey) (working s) →
  register_key user raw version env s = (Ok row, s') →
  let t := clock env (clock_reads s) in
  row = mkUserPublicKey (k_id row) (u_id user) raw version key_active t None None t ∧
  user_public_keys (working s) !! k_id row = None ∧
  working s' = (working s) <| user_public_keys ::=
    λ tb, <[k_id row := row]> (keys_rotated (u_id user) t tb) |>.
Proof.
  intros Hk. unfold register_key. intros H. inv_run.
  match goal with H : for_each _ _ _ _ = _ |- _ =>
    apply (for_each_save_Ok (R:=UserPublicKey)) in H as Hw; [clear H|done..] end.
  match goal with H : table _ !! _ = None |- _ => rename H into Hfresh end.
  cbn in Hw, Hfresh |- *. rewrite Hw in Hfresh |- *. cbn in Hfresh |- *. split_and!; try done.
  rewrite lookup_fmap in Hfresh.
  by destruct (user_public_keys (working s) !! _) in Hfresh |- *.
Qed.

Lemma revoke_key_Ok s s' caller key_id row :
  revoke_key caller key_id env s = (Ok row, s') →
  ∃ r, user_public_keys (working s) !! key_id = Some r ∧ k_user_id r = u_id caller ∧
    ((k_status r = key_revoked ∧ row = r ∧ s' = s) ∨
     (k_status r ≠ key_revoked ∧ ∃ t,
        row = r <| k_status := key_revoked |> <| k_revoked_at := Some t |> ∧
        working s' = (working s) <| user_public_keys ::= <[k_id r := row]> |>)).
Proof.
  unfold revoke_key. intros H. inv_run.
  match type of H with (match ?x with _ => _ end) _ _ = _ =>
    destruct x as [r|] eqn:Hr end; inv_run.
  match goal with H : ¬ _ ≠ _ |- _ => apply dec_stable in H end.
  exists r. split; [done|]. split; [done|].
  match goal with H : (if decide ?P then _ else _) _ _ = _ |- _ =>
    destruct (decide P) end; inv_run; [by left|].
  right. split; [done|]. by eexists.
Qed.
End operations.

(** ** Properties *)

(** Registering a key leaves the user with exactly one active key, the
    new one, which is what their peers fetch from then on; every earlier key is
    kept with its bytes, the active ones marked as rotated, and the keys of
    other users are untouched. *)
Theorem key_rotation_spec env d d' user raw version row :
  keyed (R:=UserPublicKey) d →
  get_db (register_key user raw version) env d = (Ok row, d') →
  k_public_key row = raw ∧ k_user_id row = u_id user ∧
  user_public_keys d' !! k_id row = Some row ∧
  (∀ k r, user_public_keys d' !! k = Some r → active_key_of (u_id user) r → r = row) ∧
  (∀ env', get_db (get_active_key_for_user (u_id user)) env' d' = (Ok row, d')) ∧
  (∀ k r, user_public_keys d !! k = Some r →
     user_public_keys d' !! k =
       Some (if decide (active_key_of (u_id user) r) then rotated (clock env 0) r else r)).
Proof.
  intros Hk H. apply get_db_Ok in H as (s' & H & ->).
  apply register_key_Ok in H as (Hrow & Hfresh & Hw); [|done]. cbn in Hrow, Hfresh, Hw.
  assert (∀ k r, user_public_keys (working s') !! k = Some r →
    active_key_of (u_id user) r → k = k_id row ∧ r = row) as Hone.
  { rewrite Hw. cbn. unfold keys_rotated.
    intros k r [[<- <-]|[_ (r0 & <- & _)%lookup_fmap_Some]]%lookup_insert_Some; [done|].
    case_decide as Ha; [intros [_ Hs]; done|done]. }
  assert (user_public_keys (working s') !! k_id row = Some row) as Hlook.
  { rewrite Hw. cbn. by rewrite lookup_insert_eq. }
  split_and!.
  - by rewrite Hrow.
  - by rewrite Hrow.
  - done.
  - intros k r Hr Ha. by eapply Hone.
  - intros env'. unfold get_db, get_active_key_for_user, select_one, mbind, M_bind, select, query.
    cbn. rewrite (selected_unique (user_public_keys (working s')) _ (k_id row) row);
      [done|done|by rewrite Hrow|]. intros k' r' Hr' Ha. by apply (Hone k' r').
  - intros k r Hr. rewrite Hw. cbn. rewrite lookup_insert_ne by congruence.
    unfold keys_rotated. by rewrite lookup_fmap, Hr.
Qed.

(** ** Witness *)

Definition w_keyed : DB := after (get_db (register_key alice [1; 2; 3] 1) (env_at 1) world).
Definition w_rekeyed : DB := after (get_db (register_key alice [4; 5; 6] 2) (env_at 2) w_keyed).

Lemma key_rotation_spec_witness :
  ∃ row, get_db (get_active_key_for_user (u_id alice)) (env_at 3) w_rekeyed
    = (Ok row, w_rekeyed) ∧ k_public_key row = [4; 5; 6] ∧
    size (user_public_keys w_rekeyed) = 2%nat.
Proof.
  destruct (succeeds_run (get_db (register_key alice [4; 5; 6] 2) (env_at 2) w_keyed))
    as [row Hr]; [vm_compute; reflexivity|].
  destruct (key_rotation_spec (env_at 2) w_keyed w_rekeyed alice [4; 5; 6] 2 row
    ltac:(apply keyed_eval; vm_compute; reflexivity) Hr) as (Hraw & _ & _ & _ & Hget & _).
  exists row. split; [apply Hget|]. split; [exact Hraw|vm_compute; reflexivity].
Defined.
