(* ===== verification/MessagingProps.v ===== *)
(** * Correctness of conversations and messages *)

From S2P Require Import Prelude.
From S2P Require Import Exceptions.
From S2P Require Import Models.
From S2P Require Import Session.
From S2P Require Import SessionFacts.
From S2P Require Import Fixtures.
From S2P Require Import Base64.
From S2P Require Import Messaging.
From S2P Require Import Keys.
From S2P Require Import KeysProps.
#[local] Open Scope Z_scope.

(** ** Requests *)

Inductive MessagingCall :=
| CreateConversation (peer : uuid)
| ListConversations (limit : Z)
| GetConversation (cid : uuid)
| StoreMessage (cid : uuid) (ciphertext nonce epk : list Z) (key : option uuid)
| ListMessages (cid : uuid) (before : option datetime) (limit : Z)
| MarkRead (cid mid : uuid)
| UpdateMessageRetention (days : Z)
| PurgeMessages
| RegisterKey (raw : list Z) (version : Z)
| RevokeKey (key_id : uuid)
| FetchKey (user_id : uuid).

Definition messaging_exec (caller : User) (call : MessagingCall) : M unit :=
  match call with
  | CreateConversation peer => ignore (create_conversation caller peer)
  | ListConversations limit => ignore (list_conversations_for_caller caller limit)
  | GetConversation cid => ignore (get_conversation caller cid)
  | StoreMessage cid ct n epk key => ignore (store_message caller cid ct n epk key)
  | ListMessages cid before limit => ignore (messages_page caller cid before limit)
  | MarkRead cid mid => ignore (mark_message_read caller cid mid)
  | UpdateMessageRetention days => ignore (update_message_retention_days caller days)
  | PurgeMessages => ignore purge_old_messages
  | RegisterKey raw version => ignore (register_key caller raw version)
  | RevokeKey key_id => ignore (revoke_key caller key_id)
  | FetchKey uid => ignore (get_user_active_key caller uid)
  end.

Inductive messaging_request (d d' : DB) : Prop :=
| MessagingRequest env caller call out :
    get_db (messaging_exec caller call) env d = (out, d') → messaging_request d d'.

Ltac stable_messaging :=
  unfold ignore, create_conversation, list_conversations_for_caller, get_conversation,
    store_message, messages_page, list_messages, mark_message_read,
    update_message_retention_days, purge_old_messages, register_key, revoke_key,
    get_user_active_key, get_active_key_for_user, Messaging._get_settings, _can_converse,
    _load_conversation_for_caller;
  stable_tac.

Lemma messaging_uncommitted caller call : stable same_committed (messaging_exec caller call).
Proof. destruct call; cbn; stable_messaging. Qed.

(** ** Who may read and write a conversation *)

Definition participant (caller : User) (conv : Conversation) : Prop :=
  u_id caller = c_user_a_id conv ∨ u_id caller = c_user_b_id conv.

Lemma load_conversation_Ok env s s' caller cid conv :
  _load_conversation_for_caller caller cid env s = (Ok conv, s') →
  s' = s ∧ conversations (working s) !! cid = Some conv ∧
  (u_role caller = admin ∨ participant caller conv).
Proof.
  unfold _load_conversation_for_caller. intros H. inv_run.
  match type of H with (match ?x with _ => _ end) _ _ = _ =>
    destruct x as [c|] eqn:Hc end; inv_run.
  split; [done|]. split; [done|].
  destruct (decide (u_role caller = admin)) as [|Hne]; [by left|right].
  apply dec_stable. intros Hp.
  match goal with H : ¬ (_ ∧ _) |- _ => apply H; split; [done|] end.
  intros Hin. apply Hp. unfold participant. set_solver.
Qed.

Lemma load_conversation_denied {A} env s caller cid (k : Conversation → M A) :
  u_role caller ≠ admin →
  (∀ c, conversations (working s) !! cid = Some c → ¬ participant caller c) →
  (_load_conversation_for_caller caller cid ≫= k) env s
    = (Raised ConversationNotFound, s).
Proof.
  intros Hr Hp. unfold _load_conversation_for_caller, mbind, M_bind, raise_if. cbn.
  destruct (conversations (working s) !! cid) as [c|] eqn:E; [|done].
  rewrite decide_True; [done|]. split; [done|]. intros Hin. apply (Hp _ eq_refl).
  unfold participant. set_solver.
Qed.

(** The conversation a call is about. *)
Definition conversation_target (call : MessagingCall) : option uuid :=
  match call with
  | GetConversation cid | StoreMessage cid _ _ _ _ | ListMessages cid _ _ | MarkRead cid _ =>
      Some cid
  | _ => None
  end.

(** For everybody but its two participants and the admins, a
    conversation cannot be told from one that does not exist: every operation
    on it, reading included, is answered with the same 404 and changes
    nothing. *)
Theorem outsiders_see_no_conversation env d caller call cid :
  conversation_target call = Some cid → u_role caller ≠ admin →
  (∀ c, conversations d !! cid = Some c → ¬ participant caller c) →
  get_db (messaging_exec caller call) env d = (Raised ConversationNotFound, d).
Proof.
  intros Ht Hr Hp. apply get_db_Raised. exists (open_session d). split; [|done].
  destruct call; cbn in Ht |- *; simplify_eq; apply ignore_raised.
  - rewrite <- (load_conversation_denied env (open_session d) caller cid mret Hr Hp).
    unfold get_conversation, mbind, M_bind. by destruct (_load_conversation_for_caller _ _ _ _) as [[]].
  - by apply load_conversation_denied.
  - unfold messages_page, list_messages, mbind at 1, M_bind at 1.
    by rewrite load_conversation_denied.
  - by apply load_conversation_denied.
Qed.

(** ** One conversation per pair *)

(** The account row of this user, able to converse. *)
Definition active_account (d : DB) (u : User) : Prop :=
  users d !! u_id u = Some u ∧ u_deleted_at u = None ∧ u_is_active u = true.

(** Who may talk to whom, between accounts that are active. *)
Definition eligible (a b : User) : bool :=
  bool_decide (u_id a ≠ u_id b) &&
  match u_role a, u_role b with
  | admin, _ | _, admin => true
  | customer, seller => bool_decide (u_referring_seller_id a = Some (u_id b))
  | seller, customer => bool_decide (u_referring_seller_id b = Some (u_id a))
  | _, _ => false
  end.

Lemma eligible_sym a b : eligible a b = eligible b a.
Proof.
  unfold eligible. f_equal; [by apply bool_decide_ext|].
  by destruct (u_role a), (u_role b).
Qed.

Lemma can_converse_eligible env s caller peer :
  keyed (R:=User) (working s) → active_account (working s) peer →
  _can_converse caller (u_id peer) env s = (Ok (eligible caller peer), s).
Proof.
  intros Hk (Hp & Hdel & Hact). unfold _can_converse, eligible, mbind, M_bind.
  case_decide as Hid; [by rewrite bool_decide_eq_false_2 by auto|].
  rewrite (bool_decide_eq_true_2 (u_id caller ≠ u_id peer)) by done. cbn [andb].
  case_decide as Hadm; [by rewrite Hadm|].
  unfold select_one, mbind, M_bind, select, query. cbn.
  rewrite (selected_unique (users (working s)) _ (u_id peer) peer);
    [|done|done|intros k' u' Hu' (Hid' & _); rewrite <- Hid'; symmetry; by apply Hk].
  cbn. by destruct (u_role caller), (u_role peer).
Qed.

Lemma canonical_sym a b : a ≠ b → _canonical_pair a b = _canonical_pair b a.
Proof. intros Hne. unfold _canonical_pair. repeat case_decide; (done || lia). Qed.

(** The conversation of a pair of users. *)
Definition between (a b : uuid) (conv : Conversation) : Prop :=
  (c_user_a_id conv, c_user_b_id conv) = _canonical_pair a b.

Lemma create_conversation_Ok env s s' caller peer conv :
  create_conversation caller peer env s = (Ok conv, s') →
  between (u_id caller) peer conv ∧
  ((∃ k, conversations (working s) !! k = Some conv ∧ working s' = working s) ∨
   (conversations (working s) !! c_id conv = None ∧
    ¬ has_conflict conv (conversations (working s)) ∧
    working s' = (working s) <| conversations ::= <[c_id conv := conv]> |>)).
Proof.
  unfold create_conversation, between. intros H. apply bind_Ok in H as (el & s1 & Hel & H).
  assert (working s1 = working s) as Hs1.
  { assert (stable (λ s s', working s' = working s) (_can_converse caller peer)) as Hst.
    { assert (SessionRel (λ s s', working s' = working s)).
      { split; [split|]; [done|intros ???; congruence|done]. }
      unfold _can_converse. stable_tac. }
    by apply Hst in Hel. }
  destruct (_canonical_pair (u_id caller) peer) as [a b] eqn:Epair. inv_run.
  match type of H with (match ?x with _ => _ end) _ _ = _ => destruct x as [c|] end; inv_run.
  - match goal with H : filter _ _ = _ |- _ =>
      apply selected_Some in H as ((-> & ->) & [k Hk] & _) end.
    rewrite Hs1 in Hk |- *. split; [done|left]. by exists k.
  - split; [done|right]. cbn in *. rewrite Hs1 in *. by split_and!.
Qed.

Lemma conversation_conflicts_sym (a b : Conversation) : conflicts a b → conflicts b a.
Proof. cbn. intros [? ?]. by split. Qed.

(** Two accounts share one conversation: when one of them has opened
    it, the other gets the very same one by opening it from their side, nothing
    is added, and the two orderings of the pair never give two rows. *)
Theorem conversations_are_shared env d d' caller peer conv :
  keyed (R:=User) d → keyed (R:=Conversation) d → unique_rows (R:=Conversation) d →
  active_account d caller → active_account d peer →
  get_db (create_conversation caller (u_id peer)) env d = (Ok conv, d') →
  eligible caller peer = true ∧ participant caller conv ∧ participant peer conv ∧
  (c_user_a_id conv < c_user_b_id conv)%N ∧
  ∀ env', get_db (create_conversation peer (u_id caller)) env' d' = (Ok conv, d') ∧
          get_db (create_conversation caller (u_id peer)) env' d' = (Ok conv, d').
Proof.
  intros Hku Hkc Hu Hca Hpe H. apply get_db_Ok in H as (s' & H & ->).
  assert (eligible caller peer = true) as Hel.
  { destruct (eligible caller peer) eqn:E; [done|].
    unfold create_conversation, mbind, M_bind in H.
    rewrite (can_converse_eligible env (open_session d) caller peer Hku Hpe), E in H.
    discriminate. }
  assert (u_id caller ≠ u_id peer) as Hne.
  { intros E. unfold eligible in Hel. by rewrite E, bool_decide_eq_false_2 in Hel by auto. }
  apply create_conversation_Ok in H as (Hbt & H). cbn in H.
  assert (users (working s') = users d ∧ unique_rows (R:=Conversation) (working s') ∧
    ∃ k, conversations (working s') !! k = Some conv) as (Hus & Hu' & k & Hk).
  { destruct H as [(k & Hk & ->)|(_ & Hc & ->)]; [by eauto|].
    split; [done|]. split; [|exists (c_id conv); apply lookup_insert_eq].
    exact (write_unique (R:=Conversation) conv d conversation_conflicts_sym Hkc Hu Hc). }
  unfold between in Hbt. pose proof Hbt as Hpair. unfold _canonical_pair in Hpair.
  split; [done|]. unfold participant.
  split; [case_decide; simplify_eq; auto|]. split; [case_decide; simplify_eq; auto|].
  split; [case_decide; simplify_eq; lia|].
  assert (∀ env' a b, active_account d b → eligible a b = true →
    _canonical_pair (u_id a) (u_id b) = (c_user_a_id conv, c_user_b_id conv) →
    get_db (create_conversation a (u_id b)) env' (working s') = (Ok conv, working s')) as Hopen.
  { intros env' a b Hb Hab Hp. unfold get_db, create_conversation, mbind, M_bind.
    rewrite can_converse_eligible; [|by unfold keyed; cbn; rewrite Hus|
      by unfold active_account; cbn; rewrite Hus].
    rewrite Hab, Hp. unfold raise_if. rewrite decide_False by done.
    unfold select_one, mbind, M_bind, select, query. cbn.
    rewrite (selected_unique (conversations (working s')) _ k conv); [done|done|done|].
    intros k' c' Hk' [Ha Hb']. destruct (decide (k' = k)) as [|Hkne]; [done|].
    exfalso. exact (Hu' k' k c' conv Hk' Hk Hkne (conj Ha Hb')). }
  intros env'. split; apply Hopen; try done.
  - by rewrite eligible_sym.
  - by rewrite canonical_sym.
Qed.

(** ** What may happen to a message *)

(** The retention period in force, in days. *)
Definition retention_days (d : DB) : Z :=
  from_option ps_message_retention_days 90 (platform_settings d !! 1%N).

(** The caller may use the conversation of this message. *)
Definition may_use (d : DB) (caller : User) (m : Message) : Prop :=
  ∃ conv, conversations d !! m_conversation_id m = Some conv ∧
    (u_role caller = admin ∨ participant caller conv).

Inductive message_evolves (env : Env) (d : DB) (caller : User) :
    option Message → option Message → Prop :=
| me_same x : message_evolves env d caller x x
| me_store m :
    may_use d caller m → m_sender_id m = u_id caller →
    m_read_at m = None → m_deleted_at m = None →
    message_evolves env d caller None (Some m)
| me_read m t :
    may_use d caller m → m_sender_id m ≠ u_id caller → m_read_at m = None →
    message_evolves env d caller (Some m) (Some (m <| m_read_at := Some t |>))
| me_purge m :
    m_sent_at m < clock env 0 - timedelta_days (retention_days d) →
    message_evolves env d caller (Some m) None.

Lemma store_message_Ok env s s' caller cid ct n epk key m :
  keyed (R:=Conversation) (working s) →
  store_message caller cid ct n epk key env s = (Ok m, s') →
  may_use (working s) caller m ∧ m_conversation_id m = cid ∧
  messages (working s) !! m_id m = None ∧
  m = mkMessage (m_id m) cid (u_id caller) ct n epk key (m_sent_at m) None None ∧
  messages (working s') = <[m_id m := m]> (messages (working s)).
Proof.
  intros Hk. unfold store_message. intros H. inv_run.
  match goal with H : _load_conversation_for_caller _ _ _ _ = _ |- _ =>
    apply load_conversation_Ok in H as (-> & Hc & Ha) end.
  pose proof (Hk _ _ Hc) as Hid. cbn in Hid. cbn. rewrite Hid.
  split_and!; try done. by eexists.
Qed.

Lemma mark_read_Ok env s s' caller cid mid m :
  mark_message_read caller cid mid env s = (Ok m, s') →
  ∃ k m0, messages (working s) !! k = Some m0 ∧ m_id m0 = mid ∧ m_conversation_id m0 = cid ∧
    may_use (working s) caller m0 ∧ m_sender_id m0 ≠ u_id caller ∧
    ((m_read_at m0 ≠ None ∧ m = m0 ∧ working s' = working s) ∨
     (m_read_at m0 = None ∧ ∃ t, m = m0 <| m_read_at := Some t |> ∧
        working s' = (working s) <| messages ::= <[m_id m := m]> |>)).
Proof.
  unfold mark_message_read. intros H. inv_run.
  match goal with H : _load_conversation_for_caller _ _ _ _ = _ |- _ =>
    apply load_conversation_Ok in H as (-> & Hc & Ha) end.
  match type of H with (match ?x with _ => _ end) _ _ = _ => destruct x as [m0|] end; inv_run.
  match goal with H : filter _ _ = _ |- _ =>
    apply selected_Some in H as ((? & ? & ?) & [k Hk] & _) end.
  exists k, m0. subst. split_and!; [done|done|done|by eexists|done|].
  destruct (m_read_at m0) eqn:Hr; inv_run; [by left|right]. split; [done|]. by eexists.
Qed.

Lemma message_settings_Ok env s s' ps :
  Messaging._get_settings env s = (Ok ps, s') →
  ps_message_retention_days ps = retention_days (working s) ∧
  clock_reads s' = clock_reads s ∧ messages (working s') = messages (working s).
Proof.
  unfold Messaging._get_settings, retention_days. intros H. inv_run.
  destruct (table (working s) !! 1%N) as [ps'|] eqn:E; cbn in E; inv_run; cbn; by rewrite E.
Qed.

Lemma purge_messages_Ok env s s' n :
  purge_old_messages env s = (Ok n, s') →
  messages (working s') = filter (λ kr : uuid * Message, ¬ m_sent_at kr.2 <
    clock env (clock_reads s) - timedelta_days (retention_days (working s)))
    (messages (working s)).
Proof.
  unfold purge_old_messages. intros H. apply bind_Ok in H as (ps & s1 & Hps & H).
  apply message_settings_Ok in Hps as (Hd & Hcl & Hm). inv_run.
  cbn. by rewrite Hm, Hd, Hcl.
Qed.

(** C25: every request of the messaging and key services moves every
    message by at most one step: it is stored unread by somebody who may use
    its conversation, it is marked as read once by somebody who may use the
    conversation and did not send it, or it is purged when it is older than the
    retention period; its ciphertext, nonce, key and sender never change. *)
Theorem messages_refine_lifecycle env d d' caller call out :
  keyed (R:=Message) d → keyed (R:=Conversation) d →
  get_db (messaging_exec caller call) env d = (out, d') →
  ∀ k, message_evolves env d caller (messages d !! k) (messages d' !! k).
Proof.
  intros Hkm Hkc H k. destruct out as [u|e].
  2: { apply get_db_atomic in H as ->; [constructor|apply messaging_uncommitted]. }
  apply get_db_Ok in H as (s' & H & ->).
  assert (stable (same_table Message) (messaging_exec caller call) →
    messages (working s') = messages d) as Hsame.
  { intros Hst. apply (Hst _ _ _ _ H). }
  destruct call; cbn in H, Hsame;
    try (rewrite Hsame by stable_messaging; constructor); clear Hsame;
    apply ignore_Ok in H as [r H].
  - apply store_message_Ok in H as (Hu & _ & Hf & Hm & ->); [|done].
    destruct (decide (k = m_id r)) as [->|Hne].
    + rewrite lookup_insert_eq. cbn in Hf. rewrite Hf. rewrite Hm in Hu |- *. by apply me_store.
    + rewrite lookup_insert_ne by done. constructor.
  - apply mark_read_Ok in H
      as (k0 & m0 & Hk0 & Hid & _ & Hu & Hs & [(_ & _ & ->)|(Hr & t & -> & ->)]); [constructor|].
    cbn in Hk0 |- *. pose proof (Hkm _ _ Hk0) as Hk0'. cbn in Hk0'. subst k0.
    destruct (decide (k = m_id m0)) as [->|Hne].
    + rewrite lookup_insert_eq, Hk0. by apply me_read.
    + rewrite lookup_insert_ne by done. constructor.
  - apply purge_messages_Ok in H as ->. cbn.
    destruct (messages d !! k) as [m|] eqn:E.
    + destruct (decide (m_sent_at m < clock env 0 - timedelta_days (retention_days d)))
        as [Hold|Hnew].
      * rewrite map_lookup_filter_None_2; [by apply me_purge|right].
        intros m' Hm'. rewrite E in Hm'. injection Hm' as <-. cbn. auto.
      * match goal with |- context [filter ?P ?t !! k] =>
          assert (filter P t !! k = Some m) as -> by by apply map_lookup_filter_Some end.
        constructor.
    + rewrite map_lookup_filter_None_2; [constructor|by left].
Qed.

(** ** Witnesses *)

Definition w_opened : DB := after (get_db (create_conversation alice 2) (env_at 1) world).

Lemma outsiders_see_no_conversation_witness :
  get_db (messaging_exec eve (GetConversation 2000)) (env_at 2) w_opened
    = (Raised ConversationNotFound, w_opened) ∧
  is_Some (conversations w_opened !! 2000%N).
Proof.
  split; [|vm_compute; eauto].
  apply (outsiders_see_no_conversation (env_at 2) w_opened eve (GetConversation 2000) 2000);
    [reflexivity|discriminate|].
  assert (map_Forall (λ _ c, ¬ (u_id eve = c_user_a_id c ∨ u_id eve = c_user_b_id c))
    (conversations w_opened)) as Hall
    by (apply (bool_decide_eq_true_1 _); vm_compute; reflexivity).
  intros c Hc. exact (Hall _ c Hc).
Defined.

Lemma conversations_are_shared_witness :
  ∃ conv, get_db (create_conversation bob_seller 3) (env_at 2) w_opened = (Ok conv, w_opened) ∧
    conversations w_opened !! 2000%N = Some conv.
Proof.
  destruct (succeeds_run (get_db (create_conversation alice 2) (env_at 1) world))
    as [conv Hr]; [vm_compute; reflexivity|].
  assert (unique_rows (R:=Conversation) world) as Hu.
  { intros k1 k2 r1 r2 H1. vm_compute in H1. by destruct k1. }
  destruct (conversations_are_shared (env_at 1) world w_opened alice bob_seller conv
    ltac:(apply keyed_eval; vm_compute; reflexivity)
    ltac:(apply keyed_eval; vm_compute; reflexivity) Hu
    ltac:(split; [vm_compute; reflexivity|by split])
    ltac:(split; [vm_compute; reflexivity|by split]) Hr) as (_ & _ & _ & _ & Hshare).
  exists conv. split; [apply (Hshare (env_at 2))|].
  assert (Some conv = match (get_db (create_conversation alice 2) (env_at 1) world).1 with
    Ok c => Some c | Raised _ => None end) as Ec by by rewrite Hr.
  vm_compute in Ec. injection Ec as ->. vm_compute. reflexivity.
Defined.

Definition w_said : DB :=
  after (get_db (store_message alice 2000 [1; 2] [3] [4] None) (env_at 2) w_opened).

Lemma messages_refine_lifecycle_witness :
  message_evolves (env_at 3) w_said bob_seller (messages w_said !! 3000%N)
    (messages (after (get_db (messaging_exec bob_seller (MarkRead 2000 3000)) (env_at 3) w_said))
       !! 3000%N) ∧
  m_read_at <$> messages (after (get_db (messaging_exec bob_seller (MarkRead 2000 3000))
    (env_at 3) w_said)) !! 3000%N = Some (Some (clock (env_at 3) 0)).
Proof.
  split; [|vm_compute; reflexivity].
  apply (messages_refine_lifecycle (env_at 3) w_said _ bob_seller (MarkRead 2000 3000)
    (get_db (messaging_exec bob_seller (MarkRead 2000 3000)) (env_at 3) w_said).1
    ltac:(apply keyed_eval; vm_compute; reflexivity)
    ltac:(apply keyed_eval; vm_compute; reflexivity) (surjective_pairing _)).
Defined.
