(* ===== verification/MessagePages.v ===== *)
(** * Reading a whole conversation page by page

    The client follows [next_cursor] from one page to the next; under distinct
    send times the pages make up the conversation, newest first. *)

From S2P Require Import Prelude.
From S2P Require Import Exceptions.
From S2P Require Import Models.
From S2P Require Import Session.
From S2P Require Import SessionFacts.
From S2P Require Import Pages.
From S2P Require Import Fixtures.
From S2P Require Import Messaging.
From S2P Require Import MessagingProps.
#[local] Open Scope Z_scope.

(** ** The walk of the client *)

(** One page, as the client sees it. *)
Definition page_of (env : Env) (d : DB) (caller : User) (cid : uuid) (limit : Z)
    (before : option datetime) : option (list Message * option datetime) :=
  match (get_db (messages_page caller cid before limit) env d).1 with
  | Ok page => Some page
  | Raised _ => None
  end.

(** Follow the cursor, at most [fuel] pages. *)
Definition walk (fuel : nat) (env : Env) (d : DB) (caller : User) (cid : uuid) (limit : Z) :
    option datetime → option (list Message) :=
  follow (page_of env d caller cid limit) fuel.

(** The visible messages of a conversation. *)
Definition visible (d : DB) (cid : uuid) : list Message :=
  filter (on_page cid None) (rows (messages d)).

Section walk.
Context (env : Env) (d : DB) (caller : User) (cid : uuid) (limit : Z) (conv : Conversation).
Context (Hconv : conversations d !! cid = Some conv).
Context (Hmay : u_role caller = admin ∨ participant caller conv).
Context (Hlimit : 1 <= limit).
Context (Hnd : NoDup (m_sent_at <$> visible d cid)).

Abbreviation remaining := (remaining m_sent_at (visible d cid)).

Lemma page_runs before :
  page_of env d caller cid limit before =
    Some (take (Z.to_nat limit) (remaining before),
        if decide (Z.of_nat (length (take (Z.to_nat limit) (remaining before))) = limit)
        then m_sent_at <$> last (take (Z.to_nat limit) (remaining before)) else None).
Proof.
  unfold page_of, get_db, messages_page, list_messages, _load_conversation_for_caller, mbind,
    M_bind, raise_if. cbn. rewrite Hconv.
  rewrite decide_False.
  2: { intros [Hr Hp]. destruct Hmay as [?|Hpart]; [done|]. apply Hp.
       unfold participant in Hpart. set_solver. }
  cbn. unfold Pages.remaining. rewrite <- sort_before by done.
  unfold visible. rewrite list_filter_filter.
  assert (filter (on_page cid before) (rows (messages d)) =
    filter (λ m, nullable (λ t, m_sent_at m < t) before ∧ on_page cid None m)
      (rows (messages d))) as <-; [|done].
  apply list_filter_iff. intros m. unfold on_page. cbn. naive_solver.
Qed.

Lemma pages_serve : serves m_sent_at (visible d cid) eq (page_of env d caller cid limit).
Proof.
  intros cursor before Hc. assert (cursor = before) as -> by (destruct cursor, before; cbn in Hc; by subst).
  rewrite page_runs. set (n := Z.to_nat limit).
  exists (take n (remaining before)), (drop n (remaining before)).
  eexists. split; [done|]. rewrite take_drop. split; [done|].
  case_decide as Hfull.
  - destruct (last (take n (remaining before))) as [x|] eqn:Hlast; cbn; [by exists x|].
    apply last_None in Hlast. rewrite Hlast in Hfull. cbn in Hfull. lia.
  - rewrite length_take in Hfull. apply drop_ge. lia.
Qed.
End walk.


(** ** Witness: three messages read two at a time *)

Definition w_conv : DB := after (get_db (create_conversation alice 2) (env_at 1) world).
Definition conv_id : uuid := 2000%N.
Definition say (n : nat) (d : DB) : DB :=
  after (get_db (store_message alice conv_id [Z.of_nat n] [] [] None) (env_at n) d).
Definition w_chat : DB := say 4 (say 3 (say 2 w_conv)).


(** Two messages with the same send time: the second page skips one. *)
Definition tied (n : nat) (d : DB) : DB :=
  after (get_db (store_message alice conv_id [Z.of_nat n] [] [] None)
    {| clock := clock (env_at 2); uuids := uuids (env_at n); tokens := tokens (env_at n);
       randoms := randoms (env_at n); server_now := 0 |} d).
Example tied_messages_are_skipped :
  length <$> walk 9 (env_at 9) (tied 4 (tied 3 (tied 2 w_conv))) alice conv_id 2 None
    = Some 2%nat.
Proof. vm_compute. reflexivity. Qed.
