(* ===== verification/DeliveryTracking.v ===== *)
(** * Delivery tracking

    [services/delivery_tracking_service.py]: the role of a caller relative to
    an order, the two views of a delivery, location updates, the admin
    override, and the payloads of the tracking events. *)

From S2P Require Import Prelude.
From S2P Require Import Exceptions.
From S2P Require Import Models.
From S2P Require Import Session.
From S2P Require Import SessionFacts.
From S2P Require Import Orders.
#[local] Open Scope string_scope.

(** ** Loaders *)

Definition load_order (order_id : uuid) : M (option Order) :=
  select_one (λ o, o_id o = order_id ∧ o_deleted_at o = None).

Definition load_delivery (order_id : uuid) : M (option Delivery) :=
  select_one (λ d, d_order_id d = order_id).

(** ** The role resolver *)

Inductive TrackingRole := tr_customer | tr_seller | tr_driver | tr_admin | tr_none.
#[export] Instance TrackingRole_eq_dec : EqDecision TrackingRole.
Proof. solve_decision. Defined.

Definition resolve_role (user : User) (order : Order) : M TrackingRole :=
  if decide (u_role user = admin) then mret tr_admin
  else if decide (u_role user = seller ∧ o_seller_id order = u_id user) then mret tr_seller
  else if decide (u_role user = customer ∧ o_customer_id order = u_id user)
  then mret tr_customer
  else if decide (u_role user = driver) then
    delivery ← load_delivery (o_id order);
    if decide (from_option d_driver_id None delivery = Some (u_id user)) then mret tr_driver
    else
      assignment ← select_one (λ a, a_order_id a = o_id order ∧
                                    a_driver_id a = Some (u_id user) ∧
                                    a_status a ∈ ASSIGNED_DRIVER);
      match assignment with
      | Some _ => mret tr_driver
      | None => mret tr_none
      end
  else mret tr_none.

Definition is_internal_role (role : TrackingRole) : bool :=
  bool_decide (role ∈ [tr_admin; tr_seller; tr_driver]).

(** ** The two views *)

Record InternalDeliveryView := mkInternalView {
  iv_order_id : uuid;
  iv_delivery_id : uuid;
  iv_status : string;
  iv_driver_id : option uuid;
  iv_seller_id : uuid;
  iv_started_at : option datetime;
  iv_delivered_at : option datetime;
  iv_last_known_lat : option float64;
  iv_last_known_lng : option float64;
  iv_last_location_at : option datetime;
  iv_current_eta_seconds : option Z;
  iv_current_eta_updated_at : option datetime;
  iv_distance_meters : option Z;
  iv_duration_seconds : option Z;
  iv_customer_delivery_address : Address;
}.

Record CustomerDeliveryView := mkCustomerView {
  cv_order_id : uuid;
  cv_status : string;
  cv_eta_seconds : option Z;
  cv_eta_updated_at : option datetime;
  cv_started_at : option datetime;
  cv_delivered_at : option datetime;
  cv_delivery_address : Address;
}.

Definition build_internal_view (order : Order) (delivery : Delivery) :
    InternalDeliveryView :=
  mkInternalView (o_id order) (d_id delivery) (delivery_status_str (d_status delivery))
    (d_driver_id delivery) (d_seller_id delivery) (d_started_at delivery)
    (d_delivered_at delivery) (d_current_lat delivery) (d_current_lng delivery)
    (d_last_location_at delivery) (d_current_eta_seconds delivery)
    (d_current_eta_updated_at delivery) (d_distance_meters delivery)
    (d_duration_seconds delivery) (o_delivery_address order).

Definition build_customer_view (order : Order) (delivery : option Delivery) :
    CustomerDeliveryView :=
  mkCustomerView (o_id order)
    (from_option (λ d, delivery_status_str (d_status d))
       (order_status_str (o_status order)) delivery)
    (from_option d_current_eta_seconds None delivery)
    (from_option d_current_eta_updated_at None delivery)
    (from_option d_started_at None delivery)
    (from_option d_delivered_at (o_delivered_at order) delivery)
    (o_delivery_address order).

Inductive TrackView :=
| InternalView (v : InternalDeliveryView)
| CustomerView (v : CustomerDeliveryView).

(** ** Public operations *)

Definition get_track_view (user : User) (order_id : uuid) : M TrackView :=
  found ← load_order order_id;
  match found with
  | None => raise OrderNotFound
  | Some order =>
      role ← resolve_role user order;
      raise_if (role = tr_none) OrderNotFound;;
      delivery ← load_delivery (o_id order);
      if decide (role = tr_customer) then
        mret (CustomerView (build_customer_view order delivery))
      else
        match delivery with
        | None => raise (AppExc NotFoundError (Some "DELIVERY_NOT_STARTED") None)
        | Some dlv => mret (InternalView (build_internal_view order dlv))
        end
  end.

(** The delivery row after one location update. *)
Definition located (lat lng : float64) (eta_seconds distance_meters : option Z)
    (_now : datetime) (dlv : Delivery) : Delivery :=
  let dlv := dlv <| d_current_lat := Some lat |> <| d_current_lng := Some lng |>
                 <| d_last_location_at := Some _now |> in
  let dlv :=
    match eta_seconds with
    | Some eta => dlv <| d_current_eta_seconds := Some eta |>
                      <| d_current_eta_updated_at := Some _now |>
    | None => dlv
    end in
  match distance_meters with
  | Some dist =>
      let prev := default 0%Z (d_distance_meters dlv) in
      dlv <| d_distance_meters := Some (Z.max prev dist) |>
  | None => dlv
  end.

Definition post_location (user : User) (order_id : uuid) (lat lng : float64)
    (eta_seconds distance_meters : option Z) : M (Order * Delivery) :=
  found ← load_order order_id;
  match found with
  | None => raise OrderNotFound
  | Some order =>
      role ← resolve_role user order;
      raise_if (role = tr_none) OrderNotFound;;
      raise_if (role ∉ [tr_driver; tr_seller; tr_admin])
        (AppExc AuthorizationError (Some "PERMISSION_DENIED") None);;
      raise_if (o_status order ≠ Models.out_for_delivery) OrderInvalidTransition;;
      delivery ← load_delivery (o_id order);
      match delivery with
      | None => raise OrderInvalidTransition
      | Some dlv =>
          raise_if (d_status dlv = dlv_delivered) OrderInvalidTransition;;
          _now ← now;
          let dlv := located lat lng eta_seconds distance_meters _now dlv in
          save dlv;;
          mret (order, dlv)
      end
  end.

Definition admin_patch_delivery (caller : User) (order_id : uuid)
    (driver_id : option uuid) (distance_meters duration_seconds : option Z) :
    M (Order * Delivery) :=
  raise_if (u_role caller ≠ admin) OrderNotFound;;
  found ← load_order order_id;
  match found with
  | None => raise OrderNotFound
  | Some order =>
      delivery ← load_delivery (o_id order);
      match delivery with
      | None => raise OrderNotFound
      | Some dlv =>
          dlv ← match driver_id with
                | None => mret dlv
                | Some driver_id =>
                    drv ← select_one (is_active_driver driver_id);
                    raise_if (drv = None) OrderInvalidTransition;;
                    mret (dlv <| d_driver_id := Some driver_id |>)
                end;
          let dlv :=
            match distance_meters with
            | Some n => dlv <| d_distance_meters := Some n |>
            | None => dlv
            end in
          let dlv :=
            match duration_seconds with
            | Some n => dlv <| d_duration_seconds := Some n |>
            | None => dlv
            end in
          save dlv;;
          mret (order, dlv)
      end
  end.

(** ** Event payloads *)

(** A JSON value of an event: [str(uuid)], a text, a number, an ISO timestamp,
    or a nested object. *)
Inductive value :=
| VId (id : uuid) | VText (s : string) | VInt (n : Z) | VFloat (x : float64)
| VTime (t : datetime) | VNull | VObject (fields : list (string * value)).
(** An event is a dict with the keys in insertion order. *)
Abbreviation event := (list (string * value)).

Definition or_null {A} (f : A → value) (o : option A) : value := from_option f VNull o.

Definition internal_location_event (dlv : Delivery) : event :=
  [("type", VText "delivery.location"); ("order_id", VId (d_order_id dlv));
   ("lat", or_null VFloat (d_current_lat dlv)); ("lng", or_null VFloat (d_current_lng dlv));
   ("at", or_null VTime (d_last_location_at dlv));
   ("driver_id", or_null VId (d_driver_id dlv))].

Definition eta_event (dlv : Delivery) : event :=
  [("type", VText "delivery.eta"); ("order_id", VId (d_order_id dlv));
   ("eta_seconds", or_null VInt (d_current_eta_seconds dlv));
   ("eta_updated_at", or_null VTime (d_current_eta_updated_at dlv))].

Definition status_event (order_id : uuid) (status : string)
    (started_at delivered_at : option datetime) : event :=
  [("type", VText "delivery.status"); ("order_id", VId order_id);
   ("status", VText status)] ++
  from_option (λ t, [("started_at", VTime t)]) [] started_at ++
  from_option (λ t, [("delivered_at", VTime t)]) [] delivered_at.
