(* ===== verification/Numerals.v ===== *)
(** * Numbers in text: UUIDs and timestamps

    What the interpreter writes for [str(uuid)], [uuid.hex] and
    [datetime.isoformat()] of an aware UTC value, and how it reads them back:
    [uuid.UUID(text)] in full, and [datetime.fromisoformat], whose accelerated
    reader is a parameter, of which the code only relies on reading back what
    [isoformat] wrote. *)

From Stdlib Require Import Ascii.
From S2P Require Import Prelude.
From S2P Require Import PyString.
#[local] Open Scope string_scope.
#[local] Open Scope list_scope.

(** ** Fixed-width numerals *)

(** The last [k] digits of [n], most significant first. *)
Fixpoint digits (base : N) (k : nat) (n : N) : list N :=
  match k with
  | O => []
  | S k' => digits base k' (n / base) ++ [(n mod base)%N]
  end.
Definition undigits (base : N) (l : list N) : N :=
  foldl (λ acc v, (base * acc + v)%N) 0%N l.

Definition digit_char (v : N) : ascii :=
  ascii_of_N (if decide (v < 10)%N then 48 + v else 87 + v).
Definition numeral (base : N) (k : nat) (n : N) : list ascii := digit_char <$> digits base k n.

Definition hex_value (c : ascii) : option N :=
  let n := N_of_ascii c in
  if decide (48 ≤ n ≤ 57)%N then Some (n - 48)%N
  else if decide (97 ≤ n ≤ 102)%N then Some (n - 87)%N
  else if decide (65 ≤ n ≤ 70)%N then Some (n - 55)%N
  else None.

Lemma length_digits base k n : length (digits base k n) = k.
Proof. revert n. induction k as [|k IH]; intros n; cbn; [done|]. rewrite length_app, IH. cbn. lia. Qed.

Lemma undigits_app base l v : undigits base (l ++ [v]) = (base * undigits base l + v)%N.
Proof. unfold undigits. by rewrite foldl_app. Qed.

Lemma undigits_digits base k n :
  (0 < base)%N → (n < base ^ N.of_nat k)%N → undigits base (digits base k n) = n.
Proof.
  intros Hb. revert n. induction k as [|k IH]; intros n Hn.
  - cbn in Hn |- *. lia.
  - cbn [digits]. rewrite undigits_app, IH.
    + rewrite (N.div_mod n base) at 3; [done|lia].
    + rewrite Nat2N.inj_succ, N.pow_succ_r in Hn by lia. apply N.Div0.div_lt_upper_bound; lia.
Qed.

Lemma digits_bounded base k n : (0 < base)%N → Forall (λ v, v < base)%N (digits base k n).
Proof.
  intros Hb. revert n. induction k as [|k IH]; intros n; cbn; [constructor|].
  apply Forall_app. split; [apply IH|]. constructor; [|constructor]. apply N.mod_lt. lia.
Qed.

(** Characters that structure a text and are no digits. *)
Definition text_marks : list ascii :=
  ["-"; "_"; "x"; "X"; "+"; "/"; "."; ":"; "{"; "}"; "r"; "u"; "T"; "Z"]%char.

(** Below sixteen every digit has a character, which reads as the digit. *)
Lemma digit_char_spec v :
  (v < 16)%N →
  hex_value (digit_char v) = Some v ∧
  (digit_char v ∉ text_marks) ∧
  is_space (digit_char v) = false.
Proof.
  intros Hv. assert (Forall (λ v, hex_value (digit_char v) = Some v ∧
    (digit_char v ∉ text_marks) ∧
    is_space (digit_char v) = false) (N.of_nat <$> seq 0 16)) as Hall.
  { apply (bool_decide_eq_true_1 _). vm_compute. reflexivity. }
  rewrite Forall_forall in Hall. apply Hall, list_elem_of_fmap. exists (N.to_nat v).
  split; [lia|]. apply elem_of_seq. lia.
Qed.

(** ** Reading a UUID

    [uuid.UUID(hex)]: drop [urn:] and [uuid:], strip braces, drop hyphens, then
    [int(hex, 16)] of exactly 32 characters.  [int] accepts surrounding white
    space, a sign, a [0x] prefix and single underscores between digits; a
    negative number is out of range. *)

(** Digits with single underscores between them; [sep] forbids an underscore
    here. *)
Fixpoint hex_number (acc : option N) (sep : bool) (l : list ascii) : option N :=
  match l with
  | [] => if sep then None else acc
  | c :: l' =>
      if decide (c = "_"%char) then if sep then None else hex_number acc true l'
      else
        v ← hex_value c;
        hex_number (Some (16 * default 0 acc + v)%N) false l'
  end.
Definition hex_unsigned (l : list ascii) : option N :=
  match l with
  | c :: d :: l' =>
      if decide (c = "0"%char ∧ d ∈ ["x"; "X"]%char) then hex_number None false l'
      else hex_number None true l
  | _ => hex_number None true l
  end.
Definition parse_int16 (l : list ascii) : option N :=
  match strip_both is_space l with
  | [] => None
  | c :: l' =>
      if decide (c = "+"%char) then hex_unsigned l'
      else if decide (c = "-"%char) then
        n ← hex_unsigned l'; if decide (n = 0)%N then Some 0%N else None
      else hex_unsigned (c :: l')
  end.

Definition is_brace (c : ascii) : bool := bool_decide (c ∈ ["{"%char; "}"%char]).
Definition parse_uuid (text : string) : option uuid :=
  let l := replace_empty "uuid:" (replace_empty "urn:" (String.list_ascii_of_string text)) in
  let l := replace_empty "-" (strip_both is_brace l) in
  if decide (length l = 32) then parse_int16 l else None.

Example parse_uuid_forms :
  parse_uuid "{00000000-0000-0000-0000-0000000000fF}" = Some 255%N ∧
  parse_uuid "urn:uuid:00000000000000000000000000000010" = Some 16%N ∧
  parse_uuid "0000000000000000000000000000000g" = None ∧
  parse_uuid "ff" = None.
Proof. vm_compute. auto. Qed.

(** ** Writing a UUID *)

(** [uuid.hex] and [str(uuid)]. *)
Definition uuid_hex (u : uuid) : list ascii := numeral 16 32 u.
Definition uuid_chars (u : uuid) : list ascii :=
  let h := uuid_hex u in
  take 8 h ++ "-"%char :: take 4 (drop 8 h) ++ "-"%char :: take 4 (drop 12 h) ++
  "-"%char :: take 4 (drop 16 h) ++ "-"%char :: drop 20 h.
Definition uuid_str (u : uuid) : string := String.string_of_list_ascii (uuid_chars u).

Example uuid_str_form :
  uuid_str 255 = "00000000-0000-0000-0000-0000000000ff".
Proof. vm_compute. reflexivity. Qed.

(** *** A rendered UUID reads back *)

Lemma remove_all_absent fuel n needle l :
  n ∉ l → (length l ≤ fuel)%nat → remove_all fuel (n :: needle) l = l.
Proof.
  revert l. induction fuel as [|fuel IH]; intros [|c l] Hn Hl; cbn in *; try done; [lia|].
  apply not_elem_of_cons in Hn as [Hne Hn]. rewrite bool_decide_eq_false_2 by done. cbn.
  f_equal. apply IH; [done|lia].
Qed.

Lemma remove_char fuel c l :
  (length l ≤ fuel)%nat → remove_all fuel [c] l = filter (λ x, x ≠ c) l.
Proof.
  revert l. induction fuel as [|fuel IH]; intros [|x l] Hl; [done|cbn in Hl; lia|done|].
  cbn [length] in Hl. rewrite filter_cons. cbn [remove_all has_prefix length]. rewrite andb_true_r.
  change (drop 1 (x :: l)) with l. destruct (decide (x ≠ c)) as [Hne|Heq].
  - rewrite bool_decide_eq_false_2 by done. cbn. f_equal. apply IH. lia.
  - rewrite bool_decide_eq_true_2 by (symmetry; by apply dec_stable). cbn. apply IH. lia.
Qed.

Lemma strip_both_none p l : Forall (λ c, p c = false) l → strip_both p l = l.
Proof.
  intros Hl. apply strip_both_id.
  - destruct Hl; cbn; done.
  - assert (Forall (λ c, p c = false) (reverse l)) as [] by by apply Forall_reverse. all: cbn; done.
Qed.

Lemma filter_all {A} (P : A → Prop) `{∀ x, Decision (P x)} l : Forall P l → filter P l = l.
Proof. induction 1 as [|x l Hx _ IH]; [done|]. by rewrite filter_cons_True, IH. Qed.

(** A character of a hexadecimal numeral. *)
Definition plain_digit (c : ascii) : Prop := ∃ v, (v < 16)%N ∧ c = digit_char v.

Lemma numeral_plain base k n :
  (0 < base ≤ 16)%N → Forall plain_digit (numeral base k n).
Proof.
  intros Hb. apply Forall_fmap. eapply Forall_impl; [apply digits_bounded; lia|].
  intros v Hv. exists v. cbn in Hv. split; [lia|done].
Qed.

Lemma hex_number_numeral acc l :
  Forall (λ v, v < 16)%N l →
  hex_number (Some acc) false (digit_char <$> l) = Some (foldl (λ a v, (16 * a + v)%N) acc l).
Proof.
  intros Hl. revert acc. induction Hl as [|v l Hv _ IH]; intros acc; [done|].
  destruct (digit_char_spec v Hv) as (Hval & Hno & _). cbn [fmap list_fmap hex_number foldl].
  rewrite decide_False by set_solver. rewrite Hval. apply IH.
Qed.

Lemma parse_int16_numeral k n :
  (n < 16 ^ N.of_nat (S k))%N → parse_int16 (numeral 16 (S k) n) = Some n.
Proof.
  intros Hn. unfold parse_int16. rewrite strip_both_none.
  2: { eapply Forall_impl; [apply numeral_plain; lia|]. intros c (v & Hv & ->).
       by destruct (digit_char_spec v Hv) as (_ & _ & ?). }
  pose proof (digits_bounded 16 (S k) n ltac:(lia)) as Hd.
  pose proof (undigits_digits 16 (S k) n ltac:(lia) Hn) as Hu. unfold numeral.
  assert (∃ v l, digits 16 (S k) n = v :: l) as (v & l & E).
  { destruct (digits 16 (S k) n) eqn:E; [|eauto].
    pose proof (length_digits 16 (S k) n) as Hl. by rewrite E in Hl. }
  rewrite E in Hd, Hu |- *. apply Forall_cons in Hd as [Hv Hd]. cbn [fmap list_fmap].
  destruct (digit_char_spec v Hv) as (Hval & Hno & _).
  rewrite !decide_False by set_solver.
  assert (hex_number None true (digit_char v :: (digit_char <$> l)) = Some n) as Hrun.
  { cbn [hex_number]. rewrite decide_False by set_solver. rewrite Hval. cbn [mbind option_bind].
    rewrite hex_number_numeral by done. f_equal. exact Hu. }
  unfold hex_unsigned. destruct l as [|w l]; [exact Hrun|]. cbn [fmap list_fmap] in *.
  rewrite decide_False; [exact Hrun|].
  apply Forall_cons in Hd as [Hw _]. destruct (digit_char_spec w Hw) as (_ & Hnw & _). set_solver.
Qed.

(** The characters of a rendered UUID. *)
Lemma uuid_chars_ok u :
  length (uuid_hex u) = 32 ∧
  Forall (λ c, plain_digit c ∨ c = "-"%char) (uuid_chars u) ∧
  filter (λ c, c ≠ "-"%char) (uuid_chars u) = uuid_hex u.
Proof.
  assert (length (uuid_hex u) = 32) as Hl by (unfold uuid_hex, numeral; by rewrite length_fmap, length_digits).
  pose proof (numeral_plain 16 32 u ltac:(lia)) as Hp. fold (uuid_hex u) in Hp.
  assert (∀ n, Forall plain_digit (drop n (uuid_hex u))) as Hdrop by (intros n; by apply Forall_drop).
  split; [done|]. split.
  - unfold uuid_chars.
    assert (∀ l, Forall plain_digit l → Forall (λ c, plain_digit c ∨ c = "-"%char) l) as Hor.
    { intros l Hl'. eapply Forall_impl; [exact Hl'|by left]. }
    repeat first [apply List.Forall_cons; [by right|]|apply Forall_app; split];
      apply Hor; auto using Forall_take.
  - assert (∀ l, Forall plain_digit l → filter (λ c, c ≠ "-"%char) l = l) as Hf.
    { intros l Hpl. apply filter_all. eapply Forall_impl; [exact Hpl|]. intros c (v & Hv & ->).
      destruct (digit_char_spec v Hv) as (_ & ? & _). set_solver. }
    assert (∀ l1 l2, Forall plain_digit l1 →
      filter (λ c, c ≠ "-"%char) (l1 ++ "-"%char :: l2) = l1 ++ filter (λ c, c ≠ "-"%char) l2) as Hg.
    { intros l1 l2 Hl1. by rewrite filter_app, (Hf l1 Hl1). }
    unfold uuid_chars. rewrite !Hg, Hf by auto using Forall_take.
    assert (∀ n, take 4 (drop n (uuid_hex u)) ++ drop (n + 4) (uuid_hex u) = drop n (uuid_hex u))
      as Hstep by (intros n; rewrite <- drop_drop; apply take_drop).
    pose proof (Hstep 16) as H16. pose proof (Hstep 12) as H12. pose proof (Hstep 8) as H8.
    cbn [Nat.add] in H16, H12, H8. rewrite H16, H12, H8. apply take_drop.
Qed.

Lemma plain_no_letter c : plain_digit c ∨ c = "-"%char → c ≠ "u"%char ∧ is_brace c = false.
Proof.
  intros [(v & Hv & ->)| ->]; [|by vm_compute].
  destruct (digit_char_spec v Hv) as (_ & Hno & _). split; [set_solver|].
  apply bool_decide_eq_false_2. set_solver.
Qed.

(** Reading a rendered UUID gives it back. *)
Lemma parse_uuid_str u : (u < 2 ^ 128)%N → parse_uuid (uuid_str u) = Some u.
Proof.
  intros Hu. destruct (uuid_chars_ok u) as (Hlen & Hall & Hfil).
  unfold parse_uuid, uuid_str, replace_empty.
  rewrite String.list_ascii_of_string_of_list_ascii. cbn [String.list_ascii_of_string].
  assert ("u"%char ∉ uuid_chars u) as Hnu.
  { intros Hin. rewrite Forall_forall in Hall. by destruct (plain_no_letter _ (Hall _ Hin)). }
  do 2 rewrite (remove_all_absent (length (uuid_chars u)) "u"%char _ (uuid_chars u) Hnu
    (Nat.le_refl _)).
  rewrite strip_both_none.
  2: { eapply Forall_impl; [exact Hall|]. intros c Hc. by apply plain_no_letter in Hc as [_ ?]. }
  rewrite remove_char by done. rewrite Hfil. rewrite decide_True by done.
  apply parse_int16_numeral. exact Hu.
Qed.
