(* ===== verification/Timestamps.v ===== *)
(** * Timestamps in text

    [datetime.isoformat()] of an aware UTC value, and the reading side
    [datetime.fromisoformat], of which the code relies on one thing only: it
    reads back what [isoformat] wrote.  [iso_reader] is such a reader. *)

From Stdlib Require Import Ascii.
From S2P Require Import Prelude.
From S2P Require Import Numerals.
#[local] Open Scope list_scope.
#[local] Open Scope Z_scope.

(** [lia] understands division by literals here. *)
#[local] Ltac Zify.zify_post_hook ::= Z.to_euclidean_division_equations.

(** ** The calendar

    Days since 1970-01-01 in the proleptic Gregorian calendar; a year starts in
    March here, an era has 400 years. *)

Definition day_of_era (year_of_era day_of_year : Z) : Z :=
  365 * year_of_era + year_of_era / 4 - year_of_era / 100 + day_of_year.
Definition civil_of_day_of_era (doe : Z) : Z * Z * Z :=
  let yoe := (doe - doe / 1460 + doe / 36524 - doe / 146096) / 365 in
  let doy := doe - day_of_era yoe 0 in
  let mp := (5 * doy + 2) / 153 in
  (yoe, mp, doy - (153 * mp + 2) / 5 + 1).

Definition civil_of_days (days : Z) : Z * Z * Z :=
  let z := days + 719468 in
  let '(yoe, mp, d) := civil_of_day_of_era (z mod 146097) in
  let m := if decide (mp < 10) then mp + 3 else mp - 9 in
  (z / 146097 * 400 + yoe + (if decide (m <= 2) then 1 else 0), m, d).

Definition days_of_civil (y m d : Z) : Z :=
  let y' := y - (if decide (m <= 2) then 1 else 0) in
  let mp := if decide (2 < m) then m - 3 else m + 9 in
  y' / 400 * 146097 + day_of_era (y' mod 400) ((153 * mp + 2) / 5 + d - 1) - 719468.

Example calendar_forms :
  civil_of_days 0 = (1970, 1, 1) ∧ civil_of_days (-719162) = (1, 1, 1) ∧
  civil_of_days 11016 = (2000, 2, 29) ∧ days_of_civil 9999 12 31 = 2932896.
Proof. vm_compute. auto. Qed.

(** Within an era the year, the month and the day are in range. *)
Lemma year_of_era_bounds doe :
  0 <= doe < 146097 →
  let yoe := (doe - doe / 1460 + doe / 36524 - doe / 146096) / 365 in
  0 <= yoe < 400 ∧ 0 <= doe - day_of_era yoe 0 <= 365.
Proof.
  intros H yoe. unfold day_of_era. assert (0 <= yoe < 400) as Hy by (unfold yoe; lia).
  split; [done|]. subst yoe. set (b := doe / 36524) in *.
  assert (b = 0 ∨ b = 1 ∨ b = 2 ∨ b = 3 ∨ b = 4) as Hb by (unfold b; lia).
  assert (36524 * b <= doe < 36524 * (b + 1)) as Hdoe by (unfold b; lia).
  clearbody b. destruct Hb as [ ->|[ ->|[ ->|[ ->| ->]]]]; lia.
Qed.

Lemma month_bounds doy :
  0 <= doy <= 365 →
  0 <= (5 * doy + 2) / 153 < 12 ∧ 1 <= doy - (153 * ((5 * doy + 2) / 153) + 2) / 5 + 1 <= 31.
Proof. lia. Qed.

Lemma era_bounds doe yoe mp d :
  0 <= doe < 146097 → civil_of_day_of_era doe = (yoe, mp, d) →
  0 <= yoe < 400 ∧ 0 <= mp < 12 ∧ 1 <= d <= 31.
Proof.
  intros H E. apply year_of_era_bounds in H as [H1 H2]. apply month_bounds in H2 as [H3 H4].
  unfold civil_of_day_of_era in E. injection E as <- <- <-.
  exact (conj H1 (conj H3 H4)).
Qed.

Lemma civil_round_trip days y m d :
  civil_of_days days = (y, m, d) → days_of_civil y m d = days ∧ 1 <= m <= 12 ∧ 1 <= d <= 31.
Proof.
  unfold civil_of_days. set (z := days + 719468).
  pose proof (Z.mod_pos_bound z 146097 ltac:(lia)) as Hm.
  destruct (civil_of_day_of_era (z mod 146097)) as [[yoe mp] d'] eqn:E.
  intros H. injection H as Hy Hmm <-.
  destruct (era_bounds _ _ _ _ Hm E) as (H1 & H2 & H3).
  unfold civil_of_day_of_era in E. injection E as Ey Emp Ed.
  rewrite Ey in Emp, Ed. rewrite Emp in Ed.
  split; [|repeat case_decide; lia].
  unfold days_of_civil.
  assert ((if decide (2 < m) then m - 3 else m + 9) = mp) as -> by (repeat case_decide; lia).
  assert (y - (if decide (m <= 2) then 1 else 0) = yoe + z / 146097 * 400) as ->
    by (repeat case_decide; lia).
  rewrite Z.div_add, Z.mod_add, (Z.div_small yoe), (Z.mod_small yoe) by lia.
  unfold day_of_era in *. pose proof (Z.div_mod z 146097 ltac:(lia)). unfold z in *. lia.
Qed.

(** ** Writing *)

(** [datetime.min] and the end of [datetime.max], in UTC. *)
Definition min_datetime : datetime := timedelta_days (-719162).
Definition end_datetime : datetime := timedelta_days 2932897.
Definition representable (t : datetime) : Prop := min_datetime <= t < end_datetime.
#[export] Instance representable_dec t : Decision (representable t).
Proof. unfold representable. apply _. Defined.

Definition dec (k : nat) (n : Z) : list ascii := numeral 10 k (Z.to_N n).

Definition iso_chars (t : datetime) : list ascii :=
  let '(y, m, d) := civil_of_days (t / timedelta_days 1) in
  let us := t mod timedelta_days 1 in
  let micro := us mod timedelta_seconds 1 in
  dec 4 y ++ "-"%char :: dec 2 m ++ "-"%char :: dec 2 d ++ "T"%char ::
  dec 2 (us / timedelta_hours 1) ++ ":"%char ::
  dec 2 (us / timedelta_minutes 1 mod 60) ++ ":"%char ::
  dec 2 (us / timedelta_seconds 1 mod 60) ++
  (if decide (micro = 0) then [] else "."%char :: dec 6 micro) ++
  ["+"; "0"; "0"; ":"; "0"; "0"]%char.

Definition isoformat (t : datetime) : string := String.string_of_list_ascii (iso_chars t).

Example isoformat_forms :
  isoformat 0 = "1970-01-01T00:00:00+00:00"%string ∧
  isoformat (timedelta_days 20000 + timedelta_hours 5 + 7)
    = "2024-10-04T05:00:00.000007+00:00"%string.
Proof. vm_compute. auto. Qed.

(** ** Reading *)

(** [datetime.fromisoformat(text)] as an instant, [None] for a [ValueError]; a
    naive text is read in the zone of the process when it meets an aware
    column. *)
Class FromIso := fromisoformat : string → option datetime.
Class FromIsoLaws `{FromIso} :=
  fromisoformat_isoformat : ∀ t, representable t → fromisoformat (isoformat t) = Some t.

(** *** A reader of the written form *)

Fixpoint read_digits (k : nat) (acc : N) (l : list ascii) : option (Z * list ascii) :=
  match k, l with
  | O, _ => Some (Z.of_N acc, l)
  | S k', c :: l' => v ← hex_value c; read_digits k' (10 * acc + v)%N l'
  | S _, [] => None
  end.
Definition expect (c : ascii) (l : list ascii) : option (list ascii) :=
  match l with
  | x :: l' => if decide (x = c) then Some l' else None
  | [] => None
  end.

Definition read_micro (l : list ascii) : option (Z * list ascii) :=
  match expect "."%char l with
  | Some l' => read_digits 6 0 l'
  | None => Some (0, l)
  end.

Definition read_iso (text : string) : option datetime :=
  '(y, l) ← read_digits 4 0 (String.list_ascii_of_string text);
  l ← expect "-"%char l; '(m, l) ← read_digits 2 0 l;
  l ← expect "-"%char l; '(d, l) ← read_digits 2 0 l;
  l ← expect "T"%char l; '(h, l) ← read_digits 2 0 l;
  l ← expect ":"%char l; '(mi, l) ← read_digits 2 0 l;
  l ← expect ":"%char l; '(s, l) ← read_digits 2 0 l;
  '(us, l) ← read_micro l;
  if decide (l = ["+"; "0"; "0"; ":"; "0"; "0"]%char) then
    Some (timedelta_days (days_of_civil y m d) + timedelta_hours h + timedelta_minutes mi +
          timedelta_seconds s + us)
  else None.

Definition iso_reader : FromIso := read_iso.

Lemma read_digits_run l acc rest :
  Forall (λ v, v < 10)%N l →
  read_digits (length l) acc ((digit_char <$> l) ++ rest) =
    Some (Z.of_N (foldl (λ a v, (10 * a + v)%N) acc l), rest).
Proof.
  intros Hl. revert acc. induction Hl as [|v l Hv _ IH]; intros acc; [done|].
  cbn [length fmap list_fmap app read_digits]. cbn in Hv.
  destruct (digit_char_spec v ltac:(lia)) as (-> & _ & _). cbn [mbind option_bind]. apply IH.
Qed.

Lemma read_dec k n rest :
  0 <= n < 10 ^ Z.of_nat k → read_digits k 0 (dec k n ++ rest) = Some (n, rest).
Proof.
  intros Hn. unfold dec, numeral.
  pose proof (read_digits_run (digits 10 k (Z.to_N n)) 0 rest
    ltac:(apply digits_bounded; lia)) as Hr.
  rewrite length_digits in Hr. rewrite Hr. fold (undigits 10 (digits 10 k (Z.to_N n))).
  rewrite undigits_digits by lia. f_equal. f_equal. lia.
Qed.

Lemma expect_cons c l : expect c (c :: l) = Some l.
Proof. cbn. by rewrite decide_True. Qed.

Lemma civil_year days y m d :
  civil_of_days days = (y, m, d) → -719162 <= days < 2932897 → 1 <= y < 10000.
Proof.
  intros E Hdays. apply civil_round_trip in E as (<- & Hm & Hd).
  unfold days_of_civil, day_of_era in Hdays.
  set (mp := if decide (2 < m) then m - 3 else m + 9) in Hdays.
  assert (0 <= mp < 12 ∧ (m <= 2 ↔ 10 <= mp)) as (Hmp & Hjan)
    by (clear Hdays; unfold mp; clear mp; case_decide; lia).
  clearbody mp.
  assert (0 <= (153 * mp + 2) / 5 + d - 1 < 368) as Hdoy by (clear Hdays; lia).
  assert (10 <= mp → 306 <= (153 * mp + 2) / 5 + d - 1) as Hdoy' by (clear Hdays; lia).
  assert (mp < 10 → (153 * mp + 2) / 5 + d - 1 < 306) as Hdoy'' by (clear Hdays; lia).
  set (doy := (153 * mp + 2) / 5 + d - 1) in *. clearbody doy.
  set (y' := y - (if decide (m <= 2) then 1 else 0)) in *.
  assert (y' <= y <= y' + 1 ∧ (2 < m → y' = y) ∧ (m <= 2 → y = y' + 1)) as (Hy1 & Hy2 & Hy3)
    by (clear Hdays; unfold y'; clear y'; case_decide; lia).
  clearbody y'.
  pose proof (Z.div_mod y' 400 ltac:(lia)) as Hq.
  pose proof (Z.mod_pos_bound y' 400 ltac:(lia)) as Hr.
  set (q := y' / 400) in *. set (r := y' mod 400) in *. clearbody q r.
  assert (0 <= r / 4 - r / 100 <= 96) as Hleap by lia.
  set (leap := r / 4 - r / 100) in *.
  assert (365 * r + r / 4 - r / 100 = 365 * r + leap) as E by (unfold leap; lia).
  rewrite E in Hdays. assert (r = 399 → leap = 96) as H399 by (unfold leap; intros ->; reflexivity).
  assert (r = 0 → leap = 0) as H0 by (unfold leap; intros ->; reflexivity).
  clearbody leap. clear E. lia.
Qed.

Lemma read_iso_isoformat t : representable t → read_iso (isoformat t) = Some t.
Proof.
  intros Ht. unfold read_iso, isoformat. rewrite String.list_ascii_of_string_of_list_ascii.
  unfold iso_chars. destruct (civil_of_days (t / timedelta_days 1)) as [[y m] d] eqn:E.
  assert (1 <= y < 10000) as Hy.
  { eapply civil_year; [exact E|]. unfold representable, min_datetime, end_datetime,
      timedelta_days, timedelta_seconds in *. lia. }
  apply civil_round_trip in E as (Hback & Hm & Hd).
  set (us := t mod timedelta_days 1).
  assert (0 <= us < timedelta_days 1) as Hus by (apply Z.mod_pos_bound; done).
  assert (t = timedelta_days (t / timedelta_days 1) + us) as Hsplit
    by (unfold us, timedelta_days, timedelta_seconds; lia).
  assert (timedelta_hours (us / timedelta_hours 1) +
    timedelta_minutes (us / timedelta_minutes 1 mod 60) +
    timedelta_seconds (us / timedelta_seconds 1 mod 60) + us mod timedelta_seconds 1 = us)
    as Htime by (unfold timedelta_hours, timedelta_minutes, timedelta_seconds; clearbody us; lia).
  assert (0 <= us / timedelta_hours 1 < 24) as Hh
    by (unfold timedelta_hours, timedelta_days, timedelta_seconds in *; lia).
  pose proof (Z.mod_pos_bound (us / timedelta_minutes 1) 60 ltac:(done)).
  pose proof (Z.mod_pos_bound (us / timedelta_seconds 1) 60 ltac:(done)).
  pose proof (Z.mod_pos_bound us (timedelta_seconds 1) ltac:(done)).
  assert (read_micro ((if decide (us mod timedelta_seconds 1 = 0) then []
      else "."%char :: dec 6 (us mod timedelta_seconds 1)) ++
      ["+"; "0"; "0"; ":"; "0"; "0"]%char) =
    Some (us mod timedelta_seconds 1, ["+"; "0"; "0"; ":"; "0"; "0"]%char)) as Hmicro.
  { unfold read_micro. case_decide as Hz; [by rewrite Hz|].
    cbn [app]. rewrite expect_cons, read_dec; [done|]. unfold timedelta_seconds in *. lia. }
  rewrite read_dec by lia. cbn [mbind option_bind].
  repeat (rewrite expect_cons; cbn [mbind option_bind]; rewrite read_dec by lia;
          cbn [mbind option_bind]).
  rewrite Hmicro. cbn [mbind option_bind]. rewrite decide_True by done.
  f_equal. rewrite Hback.
  assert (∀ a b c e f u : Z, t = a + u → b + c + e + f = u → a + b + c + e + f = t)
    as Hlin by (clear; lia). exact (Hlin _ _ _ _ _ us Hsplit Htime).
Qed.

#[export] Instance iso_reader_laws : FromIsoLaws (H:=iso_reader).
Proof. exact read_iso_isoformat. Qed.
