(* ===== verification/Gateway.v ===== *)
(** * The WebSocket gateway

    [ws/gateway.py]: the connection registry, the broadcast helpers, the
    handshake and the frame loop of one connection, with the REST endpoints
    that broadcast ([api/v1/deliveries.py], [api/v1/orders.py],
    [api/v1/conversations.py]).  A connection is its identity; what the server
    sends is appended to a log with the user of the receiving connection.  The
    JSON text of an event, the heartbeat and dead sockets (whose failure the
    sender swallows) are not modelled. *)

From Stdlib Require Import Ascii.
From S2P Require Import Prelude.
From S2P Require Import Exceptions.
From S2P Require Import Models.
From S2P Require Import Session.
From S2P Require Import SessionFacts.
From S2P Require Import PyString.
From S2P Require Import Numerals.
From S2P Require Import Security.
From S2P Require Import Orders.
From S2P Require Import Messaging.
From S2P Require Import DeliveryTracking.
#[local] Open Scope string_scope.

Definition CLOSE_AUTH : Z := 4401.
Definition CLOSE_FORBIDDEN : Z := 4403.

(** ** Connection registry *)

Abbreviation conn_id := N.

Record WSConnection := mkConn {
  ws_user : User;
  ws_conversations : gset uuid;
  ws_delivery_orders : gset uuid;
}.
#[export] Instance eta_WSConnection : EtaRecord WSConnection := fun c =>
  mkConn (ws_user c) (ws_conversations c) (ws_delivery_orders c).

Inductive DeliveryRole := role_internal | role_customer.

(** The two buckets of one order. *)
Record Topic := mkTopic { internal : gset conn_id; customers : gset conn_id }.
#[export] Instance eta_Topic : EtaRecord Topic := fun t =>
  mkTopic (internal t) (customers t).

(** [open_conns] holds the live connection objects by identity. *)
Record ConnectionRegistry := mkRegistry {
  open_conns : gmap conn_id WSConnection;
  _subs : gmap uuid (gset conn_id);
  _delivery_subs : gmap uuid Topic;
}.
#[export] Instance eta_Registry : EtaRecord ConnectionRegistry := fun r =>
  mkRegistry (open_conns r) (_subs r) (_delivery_subs r).

Definition empty_registry : ConnectionRegistry := mkRegistry ∅ ∅ ∅.

Definition subscribe (c : conn_id) (conversation_id : uuid) (r : ConnectionRegistry) :
    ConnectionRegistry :=
  r <| open_conns ::= alter (λ k, k <| ws_conversations ::= ({[conversation_id]} ∪.) |>) c |>
    <| _subs ::= partial_alter (λ o, Some ({[c]} ∪ default ∅ o)) conversation_id |>.

(** [subs.discard(conn); if not subs: del] *)
Definition discard_sub (c : conn_id) (o : option (gset conn_id)) : option (gset conn_id) :=
  subs ← o;
  let subs := subs ∖ {[c]} in
  if decide (subs = ∅) then None else Some subs.

Definition unsubscribe (c : conn_id) (conversation_id : uuid) (r : ConnectionRegistry) :
    ConnectionRegistry :=
  r <| open_conns ::= alter (λ k, k <| ws_conversations ::= (.∖ {[conversation_id]}) |>) c |>
    <| _subs ::= partial_alter (discard_sub c) conversation_id |>.

Definition subscribers_of (conversation_id : uuid) (r : ConnectionRegistry) : gset conn_id :=
  default ∅ (_subs r !! conversation_id).

Definition topic_add (role : DeliveryRole) (c : conn_id) (t : Topic) : Topic :=
  match role with
  | role_internal => t <| internal ::= ({[c]} ∪.) |>
  | role_customer => t <| customers ::= ({[c]} ∪.) |>
  end.

Definition subscribe_delivery (c : conn_id) (order_id : uuid) (role : DeliveryRole)
    (r : ConnectionRegistry) : ConnectionRegistry :=
  r <| open_conns ::= alter (λ k, k <| ws_delivery_orders ::= ({[order_id]} ∪.) |>) c |>
    <| _delivery_subs ::= partial_alter
         (λ o, Some (topic_add role c (default (mkTopic ∅ ∅) o))) order_id |>.

Definition discard_topic (c : conn_id) (o : option Topic) : option Topic :=
  t ← o;
  let t := mkTopic (internal t ∖ {[c]}) (customers t ∖ {[c]}) in
  if decide (internal t = ∅ ∧ customers t = ∅) then None else Some t.

Definition unsubscribe_delivery (c : conn_id) (order_id : uuid) (r : ConnectionRegistry) :
    ConnectionRegistry :=
  r <| open_conns ::= alter (λ k, k <| ws_delivery_orders ::= (.∖ {[order_id]}) |>) c |>
    <| _delivery_subs ::= partial_alter (discard_topic c) order_id |>.

Definition delivery_internal_subscribers (order_id : uuid) (r : ConnectionRegistry) :
    gset conn_id :=
  from_option internal ∅ (_delivery_subs r !! order_id).
Definition delivery_customer_subscribers (order_id : uuid) (r : ConnectionRegistry) :
    gset conn_id :=
  from_option customers ∅ (_delivery_subs r !! order_id).

(** The connection leaves every topic it is subscribed to; afterwards the
    handler drops the connection object. *)
Definition disconnect_all (c : conn_id) (r : ConnectionRegistry) : ConnectionRegistry :=
  match open_conns r !! c with
  | None => r
  | Some conn =>
      r <| _subs ::= λ t, foldr (partial_alter (discard_sub c)) t
                            (elements (ws_conversations conn)) |>
        <| _delivery_subs ::= λ t, foldr (partial_alter (discard_topic c)) t
                                     (elements (ws_delivery_orders conn)) |>
        <| open_conns ::= delete c |>
  end.

(** ** Sending *)

(** One frame sent to a connection: the connection, its user, the event. *)
Record Sent := mkSent { to_conn : conn_id; to_user : User; sent_event : event }.

Record Gateway := mkGateway { _registry : ConnectionRegistry; outbox : list Sent }.
#[export] Instance eta_Gateway : EtaRecord Gateway := fun g =>
  mkGateway (_registry g) (outbox g).

Definition send_text (c : conn_id) (ev : event) (g : Gateway) : Gateway :=
  match open_conns (_registry g) !! c with
  | Some conn => g <| outbox ::= (.++ [mkSent c (ws_user conn) ev]) |>
  | None => g
  end.
Definition send_each (cs : list conn_id) (ev : event) (g : Gateway) : Gateway :=
  foldl (λ g c, send_text c ev g) g cs.

Definition _broadcast_event (conversation_id : uuid) (ev : event) (g : Gateway) : Gateway :=
  send_each (elements (subscribers_of conversation_id (_registry g))) ev g.

Definition b64_text (l : list ascii) : value := VText (String.string_of_list_ascii l).
Definition message_payload (m : MessageResponse) : event :=
  [("id", VId (mr_id m)); ("conversation_id", VId (mr_conversation_id m));
   ("sender_id", VId (mr_sender_id m));
   ("ciphertext_b64url", b64_text (mr_ciphertext_b64url m));
   ("nonce_b64url", b64_text (mr_nonce_b64url m));
   ("ephemeral_public_key_b64url", b64_text (mr_ephemeral_public_key_b64url m));
   ("recipient_key_id", or_null VId (mr_recipient_key_id m));
   ("sent_at", VTime (mr_sent_at m)); ("read_at", or_null VTime (mr_read_at m))].
Definition message_event (kind : string) (conversation_id : uuid) (payload : MessageResponse) :
    event :=
  [("type", VText kind); ("conversation_id", VId conversation_id);
   ("message", VObject (message_payload payload))].
Definition broadcast_message_new (conversation_id : uuid) (payload : MessageResponse) :
    Gateway → Gateway :=
  _broadcast_event conversation_id (message_event "message.new" conversation_id payload).
Definition broadcast_message_read (conversation_id : uuid) (payload : MessageResponse) :
    Gateway → Gateway :=
  _broadcast_event conversation_id (message_event "message.read" conversation_id payload).

Definition broadcast_delivery_location_internal (order_id : uuid) (ev : event) (g : Gateway) :
    Gateway :=
  send_each (elements (delivery_internal_subscribers order_id (_registry g))) ev g.

Definition broadcast_delivery_event_all (order_id : uuid) (ev : event) (g : Gateway) :
    Gateway :=
  send_each (elements (delivery_customer_subscribers order_id (_registry g))) ev
    (send_each (elements (delivery_internal_subscribers order_id (_registry g))) ev g).

(** ** Handshake *)

(** What a client opens the socket with: the query parameter [token] and the
    header [Authorization]. *)
Record Handshake := mkHandshake { query_token : option string; authorization : option string }.

(** [auth.split(" ", 1)[1]] *)
Fixpoint after_space (s : string) : string :=
  match s with
  | EmptyString => EmptyString
  | String.String c s' => if decide (c = " "%char) then s' else after_space s'
  end.
Definition _extract_token (ws : Handshake) : option string :=
  let bearer :=
    match authorization ws with
    | Some auth =>
        if String.prefix "bearer " (str_lower auth) then Some (after_space auth) else None
    | None => None
    end in
  match query_token ws with
  | Some token => if decide (token = "") then bearer else Some token
  | None => bearer
  end.

(** A token in either place is found, the scheme in any case. *)
Lemma extracted_token token other :
  token ≠ "" →
  _extract_token (mkHandshake (Some token) other) = Some token ∧
  _extract_token (mkHandshake None (Some ("Bearer " +:+ token))) = Some token ∧
  _extract_token (mkHandshake (Some "") (Some ("BEARER " +:+ token))) = Some token.
Proof.
  intros Ht. unfold _extract_token. split; [by cbn; rewrite decide_False|].
  assert (∀ s, String.prefix "bearer " ("bearer " +:+ s) = true) as Hpre by by intros [].
  cbn [authorization query_token].
  change (str_lower ("Bearer " +:+ token)) with ("bearer " +:+ str_lower token).
  change (str_lower ("BEARER " +:+ token)) with ("bearer " +:+ str_lower token).
  by rewrite Hpre.
Qed.

(** [try: m / except Exception: None]. *)
Definition attempt {A} (m : M A) : M (option A) := λ env s,
  match m env s with
  | (Ok a, s1) => (Ok (Some a), s1)
  | (Raised _, s1) => (Ok None, s1)
  end.

Section gateway.
Context `{Crypto} (settings : Settings).

Definition _authenticate (token : option string) : M (option User) :=
  match token with
  | None | Some "" => mret None
  | Some token =>
      payload ← attempt (decode_access_token settings token);
      match payload with
      | None => mret None
      | Some payload =>
          user ← select_one (λ u, u_id u = at_sub payload ∧ u_deleted_at u = None);
          match user with
          | None => mret None
          | Some user =>
              if decide (u_is_active user = false ∨ u_disabled_at user ≠ None) then mret None
              else mret (Some user)
          end
      end
  end.

Definition _is_participant (conversation_id : uuid) (user : User) : M bool :=
  found ← get_row (R:=Conversation) conversation_id;
  mret match found with
       | None => false
       | Some conv =>
           bool_decide (u_role user = admin) ||
           bool_decide (u_id user ∈ [c_user_a_id conv; c_user_b_id conv])
       end.

Definition _resolve_delivery_role (order_id : uuid) (user : User) :
    M (option DeliveryRole) :=
  found ← load_order order_id;
  match found with
  | None => mret None
  | Some order =>
      role ← resolve_role user order;
      mret match role with
           | tr_none => None
           | tr_customer => Some role_customer
           | _ => Some role_internal
           end
  end.

(** A query in a session of its own, which is closed without a commit. *)
Definition in_session {A} (m : M A) (env : Env) (d : DB) : outcome A :=
  (m env (open_session d)).1.

(** ** The frame loop *)

(** A value of the client's JSON object. *)
Inductive frame_value := FNull | FText (s : string) | FOther (truthy : bool).
Inductive Frame := InvalidJson | NotAnObject | Object (fields : gmap string frame_value).

Definition field (fs : gmap string frame_value) (key : string) : frame_value :=
  default FNull (fs !! key).

(** [uuid.UUID(v)] raises [ValueError] on a text of another form and
    [AttributeError], which no handler catches, on anything but a text. *)
Inductive parsed_id := IdOk (id : uuid) | IdBad | IdCrash.
Definition parse_id (v : frame_value) : parsed_id :=
  match v with
  | FText s => match parse_uuid s with Some id => IdOk id | None => IdBad end
  | FOther _ => IdCrash
  | FNull => IdBad
  end.
Definition falsy (v : frame_value) : bool :=
  match v with FNull => true | FText s => bool_decide (s = "") | FOther b => negb b end.

(** How one turn of the loop ends. *)
Inductive turn := Continue | Return (close_code : option Z) | Crash.

Definition error_event (error : string) : event :=
  [("type", VText "error"); ("error", VText error)].

Definition typing_event (cid : uuid) (state : string) (user : User) : event :=
  [("type", VText "typing"); ("conversation_id", VId cid); ("state", VText state);
   ("from", VId (u_id user))].

Definition on_subscribe (env : Env) (d : DB) (c : conn_id) (user : User)
    (fs : gmap string frame_value) (g : Gateway) : Gateway * turn :=
  match field fs "delivery_order_id" with
  | FNull =>
      let cid_str := field fs "conversation_id" in
      if falsy cid_str then
        (send_text c (error_event "missing_conversation_id") g, Continue)
      else
        match parse_id cid_str with
        | IdBad => (send_text c (error_event "invalid_conversation_id") g, Continue)
        | IdCrash => (g, Crash)
        | IdOk cid =>
            match in_session (_is_participant cid user) env d with
            | Ok true =>
                (send_text c [("type", VText "subscribed"); ("conversation_id", VId cid)]
                   (g <| _registry ::= subscribe c cid |>), Continue)
            | Ok false => (g, Return (Some CLOSE_FORBIDDEN))
            | Raised _ => (g, Crash)
            end
        end
  | oid_str =>
      match parse_id oid_str with
      | IdBad => (send_text c (error_event "invalid_delivery_order_id") g, Continue)
      | IdCrash => (g, Crash)
      | IdOk oid =>
          match in_session (_resolve_delivery_role oid user) env d with
          | Ok (Some role) =>
              (send_text c [("type", VText "delivery.subscribed"); ("order_id", VId oid)]
                 (g <| _registry ::= subscribe_delivery c oid role |>), Continue)
          | Ok None => (g, Return (Some CLOSE_FORBIDDEN))
          | Raised _ => (g, Crash)
          end
      end
  end.

Definition on_unsubscribe (c : conn_id) (fs : gmap string frame_value) (g : Gateway) :
    Gateway * turn :=
  match field fs "delivery_order_id" with
  | FNull =>
      let cid_str := field fs "conversation_id" in
      if falsy cid_str then (g, Continue)
      else
        match parse_id cid_str with
        | IdBad => (g, Continue)
        | IdCrash => (g, Crash)
        | IdOk cid => (g <| _registry ::= unsubscribe c cid |>, Continue)
        end
  | oid_str =>
      match parse_id oid_str with
      | IdBad => (g, Continue)
      | IdCrash => (g, Crash)
      | IdOk oid => (g <| _registry ::= unsubscribe_delivery c oid |>, Continue)
      end
  end.

(** [cid in conn.conversations] *)
Definition is_subscribed (c : conn_id) (cid : uuid) (r : ConnectionRegistry) : bool :=
  match open_conns r !! c with
  | Some conn => bool_decide (cid ∈ ws_conversations conn)
  | None => false
  end.

(** The subscribers of other users. *)
Definition is_other (user : User) (r : ConnectionRegistry) (c : conn_id) : bool :=
  match open_conns r !! c with
  | Some conn => bool_decide (u_id (ws_user conn) ≠ u_id user)
  | None => true
  end.
Definition others (user : User) (cid : uuid) (r : ConnectionRegistry) : list conn_id :=
  filter (λ c, is_other user r c = true) (elements (subscribers_of cid r)).

Definition on_typing (c : conn_id) (user : User) (fs : gmap string frame_value) (g : Gateway) :
    Gateway * turn :=
  let cid_str := field fs "conversation_id" in
  match field fs "state" with
  | FText state =>
      if negb (bool_decide (state ∈ ["start"; "stop"])) || falsy cid_str then (g, Continue)
      else
        match parse_id cid_str with
        | IdBad => (g, Continue)
        | IdCrash => (g, Crash)
        | IdOk cid =>
            if is_subscribed c cid (_registry g) then
              (send_each (others user cid (_registry g)) (typing_event cid state user) g,
               Continue)
            else (g, Continue)
        end
  | _ => (g, Continue)
  end.

(** One frame of the connection [c]. *)
Definition handle_frame (env : Env) (d : DB) (c : conn_id) (user : User) (frame : Frame)
    (g : Gateway) : Gateway * turn :=
  match frame with
  | InvalidJson => (send_text c (error_event "invalid_json") g, Continue)
  | NotAnObject => (g, Crash)
  | Object fs =>
      match field fs "type" with
      | FText "ping" => (send_text c [("type", VText "pong")] g, Continue)
      | FText "subscribe" => on_subscribe env d c user fs g
      | FText "unsubscribe" => on_unsubscribe c fs g
      | FText "typing" => on_typing c user fs g
      | _ => (send_text c (error_event "unknown_type") g, Continue)
      end
  end.

(** [handle_ws] after the handshake: a frame, then the [finally] block unless
    the loop goes on. *)
Definition ws_turn (env : Env) (d : DB) (c : conn_id) (user : User) (frame : Frame)
    (g : Gateway) : Gateway :=
  let '(g', t) := handle_frame env d c user frame g in
  match t with
  | Continue => g'
  | _ => g' <| _registry ::= disconnect_all c |>
  end.

Definition ws_accept (c : conn_id) (user : User) (g : Gateway) : Gateway :=
  g <| _registry ::= λ r, r <| open_conns ::= <[c := mkConn user ∅ ∅]> |> |>.

(** ** Endpoints that broadcast *)

(** A handler in its session, then its broadcasts, then the commit. *)
Definition endpoint {A} (m : M A) (broadcast : A → Gateway → Gateway)
    (env : Env) (d : DB) (g : Gateway) : DB * Gateway :=
  match get_db m env d with
  | (Ok a, d') => (d', broadcast a g)
  | (Raised _, d') => (d', g)
  end.

Definition location_broadcast (eta_seconds : option Z) (od : Order * Delivery) (g : Gateway) :
    Gateway :=
  let '(order, dlv) := od in
  let g := broadcast_delivery_location_internal (o_id order) (internal_location_event dlv) g in
  match eta_seconds with
  | Some _ => broadcast_delivery_event_all (o_id order) (eta_event dlv) g
  | None => g
  end.
Definition location_endpoint (caller : User) (order_id : uuid) (lat lng : float64)
    (eta_seconds distance_meters : option Z) : Env → DB → Gateway → DB * Gateway :=
  endpoint (post_location caller order_id lat lng eta_seconds distance_meters)
    (location_broadcast eta_seconds).

Definition dispatched_broadcast (lo : LoadedOrder) : Gateway → Gateway :=
  broadcast_delivery_event_all (o_id (lo_order lo))
    (status_event (o_id (lo_order lo)) "out_for_delivery" (lo_delivery lo ≫= d_started_at) None).
Definition out_for_delivery_endpoint (caller : User) (order_id : uuid) :
    Env → DB → Gateway → DB * Gateway :=
  endpoint (Orders.out_for_delivery caller order_id) dispatched_broadcast.

Definition delivered_broadcast (lo : LoadedOrder) : Gateway → Gateway :=
  broadcast_delivery_event_all (o_id (lo_order lo))
    (status_event (o_id (lo_order lo)) "delivered" None (o_delivered_at (lo_order lo))).
Definition delivered_endpoint (caller : User) (order_id : uuid) :
    Env → DB → Gateway → DB * Gateway :=
  endpoint (mark_delivered caller order_id) delivered_broadcast.

Definition send_message_endpoint (caller : User) (conversation_id : uuid)
    (ciphertext nonce epk : list Z) (key : option uuid) :
    Env → DB → Gateway → DB * Gateway :=
  endpoint (store_message caller conversation_id ciphertext nonce epk key)
    (λ m, broadcast_message_new conversation_id (message_to_response_dict m)).

Definition mark_read_endpoint (caller : User) (conversation_id message_id : uuid) :
    Env → DB → Gateway → DB * Gateway :=
  endpoint (mark_message_read caller conversation_id message_id)
    (λ m, broadcast_message_read conversation_id (message_to_response_dict m)).
End gateway.
