(* ===== verification/GatewayFacts.v ===== *)
(** * The invariant of the connection registry

    The subscription sets of the connections and the buckets of the registry
    mirror each other, no empty bucket is kept, and customers and internal
    users are in different buckets. *)

From S2P Require Import Prelude.
From S2P Require Import Exceptions.
From S2P Require Import Models.
From S2P Require Import Session.
From S2P Require Import SessionFacts.
From S2P Require Import Security.
From S2P Require Import Orders.
From S2P Require Import Messaging.
From S2P Require Import DeliveryTracking.
From S2P Require Import Gateway.

(** ** The invariant *)

(** The set a connection keeps, empty once it is closed. *)
Definition kept (f : WSConnection → gset uuid) (r : ConnectionRegistry) (c : conn_id) :
    gset uuid := from_option f ∅ (open_conns r !! c).

Definition subs_mirror (r : ConnectionRegistry) : Prop :=
  ∀ cid c, c ∈ subscribers_of cid r ↔ cid ∈ kept ws_conversations r c.
Definition topics_mirror (r : ConnectionRegistry) : Prop :=
  ∀ oid c, c ∈ delivery_internal_subscribers oid r ∪ delivery_customer_subscribers oid r ↔
           oid ∈ kept ws_delivery_orders r c.
Definition no_empty_bucket (r : ConnectionRegistry) : Prop :=
  map_Forall (λ _ subs, subs ≠ ∅) (_subs r) ∧
  map_Forall (λ _ t, ¬ (internal t = ∅ ∧ customers t = ∅)) (_delivery_subs r).
(** Who sits in which bucket. *)
Definition buckets_by_role (r : ConnectionRegistry) : Prop :=
  ∀ oid c conn, open_conns r !! c = Some conn →
    (c ∈ delivery_internal_subscribers oid r → u_role (ws_user conn) ≠ customer) ∧
    (c ∈ delivery_customer_subscribers oid r → u_role (ws_user conn) = customer).

Definition registry_ok (r : ConnectionRegistry) : Prop :=
  subs_mirror r ∧ topics_mirror r ∧ no_empty_bucket r ∧ buckets_by_role r.

Lemma empty_registry_ok : registry_ok empty_registry.
Proof.
  split_and!.
  - intros cid c. unfold kept, subscribers_of. cbn. rewrite !lookup_empty. cbn. set_solver.
  - intros oid c. unfold kept, delivery_internal_subscribers, delivery_customer_subscribers.
    cbn. rewrite !lookup_empty. cbn. set_solver.
  - split; apply map_Forall_empty.
  - intros oid c conn H. cbn in H. by rewrite lookup_empty in H.
Qed.

(** ** What the bucket updates do *)

Lemma default_discard c (o : option (gset conn_id)) :
  default ∅ (discard_sub c o) = default ∅ o ∖ {[c]}.
Proof. destruct o as [subs|]; cbn; [case_decide; cbn; set_solver|set_solver]. Qed.
Lemma discard_sub_some c o subs : discard_sub c o = Some subs → subs ≠ ∅.
Proof. destruct o; cbn; [case_decide; congruence|done]. Qed.

Lemma internal_discard c o :
  from_option internal ∅ (discard_topic c o) = from_option internal ∅ o ∖ {[c]}.
Proof. destruct o as [t|]; cbn; [case_decide as H; cbn in *; set_solver|set_solver]. Qed.
Lemma customers_discard c o :
  from_option customers ∅ (discard_topic c o) = from_option customers ∅ o ∖ {[c]}.
Proof. destruct o as [t|]; cbn; [case_decide as H; cbn in *; set_solver|set_solver]. Qed.
Lemma discard_topic_some c o t :
  discard_topic c o = Some t → ¬ (internal t = ∅ ∧ customers t = ∅).
Proof. destruct o; cbn; [case_decide as H; [done|]; by intros [= <-]|done]. Qed.

(** Updating the entries of a list of keys with an idempotent function. *)
Lemma foldr_partial_alter {A} (f : option A → option A) (t : gmap uuid A) ks k :
  (∀ o, f (f o) = f o) →
  foldr (partial_alter f) t ks !! k = if decide (k ∈ ks) then f (t !! k) else t !! k.
Proof.
  intros Hf. induction ks as [|k' ks IH]; cbn; [done|].
  destruct (decide (k = k')) as [->|Hne].
  - rewrite lookup_partial_alter_eq, IH.
    rewrite (decide_True (P := k' ∈ k' :: ks)) by left. by case_decide.
  - rewrite lookup_partial_alter_ne by done. rewrite IH.
    apply decide_ext. set_solver.
Qed.

Lemma discard_sub_idemp c o : discard_sub c (discard_sub c o) = discard_sub c o.
Proof.
  destruct o as [subs|]; cbn; [|done]. case_decide as H; cbn; [done|].
  rewrite difference_twice_L. by rewrite decide_False.
Qed.
Lemma discard_topic_idemp c o : discard_topic c (discard_topic c o) = discard_topic c o.
Proof.
  destruct o as [t|]; cbn; [|done]. case_decide as H; cbn in *; [done|].
  rewrite !difference_twice_L. by rewrite decide_False.
Qed.

(** ** The operations preserve the invariant *)

(** The users of the open connections do not change. *)
Lemma user_alter (g : WSConnection → WSConnection) c (t : gmap conn_id WSConnection) c' conn :
  (∀ k, ws_user (g k) = ws_user k) → alter g c t !! c' = Some conn →
  ∃ conn0, t !! c' = Some conn0 ∧ ws_user conn = ws_user conn0.
Proof.
  intros Hg [[_ (k & Hk & ->)]|[_ Hk]]%lookup_alter_Some; [exists k|by exists conn].
  by rewrite Hg.
Qed.

Section operations.
Context (r : ConnectionRegistry) (Hok : registry_ok r).

Lemma subscribe_ok c cid conn :
  open_conns r !! c = Some conn → registry_ok (subscribe c cid r).
Proof.
  intros Hc. destruct Hok as (Hs & Ht & [He1 He2] & Hb). split_and!.
  - intros cid' c'. specialize (Hs cid' c'). unfold subscribe, subscribers_of, kept in *. cbn.
    rewrite lookup_partial_alter, lookup_alter.
    repeat case_decide; subst; cbn; rewrite ?Hc in *; cbn in *; set_solver.
  - intros oid c'. specialize (Ht oid c').
    unfold subscribe, delivery_internal_subscribers, delivery_customer_subscribers, kept in *.
    cbn. rewrite lookup_alter. revert Ht. case_decide; [subst|done]. by rewrite Hc.
  - split; [|done]. intros cid' subs. cbn. rewrite lookup_partial_alter.
    case_decide; [|apply He1]. intros [= <-]. set_solver.
  - intros oid c' conn' Hc'. cbn in Hc'. apply user_alter in Hc' as (k & Hk & ->); [|done].
    by apply Hb.
Qed.

Lemma unsubscribe_ok c cid : registry_ok (unsubscribe c cid r).
Proof.
  destruct Hok as (Hs & Ht & [He1 He2] & Hb). split_and!.
  - intros cid' c'. specialize (Hs cid' c'). unfold unsubscribe, subscribers_of, kept in *. cbn.
    rewrite lookup_partial_alter, lookup_alter.
    revert Hs. repeat case_decide; subst; cbn; rewrite ?default_discard;
      destruct (open_conns r !! c'); cbn; set_solver.
  - intros oid c'. specialize (Ht oid c').
    unfold unsubscribe, delivery_internal_subscribers, delivery_customer_subscribers, kept in *.
    cbn. rewrite lookup_alter. revert Ht. case_decide; [subst|done].
    by destruct (open_conns r !! c').
  - split; [|done]. intros cid' subs. cbn. rewrite lookup_partial_alter.
    case_decide; [|apply He1]. apply discard_sub_some.
  - intros oid c' conn' Hc'. cbn in Hc'. apply user_alter in Hc' as (k & Hk & ->); [|done].
    by apply Hb.
Qed.
(** The role under which a user may enter a topic. *)
Definition enters_as (user : User) (role : DeliveryRole) : Prop :=
  match role with
  | role_internal => u_role user ≠ customer
  | role_customer => u_role user = customer
  end.

Lemma subscribe_delivery_ok c oid role conn :
  open_conns r !! c = Some conn → enters_as (ws_user conn) role →
  registry_ok (subscribe_delivery c oid role r).
Proof.
  intros Hc Hrole. destruct Hok as (Hs & Ht & [He1 He2] & Hb). split_and!.
  - intros cid' c'. specialize (Hs cid' c').
    unfold subscribe_delivery, subscribers_of, kept in *. cbn. rewrite lookup_alter.
    revert Hs. case_decide; [subst|done]. by rewrite Hc.
  - intros oid' c'. specialize (Ht oid' c'). revert Ht.
    unfold subscribe_delivery, delivery_internal_subscribers, delivery_customer_subscribers,
      kept. cbn. rewrite lookup_partial_alter, lookup_alter.
    repeat case_decide; subst; cbn; rewrite ?Hc; try destruct (_delivery_subs r !! oid');
      destruct role; cbn; set_solver.
  - split; [done|]. intros oid' t. cbn. rewrite lookup_partial_alter.
    case_decide; [|apply He2]. intros [= <-]. destruct role; cbn; set_solver.
  - intros oid' c' conn' Hc'. cbn in Hc'.
    apply user_alter in Hc' as (k & Hk & ->); [|done].
    specialize (Hb oid' c' k Hk). revert Hb.
    unfold subscribe_delivery, delivery_internal_subscribers, delivery_customer_subscribers.
    cbn. rewrite lookup_partial_alter. case_decide; [subst|done].
    destruct (decide (c' = c)) as [->|].
    + assert (k = conn) as -> by congruence.
      destruct role, (_delivery_subs r !! oid'); cbn in *; set_solver.
    + destruct role, (_delivery_subs r !! oid'); cbn in *; set_solver.
Qed.

Lemma unsubscribe_delivery_ok c oid : registry_ok (unsubscribe_delivery c oid r).
Proof.
  destruct Hok as (Hs & Ht & [He1 He2] & Hb). split_and!.
  - intros cid' c'. specialize (Hs cid' c').
    unfold unsubscribe_delivery, subscribers_of, kept in *. cbn. rewrite lookup_alter.
    revert Hs. case_decide; [subst|done]. by destruct (open_conns r !! c').
  - intros oid' c'. specialize (Ht oid' c'). revert Ht.
    unfold unsubscribe_delivery, delivery_internal_subscribers, delivery_customer_subscribers,
      kept. cbn. rewrite lookup_partial_alter, lookup_alter.
    repeat case_decide; subst; cbn; rewrite ?internal_discard, ?customers_discard;
      destruct (open_conns r !! c'); cbn; set_solver.
  - split; [done|]. intros oid' t. cbn. rewrite lookup_partial_alter.
    case_decide; [|apply He2]. apply discard_topic_some.
  - intros oid' c' conn' Hc'. cbn in Hc'.
    apply user_alter in Hc' as (k & Hk & ->); [|done].
    specialize (Hb oid' c' k Hk). revert Hb.
    unfold unsubscribe_delivery, delivery_internal_subscribers, delivery_customer_subscribers.
    cbn. rewrite lookup_partial_alter. case_decide; [subst|done].
    rewrite internal_discard, customers_discard. set_solver.
Qed.

(** A closed connection is in no bucket. *)
Definition gone (c : conn_id) (r' : ConnectionRegistry) : Prop :=
  open_conns r' !! c = None ∧ (∀ cid, c ∉ subscribers_of cid r') ∧
  ∀ oid, (c ∉ delivery_internal_subscribers oid r') ∧
         (c ∉ delivery_customer_subscribers oid r').

Lemma gone_when_closed c : open_conns r !! c = None → gone c r.
Proof.
  intros Hc. destruct Hok as (Hs & Ht & _ & _).
  assert (∀ f, kept f r c = ∅) as Hk by (intros f; unfold kept; by rewrite Hc).
  split_and!; [done|..].
  - intros cid Hin%Hs. rewrite Hk in Hin. set_solver.
  - intros oid. specialize (Ht oid c). rewrite Hk in Ht. set_solver.
Qed.

(** What disconnecting leaves of a bucket. *)
Lemma disconnect_subs c cid :
  subscribers_of cid (disconnect_all c r) = subscribers_of cid r ∖ {[c]}.
Proof.
  destruct Hok as (Hs & _ & _ & _). specialize (Hs cid c). unfold kept in Hs.
  unfold disconnect_all. destruct (open_conns r !! c) as [conn|] eqn:Hc; [|set_solver].
  unfold subscribers_of in *. cbn in *.
  rewrite foldr_partial_alter by apply discard_sub_idemp.
  case_decide as Hin; [apply default_discard|]. rewrite elem_of_elements in Hin. set_solver.
Qed.

Lemma disconnect_topics c oid :
  delivery_internal_subscribers oid (disconnect_all c r) =
    delivery_internal_subscribers oid r ∖ {[c]} ∧
  delivery_customer_subscribers oid (disconnect_all c r) =
    delivery_customer_subscribers oid r ∖ {[c]}.
Proof.
  destruct Hok as (_ & Ht & _ & _). specialize (Ht oid c). unfold kept in Ht.
  unfold disconnect_all. destruct (open_conns r !! c) as [conn|] eqn:Hc;
    [|cbn in Ht; set_solver].
  unfold delivery_internal_subscribers, delivery_customer_subscribers in *. cbn in *.
  rewrite foldr_partial_alter by apply discard_topic_idemp.
  case_decide as Hin; [by rewrite internal_discard, customers_discard|].
  rewrite elem_of_elements in Hin. set_solver.
Qed.

Lemma disconnect_conns c :
  open_conns (disconnect_all c r) = delete c (open_conns r).
Proof.
  unfold disconnect_all. destruct (open_conns r !! c) eqn:Hc; [done|].
  by rewrite delete_id.
Qed.

Lemma disconnect_all_ok c : registry_ok (disconnect_all c r).
Proof.
  pose proof Hok as (Hs & Ht & [He1 He2] & Hb). split_and!.
  - intros cid c'. specialize (Hs cid c'). revert Hs. unfold kept.
    rewrite disconnect_subs, disconnect_conns, lookup_delete. case_decide; set_solver.
  - intros oid c'. specialize (Ht oid c'). revert Ht. unfold kept.
    destruct (disconnect_topics c oid) as [-> ->].
    rewrite disconnect_conns, lookup_delete. case_decide; set_solver.
  - unfold disconnect_all. destruct (open_conns r !! c) as [conn|]; [|done]. split.
    + intros k subs. cbn. rewrite foldr_partial_alter by apply discard_sub_idemp.
      case_decide; [apply discard_sub_some|apply He1].
    + intros k t. cbn. rewrite foldr_partial_alter by apply discard_topic_idemp.
      case_decide; [apply discard_topic_some|apply He2].
  - intros oid c' conn. rewrite disconnect_conns.
    intros [_ Hc']%lookup_delete_Some. destruct (disconnect_topics c oid) as [-> ->].
    specialize (Hb oid c' conn Hc'). set_solver.
Qed.

Lemma accept_ok c user :
  open_conns r !! c = None →
  registry_ok (r <| open_conns ::= <[c := mkConn user ∅ ∅]> |>).
Proof.
  intros Hc. pose proof (gone_when_closed c Hc) as (_ & Hgs & Hgt).
  destruct Hok as (Hs & Ht & He & Hb). split_and!; [..|done|].
  - intros cid c'. specialize (Hs cid c'). revert Hs. unfold kept, subscribers_of. cbn.
    destruct (decide (c' = c)) as [->|]; [|by rewrite lookup_insert_ne].
    rewrite lookup_insert_eq, Hc. cbn. set_solver.
  - intros oid c'. specialize (Ht oid c'). revert Ht. unfold kept.
    destruct (decide (c' = c)) as [->|]; cbn; [|by rewrite lookup_insert_ne].
    rewrite lookup_insert_eq, Hc. cbn. set_solver.
  - intros oid c' conn. cbn. intros [[<- <-]|[_ Hc']]%lookup_insert_Some.
    + destruct (Hgt oid). split; intros Hin; exfalso; set_solver.
    + by apply Hb.
Qed.
End operations.
