(* ===== verification/GatewayPlatform.v ===== *)
(** * The platform: the database and the gateway

    Its events are handshakes, frames, disconnections, the endpoints that
    broadcast, and any other change of the database that leaves the pairs of the
    conversations alone.  Every event keeps the invariant [platform_ok]. *)

From S2P Require Import Prelude.
From S2P Require Import Exceptions.
From S2P Require Import Models.
From S2P Require Import Session.
From S2P Require Import SessionFacts.
From S2P Require Import CryptoModel.
From S2P Require Import Security.
From S2P Require Import Orders.
From S2P Require Import Fixtures.
From S2P Require Import Messaging.
From S2P Require Import OrderMachine.
From S2P Require Import MessagingProps.
From S2P Require Import DeliveryTracking.
From S2P Require Import Gateway.
From S2P Require Import GatewayFacts.
#[local] Open Scope string_scope.
#[local] Open Scope list_scope.

(** ** The platform *)

Record Platform := mkPlatform { pf_db : DB; pf_gateway : Gateway }.
Definition registry (p : Platform) : ConnectionRegistry := _registry (pf_gateway p).

Inductive PlatformEvent :=
| Connect (c : conn_id) (token : option string)
| ReceiveFrame (c : conn_id) (frame : Frame)
| Disconnected (c : conn_id)
| PostLocation (caller : User) (oid : uuid) (lat lng : float64) (eta dist : option Z)
| DispatchOrder (caller : User) (oid : uuid)
| DeliverOrder (caller : User) (oid : uuid)
| SendMessage (caller : User) (cid : uuid) (ct nonce epk : list Z) (key : option uuid)
| ReadMessage (caller : User) (cid mid : uuid).

Section platform.
Context `{Crypto} (settings : Settings).

(** An endpoint of the API next to the gateway. *)
Definition rest (run : DB → Gateway → DB * Gateway) (p : Platform) : Platform :=
  let '(d, g) := run (pf_db p) (pf_gateway p) in mkPlatform d g.

Definition on_gateway (f : Gateway → Gateway) (p : Platform) : Platform :=
  mkPlatform (pf_db p) (f (pf_gateway p)).

(** A new connection object has an identity of its own. *)
Definition platform_handle (env : Env) (ev : PlatformEvent) (p : Platform) : Platform :=
  match ev with
  | Connect c token =>
      match open_conns (registry p) !! c,
            in_session (_authenticate settings token) env (pf_db p) with
      | None, Ok (Some user) => on_gateway (ws_accept c user) p
      | _, _ => p
      end
  | ReceiveFrame c frame =>
      match open_conns (registry p) !! c with
      | Some conn => on_gateway (ws_turn env (pf_db p) c (ws_user conn) frame) p
      | None => p
      end
  | Disconnected c => on_gateway (λ g, g <| _registry ::= disconnect_all c |>) p
  | PostLocation caller oid lat lng eta dist =>
      rest (location_endpoint caller oid lat lng eta dist env) p
  | DispatchOrder caller oid => rest (out_for_delivery_endpoint caller oid env) p
  | DeliverOrder caller oid => rest (delivered_endpoint caller oid env) p
  | SendMessage caller cid ct nonce epk key =>
      rest (send_message_endpoint caller cid ct nonce epk key env) p
  | ReadMessage caller cid mid => rest (mark_read_endpoint caller cid mid env) p
  end.

(** Conversations stay and keep their two participants. *)
Definition keeps_pairs (d d' : DB) : Prop :=
  ∀ k conv, conversations d !! k = Some conv →
    ∃ conv', conversations d' !! k = Some conv' ∧
      c_user_a_id conv' = c_user_a_id conv ∧ c_user_b_id conv' = c_user_b_id conv.

Inductive platform_step (p : Platform) : Platform → Prop :=
| step_event env ev : platform_step p (platform_handle env ev p)
| step_other d' :
    keeps_pairs (pf_db p) d' → keyed (R:=Conversation) d' →
    platform_step p (mkPlatform d' (pf_gateway p)).

Definition started (p : Platform) : Prop :=
  keyed (R:=Conversation) (pf_db p) ∧ pf_gateway p = mkGateway empty_registry [].
Definition platform_reachable (p : Platform) : Prop :=
  ∃ p0, started p0 ∧ rtc platform_step p0 p.
End platform.

(** ** What an event discloses *)

(** The values a key has anywhere in the JSON text. *)
Fixpoint found_in (key : string) (v : value) : list value :=
  match v with
  | VObject fields =>
      flat_map (λ kv, (if decide (kv.1 = key) then [kv.2] else []) ++ found_in key kv.2) fields
  | _ => []
  end.
Definition found (key : string) (ev : event) : list value := found_in key (VObject ev).

Definition has_coordinates (ev : event) : Prop := found "lat" ev ≠ [] ∨ found "lng" ev ≠ [].
Definition about_conversation (cid : uuid) (ev : event) : Prop :=
  VId cid ∈ found "conversation_id" ev.

(** The user may use this conversation. *)
Definition allowed (d : DB) (cid : uuid) (user : User) : Prop :=
  ∃ conv, conversations d !! cid = Some conv ∧
    (u_role user = admin ∨ participant user conv).

Lemma allowed_mono d d' cid user : keeps_pairs d d' → allowed d cid user → allowed d' cid user.
Proof.
  intros Hk (conv & Hc & Ha). destruct (Hk _ _ Hc) as (conv' & Hc' & E1 & E2).
  exists conv'. unfold participant in *. by rewrite E1, E2.
Qed.

(** What may be sent to a user. *)
Definition may_receive (d : DB) (s : Sent) : Prop :=
  (has_coordinates (sent_event s) → u_role (to_user s) ≠ customer) ∧
  ∀ cid, about_conversation cid (sent_event s) → allowed d cid (to_user s).

Definition subscribers_allowed (d : DB) (r : ConnectionRegistry) : Prop :=
  ∀ cid c conn, c ∈ subscribers_of cid r → open_conns r !! c = Some conn →
    allowed d cid (ws_user conn).

(** The invariant of the platform. *)
Definition gateway_ok (d : DB) (g : Gateway) : Prop :=
  registry_ok (_registry g) ∧ subscribers_allowed d (_registry g) ∧
  Forall (may_receive d) (outbox g).
Definition platform_ok (p : Platform) : Prop :=
  keyed (R:=Conversation) (pf_db p) ∧ gateway_ok (pf_db p) (pf_gateway p).

Lemma gateway_ok_mono d d' g : keeps_pairs d d' → gateway_ok d g → gateway_ok d' g.
Proof.
  intros Hk (Hr & Hs & Ho). split_and!; [done|..].
  - intros cid c conn Hc Hconn. eapply allowed_mono, Hs; eauto.
  - eapply Forall_impl; [exact Ho|]. intros s [Hco Hcid]. split; [done|].
    intros cid Hcar. eapply allowed_mono, Hcid; eauto.
Qed.

(** ** Sending *)

Lemma send_text_registry c ev g : _registry (send_text c ev g) = _registry g.
Proof. unfold send_text. by destruct (open_conns _ !! c). Qed.
Lemma send_each_registry cs ev g : _registry (send_each cs ev g) = _registry g.
Proof.
  unfold send_each. revert g. induction cs as [|c cs IH]; intros g; cbn; [done|].
  by rewrite IH, send_text_registry.
Qed.

(** What a broadcast adds to the log: one event for each open connection. *)
Definition deliveries_to (r : ConnectionRegistry) (cs : list conn_id) (ev : event) : list Sent :=
  omap (λ c, (λ conn, mkSent c (ws_user conn) ev) <$> open_conns r !! c) cs.

Lemma send_each_outbox cs ev g :
  outbox (send_each cs ev g) = outbox g ++ deliveries_to (_registry g) cs ev.
Proof.
  unfold send_each, deliveries_to. revert g.
  induction cs as [|c cs IH]; intros g; cbn; [by rewrite app_nil_r|].
  rewrite IH, send_text_registry. unfold send_text.
  destruct (open_conns (_registry g) !! c); cbn; [by rewrite <- app_assoc|done].
Qed.

Lemma send_each_ok d cs ev g :
  gateway_ok d g →
  (∀ c conn, c ∈ cs → open_conns (_registry g) !! c = Some conn →
    may_receive d (mkSent c (ws_user conn) ev)) →
  gateway_ok d (send_each cs ev g).
Proof.
  intros (Hr & Hs & Ho) Hm. split_and!; rewrite ?send_each_registry; [done..|].
  rewrite send_each_outbox. apply Forall_app. split; [done|].
  apply Forall_forall. intros s Hin. apply list_elem_of_omap in Hin as (c & Hc & E).
  apply fmap_Some in E as (conn & Hconn & ->). by apply Hm.
Qed.

Lemma send_text_ok d c ev g :
  gateway_ok d g →
  (∀ conn, open_conns (_registry g) !! c = Some conn →
    may_receive d (mkSent c (ws_user conn) ev)) →
  gateway_ok d (send_text c ev g).
Proof.
  intros Hg Hm. apply (send_each_ok d [c] ev g Hg).
  intros c' conn ->%list_elem_of_singleton. apply Hm.
Qed.

(** An event without coordinates and outside the conversations. *)
Definition plain (ev : event) : Prop :=
  found "lat" ev = [] ∧ found "lng" ev = [] ∧ found "conversation_id" ev = [].
Lemma plain_received d c user ev : plain ev → may_receive d (mkSent c user ev).
Proof.
  intros (H1 & H2 & H3). split; cbn.
  - by intros [?|?].
  - unfold about_conversation. rewrite H3. intros cid Hin. by apply not_elem_of_nil in Hin.
Qed.

Lemma error_plain e : plain (error_event e).
Proof. done. Qed.
Lemma eta_plain dlv : plain (eta_event dlv).
Proof. unfold eta_event. destruct (d_current_eta_seconds dlv), (d_current_eta_updated_at dlv); done. Qed.
Lemma status_plain oid st t1 t2 : plain (status_event oid st t1 t2).
Proof. by destruct t1, t2. Qed.

Lemma location_no_conversation dlv :
  found "conversation_id" (internal_location_event dlv) = [].
Proof.
  unfold internal_location_event.
  by destruct (d_current_lat dlv), (d_current_lng dlv), (d_last_location_at dlv),
    (d_driver_id dlv).
Qed.

(** An event of one conversation, without coordinates. *)
Definition of_conversation (cid : uuid) (ev : event) : Prop :=
  found "lat" ev = [] ∧ found "lng" ev = [] ∧ ∀ v, v ∈ found "conversation_id" ev → v = VId cid.
Lemma conversation_received d c user cid ev :
  of_conversation cid ev → allowed d cid user → may_receive d (mkSent c user ev).
Proof.
  intros (H1 & H2 & H3) Ha. split; cbn.
  - by intros [?|?].
  - intros cid' Hin%H3. by injection Hin as ->.
Qed.

Lemma message_of_conversation kind cid m :
  mr_conversation_id m = cid → of_conversation cid (message_event kind cid m).
Proof.
  intros <-. destruct m as [? ? ? ? ? ? [] ? []]; (split_and!; [done..|]); cbn;
    intros v Hin; set_solver.
Qed.
Lemma typing_of_conversation cid state user :
  of_conversation cid (typing_event cid state user).
Proof. split_and!; [done..|]. cbn. intros v Hin. set_solver. Qed.
Lemma subscribed_of_conversation cid :
  of_conversation cid [("type", VText "subscribed"); ("conversation_id", VId cid)].
Proof. split_and!; [done..|]. cbn. intros v Hin. set_solver. Qed.

(** ** Changes of the registry *)

(** Fewer subscriptions of the same users. *)
Lemma subscribers_allowed_sub d r r' :
  subscribers_allowed d r →
  (∀ cid c conn', c ∈ subscribers_of cid r' → open_conns r' !! c = Some conn' →
    c ∈ subscribers_of cid r ∧
    ∃ conn, open_conns r !! c = Some conn ∧ ws_user conn' = ws_user conn) →
  subscribers_allowed d r'.
Proof.
  intros Hs Hsub cid c conn' Hc Hconn.
  destruct (Hsub cid c conn' Hc Hconn) as (Hin & conn & Ho & ->). by eapply Hs.
Qed.

Lemma registry_step d g r' :
  gateway_ok d g → registry_ok r' → subscribers_allowed d r' →
  gateway_ok d (g <| _registry := r' |>).
Proof. by intros (_ & _ & Ho) Hr Hs. Qed.

Section registry_changes.
Context (d : DB) (g : Gateway) (Hg : gateway_ok d g).
Abbreviation r := (_registry g).

Lemma subscribe_step c cid conn :
  open_conns r !! c = Some conn → allowed d cid (ws_user conn) →
  gateway_ok d (g <| _registry ::= subscribe c cid |>).
Proof.
  intros Hc Ha. pose proof Hg as (Hr & Hs & _).
  apply registry_step; [done|by eapply subscribe_ok|].
  intros cid' c' conn' Hin Hc'. cbn in Hc'. apply user_alter in Hc' as (k & Hk & ->); [|done].
  revert Hin. unfold subscribe, subscribers_of. cbn. rewrite lookup_partial_alter.
  case_decide as E; [subst cid'|by intros Hin; eapply Hs].
  cbn. rewrite elem_of_union, elem_of_singleton. intros [->|Hin]; [|by eapply Hs].
  by assert (k = conn) as -> by congruence.
Qed.

Lemma unsubscribe_step c cid : gateway_ok d (g <| _registry ::= unsubscribe c cid |>).
Proof.
  pose proof Hg as (Hr & Hs & _). apply registry_step; [done|exact (unsubscribe_ok _ Hr c cid)|].
  eapply subscribers_allowed_sub; [exact Hs|]. intros cid' c' conn' Hin Hc'. split.
  - revert Hin. unfold unsubscribe, subscribers_of. cbn. rewrite lookup_partial_alter.
    case_decide; [subst|done]. rewrite default_discard. set_solver.
  - cbn in Hc'. by refine (user_alter _ _ _ _ _ _ Hc').
Qed.

Lemma subscribe_delivery_step c oid role conn :
  open_conns r !! c = Some conn → enters_as (ws_user conn) role →
  gateway_ok d (g <| _registry ::= subscribe_delivery c oid role |>).
Proof.
  intros Hc Ha. pose proof Hg as (Hr & Hs & _).
  apply registry_step; [done|by eapply subscribe_delivery_ok|].
  eapply subscribers_allowed_sub; [exact Hs|]. intros cid' c' conn' Hin Hc'.
  split; [done|]. cbn in Hc'. by refine (user_alter _ _ _ _ _ _ Hc').
Qed.

Lemma unsubscribe_delivery_step c oid :
  gateway_ok d (g <| _registry ::= unsubscribe_delivery c oid |>).
Proof.
  pose proof Hg as (Hr & Hs & _).
  apply registry_step; [done|exact (unsubscribe_delivery_ok _ Hr c oid)|].
  eapply subscribers_allowed_sub; [exact Hs|]. intros cid' c' conn' Hin Hc'.
  split; [done|]. cbn in Hc'. by refine (user_alter _ _ _ _ _ _ Hc').
Qed.

Lemma disconnect_step c : gateway_ok d (g <| _registry ::= disconnect_all c |>).
Proof.
  pose proof Hg as (Hr & Hs & _). apply registry_step; [done|exact (disconnect_all_ok _ Hr c)|].
  eapply subscribers_allowed_sub; [exact Hs|]. intros cid c' conn' Hin Hc'.
  cbn in Hin, Hc'. rewrite disconnect_subs in Hin by done. rewrite disconnect_conns in Hc'.
  apply lookup_delete_Some in Hc' as [_ Hc']. split; [set_solver|by exists conn'].
Qed.

Lemma accept_step c user :
  open_conns r !! c = None → gateway_ok d (ws_accept c user g).
Proof.
  intros Hc. pose proof Hg as (Hr & Hs & _).
  apply registry_step; [done|by apply accept_ok|].
  eapply subscribers_allowed_sub; [exact Hs|]. intros cid c' conn' Hin Hc'.
  split; [done|]. cbn in Hc'. apply lookup_insert_Some in Hc' as [[<- _]|[_ Hc']].
  - by destruct (gone_when_closed _ Hr c Hc) as (_ & Hno & _); destruct (Hno cid).
  - by exists conn'.
Qed.
End registry_changes.

(** ** What the handlers check *)

Lemma is_participant_true env d cid user :
  in_session (_is_participant cid user) env d = Ok true → allowed d cid user.
Proof.
  unfold in_session, _is_participant, mbind, M_bind. cbn.
  destruct (conversations d !! cid) as [conv|] eqn:Hc; [|done].
  intros [= [Ha|Ha]%orb_prop]; exists conv; (split; [done|]);
    apply bool_decide_eq_true_1 in Ha; [by left|right].
  unfold participant. set_solver.
Qed.

Lemma resolve_role_entry env s s' user order role :
  resolve_role user order env s = (Ok role, s') →
  (role = tr_customer → u_role user = customer) ∧
  (is_internal_role role = true → u_role user ≠ customer).
Proof.
  unfold resolve_role. intros H.
  repeat (case_decide; [inv_run; split; [done|]; by intros|]).
  repeat first [case_decide | inv_run_step; subst
    | match type of H with (match ?x with _ => _ end) _ _ = _ => destruct x end];
    split; try done; intros; intuition congruence.
Qed.

Lemma delivery_role_entry env d oid user role :
  in_session (_resolve_delivery_role oid user) env d = Ok (Some role) →
  enters_as user role.
Proof.
  unfold in_session. intros H.
  destruct (_resolve_delivery_role oid user env (open_session d)) as [o s'] eqn:E.
  cbn in H. subst o. unfold _resolve_delivery_role, load_order in E. inv_run.
  match type of E with (match ?x with _ => _ end) _ _ = _ => destruct x as [o|] end;
    inv_run; [|done].
  match goal with H : resolve_role _ _ _ _ = _ |- _ => apply resolve_role_entry in H as [Hcu Hin] end.
  match goal with x : TrackingRole |- _ => destruct x end; simplify_eq; cbn; auto.
Qed.

(** ** One frame *)

Section frames.
Context (env : Env) (d : DB) (c : conn_id) (conn : WSConnection) (g : Gateway).
Context (Hg : gateway_ok d g) (Hc : open_conns (_registry g) !! c = Some conn).
Abbreviation user := (ws_user conn).

Lemma reply_ok ev : plain ev → gateway_ok d (send_text c ev g).
Proof. intros Hp. apply send_text_ok; [done|]. intros. by apply plain_received. Qed.

Lemma open_after_subscribe cid :
  ws_user <$> open_conns (subscribe c cid (_registry g)) !! c = Some user.
Proof. cbn. by rewrite lookup_alter_eq, Hc. Qed.

Lemma subscribe_conversation_ok cid :
  allowed d cid user →
  gateway_ok d (send_text c [("type", VText "subscribed"); ("conversation_id", VId cid)]
    (g <| _registry ::= subscribe c cid |>)).
Proof.
  intros Ha. apply send_text_ok; [by eapply subscribe_step|].
  intros conn' Hc'. apply (conversation_received _ _ _ cid); [apply subscribed_of_conversation|].
  pose proof (open_after_subscribe cid) as Hu. cbn in Hc', Hu. rewrite Hc' in Hu.
  by injection Hu as ->.
Qed.

Lemma subscribe_topic_ok oid role :
  enters_as user role →
  gateway_ok d (send_text c [("type", VText "delivery.subscribed"); ("order_id", VId oid)]
    (g <| _registry ::= subscribe_delivery c oid role |>)).
Proof.
  intros Hr. apply send_text_ok; [by eapply subscribe_delivery_step|].
  intros. by apply plain_received.
Qed.

Lemma on_subscribe_ok fs : gateway_ok d (on_subscribe env d c user fs g).1.
Proof.
  unfold on_subscribe.
  destruct (field fs "delivery_order_id") as [|t|b]; cbn [fst];
    [destruct (falsy _); [by apply reply_ok|]|..];
    destruct (parse_id _) as [i| |]; cbn [fst]; try by apply reply_ok.
  all: try exact Hg.
  - destruct (in_session _ env d) as [[]|] eqn:Hp; try exact Hg.
    by eapply subscribe_conversation_ok, is_participant_true.
  - destruct (in_session _ env d) as [[role|]|] eqn:Hp; try exact Hg.
    by eapply subscribe_topic_ok, delivery_role_entry.
  - destruct (in_session _ env d) as [[role|]|] eqn:Hp; try exact Hg.
    by eapply subscribe_topic_ok, delivery_role_entry.
Qed.

Lemma on_unsubscribe_ok fs : gateway_ok d (on_unsubscribe c fs g).1.
Proof.
  unfold on_unsubscribe.
  destruct (field fs "delivery_order_id") as [|t|b]; [destruct (falsy _); [exact Hg|]|..];
    (destruct (parse_id _) as [i| |]; cbn [fst]; [|exact Hg|exact Hg]).
  - exact (unsubscribe_step d g Hg c i).
  - exact (unsubscribe_delivery_step d g Hg c i).
  - exact (unsubscribe_delivery_step d g Hg c i).
Qed.

Lemma on_typing_ok fs : gateway_ok d (on_typing c user fs g).1.
Proof.
  unfold on_typing. repeat case_match; cbn; try done.
  apply send_each_ok; [done|]. intros c' conn' Hin Hc'.
  eapply conversation_received; [apply typing_of_conversation|].
  unfold others in Hin. apply list_elem_of_filter in Hin as [_ Hin].
  rewrite elem_of_elements in Hin. pose proof Hg as (_ & Hs & _). by eapply Hs.
Qed.

Lemma handle_frame_ok frame : gateway_ok d (handle_frame env d c user frame g).1.
Proof.
  destruct frame as [| |fs]; cbn; [by apply reply_ok|done|].
  pose proof (reply_ok (error_event "unknown_type") (error_plain _)) as Hu.
  destruct (field fs "type") as [|t|]; [done| |done].
  pose proof (reply_ok [("type", VText "pong")] ltac:(done)) as Hp.
  pose proof (on_subscribe_ok fs). pose proof (on_unsubscribe_ok fs). pose proof (on_typing_ok fs).
  repeat case_match; done.
Qed.

Lemma ws_turn_ok frame : gateway_ok d (ws_turn env d c user frame g).
Proof.
  unfold ws_turn. pose proof (handle_frame_ok frame) as Hf.
  destruct (handle_frame env d c user frame g) as [g' []]; [done|..]; by apply disconnect_step.
Qed.
End frames.

(** ** The endpoints *)

Lemma endpoint_cases {A} (m : M A) b env d g d' g' :
  endpoint m b env d g = (d', g') → stable same_committed m →
  (∃ a s', m env (open_session d) = (Ok a, s') ∧ d' = working s' ∧ g' = b a g) ∨
  (d' = d ∧ g' = g).
Proof.
  unfold endpoint. intros H Hst. destruct (get_db m env d) as [[a|e] d1] eqn:E; simplify_eq.
  - left. apply get_db_Ok in E as (s' & E & ->). by exists a, s'.
  - right. split; [|done]. by eapply get_db_atomic.
Qed.

(** An endpoint whose handler keeps the conversations and whose broadcast is
    allowed keeps the invariant. *)
Lemma endpoint_ok {A} (m : M A) b env d g d' g' :
  keyed (R:=Conversation) d → gateway_ok d g →
  endpoint m b env d g = (d', g') → stable same_committed m →
  (∀ a s', m env (open_session d) = (Ok a, s') →
    keeps_pairs d (working s') ∧ keyed (R:=Conversation) (working s') ∧
    (gateway_ok (working s') g → gateway_ok (working s') (b a g))) →
  keyed (R:=Conversation) d' ∧ gateway_ok d' g'.
Proof.
  intros Hk Hg H Hst Hm.
  destruct (endpoint_cases _ _ _ _ _ _ _ H Hst) as [(a & s' & Hrun & -> & ->)|[-> ->]];
    [|done].
  destruct (Hm _ _ Hrun) as (Hp & Hk' & Hb). split; [done|].
  by apply Hb, (gateway_ok_mono d).
Qed.

Lemma same_conversations {A} (m : M A) env d a s' :
  stable (same_table Conversation) m → keyed (R:=Conversation) d →
  m env (open_session d) = (Ok a, s') →
  keeps_pairs d (working s') ∧ keyed (R:=Conversation) (working s').
Proof.
  intros Hst Hk Hrun. apply Hst in Hrun. unfold same_table in Hrun. cbn in Hrun.
  split; [|unfold keyed; cbn; by rewrite Hrun].
  intros k conv Hc. exists conv. by rewrite Hrun.
Qed.

Lemma broadcast_all_ok d oid ev g :
  gateway_ok d g → plain ev → gateway_ok d (broadcast_delivery_event_all oid ev g).
Proof.
  intros Hg Hp. unfold broadcast_delivery_event_all.
  apply send_each_ok; [apply send_each_ok; [done|]|]; intros; by apply plain_received.
Qed.

Lemma broadcast_internal_ok d oid ev g :
  gateway_ok d g → found "conversation_id" ev = [] →
  gateway_ok d (broadcast_delivery_location_internal oid ev g).
Proof.
  intros Hg Hp. apply send_each_ok; [done|]. intros c conn Hin Hc.
  rewrite elem_of_elements in Hin. pose proof Hg as ((_ & _ & _ & Hb) & _ & _).
  split; cbn; [intros _; by eapply Hb|].
  unfold about_conversation. rewrite Hp. intros cid Hno. by apply not_elem_of_nil in Hno.
Qed.

Lemma broadcast_conversation_ok d cid ev g :
  gateway_ok d g → of_conversation cid ev → gateway_ok d (_broadcast_event cid ev g).
Proof.
  intros Hg Hp. apply send_each_ok; [done|]. intros c conn Hin Hc.
  rewrite elem_of_elements in Hin. pose proof Hg as (_ & Hs & _).
  eapply conversation_received; [done|]. by eapply Hs.
Qed.

Lemma store_message_pairs env s s' caller cid ct n epk key m :
  keyed (R:=Conversation) (working s) →
  store_message caller cid ct n epk key env s = (Ok m, s') →
  keeps_pairs (working s) (working s') ∧ keyed (R:=Conversation) (working s').
Proof.
  intros Hk. unfold store_message. intros H. inv_run.
  match goal with H : _load_conversation_for_caller _ _ _ _ = _ |- _ =>
    apply load_conversation_Ok in H as (-> & Hc & _) end.
  pose proof (Hk _ _ Hc) as Hid. cbn in Hid. split; [intros k conv Hconv|intros k conv];
    cbn; rewrite lookup_insert; case_decide as Hkc; subst.
  - eexists. split; [done|]. cbn. rewrite Hc in Hconv. by injection Hconv as ->.
  - by exists conv.
  - by intros [= <-].
  - by apply Hk.
Qed.

Lemma tracking_stable caller oid lat lng eta dist :
  stable same_committed (post_location caller oid lat lng eta dist) ∧
  stable (same_table Conversation) (post_location caller oid lat lng eta dist).
Proof. unfold post_location, resolve_role, load_order, load_delivery; split; stable_tac. Qed.

Lemma dispatch_stable caller oid :
  stable same_committed (Orders.out_for_delivery caller oid) ∧
  stable (same_table Conversation) (Orders.out_for_delivery caller oid).
Proof. split; stable_call. Qed.
Lemma deliver_stable caller oid :
  stable same_committed (mark_delivered caller oid) ∧
  stable (same_table Conversation) (mark_delivered caller oid).
Proof. split; stable_call. Qed.
Lemma store_stable caller cid ct nonce epk key :
  stable same_committed (store_message caller cid ct nonce epk key).
Proof. stable_messaging. Qed.
Lemma read_stable caller cid mid :
  stable same_committed (mark_message_read caller cid mid) ∧
  stable (same_table Conversation) (mark_message_read caller cid mid).
Proof. split; stable_messaging. Qed.

(** ** The platform keeps its invariant *)

Section platform_invariant.
Context `{Crypto} (settings : Settings).

Lemma rest_ok p d g run :
  run (pf_db p) (pf_gateway p) = (d, g) →
  keyed (R:=Conversation) d ∧ gateway_ok d g → platform_ok (rest run p).
Proof. intros E Hok. unfold rest. by rewrite E. Qed.

Lemma platform_handle_ok env ev p :
  platform_ok p → platform_ok (platform_handle settings env ev p).
Proof.
  destruct p as [d g]. intros [Hk Hg]. cbn in Hk, Hg. destruct ev; cbn [platform_handle].
  - destruct (open_conns _ !! c) eqn:Hc; [done|].
    destruct (in_session _ env _) as [[user|]|]; [|done..].
    split; [done|]. by apply accept_step.
  - destruct (open_conns _ !! c) as [conn|] eqn:Hc; [|done].
    split; [done|]. by apply ws_turn_ok.
  - split; [done|]. by apply disconnect_step.
  - destruct (location_endpoint caller oid lat lng eta dist env d g) as [d' g'] eqn:E.
    eapply rest_ok; [exact E|]. eapply endpoint_ok in E; [exact E|done..|apply tracking_stable|].
    intros [o dlv] s' Hrun.
    pose proof (same_conversations _ _ _ _ _ (proj2 (tracking_stable _ _ _ _ _ _)) Hk Hrun) as [Hp Hk'].
    split_and!; [done..|].
    intros Hg'. pose proof (location_no_conversation dlv) as Hno.
    destruct eta; [|by apply broadcast_internal_ok].
    apply broadcast_all_ok; [by apply broadcast_internal_ok|apply eta_plain].
  - destruct (out_for_delivery_endpoint caller oid env d g) as [d' g'] eqn:E.
    eapply rest_ok; [exact E|]. eapply endpoint_ok in E; [exact E|done..|apply dispatch_stable|].
    intros lo s' Hrun.
    pose proof (same_conversations _ _ _ _ _ (proj2 (dispatch_stable _ _)) Hk Hrun) as [Hp Hk'].
    split_and!; [done..|].
    intros Hg'. apply broadcast_all_ok; [done|apply status_plain].
  - destruct (delivered_endpoint caller oid env d g) as [d' g'] eqn:E.
    eapply rest_ok; [exact E|]. eapply endpoint_ok in E; [exact E|done..|apply deliver_stable|].
    intros lo s' Hrun.
    pose proof (same_conversations _ _ _ _ _ (proj2 (deliver_stable _ _)) Hk Hrun) as [Hp Hk'].
    split_and!; [done..|].
    intros Hg'. apply broadcast_all_ok; [done|apply status_plain].
  - destruct (send_message_endpoint caller cid ct nonce epk key env d g) as [d' g'] eqn:E.
    eapply rest_ok; [exact E|]. eapply endpoint_ok in E; [exact E|done..|apply store_stable|].
    intros m s' Hrun. destruct (store_message_pairs env (open_session d) _ _ _ _ _ _ _ _ Hk Hrun) as [Hp Hk'].
    split_and!; [done..|]. intros Hg'. apply broadcast_conversation_ok; [done|].
    apply message_of_conversation. by apply store_message_Ok in Hrun as (_ & Hcid & _).
  - destruct (mark_read_endpoint caller cid mid env d g) as [d' g'] eqn:E.
    eapply rest_ok; [exact E|]. eapply endpoint_ok in E; [exact E|done..|apply read_stable|].
    intros m s' Hrun.
    pose proof (same_conversations _ _ _ _ _ (proj2 (read_stable _ _ _)) Hk Hrun) as [Hp Hk'].
    split_and!; [done..|].
    intros Hg'. apply broadcast_conversation_ok; [done|]. apply message_of_conversation.
    apply mark_read_Ok in Hrun
      as (_ & m0 & _ & _ & Hcid & _ & _ & [(_ & -> & _)|(_ & t & -> & _)]); done.
Qed.

Lemma started_ok p : started p → platform_ok p.
Proof.
  intros [Hk Hg]. split; [done|]. rewrite Hg.
  split_and!; [apply empty_registry_ok| |constructor].
  intros cid c conn Hin. unfold subscribers_of in Hin. cbn in Hin.
  rewrite lookup_empty in Hin. cbn in Hin. set_solver.
Qed.

Lemma platform_step_ok p p' : platform_step settings p p' → platform_ok p → platform_ok p'.
Proof.
  intros [env ev|d' Hp Hk']; [apply platform_handle_ok|].
  intros [_ Hg]. split; [done|]. by apply (gateway_ok_mono (pf_db p)).
Qed.

Lemma platform_reachable_ok p : platform_reachable settings p → platform_ok p.
Proof.
  intros (p0 & Hs%started_ok & Hrtc).
  induction Hrtc; [done|]. eauto using platform_step_ok.
Qed.
End platform_invariant.
