(* ===== verification/GatewayProps.v ===== *)
(** * Correctness of the WebSocket gateway

    Who receives what: coordinates, conversations, location updates; and the
    consistency of the registry in every reachable state of the platform. *)

From S2P Require Import Prelude.
From S2P Require Import Exceptions.
From S2P Require Import Models.
From S2P Require Import Session.
From S2P Require Import SessionFacts.
From S2P Require Import CryptoModel.
From S2P Require Import Security.
From S2P Require Import Orders.
From S2P Require Import Fixtures.
From S2P Require Import Messaging.
From S2P Require Import OrderMachine.
From S2P Require Import MessagingProps.
From S2P Require Import DeliveryTracking.
From S2P Require Import Gateway.
From S2P Require Import GatewayFacts.
From S2P Require Import GatewayPlatform.
#[local] Open Scope string_scope.
#[local] Open Scope list_scope.

(** ** What the clients see *)

(** C27: whatever clients send and whichever
    requests run, in every reachable state of the platform no frame ever sent
    to the connection of a customer carries the coordinates of a driver,
    neither at the top of the event nor nested in it. *)
Theorem coordinates_never_reach_customers `{Crypto} settings p s :
  platform_reachable settings p → s ∈ outbox (pf_gateway p) →
  u_role (to_user s) = customer → ¬ has_coordinates (sent_event s).
Proof.
  intros (_ & _ & _ & Ho)%platform_reachable_ok Hin Hr Hco.
  rewrite Forall_forall in Ho. by destruct (Ho s Hin) as [Hs _]; apply Hs.
Qed.

(** C28: a frame about a conversation, be it a
    message, a read receipt, a typing notice or the confirmation of a
    subscription, has only ever been sent to the connections of the
    participants of that conversation and of admins. *)
Theorem conversation_events_stay_private `{Crypto} settings p s cid :
  platform_reachable settings p → s ∈ outbox (pf_gateway p) →
  about_conversation cid (sent_event s) →
  ∃ conv, conversations (pf_db p) !! cid = Some conv ∧
    (u_role (to_user s) = admin ∨ participant (to_user s) conv).
Proof.
  intros (_ & _ & _ & Ho)%platform_reachable_ok Hin.
  rewrite Forall_forall in Ho. by destruct (Ho s Hin) as [_ Hs]; apply Hs.
Qed.

(** C29: in every reachable state a connection is in
    the bucket of a topic exactly when the topic is among its own
    subscriptions, no empty bucket is kept, customers and staff never share a
    bucket, and a connection that is closed is in no bucket at all, so that
    nothing is sent to it any more. *)
Theorem registry_stays_consistent `{Crypto} settings p :
  platform_reachable settings p →
  let r := registry p in
  subs_mirror r ∧ topics_mirror r ∧ no_empty_bucket r ∧ buckets_by_role r ∧
  (∀ c, open_conns r !! c = None → gone c r) ∧
  ∀ env c, gone c (registry (platform_handle settings env (Disconnected c) p)).
Proof.
  intros (_ & Hr & _ & _)%platform_reachable_ok. cbn zeta. unfold registry. pose proof Hr as (H1 & H2 & H3 & H4).
  refine (conj H1 (conj H2 (conj H3 (conj H4 (conj (gone_when_closed _ Hr) _))))).
  intros env c. apply gone_when_closed; [by apply disconnect_all_ok|].
  cbn. rewrite disconnect_conns. apply lookup_delete_eq.
Qed.

(** All members of a bucket are open connections. *)
Lemma bucket_open f r (cs : gset conn_id) k :
  (∀ c, c ∈ cs → k ∈ kept f r c) → ∀ c, c ∈ elements cs → is_Some (open_conns r !! c).
Proof.
  intros Hm c Hc%elem_of_elements%Hm. unfold kept in Hc.
  destruct (open_conns r !! c); [by eexists|]. cbn in Hc. set_solver.
Qed.

Lemma deliveries_to_all r cs ev :
  (∀ c, c ∈ cs → is_Some (open_conns r !! c)) →
  to_conn <$> deliveries_to r cs ev = cs ∧ Forall (λ s, sent_event s = ev) (deliveries_to r cs ev).
Proof.
  unfold deliveries_to. induction cs as [|c cs IH]; intros Ho; cbn; [done|].
  destruct (Ho c) as [conn Hc]; [left|]. rewrite Hc. cbn.
  destruct IH as [IH1 IH2]; [intros; apply Ho; by right|].
  split; [by rewrite IH1|by constructor].
Qed.

(** C30: a location update that is accepted
    reaches every staff connection that tracks the order, once and in the same
    event; when it brings a new ETA, that alone goes to every connection
    tracking the order, the customers' included; and nothing else is sent. *)
Theorem location_updates_are_broadcast `{Crypto} settings p env caller oid lat lng eta dist
    order dlv d' :
  platform_reachable settings p →
  get_db (post_location caller oid lat lng eta dist) env (pf_db p) = (Ok (order, dlv), d') →
  ∃ locs etas,
    outbox (pf_gateway (platform_handle settings env
      (PostLocation caller oid lat lng eta dist) p)) = outbox (pf_gateway p) ++ locs ++ etas ∧
    to_conn <$> locs = elements (delivery_internal_subscribers (o_id order) (registry p)) ∧
    Forall (λ s, sent_event s = internal_location_event dlv) locs ∧
    Forall (λ s, sent_event s = eta_event dlv) etas ∧
    to_conn <$> etas = match eta with
      | Some _ => elements (delivery_internal_subscribers (o_id order) (registry p)) ++
                  elements (delivery_customer_subscribers (o_id order) (registry p))
      | None => []
      end.
Proof.
  intros (_ & (_ & Ht & _) & _)%platform_reachable_ok Hrun.
  destruct p as [d g]. unfold registry in *. cbn in *.
  unfold rest, location_endpoint, endpoint. cbn. rewrite Hrun.
  set (r := _registry g) in *. set (oid' := o_id order) in *.
  set (li := elements (delivery_internal_subscribers oid' r)).
  set (lc := elements (delivery_customer_subscribers oid' r)).
  assert (∀ ev, to_conn <$> deliveries_to r li ev = li ∧
    Forall (λ s, sent_event s = ev) (deliveries_to r li ev)) as Hli.
  { intros ev. apply deliveries_to_all, (bucket_open ws_delivery_orders _ _ oid').
    intros c Hc. apply Ht. set_solver. }
  assert (∀ ev, to_conn <$> deliveries_to r lc ev = lc ∧
    Forall (λ s, sent_event s = ev) (deliveries_to r lc ev)) as Hlc.
  { intros ev. apply deliveries_to_all, (bucket_open ws_delivery_orders _ _ oid').
    intros c Hc. apply Ht. set_solver. }
  exists (deliveries_to r li (internal_location_event dlv)),
    (match eta with
     | Some _ => deliveries_to r li (eta_event dlv) ++ deliveries_to r lc (eta_event dlv)
     | None => []
     end).
  destruct (Hli (internal_location_event dlv)), (Hli (eta_event dlv)), (Hlc (eta_event dlv)).
  unfold location_broadcast, broadcast_delivery_location_internal, broadcast_delivery_event_all.
  split_and!.
  - destruct eta; cbn; rewrite !send_each_outbox, ?send_each_registry, ?app_nil_r; [|done].
    by rewrite <- !app_assoc.
  - done.
  - done.
  - destruct eta; [by apply Forall_app|constructor].
  - destruct eta; [|done]. rewrite fmap_app. by f_equal.
Qed.

(** ** Witnesses *)

Definition w_settings : Settings :=
  default_config <| environment := env_test |> <| jwt_secret := "s3cret" |>.
Definition w_access (u : User) : option string :=
  match (get_db (create_access_token w_settings (u_id u) (u_role u)) (env_at 6) w_out).1 with
  | Ok (token, _) => Some token
  | Raised _ => None
  end.
Definition w_chat : DB := after (get_db (create_conversation alice 2) (env_at 1) w_out).
Definition track_order : Frame := Object
  {[ "type" := FText "subscribe";
     "delivery_order_id" := FText "000000000000000000000000000003e8" ]}.
Definition join_chat : Frame := Object
  {[ "type" := FText "subscribe";
     "conversation_id" := FText "000000000000000000000000000007d0" ]}.

(** Alice, Bob and Dan connect and track the order, Alice and Bob join their
    conversation, Dan moves and Bob writes a message. *)
Definition w_events : list (Env * PlatformEvent) :=
  (λ ev, (env_at 6, ev)) <$>
  [ Connect 1 (w_access alice); Connect 2 (w_access bob_seller); Connect 3 (w_access dan_driver);
    ReceiveFrame 1 track_order; ReceiveFrame 2 track_order; ReceiveFrame 3 track_order;
    ReceiveFrame 1 join_chat; ReceiveFrame 2 join_chat;
    PostLocation dan_driver oid (SpecFloat.S754_zero false) (SpecFloat.S754_zero true) (Some 300%Z) None;
    SendMessage bob_seller 2000 [1%Z] [2%Z] [3%Z] None ].
Definition w_platform : Platform :=
  foldl (λ p '(env, ev), platform_handle w_settings env ev p)
    (mkPlatform w_chat (mkGateway empty_registry [])) w_events.

Lemma run_reachable `{Crypto} settings p0 evs :
  started p0 →
  platform_reachable settings (foldl (λ p '(env, ev), platform_handle settings env ev p) p0 evs).
Proof.
  intros Hs. exists p0. split; [done|]. clear Hs. revert p0.
  induction evs as [|[env ev] evs IH]; intros p0; cbn; [done|].
  eapply rtc_l; [apply (step_event settings p0 env ev)|apply IH].
Qed.

Lemma w_platform_reachable : platform_reachable w_settings w_platform.
Proof.
  apply run_reachable. split; [|reflexivity].
  apply keyed_eval. vm_compute. reflexivity.
Qed.

(** Who got how many events of each kind. *)
Definition event_type (ev : event) : option value :=
  snd <$> head (filter (λ kv, kv.1 = "type") ev).
Example w_traffic :
  (λ s, (u_id (to_user s), event_type (sent_event s))) <$> drop 5 (outbox (pf_gateway w_platform))
  = [(2%N, Some (VText "delivery.location")); (4%N, Some (VText "delivery.location"));
     (2%N, Some (VText "delivery.eta")); (4%N, Some (VText "delivery.eta"));
     (3%N, Some (VText "delivery.eta"));
     (2%N, Some (VText "message.new")); (3%N, Some (VText "message.new"))].
Proof. vm_compute. reflexivity. Qed.

Lemma sent_at {A} (f : Sent → A) n p a :
  f <$> outbox (pf_gateway p) !! n = Some a →
  ∃ s, s ∈ outbox (pf_gateway p) ∧ f s = a.
Proof. intros (s & Hs & ->)%fmap_Some_1. exists s. split; [by eapply list_elem_of_lookup_2|done]. Qed.

Lemma coordinates_never_reach_customers_witness :
  ∃ s, s ∈ outbox (pf_gateway w_platform) ∧ u_role (to_user s) = customer ∧
    ¬ has_coordinates (sent_event s).
Proof.
  destruct (sent_at (λ s, u_role (to_user s)) 9 w_platform customer) as (s & Hin & Hr);
    [vm_compute; reflexivity|].
  exists s. split_and!; [exact Hin|exact Hr|].
  exact (coordinates_never_reach_customers w_settings w_platform s w_platform_reachable Hin Hr).
Defined.

Lemma conversation_events_stay_private_witness :
  ∃ s conv, s ∈ outbox (pf_gateway w_platform) ∧ u_id (to_user s) = 3%N ∧
    conversations (pf_db w_platform) !! 2000%N = Some conv ∧
    (u_role (to_user s) = admin ∨ participant (to_user s) conv).
Proof.
  destruct (sent_at (λ s, (u_id (to_user s), head (found "conversation_id" (sent_event s)))) 11
    w_platform (3%N, Some (VId 2000))) as (s & Hin & Hid);
    [vm_compute; reflexivity|].
  injection Hid as Hid Hc.
  assert (about_conversation 2000 (sent_event s)) as Ha.
  { unfold about_conversation. destruct (found _ _); [discriminate|].
    injection Hc as ->. left. }
  destruct (conversation_events_stay_private w_settings w_platform s 2000
    w_platform_reachable Hin Ha) as (conv & Hconv).
  exists s, conv. exact (conj Hin (conj Hid Hconv)).
Defined.

Lemma registry_stays_consistent_witness :
  gone 1 (registry (platform_handle w_settings (env_at 7) (Disconnected 1) w_platform)).
Proof.
  exact (proj2 (proj2 (proj2 (proj2 (proj2
    (registry_stays_consistent w_settings w_platform w_platform_reachable))))) (env_at 7) 1%N).
Defined.

Lemma location_updates_are_broadcast_witness :
  let run := get_db (post_location dan_driver oid (SpecFloat.S754_zero false)
    (SpecFloat.S754_zero false) None None) (env_at 7) (pf_db w_platform) in
  ∃ order dlv locs etas, run.1 = Ok (order, dlv) ∧
    outbox (pf_gateway (platform_handle w_settings (env_at 7)
      (PostLocation dan_driver oid (SpecFloat.S754_zero false) (SpecFloat.S754_zero false)
         None None) w_platform)) = outbox (pf_gateway w_platform) ++ locs ++ etas ∧
    to_conn <$> locs =
      elements (delivery_internal_subscribers (o_id order) (registry w_platform)) ∧
    to_conn <$> etas = [].
Proof.
  intros run. destruct (succeeds_run run) as [[order dlv] Hrun]; [vm_compute; reflexivity|].
  destruct (location_updates_are_broadcast w_settings w_platform (env_at 7) dan_driver oid
    (SpecFloat.S754_zero false) (SpecFloat.S754_zero false) None None order dlv (after run)
    w_platform_reachable Hrun) as (locs & etas & Hout & Hl & _ & _ & He).
  exists order, dlv, locs, etas. split; [by rewrite Hrun|]. by split_and!.
Defined.
