(* ===== verification/OrderViews.v ===== *)
(** * What each party sees of an order

    [services/order_service.py], lines 994-1114 (the masked views and the
    response document), [schemas/orders.py] (the response shapes) and the
    listing and detail endpoints of [api/v1/orders.py]. *)

From S2P Require Import Prelude.
From S2P Require Import Exceptions.
From S2P Require Import Models.
From S2P Require Import Session.
From S2P Require Import SessionFacts.
From S2P Require Import Orders.
From S2P Require Import Retention.
#[local] Open Scope string_scope.

(** ** Response shapes ([schemas/orders.py]) *)

Record OrderLineItemOut := mkLineItemOut {
  lio_id : uuid;
  lio_product_id : option uuid;
  lio_product_name_snapshot : string;
  lio_unit_price_minor_snapshot : Z;
  lio_quantity : Z;
}.

Record DeliveryOut := mkDeliveryOut {
  do_id : uuid;
  do_driver_id : option uuid;
  do_seller_id : uuid;
  do_status : string;
  do_started_at : option datetime;
  do_delivered_at : option datetime;
}.

Record DriverAssignmentOut := mkAssignmentOut {
  ao_id : uuid;
  ao_driver_id : option uuid;
  ao_status : string;
  ao_requested_at : datetime;
  ao_assigned_at : option datetime;
}.

Record OrderResponse := mkOrderResponse {
  r_id : uuid;
  r_customer_id : uuid;
  r_seller_id : uuid;
  r_store_id : uuid;
  r_status : string;
  r_subtotal_minor : Z;
  r_total_minor : Z;
  r_delivery_address : Address;
  r_placed_at : datetime;
  r_accepted_at : option datetime;
  r_preparing_at : option datetime;
  r_out_for_delivery_at : option datetime;
  r_delivered_at : option datetime;
  r_completed_at : option datetime;
  r_cancelled_at : option datetime;
  r_cancellation_reason : option string;
  r_items : list OrderLineItemOut;
  r_delivery : option DeliveryOut;
  r_driver_assignment : option DriverAssignmentOut;
}.

(** ** Masked views *)

Definition mask_seller_order_response (order : Order) : OrderResponse :=
  {| r_id := o_id order; r_customer_id := o_customer_id order;
     r_seller_id := o_seller_id order; r_store_id := o_store_id order;
     r_status := "hidden"; r_subtotal_minor := o_total_minor order;
     r_total_minor := o_total_minor order; r_delivery_address := ∅;
     r_placed_at := o_placed_at order; r_accepted_at := None;
     r_preparing_at := None; r_out_for_delivery_at := None;
     r_delivered_at := None; r_completed_at := None; r_cancelled_at := None;
     r_cancellation_reason := None; r_items := []; r_delivery := None;
     r_driver_assignment := None |}.

Definition mask_customer_order_response (order : Order) : OrderResponse :=
  {| r_id := o_id order; r_customer_id := o_customer_id order;
     r_seller_id := o_seller_id order; r_store_id := o_store_id order;
     r_status := "hidden"; r_subtotal_minor := o_total_minor order;
     r_total_minor := o_total_minor order; r_delivery_address := ∅;
     r_placed_at := o_placed_at order; r_accepted_at := None;
     r_preparing_at := None; r_out_for_delivery_at := None;
     r_delivered_at := None; r_completed_at := None; r_cancelled_at := None;
     r_cancellation_reason := None; r_items := []; r_delivery := None;
     r_driver_assignment := None |}.

(** Each predicate reads the clock itself when it is not given a time. *)
Definition is_customer_hidden (order : Order) : M bool :=
  match o_delivered_at order with
  | None => mret false
  | Some delivered_at =>
      let threshold :=
        default (delivered_at + timedelta_minutes 30)%Z
          (o_customer_visible_after order) in
      _n ← now;
      mret (bool_decide (_n < threshold)%Z)
  end.

Definition is_seller_stripped (order : Order) : M bool :=
  let threshold :=
    default (o_placed_at order + timedelta_days 7)%Z
      (o_seller_full_visible_until order) in
  _n ← now;
  mret (bool_decide (threshold ≤ _n)%Z).

Definition is_customer_masked (order : Order) : M bool :=
  match o_delivered_at order with
  | None => mret false
  | Some delivered_at =>
      let threshold :=
        default (delivered_at + timedelta_minutes 30)%Z
          (o_customer_visible_after order) in
      _n ← now;
      mret (bool_decide (threshold ≤ _n)%Z)
  end.

(** ** The full document *)

(** [max(candidates, key=...)]: the first of the greatest. *)
Fixpoint max_requested (best : DriverAssignment) (l : list DriverAssignment) :
    DriverAssignment :=
  match l with
  | [] => best
  | a :: l' =>
      max_requested (if decide (a_requested_at best < a_requested_at a)%Z then a
                     else best) l'
  end.

Definition order_to_response_dict (lo : LoadedOrder) : OrderResponse :=
  let order := lo_order lo in
  let delivery_dict :=
    (λ d, mkDeliveryOut (d_id d) (d_driver_id d) (d_seller_id d)
            (delivery_status_str (d_status d)) (d_started_at d) (d_delivered_at d))
      <$> lo_delivery lo in
  let candidates := filter (λ a, a_status a ≠ asg_cancelled) (lo_assignments lo) in
  let active_assignment :=
    match candidates with
    | [] => None
    | c :: cs =>
        let a := max_requested c cs in
        Some (mkAssignmentOut (a_id a) (a_driver_id a)
                (assignment_status_str (a_status a)) (a_requested_at a)
                (a_assigned_at a))
    end in
  {| r_id := o_id order; r_customer_id := o_customer_id order;
     r_seller_id := o_seller_id order; r_store_id := o_store_id order;
     r_status := order_status_str (o_status order);
     r_subtotal_minor := o_subtotal_minor order;
     r_total_minor := o_total_minor order;
     r_delivery_address := o_delivery_address order;
     r_placed_at := o_placed_at order; r_accepted_at := o_accepted_at order;
     r_preparing_at := o_preparing_at order;
     r_out_for_delivery_at := o_out_for_delivery_at order;
     r_delivered_at := o_delivered_at order;
     r_completed_at := o_completed_at order;
     r_cancelled_at := o_cancelled_at order;
     r_cancellation_reason := o_cancellation_reason order;
     r_items :=
       (λ i, mkLineItemOut (oi_id i) (oi_product_id i) (oi_product_name_snapshot i)
               (oi_unit_price_minor_snapshot i) (oi_quantity i)) <$> lo_items lo;
     r_delivery := delivery_dict;
     r_driver_assignment := active_assignment |}.

(** ** Endpoints ([api/v1/orders.py]) *)

(** The [selectinload] of the listed orders. *)
Definition load_relations (order : Order) : M LoadedOrder :=
  items ← select (λ i, oi_order_id i = o_id order);
  dlvs ← select (λ d, d_order_id d = o_id order);
  asgs ← select (λ a, a_order_id a = o_id order);
  mret (mkLoadedOrder order items (head dlvs) asgs).

(** [caller.role == role and predicate(o)]. *)
Definition role_and (caller : User) (role : UserRole) (p : M bool) : M bool :=
  if decide (u_role caller = role) then p else mret false.

Definition render_one (caller : User) (lo : LoadedOrder) : M (list OrderResponse) :=
  let o := lo_order lo in
  hidden ← role_and caller customer (is_customer_hidden o);
  if hidden : bool then mret [] else
  masked ← role_and caller customer (is_customer_masked o);
  if masked : bool then mret [mask_customer_order_response o] else
  stripped ← role_and caller seller (is_seller_stripped o);
  if stripped : bool then mret [mask_seller_order_response o] else
  mret [order_to_response_dict lo].

Fixpoint render_all (caller : User) (los : list LoadedOrder) :
    M (list OrderResponse) :=
  match los with
  | [] => mret []
  | lo :: los' =>
      r ← render_one caller lo;
      rs ← render_all caller los';
      mret (r ++ rs)%list
  end.

Fixpoint load_all (os : list Order) : M (list LoadedOrder) :=
  match os with
  | [] => mret []
  | o :: os' =>
      lo ← load_relations o;
      los ← load_all os';
      mret (lo :: los)
  end.

Definition list_orders (caller : User) (status : option OrderStatus) (limit : Z) :
    M (list OrderResponse) :=
  os ← list_orders_for_caller caller status limit;
  los ← load_all os;
  render_all caller los.

Definition get_order (caller : User) (order_id : uuid) : M OrderResponse :=
  lo ← get_order_for_caller caller order_id;
  mret (order_to_response_dict lo).
