(* ===== verification/OrderViewProps.v ===== *)
(** * Visibility of orders

    The listing shows exactly the orders the detail endpoint would show, and
    the listing discloses no detail once the masking period has begun. *)

From S2P Require Import Prelude.
From S2P Require Import Exceptions.
From S2P Require Import Models.
From S2P Require Import Session.
From S2P Require Import SessionFacts.
From S2P Require Import Orders.
From S2P Require Import OrdersFacts.
From S2P Require Import Fixtures.
From S2P Require Import Retention.
From S2P Require Import OrderViews.
#[local] Open Scope Z_scope.

(** ** Vocabulary *)

(** The caller sees the order: what the listing's [WHERE] clause says. *)
Definition visible_to (d : DB) (caller : User) (o : Order) : Prop :=
  o_deleted_at o = None ∧
  listed_for caller (rows (deliveries d)) (rows (driver_assignments d)) o.

(** A response that discloses nothing but identifiers, total and time. *)
Definition discloses_nothing (r : OrderResponse) : Prop :=
  r_status r = "hidden"%string ∧ r_delivery_address r = ∅ ∧ r_items r = [] ∧
  r_delivery r = None ∧ r_driver_assignment r = None ∧
  r_subtotal_minor r = r_total_minor r ∧ r_cancellation_reason r = None ∧
  r_accepted_at r = None ∧ r_preparing_at r = None ∧ r_out_for_delivery_at r = None ∧
  r_delivered_at r = None ∧ r_completed_at r = None ∧ r_cancelled_at r = None.

Definition clock_monotone (env : Env) : Prop :=
  ∀ n m, (n ≤ m)%nat → clock env n ≤ clock env m.

(** The moment from which a customer sees only the amount of a delivered order. *)
Definition customer_threshold (o : Order) : option datetime :=
  match o_delivered_at o with
  | None => None
  | Some t => Some (default (t + timedelta_minutes 30) (o_customer_visible_after o))
  end.
Definition seller_threshold (o : Order) : datetime :=
  default (o_placed_at o + timedelta_days 7) (o_seller_full_visible_until o).

(** ** Lemmas *)

Lemma load_order_full_eq env s oid :
  _load_order_full oid env s =
  (Ok ((λ o, mkLoadedOrder o
     (filter (λ i, oi_order_id i = oid) (rows (order_items (working s))))
     (head (filter (λ d, d_order_id d = oid) (rows (deliveries (working s)))))
     (filter (λ a, a_order_id a = oid) (rows (driver_assignments (working s)))))
     <$> orders (working s) !! oid), s).
Proof.
  unfold _load_order_full, mbind, M_bind. cbn.
  by destruct (orders (working s) !! oid).
Qed.

Lemma head_filter_unique {A} (P : A → Prop) `{∀ x, Decision (P x)} (l : list A) (Q : A → Prop) :
  (∀ x y, x ∈ l → y ∈ l → P x → P y → x = y) →
  (∃ x, head (filter P l) = Some x ∧ Q x) ↔ (∃ x, x ∈ l ∧ P x ∧ Q x).
Proof.
  intros Hu. split.
  - intros (x & Hx & HQ). destruct (filter P l) as [|y l'] eqn:E; cbn in Hx; simplify_eq.
    assert (x ∈ filter P l) as [? ?]%list_elem_of_filter by (rewrite E; left). eauto.
  - intros (x & Hx & HP & HQ).
    assert (x ∈ filter P l) as Hin by by apply list_elem_of_filter.
    destruct (filter P l) as [|y l'] eqn:E; [by apply not_elem_of_nil in Hin|].
    assert (y ∈ filter P l) as [? ?]%list_elem_of_filter by (rewrite E; left).
    exists y. split; [done|]. by rewrite (Hu y x).
Qed.

Lemma driver_listed d caller o :
  u_role caller = driver →
  listed_for caller (rows (deliveries d)) (rows (driver_assignments d)) o ↔
  (∃ dlv, dlv ∈ rows (deliveries d) ∧ d_order_id dlv = o_id o ∧
     delivery_of (u_id caller) dlv) ∨
  (∃ a, a ∈ rows (driver_assignments d) ∧ a_order_id a = o_id o ∧
     assigned_to (u_id caller) a).
Proof.
  intros Hr. unfold listed_for. rewrite Hr, !list_elem_of_fmap.
  setoid_rewrite list_elem_of_filter. naive_solver.
Qed.

Lemma nullable_some {A} (P : A → Prop) (o : option A) :
  nullable P o ∧ is_Some o ↔ ∃ x, o = Some x ∧ P x.
Proof. destruct o; cbn; split; [naive_solver..|intros [_ []]; done|naive_solver]. Qed.

(** Whether the detail endpoint shows a loaded order, as a predicate. *)
Definition viewable (caller : User) (lo : LoadedOrder) : Prop :=
  match u_role caller with
  | admin => True
  | seller => o_seller_id (lo_order lo) = u_id caller
  | customer => o_customer_id (lo_order lo) = u_id caller
  | driver =>
      (∃ dlv, lo_delivery lo = Some dlv ∧ delivery_of (u_id caller) dlv) ∨
      (∃ a, a ∈ lo_assignments lo ∧ assigned_to (u_id caller) a)
  end.

Lemma ensure_can_view_eq env s lo caller :
  _ensure_can_view lo caller env s = (Ok tt, s) ∧ viewable caller lo ∨
  _ensure_can_view lo caller env s = (Raised OrderNotFound, s) ∧ ¬ viewable caller lo.
Proof.
  unfold _ensure_can_view, viewable, raise_if. destruct (u_role caller).
  - by left.
  - case_decide; [by right|left]. by unneg.
  - case_decide; [by right|left]. by unneg.
  - rewrite <- nullable_some, <- Exists_exists.
    case_decide; [by left; auto|]. case_decide as HE; [by right; naive_solver|].
    left. split; [done|]. right. by unneg.
Qed.

(** At most one delivery row per order (the UNIQUE constraint). *)
Definition one_delivery_per_order (d : DB) : Prop :=
  ∀ k1 k2 x y, deliveries d !! k1 = Some x → deliveries d !! k2 = Some y →
    d_order_id x = d_order_id y → x = y.

Lemma viewable_listed d caller o oid :
  one_delivery_per_order d → o_id o = oid →
  viewable caller (mkLoadedOrder o
     (filter (λ i, oi_order_id i = oid) (rows (order_items d)))
     (head (filter (λ x, d_order_id x = oid) (rows (deliveries d))))
     (filter (λ a, a_order_id a = oid) (rows (driver_assignments d)))) ↔
  listed_for caller (rows (deliveries d)) (rows (driver_assignments d)) o.
Proof.
  intros Hu <-. unfold viewable. cbn. destruct (u_role caller) eqn:Er.
  1-3: by unfold listed_for; rewrite Er.
  rewrite driver_listed by done. apply Morphisms_Prop.or_iff_morphism; [apply head_filter_unique|].
  - intros x y [k1 Hx]%elem_of_rows [k2 Hy]%elem_of_rows ??. eapply Hu; eauto. congruence.
  - setoid_rewrite list_elem_of_filter. naive_solver.
Qed.

Lemma get_order_eq env s caller oid :
  keyed (R:=Order) (working s) → one_delivery_per_order (working s) →
  (∃ o r, orders (working s) !! oid = Some o ∧ visible_to (working s) caller o ∧
     get_order caller oid env s = (Ok r, s) ∧ r_id r = oid) ∨
  ((∀ o, orders (working s) !! oid = Some o → ¬ visible_to (working s) caller o) ∧
   get_order caller oid env s = (Raised OrderNotFound, s)).
Proof.
  intros Hk Hu. unfold get_order, get_order_for_caller, mbind, M_bind.
  rewrite load_order_full_eq. destruct (orders (working s) !! oid) as [o|] eqn:E; cbn;
    [|by right].
  pose proof (Hk _ _ E) as Hid. cbn in Hid.
  pose proof (viewable_listed (working s) caller o oid Hu Hid) as Hv.
  unfold raise_if, visible_to. case_decide as Hdel; cbn.
  - right. split; [|done]. intros o' ? [??]. by simplify_eq.
  - match goal with |- context [_ensure_can_view ?lo _ _ _] =>
      destruct (ensure_can_view_eq env s lo caller) as [[-> Hc]|[-> Hc]] end.
    + left. exists o. eexists. split_and!; [done..|by apply Hv|reflexivity|done].
    + right. split; [|done]. intros o' ? [_ Hl]. simplify_eq. by apply Hc, Hv.
Qed.

(** *** The listing *)

Definition page_size (limit : Z) : nat := Z.to_nat (Z.min (Z.max limit 1) 200).

Lemma list_orders_for_caller_Ok env s s' caller status limit os :
  list_orders_for_caller caller status limit env s = (Ok os, s') →
  s' = s ∧ ∃ all, (∀ o, o ∈ all ↔ (∃ k, orders (working s) !! k = Some o) ∧
      visible_to (working s) caller o ∧ nullable (λ st, o_status o = st) status) ∧
    StronglySorted (key_le (λ o, - o_placed_at o)) all ∧
    os = take (page_size limit) all.
Proof.
  unfold list_orders_for_caller. intros H. inv_run. split; [done|].
  eexists. split_and!; [| |reflexivity].
  - intros o. rewrite order_by_desc_perm, elem_of_selected. unfold visible_to. naive_solver.
  - apply StronglySorted_merge_sort; apply _.
Qed.

Lemma load_all_Ok env s s' os los :
  load_all os env s = (Ok los, s') → s' = s ∧ lo_order <$> los = os.
Proof.
  revert los s'. induction os as [|o os IH]; cbn; intros los s' H; inv_run; [done|].
  unfold load_relations in *. inv_run.
  match goal with H : load_all _ _ _ = _ |- _ => apply IH in H as [-> <-] end.
  done.
Qed.

Lemma masks_disclose_nothing o :
  discloses_nothing (mask_customer_order_response o) ∧
  discloses_nothing (mask_seller_order_response o).
Proof. done. Qed.

Lemma role_and_Ok env s s' caller role p b :
  role_and caller role p env s = (Ok b, s') →
  (u_role caller = role ∧ p env s = (Ok b, s')) ∨
  (u_role caller ≠ role ∧ b = false ∧ s' = s).
Proof. unfold role_and. intros H. case_decide; [by left|]. inv_run. by right. Qed.

(** One rendered row: it is about its order, it is read later than the request
    began, and it discloses nothing in the masking period. *)
Definition rendered (env : Env) (n0 : nat) (caller : User) (o : Order)
    (r : OrderResponse) : Prop :=
  r_id r = o_id o ∧
  (u_role caller = customer → o_delivered_at o ≠ None → discloses_nothing r) ∧
  (u_role caller = seller → seller_threshold o ≤ clock env n0 → discloses_nothing r).

Lemma customer_hidden_Ok env s s' o b :
  is_customer_hidden o env s = (Ok b, s') →
  working s' = working s ∧ (clock_reads s ≤ clock_reads s')%nat ∧
  (b = false → ∀ th, customer_threshold o = Some th → th ≤ clock env (clock_reads s)).
Proof.
  unfold is_customer_hidden, customer_threshold. intros H.
  destruct (o_delivered_at o) as [t|]; inv_run; cbn; split_and!; try done; try lia.
  intros Hb%bool_decide_eq_false th [= <-]. lia.
Qed.

Lemma customer_masked_Ok env s s' o b :
  is_customer_masked o env s = (Ok b, s') →
  working s' = working s ∧ (clock_reads s ≤ clock_reads s')%nat ∧
  (b = false → ∀ th, customer_threshold o = Some th → clock env (clock_reads s) < th).
Proof.
  unfold is_customer_masked, customer_threshold. intros H.
  destruct (o_delivered_at o) as [t|]; inv_run; cbn; split_and!; try done; try lia.
  intros Hb%bool_decide_eq_false th [= <-]. lia.
Qed.

Lemma seller_stripped_Ok env s s' o b :
  is_seller_stripped o env s = (Ok b, s') →
  working s' = working s ∧ (clock_reads s ≤ clock_reads s')%nat ∧
  (b = false → clock env (clock_reads s) < seller_threshold o).
Proof.
  unfold is_seller_stripped, seller_threshold. intros H. inv_run; cbn.
  split_and!; try done; try lia. intros Hb%bool_decide_eq_false. lia.
Qed.

Lemma threshold_set o : o_delivered_at o ≠ None → is_Some (customer_threshold o).
Proof. unfold customer_threshold. destruct (o_delivered_at o); naive_solver. Qed.

Lemma render_one_Ok env s s' caller lo rs :
  clock_monotone env →
  render_one caller lo env s = (Ok rs, s') →
  working s' = working s ∧ (clock_reads s ≤ clock_reads s')%nat ∧
  Forall (rendered env (clock_reads s) caller (lo_order lo)) rs.
Proof.
  intros Hmono H. unfold render_one in H.
  apply bind_Ok in H as (h & s1 & Hh & H).
  assert (working s1 = working s ∧ (clock_reads s ≤ clock_reads s1)%nat ∧
    (h = false → u_role caller = customer → ∀ th,
       customer_threshold (lo_order lo) = Some th → th ≤ clock env (clock_reads s)))
    as (Hw1 & Hc1 & Hh1).
  { apply role_and_Ok in Hh as [[Hr Hh]|(Hr & -> & ->)]; [|by split_and!].
    apply customer_hidden_Ok in Hh. naive_solver. }
  destruct h; [inv_run; by split_and!|]. apply bind_Ok in H as (m & s2 & Hm & H).
  assert (working s2 = working s1 ∧ (clock_reads s1 ≤ clock_reads s2)%nat ∧
    (m = false → u_role caller = customer → ∀ th,
       customer_threshold (lo_order lo) = Some th → clock env (clock_reads s1) < th))
    as (Hw2 & Hc2 & Hm1).
  { apply role_and_Ok in Hm as [[Hr Hm]|(Hr & -> & ->)]; [|by split_and!].
    apply customer_masked_Ok in Hm. naive_solver. }
  destruct m; [inv_run; split_and!; [congruence|lia|by repeat constructor]|].
  apply bind_Ok in H as (b & s3 & Hb & H).
  assert (working s3 = working s2 ∧ (clock_reads s2 ≤ clock_reads s3)%nat ∧
    (b = false → u_role caller = seller →
       clock env (clock_reads s2) < seller_threshold (lo_order lo)))
    as (Hw3 & Hc3 & Hb1).
  { apply role_and_Ok in Hb as [[Hr Hb]|(Hr & -> & ->)]; [|by split_and!].
    apply seller_stripped_Ok in Hb. naive_solver. }
  destruct b; inv_run; (split_and!; [congruence|lia|]);
    apply Forall_singleton; split_and!; try done.
  - intros Hr Hdel. destruct (threshold_set _ Hdel) as [th Hth].
    specialize (Hh1 eq_refl Hr _ Hth). specialize (Hm1 eq_refl Hr _ Hth).
    specialize (Hmono _ _ Hc1). lia.
  - intros Hr Hle. specialize (Hb1 eq_refl Hr).
    specialize (Hmono (clock_reads s) (clock_reads s2) ltac:(lia)). lia.
Qed.

Lemma rendered_earlier env n m caller o r :
  clock_monotone env → (n ≤ m)%nat → rendered env m caller o r → rendered env n caller o r.
Proof.
  intros Hmono Hle (? & ? & Hs). split_and!; [done..|]. intros ? Hth. apply Hs; [done|].
  etrans; [exact Hth|by apply Hmono].
Qed.

Lemma render_all_Ok env s s' caller los rs :
  clock_monotone env → render_all caller los env s = (Ok rs, s') →
  working s' = working s ∧ (clock_reads s ≤ clock_reads s')%nat ∧
  ∀ r, r ∈ rs → ∃ o, o ∈ lo_order <$> los ∧ rendered env (clock_reads s) caller o r.
Proof.
  intros Hmono. revert s rs s'. induction los as [|lo los IH]; cbn; intros s rs s' H.
  - inv_run. split_and!; [done..|]. intros r Hr. by apply not_elem_of_nil in Hr.
  - inv_run.
    match goal with H : render_one _ _ _ _ = _, H' : render_all _ _ _ _ = _ |- _ =>
      apply render_one_Ok in H as (Hw1 & Hc1 & Hr1); [|done];
      apply IH in H' as (Hw2 & Hc2 & Hr2) end.
    split_and!; [congruence|lia|]. intros r [Hr|Hr]%elem_of_app.
    + exists (lo_order lo). split; [left|]. by eapply Forall_forall in Hr1.
    + destruct (Hr2 _ Hr) as (o & Ho & Hren). exists o. split; [by right|].
      by eapply rendered_earlier.
Qed.

(** ** Properties *)


(** C18: in the order listing, every entry belongs to an order the caller may
    see; a customer never gets the detail of an order that was delivered, and a
    seller never gets the detail of an order once its full-visibility period is
    over: such entries carry only the parties, the total and the time of
    placement. *)
Theorem listing_hides_details env d d' caller status limit page :
  clock_monotone env →
  get_db (list_orders caller status limit) env d = (Ok page, d') →
  d' = d ∧ ∀ r, r ∈ page → ∃ k o, orders d !! k = Some o ∧ r_id r = o_id o ∧
    visible_to d caller o ∧
    (u_role caller = customer → o_delivered_at o ≠ None → discloses_nothing r) ∧
    (u_role caller = seller → seller_threshold o ≤ clock env 0 → discloses_nothing r).
Proof.
  intros Hmono H. apply get_db_Ok in H as (s' & H & ->).
  unfold list_orders in H. inv_run.
  match goal with H : list_orders_for_caller _ _ _ _ _ = _ |- _ =>
    apply list_orders_for_caller_Ok in H as (-> & all & Hall & _ & ->) end.
  match goal with H : load_all _ _ _ = _ |- _ => apply load_all_Ok in H as [-> Hlos] end.
  apply render_all_Ok in H as (Hw & _ & Hr); [|done]. split; [done|].
  intros r Hin. apply Hr in Hin as (o & Ho & Hid & Hc & Hs). rewrite Hlos in Ho.
  apply elem_of_take in Ho as (i & Hi & _). apply list_elem_of_lookup_2 in Hi.
  apply Hall in Hi as ([k Hk] & Hv & _). exists k, o. by split_and!.
Qed.

(** ** Witnesses *)

Lemma env_at_monotone n : clock_monotone (env_at n).
Proof. intros i j Hij. cbn. lia. Qed.


Lemma listing_hides_details_witness :
  ∃ page, get_db (list_orders alice None 50) (env_at 8) w_completed = (Ok page, w_completed) ∧
    ∀ r, r ∈ page → ∃ k o, orders w_completed !! k = Some o ∧ r_id r = o_id o.
Proof.
  destruct (succeeds_run (get_db (list_orders alice None 50) (env_at 8) w_completed))
    as [page Hr]; [vm_compute; reflexivity|].
  destruct (listing_hides_details _ _ _ _ _ _ _ (env_at_monotone 8) Hr) as [Hd Hpage].
  exists page. split; [exact (eq_trans Hr (f_equal (pair _) Hd))|].
  intros r Hin. destruct (Hpage r Hin) as (k & o & Ho & Hid & _). exists k, o. by split.
Defined.
