(* ===== verification/TrackingProps.v ===== *)
(** * Correctness of delivery tracking

    What the customer's view depends on, who may track an order, and how a
    location update moves the delivery. *)

From S2P Require Import Prelude.
From S2P Require Import Exceptions.
From S2P Require Import Models.
From S2P Require Import Session.
From S2P Require Import SessionFacts.
From S2P Require Import Orders.
From S2P Require Import OrdersFacts.
From S2P Require Import Fixtures.
From S2P Require Import Retention.
From S2P Require Import OrderViews.
From S2P Require Import OrderViewProps.
From S2P Require Import DeliveryTracking.
#[local] Open Scope string_scope.

(** ** The customer's view *)

(** A delivery without its driver, its position and its distances. *)
Definition redact (d : Delivery) : Delivery :=
  d <| d_driver_id := None |> <| d_current_lat := None |> <| d_current_lng := None |>
    <| d_last_location_at := None |> <| d_distance_meters := None |>
    <| d_duration_seconds := None |>.

(** Databases that differ at most in what [redact] removes and in tables other
    than orders and deliveries. *)
Definition same_for_customers (d1 d2 : DB) : Prop :=
  orders d1 = orders d2 ∧ redact <$> deliveries d1 = redact <$> deliveries d2.

Lemma build_customer_view_redact o dlv :
  build_customer_view o (redact <$> dlv) = build_customer_view o dlv.
Proof. by destruct dlv. Qed.

Lemma resolve_customer caller o env s :
  u_role caller = customer →
  resolve_role caller o env s =
    (Ok (if decide (o_customer_id o = u_id caller) then tr_customer else tr_none), s).
Proof. intros Hr. unfold resolve_role. rewrite Hr. repeat case_decide; naive_solver. Qed.

(** The delivery rows of an order, seen by a function that redaction does not
    change. *)
Lemma one_redacted {A} (l1 l2 : list Delivery) (k : option Delivery → A) :
  redact <$> l1 = redact <$> l2 → (∀ o, k (redact <$> o) = k o) →
  match one_of l1 with Ok a => Ok (k a) | Raised e => Raised e end =
  match one_of l2 with Ok a => Ok (k a) | Raised e => Raised e end.
Proof.
  intros E Hk. destruct l1 as [|a [|b l1]], l2 as [|a' [|b' l2]]; try discriminate; [done| |done].
  assert (redact <$> Some a = redact <$> Some a') as Ea by (cbn in *; congruence).
  cbn. by rewrite <- (Hk (Some a)), Ea, Hk.
Qed.

(** C31: the answer a customer gets for the
    tracking view, success or error, is a function of the orders and of the
    deliveries without driver, position, last location time and distances: no
    two databases that differ only there, in the assignments or in any other
    table can be told apart by it. *)
Theorem customer_tracking_hides_driver env d1 d2 caller oid :
  u_role caller = customer → same_for_customers d1 d2 →
  (get_db (get_track_view caller oid) env d1).1 =
  (get_db (get_track_view caller oid) env d2).1.
Proof.
  intros Hr [Ho Hd]. rewrite !get_db_fst. unfold get_track_view.
  erewrite !bind_run by apply select_one_eq. cbn. rewrite Ho.
  destruct (one_of _) as [[o|]|]; [|done..].
  erewrite !bind_run by by apply resolve_customer.
  rewrite !raise_if_run.
  destruct (decide (o_customer_id o = u_id caller)); cbn; [|done].
  erewrite !bind_run by apply select_one_eq. cbn.
  pose proof (one_redacted
    (filter (λ d, d_order_id d = o_id o) (rows (deliveries d1)))
    (filter (λ d, d_order_id d = o_id o) (rows (deliveries d2)))
    (λ dlv, CustomerView (build_customer_view o dlv))) as Hs.
  rewrite (decide_False (P := tr_customer = tr_none)) by done.
  specialize (Hs ltac:(rewrite <- !filter_fmap_same, <- !rows_fmap by done; by rewrite Hd)
    (λ dlv, f_equal CustomerView (build_customer_view_redact o dlv))).
  revert Hs. destruct (one_of _) as [?|?], (one_of _) as [?|?]; intros Hs;
    first [exact Hs|discriminate].
Qed.

(** ** Who may track *)

(** At most one live assignment of a driver to an order. *)
Definition one_assignment (d : DB) (caller : User) : Prop :=
  ∀ k1 k2 x y, driver_assignments d !! k1 = Some x → driver_assignments d !! k2 = Some y →
    assigned_to (u_id caller) x → assigned_to (u_id caller) y →
    a_order_id x = a_order_id y → k1 = k2.

(** The role under which somebody who sees the order tracks it. *)
Definition role_for (caller : User) : TrackingRole :=
  match u_role caller with
  | admin => tr_admin | seller => tr_seller | customer => tr_customer | driver => tr_driver
  end.

Lemma one_delivery_keys d oid :
  unique_rows (R:=Delivery) d →
  ∀ k1 k2 x y, deliveries d !! k1 = Some x → deliveries d !! k2 = Some y →
    d_order_id x = oid → d_order_id y = oid → k1 = k2.
Proof.
  intros Hu k1 k2 x y H1 H2 E1 E2. destruct (decide (k1 = k2)) as [|Hne]; [done|].
  exfalso. eapply (Hu k1 k2 x y H1 H2 Hne). cbn. congruence.
Qed.

(** The resolver answers, with the caller's role or with [none]. *)
Definition resolves (d : DB) (caller : User) (o : Order) (role : TrackingRole) : Prop :=
  let listed := listed_for caller (rows (deliveries d)) (rows (driver_assignments d)) o in
  (listed ∧ role = role_for caller) ∨ (¬ listed ∧ role = tr_none).

Lemma resolve_assignment caller o env s :
  one_assignment (working s) caller →
  ∃ role, (assignment ← select_one (λ a, a_order_id a = o_id o ∧
      a_driver_id a = Some (u_id caller) ∧ a_status a ∈ ASSIGNED_DRIVER);
    match assignment with Some _ => mret tr_driver | None => mret tr_none end) env s
    = (Ok role, s) ∧
  (((∃ a, a ∈ rows (driver_assignments (working s)) ∧ a_order_id a = o_id o ∧
       assigned_to (u_id caller) a) ∧ role = tr_driver) ∨
   (¬ (∃ a, a ∈ rows (driver_assignments (working s)) ∧ a_order_id a = o_id o ∧
       assigned_to (u_id caller) a) ∧ role = tr_none)).
Proof.
  intros Ha. erewrite bind_run by apply select_one_eq.
  change (@table _ driver_assignments_table) with driver_assignments.
  destruct (one_of_unique (driver_assignments (working s)) (λ a, a_order_id a = o_id o ∧
    a_driver_id a = Some (u_id caller) ∧ a_status a ∈ ASSIGNED_DRIVER))
    as [(k & a & Hk & (Hid & Has) & ->)|[Hno ->]]; cbn [one_of].
  - intros k1 k2 x y H1 H2 [E1 ?] [E2 ?]. eapply Ha; eauto. congruence.
  - eexists. split; [done|left]. split; [|done]. exists a.
    split_and!; [by apply elem_of_rows; exists k|done|done].
  - eexists. split; [done|right]. split; [|done].
    intros (a & [k Hk]%elem_of_rows & Hid & Has). by eapply Hno.
Qed.

Lemma resolve_driver caller o env s :
  u_role caller = driver →
  unique_rows (R:=Delivery) (working s) → one_assignment (working s) caller →
  ∃ role, resolve_role caller o env s = (Ok role, s) ∧ resolves (working s) caller o role.
Proof.
  intros Er Hu Ha. unfold resolve_role, resolves, role_for.
  pose proof (driver_listed (working s) caller o Er) as Hl. rewrite Er.
  rewrite !decide_False, (decide_True (P := driver = driver)) by naive_solver.
  unfold load_delivery. erewrite bind_run by apply select_one_eq.
  change (@table _ deliveries_table) with deliveries.
  destruct (resolve_assignment caller o env s Ha) as (role & Hrun & Hrole).
  destruct (one_of_unique (deliveries (working s)) (λ x, d_order_id x = o_id o))
    as [(k & dlv & Hk & Hid & Hf)|[Hno Hf]]; [by apply one_delivery_keys| |];
    rewrite Hf; cbn [one_of from_option].
  - case_decide as Hdrv.
    + eexists. split; [done|left]. split; [apply Hl; left|done]. exists dlv.
      split_and!; [by apply elem_of_rows; exists k|done..].
    + exists role. split; [exact Hrun|].
      assert (∀ x, x ∈ rows (deliveries (working s)) → d_order_id x = o_id o → x = dlv) as Hux.
      { intros x [k' Hx]%elem_of_rows Hxid.
        assert (k' = k) as -> by (eapply one_delivery_keys; eauto). congruence. }
      rewrite Hl. destruct Hrole as [[? ->]|[Hn ->]]; [left|right]; (split; [|done]); [by right|].
      intros [(x & Hx & Hxid & Hof)|?]; [|done]. by rewrite (Hux x Hx Hxid) in Hof.
  - rewrite decide_False by done. exists role. split; [exact Hrun|].
    rewrite Hl. destruct Hrole as [[? ->]|[Hn ->]]; [left|right]; (split; [|done]); [by right|].
    intros [(x & [k' Hx]%elem_of_rows & Hxid & _)|?]; [|done]. by eapply Hno.
Qed.

Lemma resolve_role_spec caller o env s :
  unique_rows (R:=Delivery) (working s) → one_assignment (working s) caller →
  ∃ role, resolve_role caller o env s = (Ok role, s) ∧ resolves (working s) caller o role.
Proof.
  destruct (decide (u_role caller = driver)) as [|Hnd]; [by apply resolve_driver|].
  intros _ _. unfold resolve_role, resolves, role_for, listed_for.
  destruct (u_role caller) eqn:Er; [..|done];
    repeat case_decide; try congruence; eexists; (split; [reflexivity|]); naive_solver.
Qed.

(** What the tracking view of a visible order is. *)
Definition track_answer (caller : User) (o : Order) (dlv : option Delivery) :
    outcome TrackView :=
  if decide (u_role caller = customer) then Ok (CustomerView (build_customer_view o dlv))
  else
    match dlv with
    | Some x => Ok (InternalView (build_internal_view o x))
    | None => Raised (AppExc NotFoundError (Some "DELIVERY_NOT_STARTED") None)
    end.


(** ** Witnesses *)

(** Dan has moved. *)
Definition w_moved : DB := after (get_db (post_location dan_driver Fixtures.oid
  (SpecFloat.S754_zero false) (SpecFloat.S754_zero true) None (Some 40%Z)) (env_at 6) w_out).

Example dan_is_located :
  (λ d, (d_current_lat d, d_distance_meters d)) <$> head (rows (deliveries w_moved))
  = Some (Some (SpecFloat.S754_zero false), Some 40%Z) ∧
  (λ d, d_current_lat d) <$> head (rows (deliveries w_out)) = Some None.
Proof. vm_compute. auto. Qed.

Lemma customer_tracking_hides_driver_witness :
  (get_db (get_track_view alice Fixtures.oid) (env_at 7) w_out).1 =
  (get_db (get_track_view alice Fixtures.oid) (env_at 7) w_moved).1 ∧
  succeeds (get_db (get_track_view alice Fixtures.oid) (env_at 7) w_moved) = true.
Proof.
  split; [|vm_compute; reflexivity].
  apply customer_tracking_hides_driver; [reflexivity|].
  split; vm_compute; reflexivity.
Defined.

Lemma one_assignment_size d caller :
  size (driver_assignments d) = 1 → one_assignment d caller.
Proof. intros Hs k1 k2 x y H1 H2 _ _ _. by eapply size_one_unique. Qed.

Lemma one_delivery_size d : size (deliveries d) = 1 → unique_rows (R:=Delivery) d.
Proof. intros Hs k1 k2 x y H1 H2 Hne _. by destruct (Hne (size_one_unique _ _ _ _ _ Hs H1 H2)). Qed.

