(* ===== verification/Stores.v ===== *)
(** * Stores and sellers

    [services/store_service.py] and [services/seller_service.py] with their
    routers: the one store of a seller and its slug, who sees a store or a
    seller profile, and the seller dashboard. *)

From Stdlib Require Import Ascii.
From stdpp Require Import pretty.
From S2P Require Import Prelude.
From S2P Require Import Exceptions.
From S2P Require Import Models.
From S2P Require Import Session.
From S2P Require Import SessionFacts.
From S2P Require Import PyString.
From S2P Require Import Orders.
#[local] Open Scope string_scope.

(** ** Slugs *)

(** The characters [a-z0-9]. *)
Definition slug_char (c : ascii) : bool :=
  let n := nat_of_ascii c in bool_decide (97 ≤ n ≤ 122 ∨ 48 ≤ n ≤ 57)%nat.

(** [_SLUG_RE.sub("-", text)]: every maximal run of other characters becomes
    one hyphen; [in_run] tells that the run has begun. *)
Fixpoint sub_runs (in_run : bool) (l : list ascii) : list ascii :=
  match l with
  | [] => []
  | c :: l' =>
      if slug_char c then c :: sub_runs false l'
      else if in_run then sub_runs true l'
      else "-"%char :: sub_runs true l'
  end.

Definition is_hyphen (c : ascii) : bool := bool_decide (c = "-"%char).

Definition _slugify (value : string) : string :=
  let slug := strip_both is_hyphen
                (sub_runs false (String.list_ascii_of_string (str_lower value))) in
  match slug with
  | [] => "store"
  | _ => String.string_of_list_ascii slug
  end.

Example slugify_texts :
  _slugify "  Bob's Tea & Cake!" = "bob-s-tea-cake" ∧ _slugify "???" = "store".
Proof. vm_compute. auto. Qed.

(** [f"{base}-{suffix}"], and the plain base first. *)
Definition candidate_slug (base : string) (suffix : N) : string :=
  if decide (suffix = 0%N) then base else base +:+ "-" +:+ pretty suffix.

(** The loop of [_unique_slug] from [suffix] on, with fuel. *)
Fixpoint slug_loop (fuel : nat) (base : string) (suffix : N) : M string :=
  match fuel with
  | O => raise AssertionError
  | S fuel' =>
      let candidate := candidate_slug base suffix in
      exists_ ← select_one (λ r, st_slug r = candidate);
      match exists_ with
      | None => mret candidate
      | Some _ => slug_loop fuel' base (suffix + 1)
      end
  end.

(** The loop asks for a new name in every round, so it ends after at most one
    round more than there are stores ([unique_slug_is_first_free]). *)
Definition _unique_slug (base : string) : M string :=
  n ← query (λ d, size (stores d));
  slug_loop (S n) base 0.

(** ** The store service *)

Definition store_of (sl : Seller) (r : Store) : Prop :=
  st_seller_id r = se_id sl ∧ st_deleted_at r = None.
#[export] Instance store_of_dec sl r : Decision (store_of sl r).
Proof. unfold store_of. apply _. Defined.

Definition create_store (caller : User) (name city : string) (description slug : option string)
    (is_public : bool) : M Store :=
  raise_if (city = "" ∨ strip city = "") StoreCityRequired;;
  raise_if (name = "" ∨ strip name = "") StoreCityRequired;;
  sl ← _get_caller_seller caller;
  existing ← select_one (store_of sl);
  raise_if (is_Some existing) StoreAlreadyExists;;
  let sl := sl <| se_city := strip city |> in
  final_slug ← _unique_slug
    match slug with
    | None | Some "" => _slugify name
    | Some text => str_lower (strip text)
    end;
  store_id ← uuid4;
  created_at ← read_env server_now;
  let store := mkStore store_id (se_id sl) (strip name) final_slug
                 (strip (default "" description)) true is_public created_at None in
  except_integrity (save sl ;; insert_row store)
    (rollback ;; raise StoreAlreadyExists);;
  mret store.

Definition get_own_store (caller : User) : M Store :=
  sl ← _get_caller_seller caller;
  found ← select_one (store_of sl);
  match found with
  | None => raise StoreNotFound
  | Some store => mret store
  end.

Definition update_own_store (caller : User) (name city description : option string)
    (is_active is_public : option bool) : M Store :=
  sl ← _get_caller_seller caller;
  found ← select_one (store_of sl);
  match found with
  | None => raise StoreNotFound
  | Some store =>
      store ← match name with
              | None => mret store
              | Some name =>
                  raise_if (strip name = "") StoreCityRequired;;
                  mret (store <| st_name := strip name |>)
              end;
      sl ← match city with
           | None => mret sl
           | Some city =>
               raise_if (strip city = "") StoreCityRequired;;
               mret (sl <| se_city := strip city |>)
           end;
      let store := match description with
                   | None => store
                   | Some text => store <| st_description := strip text |>
                   end in
      let store := match is_active with
                   | None => store
                   | Some b => store <| st_is_active := b |>
                   end in
      let store := match is_public with
                   | None => store
                   | Some b => store <| st_is_public := b |>
                   end in
      save sl;;
      save store;;
      mret store
  end.

Definition _get_seller_by_store (store : Store) : M Seller :=
  found ← get_row (R:=Seller) (st_seller_id store);
  scalar_one found.

Definition get_store_for_caller (caller : User) (store_id : uuid) : M (Store * Seller) :=
  found ← get_row (R:=Store) store_id;
  match found with
  | None => raise StoreNotFound
  | Some store =>
      raise_if (st_deleted_at store ≠ None ∧ u_role caller ≠ admin) StoreNotFound;;
      sl ← _get_seller_by_store store;
      match u_role caller with
      | admin => mret (store, sl)
      | seller =>
          raise_if (se_user_id sl ≠ u_id caller) StoreNotFound;;
          mret (store, sl)
      | customer =>
          if st_is_public store then mret (store, sl)
          else
            raise_if (u_referring_seller_id caller ≠ Some (se_id sl)) VisibilityDenied;;
            mret (store, sl)
      | driver => raise StoreNotFound
      end
  end.

Record StoreResponse := mkStoreResponse {
  sr_id : uuid;
  sr_seller_id : uuid;
  sr_name : string;
  sr_slug : string;
  sr_description : string;
  sr_city : string;
  sr_is_active : bool;
  sr_is_public : bool;
  sr_created_at : datetime;
}.
Definition store_to_response_dict (store : Store) (sl : Seller) : StoreResponse :=
  mkStoreResponse (st_id store) (st_seller_id store) (st_name store) (st_slug store)
    (st_description store) (se_city sl) (st_is_active store) (st_is_public store)
    (st_created_at store).

(** ** The seller service *)

Definition ACTIVE_ORDER_STATUSES : list OrderStatus :=
  [pending; accepted; preparing; Models.out_for_delivery].

Definition get_seller_for_caller (caller : User) (seller_id : uuid) : M Seller :=
  found ← select_one (λ r, se_id r = seller_id ∧ se_deleted_at r = None);
  match found with
  | None => raise SellerNotFound
  | Some sl =>
      match u_role caller with
      | admin => mret sl
      | seller =>
          raise_if (se_user_id sl ≠ u_id caller) SellerNotFound;;
          mret sl
      | customer =>
          public_store ← select_one (λ r, store_of sl r ∧ st_is_public r = true);
          match public_store with
          | Some _ => mret sl
          | None =>
              raise_if (u_referring_seller_id caller ≠ Some (se_id sl)) VisibilityDenied;;
              mret sl
          end
      | driver => raise SellerNotFound
      end
  end.

(** [code or "USD"] *)
Definition _get_platform_currency : M string :=
  found ← get_row (R:=PlatformSettings) 1%N;
  mret match found with
       | Some ps => if decide (ps_currency_code ps = "") then "USD" else ps_currency_code ps
       | None => "USD"
       end.

Record Dashboard := mkDashboard {
  db_seller_id : uuid;
  lifetime_sales_amount : Z;
  lifetime_orders_count : Z;
  active_orders_count : Z;
  db_currency_code : string;
  last_updated : datetime;
}.

(** [COALESCE(SUM(total_minor), 0)]: [SUM] over [bigint] is an exact [numeric]. *)
Definition sum_totals (l : list OrderAnalyticsSnapshot) : Z :=
  foldr (λ sn acc, sn_total_minor sn + acc)%Z 0%Z l.

Definition get_dashboard (caller : User) (target_seller_id : option uuid) : M Dashboard :=
  sl ← match target_seller_id with
       | Some sid =>
           raise_if (u_role caller ≠ admin) VisibilityDenied;;
           found ← get_row (R:=Seller) sid;
           match found with
           | None => raise SellerNotFound
           | Some sl => mret sl
           end
       | None => _get_caller_seller caller
       end;
  snapshots ← select (λ sn, sn_seller_id sn = se_id sl);
  active ← select (λ o, o_seller_id o = se_id sl ∧ o_deleted_at o = None ∧
                        o_status o ∈ ACTIVE_ORDER_STATUSES);
  currency ← _get_platform_currency;
  _now ← now;
  mret (mkDashboard (se_id sl) (sum_totals snapshots) (Z.of_nat (length snapshots))
          (Z.of_nat (length active)) currency _now).

(** ** The routers

    [caller] is the user that the dependency of the route ([_seller_only],
    [get_current_user]) has let through, see [Security]. *)

Definition post_store (caller : User) (name city : string) (description slug : option string)
    (is_public : bool) : M StoreResponse :=
  store ← create_store caller name city description slug is_public;
  sl ← _get_caller_seller caller;
  mret (store_to_response_dict store sl).

Definition get_my_store (caller : User) : M StoreResponse :=
  store ← get_own_store caller;
  sl ← _get_caller_seller caller;
  mret (store_to_response_dict store sl).

Definition patch_my_store (caller : User) (name city description : option string)
    (is_active is_public : option bool) : M StoreResponse :=
  store ← update_own_store caller name city description is_active is_public;
  sl ← _get_caller_seller caller;
  mret (store_to_response_dict store sl).

Definition get_store_by_id (caller : User) (store_id : uuid) : M StoreResponse :=
  '(store, sl) ← get_store_for_caller caller store_id;
  mret (store_to_response_dict store sl).

Record SellerPublicResponse := mkSellerPublic {
  sp_id : uuid;
  sp_display_name : string;
  sp_bio : option string;
  sp_city : string;
}.
Definition get_seller_by_id (caller : User) (seller_id : uuid) : M SellerPublicResponse :=
  sl ← get_seller_for_caller caller seller_id;
  mret (mkSellerPublic (se_id sl) (se_display_name sl) (se_bio sl) (se_city sl)).
