(* ===== verification/StoreFacts.v ===== *)
(** * Facts about stores: slugs and visibility *)

From Stdlib Require Import Ascii.
From stdpp Require Import pretty.
From S2P Require Import Prelude.
From S2P Require Import Exceptions.
From S2P Require Import Models.
From S2P Require Import Session.
From S2P Require Import SessionFacts.
From S2P Require Import PyString.
From S2P Require Import Orders.
From S2P Require Import Stores.
#[local] Open Scope string_scope.
#[local] Open Scope list_scope.

(** ** The search for a free slug *)

Lemma append_longer a b : a ≠ a +:+ ("-" +:+ b).
Proof. induction a as [|c a IH]; cbn; [done|]. intros [= E]. by apply IH. Qed.

Lemma candidate_slug_inj base : Inj eq eq (candidate_slug base).
Proof.
  intros i j. unfold candidate_slug. do 2 case_decide; subst; [done|..];
    intros E.
  - by apply append_longer in E.
  - symmetry in E. by apply append_longer in E.
  - apply String.app_inj in E. apply String.app_inj in E. by apply pretty_N_inj.
Qed.

(** No store, deleted or not, has this slug. *)
Definition slug_free (d : DB) (slug : string) : Prop :=
  ∀ k r, stores d !! k = Some r → st_slug r ≠ slug.

Lemma slug_lookup env s slug :
  unique_rows (R:=Store) (working s) →
  (slug_free (working s) slug ∧
   select_one (λ r, st_slug r = slug) env s = (Ok None, s)) ∨
  (slug ∈ st_slug <$> rows (stores (working s)) ∧
   ∃ r, select_one (λ r, st_slug r = slug) env s = (Ok (Some r), s)).
Proof.
  intros Hu. rewrite select_one_eq. cbn.
  destruct (one_of_unique (stores (working s)) (λ r, st_slug r = slug))
    as [(k & r & Hk & <- & ->)|[Hno ->]].
  - intros k1 k2 x y H1 H2 E1 E2. destruct (decide (k1 = k2)) as [|Hne]; [done|].
    exfalso. eapply (Hu k1 k2 x y H1 H2 Hne). right. congruence.
  - right. split; [|by exists r]. apply list_elem_of_fmap. exists r.
    split; [done|]. apply elem_of_rows. by exists k.
  - by left.
Qed.

(** The loop returns the first free candidate unless it runs out of fuel, in
    which case all its candidates are taken. *)
Lemma slug_loop_run fuel base suffix env s :
  unique_rows (R:=Store) (working s) →
  (∃ k, (suffix ≤ k)%N ∧ slug_loop fuel base suffix env s = (Ok (candidate_slug base k), s) ∧
     slug_free (working s) (candidate_slug base k) ∧
     ∀ j, (suffix ≤ j < k)%N →
       candidate_slug base j ∈ st_slug <$> rows (stores (working s))) ∨
  (∀ i, (i < fuel)%nat →
     candidate_slug base (suffix + N.of_nat i) ∈ st_slug <$> rows (stores (working s))).
Proof.
  intros Hu. revert suffix. induction fuel as [|fuel IH]; intros suffix; [right; lia|].
  cbn [slug_loop].
  destruct (slug_lookup env s (candidate_slug base suffix) Hu) as [[Hf Hrun]|[Hin [r Hrun]]];
    rewrite (bind_run _ _ _ _ _ _ Hrun).
  - left. exists suffix. split_and!; [lia|done|done|lia].
  - destruct (IH (suffix + 1)%N) as [(k & Hk & Hl & Hf & Hj)|Hall]; [left|right].
    + exists k. split_and!; [lia|done|done|]. intros j Hsj.
      destruct (decide (j = suffix)) as [->|]; [done|apply Hj; lia].
    + intros [|i] Hi; [by rewrite N.add_0_r|].
      replace (suffix + N.of_nat (S i))%N with (suffix + 1 + N.of_nat i)%N by lia.
      apply Hall. lia.
Qed.

Lemma unique_slug_run base env s :
  unique_rows (R:=Store) (working s) →
  ∃ k, _unique_slug base env s = (Ok (candidate_slug base k), s) ∧
    slug_free (working s) (candidate_slug base k) ∧
    ∀ j, (j < k)%N → ¬ slug_free (working s) (candidate_slug base j).
Proof.
  intros Hu. unfold _unique_slug. erewrite bind_run by reflexivity.
  set (n := size (stores (working s))).
  destruct (slug_loop_run (S n) base 0 env s Hu) as [(k & _ & Hrun & Hf & Hj)|Hall].
  - exists k. split_and!; [done..|]. intros j Hjk Hfree.
    assert (candidate_slug base j ∈ st_slug <$> rows (stores (working s))) as Hin
      by (apply Hj; lia).
    apply list_elem_of_fmap in Hin as (r & E & [k' Hk']%elem_of_rows).
    by eapply Hfree.
  - exfalso.
    assert ((candidate_slug base ∘ N.of_nat) <$> seq 0 (S n)
      ⊆+ (st_slug <$> rows (stores (working s)))) as Hsub.
    { apply NoDup_submseteq.
      - apply NoDup_fmap; [|apply NoDup_seq].
        intros i j E%candidate_slug_inj. lia.
      - intros x (i & -> & Hi%elem_of_seq)%list_elem_of_fmap. apply Hall. lia. }
    apply submseteq_length in Hsub. revert Hsub. unfold rows.
    rewrite !length_fmap, length_seq, length_map_to_list. unfold n. lia.
Qed.

(** ** The shape of a slug *)

(** Slug characters with single hyphens; [in_run] forbids a hyphen here. *)
Fixpoint runs_ok (in_run : bool) (l : list ascii) : bool :=
  match l with
  | [] => true
  | c :: l' =>
      if slug_char c then runs_ok false l'
      else is_hyphen c && negb in_run && runs_ok true l'
  end.

Lemma hyphen_no_slug_char : slug_char "-" = false.
Proof. reflexivity. Qed.

Lemma sub_runs_ok b l : runs_ok b (sub_runs b l) = true.
Proof.
  revert b. induction l as [|c l IH]; intros b; cbn [sub_runs]; [done|].
  destruct (slug_char c) eqn:Ec; cbn [runs_ok].
  - rewrite Ec. apply IH.
  - destruct b; [apply IH|]. cbn [runs_ok]. rewrite hyphen_no_slug_char. apply (IH true).
Qed.

Lemma sub_runs_id b l : runs_ok b l = true → sub_runs b l = l.
Proof.
  revert b. induction l as [|c l IH]; intros b; cbn; [done|].
  destruct (slug_char c); intros H; [by rewrite IH|].
  destruct b; [by rewrite andb_false_r in H|]. rewrite andb_true_r in H.
  apply andb_prop in H as [Hc H]. apply bool_decide_eq_true_1 in Hc as ->. by rewrite IH.
Qed.

Lemma runs_ok_weaken l : runs_ok true l = true → runs_ok false l = true.
Proof. destruct l as [|c l]; cbn; [done|]. destruct (slug_char c); [done|]. by rewrite andb_false_r. Qed.

Lemma runs_ok_suffix b l1 l2 : runs_ok b (l1 ++ l2) = true → runs_ok false l2 = true.
Proof.
  revert b. induction l1 as [|c l1 IH]; intros b; cbn.
  - destruct b; [apply runs_ok_weaken|done].
  - destruct (slug_char c); [apply IH|]. intros [_ H]%andb_prop. by eapply IH.
Qed.
Lemma runs_ok_prefix b l1 l2 : runs_ok b (l1 ++ l2) = true → runs_ok b l1 = true.
Proof.
  revert b. induction l1 as [|c l1 IH]; intros b; cbn; [done|].
  destruct (slug_char c); [apply IH|]. intros [-> H]%andb_prop. cbn. by eapply IH.
Qed.

(** A slug of the right shape: not empty, slug characters and single hyphens,
    no hyphen at either end. *)
Definition url_slug (l : list ascii) : Prop :=
  l ≠ [] ∧ runs_ok false l = true ∧ front_clean is_hyphen l ∧ front_clean is_hyphen (reverse l).

Lemma runs_ok_lower b l :
  runs_ok b l = true → Forall (λ c, ascii_lower c = c) l.
Proof.
  revert b. induction l as [|c l IH]; intros b; cbn; [constructor|].
  destruct (slug_char c) eqn:Ec; intros H; constructor.
  - unfold slug_char in Ec. apply bool_decide_eq_true_1 in Ec.
    unfold ascii_lower. apply decide_False. lia.
  - by eapply IH.
  - apply andb_prop in H as [[Hc _]%andb_prop _].
    apply bool_decide_eq_true_1 in Hc as ->. reflexivity.
  - apply andb_prop in H as [_ H]. by eapply IH.
Qed.

Lemma lower_chars s :
  String.list_ascii_of_string (str_lower s) =
  ascii_lower <$> String.list_ascii_of_string s.
Proof. induction s as [|c s IH]; cbn; [done|]. by rewrite IH. Qed.

Lemma lower_id l : Forall (λ c, ascii_lower c = c) l → ascii_lower <$> l = l.
Proof. induction 1 as [|c l Hc _ IH]; cbn; [done|]. by rewrite Hc, IH. Qed.

Lemma slugify_shape v : url_slug (String.list_ascii_of_string (_slugify v)).
Proof.
  unfold _slugify. set (l := sub_runs false _).
  destruct (strip_both is_hyphen l) as [|c l'] eqn:E.
  - by split_and!; vm_compute.
  - rewrite String.list_ascii_of_string_of_list_ascii, <- E.
    split; [by rewrite E|]. split; [|apply strip_both_clean].
    destruct (strip_both_infix is_hyphen l) as (l1 & l2 & El).
    assert (runs_ok false l = true) as Hl by apply sub_runs_ok.
    rewrite El in Hl. apply runs_ok_suffix in Hl. by apply runs_ok_prefix in Hl.
Qed.

Lemma slugify_id v :
  url_slug (String.list_ascii_of_string v) → _slugify v = v.
Proof.
  intros (Hne & Hr & Hf & Hb). unfold _slugify. rewrite lower_chars.
  rewrite lower_id by by eapply runs_ok_lower.
  rewrite sub_runs_id, strip_both_id by done.
  destruct (String.list_ascii_of_string v) as [|c l] eqn:E; [done|].
  by rewrite <- E, String.string_of_list_ascii_of_string.
Qed.
