(* ===== verification/StoreProps.v ===== *)
(** * Correctness of stores, seller profiles and the dashboard *)

From Stdlib Require Import Ascii.
From S2P Require Import Prelude.
From S2P Require Import Exceptions.
From S2P Require Import Models.
From S2P Require Import Session.
From S2P Require Import SessionFacts.
From S2P Require Import PyString.
From S2P Require Import Orders.
From S2P Require Import OrdersFacts.
From S2P Require Import RetentionFacts.
From S2P Require Import OrderMachine.
From S2P Require Import Fixtures.
From S2P Require Import Stores.
From S2P Require Import StoreFacts.
#[local] Open Scope string_scope.
#[local] Open Scope list_scope.

(** ** Slugs *)

(** the slug made from any text is not empty, consists
    of lower-case letters, digits and single hyphens between them, and making a
    slug of a slug changes nothing. *)
Theorem slugify_normalizes text :
  url_slug (String.list_ascii_of_string (_slugify text)) ∧
  _slugify (_slugify text) = _slugify text.
Proof. pose proof (slugify_shape text) as Hs. split; [done|]. by apply slugify_id. Qed.

(** ** Opening a store *)

(** The slug the service starts from. *)
Definition wanted_slug (name : string) (slug : option string) : string :=
  match slug with
  | None | Some "" => _slugify name
  | Some text => str_lower (strip text)
  end.

(** The profile of an active seller. *)
Definition seller_profile (d : DB) (caller : User) (sl : Seller) : Prop :=
  (∃ k, sellers d !! k = Some sl) ∧ se_user_id sl = u_id caller ∧ se_deleted_at sl = None.

Lemma caller_seller_Ok env s s' caller sl :
  _get_caller_seller caller env s = (Ok sl, s') →
  s' = s ∧ seller_profile (working s) caller sl.
Proof.
  unfold _get_caller_seller. intros H. inv_run.
  match type of H with (match ?x with _ => _ end) _ _ = _ => destruct x end; inv_run.
  match goal with H : filter _ _ = _ |- _ => apply selected_Some in H as ([??] & ? & _) end.
  by split_and!.
Qed.

(** A seller has at most one profile, so the query finds it. *)
Lemma caller_seller_run env s caller sl :
  unique_rows (R:=Seller) (working s) → seller_profile (working s) caller sl →
  _get_caller_seller caller env s = (Ok sl, s).
Proof.
  intros Hu ([k Hk] & Hid & Hdel). unfold _get_caller_seller.
  erewrite bind_run by apply select_one_eq. cbn.
  rewrite (selected_unique (sellers (working s)) _ k sl); [done|done|by split|].
  intros k' x Hx [Hx' _]. destruct (decide (k' = k)) as [|Hne]; [done|].
  exfalso. eapply (Hu k' k x sl Hx Hk Hne). cbn. congruence.
Qed.

(** The rows [create_store] flushes. *)
Definition new_store (env : Env) (sl : Seller) (name : string) (description : option string)
    (is_public : bool) (slug : string) : Store :=
  mkStore (uuids env 0) (se_id sl) (strip name) slug (strip (default "" description)) true
    is_public (server_now env) None.
Definition with_city (sl : Seller) (city : string) : Seller := sl <| se_city := strip city |>.

(** Up to the flush, when the seller has no live store. *)
Lemma create_store_flush env d caller name city description slug is_public sl :
  unique_rows (R:=Seller) d → unique_rows (R:=Store) d → seller_profile d caller sl →
  strip name ≠ "" → strip city ≠ "" →
  (∀ k r, stores d !! k = Some r → ¬ store_of sl r) →
  ∃ n s1, let final := candidate_slug (wanted_slug name slug) n in
    slug_free d final ∧
    (∀ j, (j < n)%N → ¬ slug_free d (candidate_slug (wanted_slug name slug) j)) ∧
    committed s1 = d ∧ working s1 = d ∧
    create_store caller name city description slug is_public env (open_session d) =
      (except_integrity (save (with_city sl city) ;;
          insert_row (new_store env sl name description is_public final))
        (rollback ;; raise StoreAlreadyExists) ;;
       mret (new_store env sl name description is_public final)) env s1.
Proof.
  intros Hus Hut Hsl Hname Hcity Hno. unfold create_store.
  rewrite !raise_if_run, (decide_False (P := city = "" ∨ _)),
    (decide_False (P := name = "" ∨ _)); [|by intros [->|]..].
  rewrite (bind_run _ _ _ _ _ _ (caller_seller_run env (open_session d) caller sl Hus Hsl)).
  erewrite bind_run by apply select_one_eq. cbn.
  rewrite (proj2 (selected_nil (stores d) (store_of sl)) Hno). cbn.
  rewrite raise_if_run, decide_False by apply is_Some_None.
  destruct (unique_slug_run (wanted_slug name slug) env (open_session d) Hut)
    as (n & Hrun & Hf & Hj).
  rewrite (bind_run _ _ _ _ _ _ Hrun). exists n. eexists.
  split_and!; [exact Hf|exact Hj|..]; [| |by repeat erewrite bind_run by reflexivity]; done.
Qed.

Lemma seller_city_saved d caller sl city env s :
  keyed (R:=Seller) d → valid_rows Seller d → unique_rows (R:=Seller) d →
  seller_profile d caller sl → working s = d →
  save (with_city sl city) env s =
    (Ok tt, s <| working ::= on_table (<[se_id sl := with_city sl city]>) |>).
Proof.
  intros Hk Hv Hu ([k Hsl] & _) Hw. pose proof (Hk _ _ Hsl) as Hid. cbn in Hid.
  refine (save_runs (with_city sl city) sl env s _ eq_refl (Hv _ _ Hsl) _);
    [by rewrite Hw; cbn; subst k|].
  apply no_conflict_spec. rewrite Hw. intros k' r Hr Hne Hc. cbn in *.
  eapply (Hu k k' sl r Hsl Hr); [|done]. intros ->. apply Hne. congruence.
Qed.

Lemma live_store_dec d sl :
  (∃ k r, stores d !! k = Some r ∧ store_of sl r) ∨
  (∀ k r, stores d !! k = Some r → ¬ store_of sl r).
Proof.
  destruct (decide (Exists (store_of sl) (rows (stores d)))) as [Hl|Hl]; [left|right].
  - apply Exists_exists in Hl as (r & [k Hr]%elem_of_rows & Hof). by exists k, r.
  - intros k r Hr Hof. apply Hl, Exists_exists. exists r.
    split; [apply elem_of_rows; by exists k|done].
Qed.

(** A second live store is refused before anything is written. *)
Lemma create_store_refused env d caller name city description slug is_public sl k r :
  unique_rows (R:=Seller) d → unique_rows (R:=Store) d → seller_profile d caller sl →
  strip name ≠ "" → strip city ≠ "" → stores d !! k = Some r → store_of sl r →
  create_store caller name city description slug is_public env (open_session d) =
    (Raised StoreAlreadyExists, open_session d).
Proof.
  intros Hus Hut Hsl Hname Hcity Hr Hof. unfold create_store.
  rewrite !raise_if_run, (decide_False (P := city = "" ∨ _)),
    (decide_False (P := name = "" ∨ _)); [|by intros [->|]..].
  rewrite (bind_run _ _ _ _ _ _ (caller_seller_run env (open_session d) caller sl Hus Hsl)).
  erewrite bind_run by apply select_one_eq. cbn.
  rewrite (selected_unique (stores d) (store_of sl) k r); [|done|done|].
  - cbn. by rewrite raise_if_run, decide_True by by eexists.
  - intros k' x Hx [Hx' _]. destruct (decide (k' = k)) as [|Hne]; [done|].
    exfalso. eapply (Hut k' k x r Hx Hr Hne). left. destruct Hof. congruence.
Qed.

Lemma except_run_Ok {A} (m1 m2 : M unit) (h : M unit) (a : A) env s1 s2 s3 :
  m1 env s1 = (Ok tt, s2) → m2 env s2 = (Ok tt, s3) →
  (except_integrity (m1 ;; m2) h ;; mret a) env s1 = (Ok a, s3).
Proof. intros H1 H2. unfold except_integrity, mbind, M_bind. by rewrite H1, H2. Qed.

Lemma except_run_conflict {A} (m1 m2 : M unit) (h : M unit) (a : A) e env s1 s2 s3 :
  m1 env s1 = (Ok tt, s2) → m2 env s2 = (Raised IntegrityError, s3) →
  h env s3 = (Raised e, s3 <| working := committed s3 |>) →
  (except_integrity (m1 ;; m2) h ;; mret a) env s1 = (Raised e, s3 <| working := committed s3 |>).
Proof. intros H1 H2 H3. unfold except_integrity, mbind, M_bind. by rewrite H1, H2, H3. Qed.

Lemma except_run_other {A} (m1 m2 : M unit) (h : M unit) (a : A) e env s1 s2 s3 :
  m1 env s1 = (Ok tt, s2) → m2 env s2 = (Raised e, s3) → e ≠ IntegrityError →
  (except_integrity (m1 ;; m2) h ;; mret a) env s1 = (Raised e, s3).
Proof.
  intros H1 H2 He. unfold except_integrity, mbind, M_bind. rewrite H1, H2.
  by destruct e as [|[]].
Qed.

(** The texts fit their columns. *)
Definition store_fits (name slug : string) : Prop := varchar 255 (strip name) ∧ varchar 255 slug.
Lemma store_column env sl name description is_public slug :
  column_error (new_store env sl name description is_public slug) =
    if decide (store_fits name slug) then None else Some DataError.
Proof.
  cbn. unfold check, store_fits. repeat case_decide; naive_solver.
Qed.

(** C33: opening a store terminates with the first free slug among the wanted
    one and its numbered variants, and writes exactly the new store, under a
    trimmed non-empty name, and the city of the profile, if name and slug fit
    their columns (a number can make a slug too long, which is an unhandled
    error); a seller who has, or ever had, a store is always refused; and
    whatever is refused writes nothing. *)
Theorem create_store_spec env d caller name city description slug is_public out d' sl :
  keyed (R:=Seller) d → keyed (R:=Store) d → valid_rows Seller d →
  unique_rows (R:=Seller) d → unique_rows (R:=Store) d →
  seller_profile d caller sl → strip name ≠ "" → strip city ≠ "" →
  get_db (create_store caller name city description slug is_public) env d = (out, d') →
  ∃ n, let final := candidate_slug (wanted_slug name slug) n in
  slug_free d final ∧
  (∀ j, (j < n)%N → ¬ slug_free d (candidate_slug (wanted_slug name slug) j)) ∧
  ((∀ k r, stores d !! k = Some r → st_seller_id r ≠ se_id sl) →
     stores d !! uuids env 0 = None →
     if decide (store_fits name final) then
       ∃ store,
         out = Ok store ∧ st_id store = uuids env 0 ∧ st_seller_id store = se_id sl ∧
         st_name store = strip name ∧ st_is_public store = is_public ∧ st_slug store = final ∧
         d' = d <| sellers ::= <[se_id sl := sl <| se_city := strip city |>]> |>
                <| stores ::= <[st_id store := store]> |>
     else out = Raised DataError ∧ d' = d) ∧
  ((∃ k r, stores d !! k = Some r ∧ st_seller_id r = se_id sl) →
     d' = d ∧ (out = Raised StoreAlreadyExists ∨ ¬ store_fits name final ∧ out = Raised DataError)).
Proof.
  intros Hks Hkt Hvs Hus Hut Hsl Hname Hcity Hrun.
  destruct (live_store_dec d sl) as [(k & r & Hr & Hof)|Hno].
  { destruct (unique_slug_run (wanted_slug name slug) env (open_session d) Hut)
      as (n & _ & Hf & Hj).
    exists n. split_and!; [exact Hf|exact Hj|intros Hnone; exfalso; exact (Hnone k r Hr (proj1 Hof))|].
    intros _. unfold get_db in Hrun.
    rewrite (create_store_refused env d caller name city description slug is_public sl k r
      Hus Hut Hsl Hname Hcity Hr Hof) in Hrun. simplify_eq. split; [done|by left]. }
  destruct (create_store_flush env d caller name city description slug is_public sl
    Hus Hut Hsl Hname Hcity Hno) as (n & s1 & Hfree & Hj & Hc1 & Hw1 & Hcs).
  exists n. cbn zeta. set (final := candidate_slug _ n) in *.
  set (store := new_store env sl name description is_public final) in *.
  pose proof (seller_city_saved d caller sl city env s1 Hks Hvs Hus Hsl Hw1) as Hsave.
  set (s2 := s1 <| working ::= _ |>) in Hsave.
  assert (stores (working s2) = stores d) as Hst by (by rewrite <- Hw1).
  pose proof (store_column env sl name description is_public final) as Hcol. fold store in Hcol.
  unfold get_db in Hrun. rewrite Hcs in Hrun. split_and!; [exact Hfree|exact Hj|..].
  - intros Hnone Hfresh. case_decide as Hfit.
    + assert (insert_row store env s2 =
        (Ok tt, s2 <| working ::= on_table (<[st_id store := store]>) |>)) as Hins.
      { refine (insert_runs store env s2 _ Hcol _ _); cbn [table stores_table];
          rewrite ?Hst; [exact Hfresh| |].
        - apply no_conflict_spec. intros k r Hr _ [E|E]; cbn in E;
            [by eapply Hnone|by eapply Hfree].
        - repeat constructor. unfold target_exists, s2. cbn. rewrite lookup_insert_eq. by eexists. }
      exists store. rewrite (except_run_Ok _ _ _ _ _ _ _ _ Hsave Hins) in Hrun.
      injection Hrun as <- <-. split_and!; try done. subst s2. cbn. by rewrite Hw1.
    + assert (insert_row store env s2 = (Raised DataError, s2)) as Hins
        by (apply insert_rejected; [cbn [table stores_table]; by rewrite Hst|exact Hcol]).
      rewrite (except_run_other _ _ _ _ DataError _ _ _ _ Hsave Hins) in Hrun by discriminate.
      by injection Hrun as <- <-.
  - intros (k & r & Hr & Hsid).
    assert (∀ s3, insert_row store env s2 = (Raised IntegrityError, s3) → s3 = s2 →
      d' = d ∧ out = Raised StoreAlreadyExists) as Hrefused.
    { intros s3 Hins ->.
      rewrite (except_run_conflict _ _ _ _ StoreAlreadyExists _ _ _ _ Hsave Hins) in Hrun by done.
      by injection Hrun as <- <-. }
    destruct (stores d !! st_id store) as [x|] eqn:Hx.
    { edestruct Hrefused as [Hd Hout]; [|reflexivity|by split; [|left]].
      apply insert_exists. cbn [table stores_table]. rewrite Hst. by eexists. }
    case_decide as Hfit.
    + edestruct Hrefused as [Hd Hout]; [|reflexivity|by split; [|left]].
      apply insert_fails; [exact Hcol|right]. cbn [table stores_table]. rewrite Hst.
      apply Exists_exists. exists r. split; [apply elem_of_rows; by exists k|].
      split; [|by left]. intros E. pose proof (Hkt _ _ Hr) as Hp. cbn in E, Hp, Hx. congruence.
    + assert (insert_row store env s2 = (Raised DataError, s2)) as Hins
        by (apply insert_rejected; [cbn [table stores_table]; by rewrite Hst|exact Hcol]).
      rewrite (except_run_other _ _ _ _ DataError _ _ _ _ Hsave Hins) in Hrun by discriminate.
      injection Hrun as <- <-. split; [done|by right].
Qed.

(** ** The dashboard *)

(** The lifetime figures of a seller: the sum and the number of the snapshots. *)
Definition lifetime (d : DB) (sid : uuid) : Z * Z :=
  let l := filter (λ sn, sn_seller_id sn = sid) (rows (order_analytics_snapshots d)) in
  (sum_totals l, Z.of_nat (length l)).

#[export] Instance sum_totals_perm : Proper ((≡ₚ) ==> eq) sum_totals.
Proof. intros l l' Hp. unfold sum_totals. induction Hp; cbn; lia. Qed.

Lemma rows_insert {R} (t : gmap uuid R) k r :
  t !! k = None → rows (<[k := r]> t) ≡ₚ r :: rows t.
Proof. intros Hk. unfold rows. by rewrite map_to_list_insert. Qed.

(** One more snapshot. *)
Lemma lifetime_recorded d sid sn :
  order_analytics_snapshots d !! sn_id sn = None →
  lifetime (d <| order_analytics_snapshots ::= <[sn_id sn := sn]> |>) sid =
    if decide (sn_seller_id sn = sid)
    then ((lifetime d sid).1 + sn_total_minor sn, (lifetime d sid).2 + 1)%Z
    else lifetime d sid.
Proof.
  intros Hf. unfold lifetime. cbn. rewrite rows_insert by done. rewrite filter_cons.
  case_decide; [|done]. unfold sum_totals. cbn [length foldr fst snd]. f_equal; lia.
Qed.

(** Snapshots that stay are still counted. *)
Lemma lifetime_count_grows d d' sid :
  keyed (R:=OrderAnalyticsSnapshot) d → snapshots_grow d d' →
  ((lifetime d sid).2 ≤ (lifetime d' sid).2)%Z.
Proof.
  intros Hk Hg. unfold lifetime. cbn. apply inj_le, submseteq_length, NoDup_submseteq.
  - apply NoDup_filter. apply (NoDup_fmap_1 sn_id). exact (keyed_rows_NoDup (R:=OrderAnalyticsSnapshot) d Hk).
  - intros sn [Hs [k Hk']]%elem_of_selected. apply elem_of_selected.
    split; [done|]. exists k. by apply Hg.
Qed.

Lemma get_dashboard_Ok env d d' caller sid dash :
  keyed (R:=Seller) d →
  get_db (get_dashboard caller (Some sid)) env d = (Ok dash, d') →
  d' = d ∧ u_role caller = admin ∧ db_seller_id dash = sid ∧
  (lifetime_sales_amount dash, lifetime_orders_count dash) = lifetime d sid.
Proof.
  intros Hk H. apply get_db_Ok in H as (s' & H & ->).
  unfold get_dashboard, _get_platform_currency in H. inv_run.
  match goal with H : (match ?x with _ => _ end) _ _ = _ |- _ => destruct x eqn:Hs end; inv_run.
  apply Hk in Hs. cbn in Hs. subst. split_and!; [done| |done..].
  apply dec_stable. done.
Qed.

Lemma lifetime_written o d d' sid :
  snapshot_written o d d' →
  lifetime d' sid =
    if decide (o_seller_id o = sid ∧ ¬ has_snapshot (o_id o) d)
    then ((lifetime d sid).1 + o_total_minor o, (lifetime d sid).2 + 1)%Z
    else lifetime d sid.
Proof.
  intros [(k & sn & Hk & Hsn & ->)|(sn & Hf & (_ & Hsid & _ & _ & _ & Ht & _) & Hno & ->)].
  - rewrite decide_False; [done|]. intros [_ Hn]. apply Hn. by exists k, sn.
  - rewrite lifetime_recorded, Hsid, Ht by done. apply decide_ext.
    split; [|by intros [? _]]. intros E. split; [done|].
    intros (k & r & Hk & Hr). by eapply Hno.
Qed.

Lemma snapshot_written_sellers o d d' : snapshot_written o d d' → sellers d' = sellers d.
Proof. by intros [(k & sn & _ & _ & ->)|(sn & _ & _ & _ & ->)]. Qed.
Lemma written_keyed o d d' :
  keyed (R:=OrderAnalyticsSnapshot) d → snapshot_written o d d' →
  keyed (R:=OrderAnalyticsSnapshot) d'.
Proof.
  intros Hk [(_ & _ & _ & _ & ->)|(sn & _ & _ & _ & ->)]; [done|].
  intros k r. cbn. intros [[<- <-]|[_ Hr]]%lookup_insert_Some; [done|by apply Hk].
Qed.

(** Completing an order raises the lifetime
    sales of its seller on the dashboard by exactly the total of the order and
    the lifetime number of orders by one, unless the order was recorded before,
    and leaves the figures of every other seller alone; no later request of the
    order service, be it the deletion of the order, ever takes an order out of
    the count. *)
Theorem dashboard_counts_completions env d d' customer oid lo :
  keyed (R:=Seller) d → keyed (R:=OrderAnalyticsSnapshot) d → keyed (R:=Order) d →
  get_db (complete_order customer oid) env d = (Ok lo, d') →
  ∃ o, orders d !! oid = Some o ∧
  ∀ sid adm env1 env2 dash dash' d1 d2,
    get_db (get_dashboard adm (Some sid)) env1 d = (Ok dash, d1) →
    get_db (get_dashboard adm (Some sid)) env2 d' = (Ok dash', d2) →
    (if decide (o_seller_id o = sid ∧ ¬ has_snapshot oid d)
     then lifetime_sales_amount dash' = lifetime_sales_amount dash + o_total_minor o ∧
          lifetime_orders_count dash' = lifetime_orders_count dash + 1
     else lifetime_sales_amount dash' = lifetime_sales_amount dash ∧
          lifetime_orders_count dash' = lifetime_orders_count dash)%Z ∧
    ∀ d3 env3 dash3 d4, well_keyed d' → rtc order_request d' d3 → keyed (R:=Seller) d3 →
      get_db (get_dashboard adm (Some sid)) env3 d3 = (Ok dash3, d4) →
      (lifetime_orders_count dash' ≤ lifetime_orders_count dash3)%Z.
Proof.
  intros Hks Hkn Hko H. apply get_db_Ok in H as (s' & H & ->).
  apply complete_order_Ok in H as (o & t & o' & Ho & _ & _ & _ & -> & Hw). cbn in Hw, Ho.
  exists o. split; [done|]. pose proof (Hko _ _ Ho) as Hid. cbn in Hid.
  apply written_keyed in Hw as Hkn'; [|exact Hkn].
  intros sid adm env1 env2 dash dash' d1 d2 H1 H2.
  apply get_dashboard_Ok in H1 as (_ & _ & _ & E1); [|done].
  apply get_dashboard_Ok in H2 as (_ & _ & _ & E2); [|].
  2: { apply snapshot_written_sellers in Hw. unfold keyed. cbn. rewrite Hw. exact Hks. }
  assert (lifetime (working s') sid =
    if decide (o_seller_id o = sid ∧ ¬ has_snapshot oid d)
    then ((lifetime d sid).1 + o_total_minor o, (lifetime d sid).2 + 1)%Z
    else lifetime d sid) as Hl.
  { rewrite <- Hid. exact (lifetime_written _ _ _ sid Hw). }
  split.
  - rewrite <- E1, <- E2 in Hl. cbn in Hl. case_decide; by injection Hl.
  - intros d3 env3 dash3 d4 Hwk Hr Hk3 H3.
    apply get_dashboard_Ok in H3 as (_ & _ & _ & E3); [|done].
    apply (f_equal snd) in E2, E3. cbn in E2, E3. rewrite E2, E3.
    apply lifetime_count_grows; [done|].
    clear -Hwk Hr. induction Hr as [x|x y z Hxy _ IH]; [done|].
    destruct (request_snapshots _ _ Hwk Hxy) as [Hg _]. etrans; [exact Hg|].
    apply IH. by eapply request_well_keyed.
Qed.

(** ** Witnesses *)

(** A second seller, Carol, with a profile and no store. *)
Definition carol : User := mk_user 6 "carol@x" seller None.
Definition carol_profile : Seller := mkSeller 6 6 "Carol" None "Porto" "PT" 0%Z None.
Definition w_two : DB :=
  world <| users ::= <[6%N := carol]> |> <| sellers ::= <[6%N := carol_profile]> |>.

Lemma two_unique : unique_rows (R:=Seller) w_two ∧ unique_rows (R:=Store) w_two.
Proof.
  split.
  - intros k1 k2 r1 r2 H1 H2 Hne Hc.
    assert (map_Forall (λ k r, se_user_id r = k) (sellers w_two)) as Hall
      by (apply (bool_decide_eq_true_1 _); vm_compute; reflexivity).
    apply Hne. rewrite <- (Hall _ _ H1), <- (Hall _ _ H2). exact Hc.
  - intros k1 k2 r1 r2 H1 H2 Hne _.
    exact (Hne (size_one_unique (stores w_two) k1 k2 r1 r2
      ltac:(vm_compute; reflexivity) H1 H2)).
Qed.

(** Carol's shop is called Bob, like the one that is there. *)
Lemma create_store_spec_witness :
  ∃ store, get_db (create_store carol "Bob!" " Porto " None None true) (env_at 1) w_two
      = (Ok store, after (get_db (create_store carol "Bob!" " Porto " None None true)
           (env_at 1) w_two)) ∧ st_slug store = "bob-1".
Proof.
  destruct (get_db (create_store carol "Bob!" " Porto " None None true) (env_at 1) w_two)
    as [out d'] eqn:Hrun.
  assert (∀ k r, stores w_two !! k = Some r → st_seller_id r ≠ 6%N) as Hnone.
  { assert (map_Forall (λ _ r, st_seller_id r ≠ 6%N) (stores w_two)) as Hall
      by (apply (bool_decide_eq_true_1 _); vm_compute; reflexivity).
    exact Hall. }
  destruct (create_store_spec (env_at 1) w_two carol "Bob!" " Porto " None None true out d'
    carol_profile ltac:(apply keyed_eval; vm_compute; reflexivity)
    ltac:(apply keyed_eval; vm_compute; reflexivity)
    ltac:(apply (bool_decide_eq_true_1 _); vm_compute; reflexivity)
    (proj1 two_unique) (proj2 two_unique)
    ltac:(split_and!; [exists 6%N; vm_compute; reflexivity|reflexivity|reflexivity])
    ltac:(vm_compute; discriminate) ltac:(vm_compute; discriminate) Hrun)
    as (n & _ & _ & Hok & _).
  specialize (Hok Hnone ltac:(vm_compute; reflexivity)).
  assert (match out with Ok _ => True | Raised _ => False end) as Hout.
  { assert (match (get_db (create_store carol "Bob!" " Porto " None None true) (env_at 1) w_two).1
      with Ok r => True | Raised _ => False end) as Hs by (vm_compute; exact I).
    rewrite Hrun in Hs. exact Hs. }
  case_decide as Hfit; [|destruct Hok as [-> _]; destruct Hout].
  destruct Hok as (store & -> & _).
  exists store. split; [reflexivity|].
  assert (match (get_db (create_store carol "Bob!" " Porto " None None true) (env_at 1) w_two).1
    with Ok r => st_slug r = "bob-1" | Raised _ => False end) as Hs by (vm_compute; reflexivity).
  rewrite Hrun in Hs. exact Hs.
Defined.

Lemma dashboard_counts_completions_witness :
  ∃ o dash dash', orders w_delivered !! Fixtures.oid = Some o ∧
    (get_db (get_dashboard root_admin (Some 2%N)) (env_at 8) w_completed).1 = Ok dash' ∧
    (get_db (get_dashboard root_admin (Some 2%N)) (env_at 8) w_delivered).1 = Ok dash ∧
    lifetime_sales_amount dash' = (lifetime_sales_amount dash + o_total_minor o)%Z.
Proof.
  destruct (succeeds_run (get_db (complete_order alice Fixtures.oid) (env_at 7) w_delivered))
    as [lo Hlo]; [vm_compute; reflexivity|].
  destruct (succeeds_run (get_db (get_dashboard root_admin (Some 2%N)) (env_at 8) w_completed))
    as [dash' Hd']; [vm_compute; reflexivity|].
  destruct (succeeds_run (get_db (get_dashboard root_admin (Some 2%N)) (env_at 8) w_delivered))
    as [dash Hd]; [vm_compute; reflexivity|].
  destruct (dashboard_counts_completions (env_at 7) w_delivered _ alice Fixtures.oid lo
    ltac:(apply keyed_eval; vm_compute; reflexivity)
    ltac:(apply keyed_eval; vm_compute; reflexivity)
    ltac:(apply keyed_eval; vm_compute; reflexivity) Hlo) as (o & Ho & Hdash).
  exists o, dash, dash'. split; [exact Ho|]. split; [by rewrite Hd'|]. split; [by rewrite Hd|].
  destruct (Hdash 2%N root_admin (env_at 8) (env_at 8) dash dash' _ _ Hd Hd') as [Hsum _].
  rewrite decide_True in Hsum; [exact (proj1 Hsum)|]. split.
  - assert (o_seller_id <$> orders w_delivered !! Fixtures.oid = Some 2%N) as Hs
      by (vm_compute; reflexivity).
    rewrite Ho in Hs. by injection Hs.
  - intros (k & sn & Hk & _).
    assert (map_Forall (λ _ _, False) (order_analytics_snapshots w_delivered)) as Hall
      by (apply (bool_decide_eq_true_1 _); vm_compute; reflexivity).
    exact (Hall _ _ Hk).
Defined.
