(* ===== verification/Products.v ===== *)
(** * The product catalogue

    [services/product_service.py] and the routes of [api/v1/products.py]: the
    seller's products with their images, and who sees which product. *)

From S2P Require Import Prelude.
From S2P Require Import Exceptions.
From S2P Require Import Models.
From S2P Require Import Session.
From S2P Require Import SessionFacts.
From S2P Require Import PyString.
From S2P Require Import Orders.
From S2P Require Import Stores.
#[local] Open Scope string_scope.
#[local] Open Scope Z_scope.

(** A product with its loaded collection of images. *)
Record LoadedProduct := mkLoadedProduct {
  lp_product : Product;
  lp_images : list ProductImage;
}.

(** The image metadata of a request. *)
Record ImageSpec := mkImageSpec { s3_key : string; display_order : Z }.

Definition image_of (product_id : uuid) (i : ProductImage) : Prop :=
  pi_product_id i = product_id.
#[export] Instance image_of_dec pid i : Decision (image_of pid i).
Proof. unfold image_of. apply _. Defined.

Definition _get_caller_store (sl : Seller) : M Store :=
  found ← select_one (store_of sl);
  match found with
  | None => raise StoreNotFound
  | Some store => mret store
  end.

(** The collection is loaded [ORDER BY display_order]. *)
Definition load_images (product_id : uuid) : M (list ProductImage) :=
  images ← select (image_of product_id);
  mret (order_by_asc pi_display_order images).

Definition _load_product_with_images (product_id : uuid) : M (option LoadedProduct) :=
  found ← get_row (R:=Product) product_id;
  match found with
  | None => mret None
  | Some p =>
      images ← load_images product_id;
      mret (Some (mkLoadedProduct p images))
  end.

(** Construct and add one image per specification. *)
Fixpoint add_images (product_id : uuid) (specs : list ImageSpec) : M (list ProductImage) :=
  match specs with
  | [] => mret []
  | spec :: specs' =>
      image_id ← uuid4;
      let image := mkProductImage image_id product_id (s3_key spec) (display_order spec) in
      insert_row image;;
      rest ← add_images product_id specs';
      mret (image :: rest)
  end.

(** The flush of [images.clear()] and the appends: the new rows are inserted,
    then the orphans are deleted. *)
Definition _replace_images (product : LoadedProduct) (specs : list ImageSpec) :
    M (list ProductImage) :=
  images ← add_images (p_id (lp_product product)) specs;
  delete_where (λ i : ProductImage, pi_id i ∈ (pi_id <$> lp_images product));;
  mret images.

Definition create_product (caller : User) (name : string) (price_minor : Z)
    (description : option string) (stock_quantity : option Z) (images : list ImageSpec)
    (store_id : option uuid) : M LoadedProduct :=
  sl ← _get_caller_seller caller;
  store ← _get_caller_store sl;
  raise_if (¬ nullable (λ sid, sid = st_id store) store_id) StoreNotFound;;
  product_id ← uuid4;
  created_at ← read_env server_now;
  let product := mkProduct product_id (se_id sl) (st_id store) (strip name)
                   (strip (default "" description)) price_minor stock_quantity true
                   product_active None None created_at None in
  insert_row product;;
  add_images product_id images;;
  loaded ← _load_product_with_images product_id;
  assert_some loaded.

(** The owner check of the two writing operations. *)
Definition ensure_owner (caller : User) (product : Product) : M unit :=
  match u_role caller with
  | admin => mret tt
  | seller =>
      sl ← _get_caller_seller caller;
      raise_if (p_seller_id product ≠ se_id sl) ProductNotFound
  | _ => raise ProductOwnershipError
  end.

(** [if v is not None: product.field = f(v)] *)
Definition assign_opt {A} (v : option A) (set : A → Product → Product) (p : Product) : Product :=
  match v with Some a => set a p | None => p end.

Definition update_product (caller : User) (product_id : uuid)
    (name description : option string) (price_minor stock_quantity : option Z)
    (is_active : option bool) (images : option (list ImageSpec)) : M LoadedProduct :=
  found ← _load_product_with_images product_id;
  match found with
  | None => raise ProductNotFound
  | Some lp =>
      let product := lp_product lp in
      raise_if (p_deleted_at product ≠ None) ProductNotFound;;
      ensure_owner caller product;;
      let product := assign_opt name (λ v p, p <| p_name := strip v |>) product in
      let product := assign_opt description (λ v p, p <| p_description := strip v |>) product in
      let product := assign_opt price_minor (λ v p, p <| p_price_minor := v |>) product in
      let product :=
        assign_opt stock_quantity (λ v p, p <| p_stock_quantity := Some v |>) product in
      let product := assign_opt is_active (λ v p, p <| p_is_active := v |>) product in
      save product;;
      collection ← match images with
                   | None => mret (lp_images lp)
                   | Some specs => _replace_images lp specs
                   end;
      loaded ← get_row (R:=Product) (p_id product);
      product ← assert_some loaded;
      mret (mkLoadedProduct product collection)
  end.

Definition soft_delete_product (caller : User) (product_id : uuid) : M unit :=
  found ← get_row (R:=Product) product_id;
  match found with
  | None => raise ProductNotFound
  | Some product =>
      raise_if (p_deleted_at product ≠ None) ProductNotFound;;
      ensure_owner caller product;;
      _now ← now;
      save (product <| p_deleted_at := Some _now |> <| p_is_active := false |>)
  end.

Definition get_product_for_caller (caller : User) (product_id : uuid) : M LoadedProduct :=
  found ← _load_product_with_images product_id;
  match found with
  | None => raise ProductNotFound
  | Some lp =>
      let product := lp_product lp in
      raise_if (p_deleted_at product ≠ None) ProductNotFound;;
      match u_role caller with
      | admin => mret lp
      | seller =>
          sl ← _get_caller_seller caller;
          raise_if (p_seller_id product ≠ se_id sl) ProductNotFound;;
          mret lp
      | customer =>
          store_pub ← get_row (R:=Store) (p_store_id product);
          if from_option st_is_public false store_pub then mret lp
          else
            raise_if (u_referring_seller_id caller ≠ Some (p_seller_id product))
              ProductNotFound;;
            mret lp
      | driver => raise ProductNotFound
      end
  end.


(** The joined store of a product a customer sees in the listing. *)
Definition shown_to_customer (caller : User) (stores : gmap uuid Store) (p : Product) : Prop :=
  match stores !! p_store_id p with
  | Some store =>
      st_deleted_at store = None ∧
      (st_is_public store = true ∨ u_referring_seller_id caller = Some (p_seller_id p))
  | None => False
  end.
#[export] Instance shown_to_customer_dec caller t p : Decision (shown_to_customer caller t p).
Proof. unfold shown_to_customer. destruct (t !! p_store_id p); apply _. Defined.

Definition list_products_for_caller (caller : User) (store_id seller_id : option uuid)
    (limit : Z) : M (list Product) :=
  let page found :=
    take (Z.to_nat (Z.min (Z.max limit 1) 100)) (order_by_desc p_created_at found) in
  match u_role caller with
  | admin =>
      found ← select (λ p, p_deleted_at p = None ∧ p_is_active p = true ∧
                           nullable (λ a, p_store_id p = a) store_id ∧
                           nullable (λ a, p_seller_id p = a) seller_id);
      mret (page found)
  | seller =>
      sl ← _get_caller_seller caller;
      found ← select (λ p, p_deleted_at p = None ∧ p_is_active p = true ∧
                           p_seller_id p = se_id sl ∧
                           nullable (λ a, p_store_id p = a) store_id);
      mret (page found)
  | customer =>
      joined ← query stores;
      found ← select (λ p, p_deleted_at p = None ∧ p_is_active p = true ∧
                           shown_to_customer caller joined p ∧
                           nullable (λ a, p_seller_id p = a) seller_id ∧
                           nullable (λ a, p_store_id p = a) store_id);
      mret (page found)
  | driver => mret []
  end.

(** ** Responses *)

Record ProductResponse := mkProductResponse {
  pr_id : uuid;
  pr_seller_id : uuid;
  pr_store_id : uuid;
  pr_name : string;
  pr_description : string;
  pr_price_minor : Z;
  pr_stock_quantity : option Z;
  pr_is_active : bool;
  pr_created_at : datetime;
  pr_images : list (uuid * string * Z);
}.
Definition product_to_response_dict (lp : LoadedProduct) : ProductResponse :=
  let p := lp_product lp in
  mkProductResponse (p_id p) (p_seller_id p) (p_store_id p) (p_name p) (p_description p)
    (p_price_minor p) (p_stock_quantity p) (p_is_active p) (p_created_at p)
    ((λ img, (pi_id img, pi_s3_key img, pi_display_order img)) <$>
       order_by_asc pi_display_order (lp_images lp)).

(** [min(images, key=...)]: the first of the least. *)
Definition min_image (first : ProductImage) (images : list ProductImage) : ProductImage :=
  foldl (λ best img, if decide (pi_display_order img < pi_display_order best) then img
                     else best) first images.

Record ProductListItem := mkProductListItem {
  pl_id : uuid;
  pl_seller_id : uuid;
  pl_store_id : uuid;
  pl_name : string;
  pl_price_minor : Z;
  pl_stock_quantity : option Z;
  pl_is_active : bool;
  pl_image_s3_key : option string;
}.
Definition product_to_list_item_dict (lp : LoadedProduct) : ProductListItem :=
  let p := lp_product lp in
  mkProductListItem (p_id p) (p_seller_id p) (p_store_id p) (p_name p) (p_price_minor p)
    (p_stock_quantity p) (p_is_active p)
    match lp_images lp with
    | [] => None
    | first :: images => Some (pi_s3_key (min_image first images))
    end.

(** ** The routes *)

Definition post_product (caller : User) (name : string) (price_minor : Z)
    (description : option string) (stock_quantity : option Z) (images : list ImageSpec)
    (store_id : option uuid) : M ProductResponse :=
  product ← create_product caller name price_minor description stock_quantity images store_id;
  mret (product_to_response_dict product).

Fixpoint load_items (ps : list Product) : M (list ProductListItem) :=
  match ps with
  | [] => mret []
  | p :: ps' =>
      images ← load_images (p_id p);
      rest ← load_items ps';
      mret (product_to_list_item_dict (mkLoadedProduct p images) :: rest)
  end.
Definition list_products (caller : User) (store_id seller_id : option uuid) (limit : Z) :
    M (list ProductListItem) :=
  found ← list_products_for_caller caller store_id seller_id limit;
  load_items found.

Definition get_product (caller : User) (product_id : uuid) : M ProductResponse :=
  product ← get_product_for_caller caller product_id;
  mret (product_to_response_dict product).

Definition patch_product (caller : User) (product_id : uuid)
    (name description : option string) (price_minor stock_quantity : option Z)
    (is_active : option bool) (images : option (list ImageSpec)) : M ProductResponse :=
  product ← update_product caller product_id name description price_minor stock_quantity
              is_active images;
  mret (product_to_response_dict product).
