(* ===== verification/ProductProps.v ===== *)
(** * Correctness of the product catalogue

    What may happen to a product, the column constraints of the catalogue and of
    the orders, and the agreement of the listing with the detail page. *)

From S2P Require Import Prelude.
From S2P Require Import Exceptions.
From S2P Require Import Models.
From S2P Require Import Session.
From S2P Require Import SessionFacts.
From S2P Require Import PyString.
From S2P Require Import Orders.
From S2P Require Import OrderMachine.
From S2P Require Import Fixtures.
From S2P Require Import PyFloat.
From S2P Require Import DeliveryFlow.
From S2P Require Import DeliveryProps.
From S2P Require Import Stores.
From S2P Require Import StoreProps.
From S2P Require Import Products.
#[local] Open Scope string_scope.
#[local] Open Scope Z_scope.

(** ** Requests *)

Inductive CatalogueCall :=
| CreateStore (name city : string) (description slug : option string) (is_public : bool)
| UpdateStore (name city description : option string) (is_active is_public : option bool)
| CreateProduct (name : string) (price : Z) (description : option string) (stock : option Z)
    (images : list ImageSpec) (store_id : option uuid)
| UpdateProduct (pid : uuid) (name description : option string) (price stock : option Z)
    (is_active : option bool) (images : option (list ImageSpec))
| DeleteProduct (pid : uuid).

Definition catalogue_exec (caller : User) (call : CatalogueCall) : M unit :=
  match call with
  | CreateStore name city descr slug pub => ignore (create_store caller name city descr slug pub)
  | UpdateStore name city descr active pub =>
      ignore (update_own_store caller name city descr active pub)
  | CreateProduct name price descr stock images sid =>
      ignore (create_product caller name price descr stock images sid)
  | UpdateProduct pid name descr price stock active images =>
      ignore (update_product caller pid name descr price stock active images)
  | DeleteProduct pid => soft_delete_product caller pid
  end.

Lemma slug_loop_stable Rel `{!SessionRel Rel} fuel base n : stable Rel (slug_loop fuel base n).
Proof. revert n. induction fuel; intros n; cbn; stable_tac. Qed.
#[export] Hint Resolve slug_loop_stable : stable.

Lemma add_images_stable Rel `{!SessionRel Rel} pid specs :
  (∀ i : ProductImage, stable Rel (insert_row i)) → stable Rel (add_images pid specs).
Proof. intros Hi. induction specs; cbn; stable_tac; apply Hi. Qed.

(** [try: m / except IntegrityError: rollback; raise]. *)
Lemma stable_except_rollback Rel `{!SessionRel Rel} {A} (m : M A) (e : exc) :
  stable Rel m → (∀ s, Rel s (s <| working := committed s |>)) →
  stable Rel (except_integrity m (rollback ;; raise e)).
Proof.
  intros Hm Hr env s o s'. unfold except_integrity.
  destruct (m env s) as [[a|[|[]]] s1] eqn:E; cbn; intros [= <- <-];
    try (by eapply Hm); etrans; [by eapply Hm|apply Hr].
Qed.

Ltac stable_catalogue :=
  unfold ignore, update_own_store, create_product, update_product, soft_delete_product,
    ensure_owner, _replace_images, _load_product_with_images, load_images, _get_caller_store,
    Orders._get_caller_seller;
  repeat first
    [ stable_step
    | match goal with |- stable _ (add_images _ _) => apply add_images_stable; [apply _|] end ].

Lemma catalogue_uncommitted caller call : stable same_committed (catalogue_exec caller call).
Proof.
  destruct call; cbn; [|stable_catalogue..].
  unfold ignore, create_store, _unique_slug, Orders._get_caller_seller.
  repeat first
    [ stable_step
    | match goal with |- stable _ (except_integrity _ _) =>
        apply stable_except_rollback; [apply _| |done] end ].
Qed.

(** Opening a store touches the sellers and the stores only. *)
Lemma create_store_writes env s s' caller name city descr slug pub r :
  create_store caller name city descr slug pub env s = (Ok r, s') →
  products (working s') = products (working s) ∧
  product_images (working s') = product_images (working s) ∧
  orders (working s') = orders (working s) ∧
  order_items (working s') = order_items (working s).
Proof.
  unfold create_store. intros H. inv_run.
  match goal with H : _get_caller_seller _ _ _ = _ |- _ =>
    apply caller_seller_Ok in H as [-> _] end.
  match goal with H : _unique_slug _ _ _ = (_, ?s1) |- _ =>
    assert (working s1 = working s) as Hs1 end.
  { assert (SessionRel (λ s s', working s' = working s)).
    { split; [split|]; [done|intros ???; congruence|done]. }
    match goal with H : _unique_slug ?b _ _ = _ |- _ =>
      assert (stable (λ s s', working s' = working s) (_unique_slug b)) as Hst
        by (unfold _unique_slug; stable_tac);
      by apply Hst in H end. }
  match goal with H : except_integrity _ _ _ _ = _ |- _ =>
    apply except_integrity_Ok in H as [H|(s3 & _ & H)] end; inv_run.
  cbn. by rewrite Hs1.
Qed.

(** ** What may happen to a product *)

(** The product belongs to the caller, an active seller, or the caller is an
    admin. *)
Definition may_edit (d : DB) (caller : User) (p : Product) : Prop :=
  u_role caller = admin ∨
  (u_role caller = seller ∧ ∃ sl, seller_profile d caller sl ∧ p_seller_id p = se_id sl).

(** The columns that no request changes. *)
Definition same_identity (p p' : Product) : Prop :=
  p_id p' = p_id p ∧ p_seller_id p' = p_seller_id p ∧ p_store_id p' = p_store_id p ∧
  p_created_at p' = p_created_at p ∧ p_status p' = p_status p ∧
  p_deleted_at p' = p_deleted_at p.

Inductive product_evolves (d : DB) (caller : User) : option Product → option Product → Prop :=
| pe_same x : product_evolves d caller x x
| pe_create p sl store :
    seller_profile d caller sl → (∃ k, stores d !! k = Some store) → store_of sl store →
    p_seller_id p = se_id sl → p_store_id p = st_id store →
    p_deleted_at p = None → column_error p = None →
    product_evolves d caller None (Some p)
| pe_edit p p' :
    may_edit d caller p → p_deleted_at p = None → same_identity p p' → column_error p' = None →
    product_evolves d caller (Some p) (Some p')
| pe_delete p t :
    may_edit d caller p → p_deleted_at p = None →
    product_evolves d caller (Some p)
      (Some (p <| p_deleted_at := Some t |> <| p_is_active := false |>)).

Lemma ensure_owner_Ok env s s' caller p b :
  ensure_owner caller p env s = (Ok b, s') → s' = s ∧ may_edit (working s) caller p.
Proof.
  unfold ensure_owner, may_edit. destruct (u_role caller) eqn:Er; intros H; inv_run.
  - split; [done|by left].
  - match goal with H : Orders._get_caller_seller _ _ _ = _ |- _ =>
      apply caller_seller_Ok in H as [-> Hs] end.
    split; [done|right]. split; [done|]. eexists. split; [exact Hs|]. by apply dec_stable.
Qed.

Lemma load_product_Ok env s s' pid lp :
  _load_product_with_images pid env s = (Ok (Some lp), s') →
  s' = s ∧ products (working s) !! pid = Some (lp_product lp).
Proof.
  unfold _load_product_with_images, load_images. intros H. inv_run.
  match type of H with (match ?x with _ => _ end) _ _ = _ => destruct x eqn:E end; inv_run; by simplify_eq.
Qed.

Lemma add_images_products env s s' pid specs l :
  add_images pid specs env s = (Ok l, s') → products (working s') = products (working s).
Proof.
  intros H. assert (stable (same_table Product) (add_images pid specs)) as Hst
    by (apply add_images_stable; [apply _|intros; stable_tac]).
  by apply Hst in H.
Qed.

Lemma create_product_Ok env s s' caller name price descr stock images sid lp :
  create_product caller name price descr stock images sid env s = (Ok lp, s') →
  ∃ p sl store, seller_profile (working s) caller sl ∧
    (∃ k, stores (working s) !! k = Some store) ∧ store_of sl store ∧
    p_seller_id p = se_id sl ∧ p_store_id p = st_id store ∧ p_deleted_at p = None ∧
    column_error p = None ∧ products (working s) !! p_id p = None ∧
    products (working s') = <[p_id p := p]> (products (working s)).
Proof.
  unfold create_product, _get_caller_store. intros H. inv_run.
  match goal with H : Orders._get_caller_seller _ _ _ = _ |- _ =>
    apply caller_seller_Ok in H as [-> Hs] end.
  match goal with H : (match ?x with _ => _ end) _ _ = _ |- _ => destruct x as [st|] end; inv_run.
  match goal with H : filter _ _ = _ |- _ => apply selected_Some in H as (Hof & Hst & _) end.
  match goal with H : add_images _ _ _ _ = _ |- _ => apply add_images_products in H as Hp end.
  match goal with H : _load_product_with_images _ _ _ = _ |- _ =>
    apply load_product_Ok in H as [-> _] end.
  cbn in Hp. eexists _, _, st. split_and!; try exact Hp; try done.
Qed.

Lemma edited_identity name descr price stock active p :
  same_identity p
    (assign_opt active (λ v p, p <| p_is_active := v |>)
      (assign_opt stock (λ v p, p <| p_stock_quantity := Some v |>)
        (assign_opt price (λ v p, p <| p_price_minor := v |>)
          (assign_opt descr (λ v p, p <| p_description := strip v |>)
            (assign_opt name (λ v p, p <| p_name := strip v |>) p))))).
Proof. by destruct name, descr, price, stock, active. Qed.

Lemma update_product_Ok env s s' caller pid name descr price stock active images lp :
  keyed (R:=Product) (working s) →
  update_product caller pid name descr price stock active images env s = (Ok lp, s') →
  ∃ p p', products (working s) !! pid = Some p ∧ may_edit (working s) caller p ∧
    p_deleted_at p = None ∧ same_identity p p' ∧ column_error p' = None ∧
    products (working s') = <[pid := p']> (products (working s)).
Proof.
  intros Hk. unfold update_product. intros H. inv_run.
  match type of H with (match ?x with _ => _ end) _ _ = _ => destruct x as [lp0|] end; inv_run.
  match goal with H : _load_product_with_images _ _ _ = _ |- _ =>
    apply load_product_Ok in H as [-> Hp] end.
  match goal with H : ensure_owner _ _ _ _ = _ |- _ => apply ensure_owner_Ok in H as [-> Ho] end.
  match goal with H : column_error ?x = None |- _ => set (p' := x) in *; rename H into Hv end.
  pose proof (Hk _ _ Hp) as Hid. cbn in Hid.
  assert (same_identity (lp_product lp0) p') as Hsame by apply edited_identity.
  exists (lp_product lp0), p'. split_and!; [done|done|by apply dec_stable|exact Hsame|exact Hv|].
  match goal with H : (match images with _ => _ end) _ _ = (_, ?s1) |- _ =>
    assert (products (working s1) = <[p_id p' := p']> (products (working s))) as -> end.
  { destruct images; inv_run; [|done].
    unfold _replace_images in *. inv_run.
    match goal with H : add_images _ _ _ _ = _ |- _ => apply add_images_products in H end.
    done. }
  destruct Hsame as (-> & _). by rewrite Hid.
Qed.

Lemma delete_product_Ok env s s' caller pid b :
  keyed (R:=Product) (working s) →
  soft_delete_product caller pid env s = (Ok b, s') →
  ∃ p t, products (working s) !! pid = Some p ∧ may_edit (working s) caller p ∧
    p_deleted_at p = None ∧
    products (working s') =
      <[pid := p <| p_deleted_at := Some t |> <| p_is_active := false |>]> (products (working s)).
Proof.
  intros Hk. unfold soft_delete_product. intros H. inv_run.
  match type of H with (match ?x with _ => _ end) _ _ = _ => destruct x as [p|] eqn:E end;
    inv_run.
  match goal with H : ensure_owner _ _ _ _ = _ |- _ => apply ensure_owner_Ok in H as [-> Ho] end.
  pose proof (Hk _ _ E) as Hid. cbn in Hid.
  exists p. eexists. split_and!; [done|done|by apply dec_stable|]. cbn. by rewrite Hid.
Qed.

(** C34: every request of the catalogue moves each
    product row by at most one step of its lifecycle: it is created, valid and
    not deleted, in the live store of the seller who asked; it is edited or
    soft-deleted by an admin or by the seller it belongs to, and only while it
    is not deleted; its seller, store, creation time and moderation status never
    change, and a deleted product never changes or comes back. *)
Theorem products_refine_lifecycle env d d' caller call out :
  keyed (R:=Product) d → get_db (catalogue_exec caller call) env d = (out, d') →
  ∀ k, product_evolves d caller (products d !! k) (products d' !! k).
Proof.
  intros Hk H k. destruct out as [u|e].
  2: { apply get_db_atomic in H as ->; [constructor|apply catalogue_uncommitted]. }
  apply get_db_Ok in H as (s' & H & ->). destruct call; cbn in H;
    try apply ignore_Ok in H as [r H].
  - apply create_store_writes in H as (-> & _). constructor.
  - assert (stable (same_table Product)
      (update_own_store caller name city description is_active is_public)) as Hst
      by stable_catalogue.
    apply Hst in H. unfold same_table in H. cbn in H. rewrite H. constructor.
  - apply create_product_Ok in H
      as (p & sl & st & Hsl & Hst & Hof & Hsid & Hstid & Hdel & Hv & Hf & ->).
    cbn in *. destruct (decide (k = p_id p)) as [->|Hne].
    + rewrite lookup_insert_eq, Hf. by eapply pe_create.
    + rewrite lookup_insert_ne by done. constructor.
  - apply update_product_Ok in H as (p & p' & Hp & Ho & Hdel & Hs & Hv & ->); [|done].
    cbn in *. destruct (decide (k = pid)) as [->|Hne].
    + rewrite lookup_insert_eq, Hp. by apply pe_edit.
    + rewrite lookup_insert_ne by done. constructor.
  - apply delete_product_Ok in H as (p & t & Hp & Ho & Hdel & ->); [|done].
    cbn in *. destruct (decide (k = pid)) as [->|Hne].
    + rewrite lookup_insert_eq, Hp. by apply pe_delete.
    + rewrite lookup_insert_ne by done. constructor.
Qed.

(** ** Column types *)

(** The rows of the catalogue and of the orders satisfy the types and CHECKs of
    their columns: prices positive and within BIGINT, stock absent or between 0
    and the INTEGER limit, totals within BIGINT, quantities positive. *)
Definition well_typed (d : DB) : Prop :=
  valid_rows Product d ∧ valid_rows ProductImage d ∧ valid_rows Order d ∧ valid_rows OrderItem d.

(** A request of the shop: catalogue, orders or delivery flow. *)
Inductive shop_request `{Libm} (d d' : DB) : Prop :=
| shop_catalogue env caller call out :
    get_db (catalogue_exec caller call) env d = (out, d') → shop_request d d'
| shop_order env caller call out :
    get_db (exec caller call) env d = (out, d') → shop_request d d'
| shop_flow env caller call out :
    get_db (flow_exec caller call) env d = (out, d') → shop_request d d'.

Definition keeps_well_typed {A} (m : M A) : Prop :=
  stable (keeps_valid Product) m ∧ stable (keeps_valid ProductImage) m ∧
  stable (keeps_valid Order) m ∧ stable (keeps_valid OrderItem) m.

Lemma request_well_typed {A} (m : M A) env d d' out :
  keeps_well_typed m → stable same_committed m →
  get_db m env d = (out, d') → well_typed d → well_typed d'.
Proof.
  intros (H1 & H2 & H3 & H4) Hc H Hv. destruct out as [a|e].
  - apply get_db_Ok in H as (s' & H & ->). destruct Hv as (V1 & V2 & V3 & V4).
    split_and!; [by eapply H1|by eapply H2|by eapply H3|by eapply H4].
  - by apply get_db_atomic in H as ->.
Qed.

Lemma exec_well_typed caller call : keeps_well_typed (exec caller call).
Proof. split_and!; destruct call; cbn; stable_call. Qed.
Lemma flow_well_typed `{Libm} caller call : keeps_well_typed (flow_exec caller call).
Proof. split_and!; destruct call; cbn; stable_flow. Qed.

Lemma catalogue_well_typed env d d' caller call out :
  get_db (catalogue_exec caller call) env d = (out, d') → well_typed d → well_typed d'.
Proof.
  destruct call.
  2-5: apply request_well_typed; [split_and!; cbn; stable_catalogue|apply catalogue_uncommitted].
  intros H Hv. destruct out as [u|e].
  - apply get_db_Ok in H as (s' & H & ->). cbn in H. apply ignore_Ok in H as [r H].
    apply create_store_writes in H as (E1 & E2 & E3 & E4).
    unfold well_typed, valid_rows. cbn. by rewrite E1, E2, E3, E4.
  - apply get_db_atomic in H as ->; [done|apply catalogue_uncommitted].
Qed.

(** In every database that requests of the
    catalogue, the order service and the delivery flow can reach from a
    well-typed one, every product has a positive price within BIGINT and either
    no stock limit or a stock between 0 and the INTEGER limit, every order's
    amounts are within BIGINT and every ordered quantity is positive and within
    INTEGER, whatever numbers the requests carry. *)
Theorem columns_stay_well_typed `{Libm} d d' :
  well_typed d → rtc shop_request d d' →
  well_typed d' ∧
  (∀ k p, products d' !! k = Some p →
     0 < p_price_minor p < 2 ^ 63 ∧ nullable (λ n, 0 ≤ n < 2 ^ 31) (p_stock_quantity p)) ∧
  (∀ k o, orders d' !! k = Some o → - 2 ^ 63 <= o_total_minor o < 2 ^ 63) ∧
  (∀ k i, order_items d' !! k = Some i → 0 < oi_quantity i < 2 ^ 31).
Proof.
  intros Hv Hr. assert (well_typed d') as Hw.
  { induction Hr as [|x y z [env c call out Hq|env c call out Hq|env c call out Hq] _ IH]; [done|..];
      apply IH; [by eapply catalogue_well_typed| |];
      (eapply request_well_typed; [| |exact Hq|exact Hv]).
    - apply exec_well_typed.
    - apply exec_uncommitted.
    - apply flow_well_typed.
    - apply flow_uncommitted. }
  split; [exact Hw|]. destruct Hw as (Hp & _ & Ho & Hi). split_and!.
  - intros k p Hk. specialize (Hp k p Hk). cbn in Hp. unfold check in Hp.
    repeat case_decide; try discriminate.
    unfold int8, int4 in *. destruct (p_stock_quantity p); cbn in *; split; try done; lia.
  - intros k o Hk. specialize (Ho k o Hk). cbn in Ho. unfold check in Ho.
    repeat case_decide; try discriminate. unfold int8 in *. lia.
  - intros k i Hk. specialize (Hi k i Hk). cbn in Hi. unfold check in Hi.
    repeat case_decide; try discriminate. unfold int4 in *. lia.
Qed.

(** ** Who sees a product *)

(** What a customer may see: the products of public stores and of the seller
    who referred them. *)
Definition customer_sees (d : DB) (caller : User) (p : Product) : Prop :=
  from_option st_is_public false (stores d !! p_store_id p) = true ∨
  u_referring_seller_id caller = Some (p_seller_id p).
#[export] Instance customer_sees_dec d caller p : Decision (customer_sees d caller p).
Proof. unfold customer_sees. apply _. Defined.

Definition images_in (d : DB) (pid : uuid) : list ProductImage :=
  order_by_asc pi_display_order (filter (image_of pid) (rows (product_images d))).

Lemma load_product_run env d pid :
  _load_product_with_images pid env (open_session d) =
    (Ok ((λ p, mkLoadedProduct p (images_in d pid)) <$> products d !! pid), open_session d).
Proof.
  unfold _load_product_with_images. erewrite bind_run by reflexivity. cbn.
  by destruct (products d !! pid).
Qed.

(** What the detail page of one product answers. *)
Lemma get_product_customer env d caller pid :
  u_role caller = customer →
  get_db (get_product_for_caller caller pid) env d =
    (match products d !! pid with
     | Some p =>
         if decide (p_deleted_at p = None ∧ customer_sees d caller p)
         then Ok (mkLoadedProduct p (images_in d pid)) else Raised ProductNotFound
     | None => Raised ProductNotFound
     end, d).
Proof.
  intros Er. unfold get_db, get_product_for_caller.
  rewrite (bind_run _ _ _ _ _ _ (load_product_run env d pid)).
  destruct (products d !! pid) as [p|]; cbn; [|done]. rewrite raise_if_run, Er.
  destruct (decide (p_deleted_at p ≠ None)) as [Hdel|Hdel].
  { by rewrite decide_False by naive_solver. }
  erewrite bind_run by reflexivity. cbn.
  assert (customer_sees d caller p ↔ from_option st_is_public false (stores d !! p_store_id p)
    = true ∨ u_referring_seller_id caller = Some (p_seller_id p)) as Hsees by done.
  destruct (from_option st_is_public false _) eqn:Epub.
  { rewrite decide_True; [done|]. split; [by apply dec_stable|apply Hsees; by left]. }
  rewrite raise_if_run. case_decide as Href.
  - by rewrite decide_False by naive_solver.
  - rewrite decide_True; [done|]. split; [by apply dec_stable|apply Hsees; by right].
Qed.

Lemma get_product_staff env d caller p :
  unique_rows (R:=Seller) d →
  products d !! p_id p = Some p → p_deleted_at p = None → may_edit d caller p →
  get_db (get_product_for_caller caller (p_id p)) env d =
    (Ok (mkLoadedProduct p (images_in d (p_id p))), d).
Proof.
  intros Hu Hp Hdel Ho. unfold get_db, get_product_for_caller.
  rewrite (bind_run _ _ _ _ _ _ (load_product_run env d (p_id p))). rewrite Hp. cbn.
  rewrite raise_if_run, decide_False by auto.
  destruct Ho as [->|[-> (sl & Hsl & Hsid)]]; [done|].
  rewrite (bind_run _ _ _ _ _ _ (caller_seller_run env (open_session d) caller sl Hu Hsl)).
  by rewrite raise_if_run, decide_False by auto.
Qed.


(** ** Witnesses *)

Lemma products_refine_lifecycle_witness :
  let d' := after (get_db (catalogue_exec bob_seller (DeleteProduct 20)) (env_at 1) world) in
  product_evolves world bob_seller (products world !! 20%N) (products d' !! 20%N) ∧
  p_deleted_at <$> products d' !! 20%N = Some (Some (clock (env_at 1) 0)).
Proof.
  split; [|vm_compute; reflexivity].
  apply (products_refine_lifecycle (env_at 1) world _ bob_seller (DeleteProduct 20)
    (get_db (catalogue_exec bob_seller (DeleteProduct 20)) (env_at 1) world).1
    ltac:(apply keyed_eval; vm_compute; reflexivity) (surjective_pairing _)).
Defined.

(** Bob lists scones, three of them, with two pictures. *)
Definition scones : CatalogueCall :=
  CreateProduct "Scones" 120 None (Some 3) [mkImageSpec "a.png" 2; mkImageSpec "b.png" 1] None.
Definition w_scones : DB := after (get_db (catalogue_exec bob_seller scones) (env_at 1) world).

(** A platform whose mathematical functions are constant: enough where no
    distance is computed. *)
Definition no_maths : Libm := Build_Libm id id id (λ x _, x) (λ _, None).

Lemma columns_stay_well_typed_witness :
  (∀ k p, products w_scones !! k = Some p → 0 < p_price_minor p < 2 ^ 63) ∧
  p_name <$> products w_scones !! 2000%N = Some "Scones".
Proof.
  split; [|vm_compute; reflexivity].
  assert (well_typed world) as Hv
    by (split_and!; apply (bool_decide_eq_true_1 _); vm_compute; reflexivity).
  assert (rtc (@shop_request no_maths) world w_scones) as Hr
    by (apply rtc_once; exact (@shop_catalogue no_maths _ _ (env_at 1) bob_seller scones _
          (surjective_pairing _))).
  intros k p Hk.
  exact (proj1 (proj1 (proj2 (@columns_stay_well_typed no_maths world w_scones Hv Hr)) k p Hk)).
Defined.

