(* ===== verification/Admin.v ===== *)
(** * The admin panel

    [services/admin_service.py] and the routes of [api/v1/admin.py]: listings
    with filters and cursors, suspending accounts, moderating products, issuing
    invites and the analytics.  The materialized view of the seller rollups
    exists once the migrations have run, so the handler around its query has
    nothing to catch. *)

From Stdlib Require Import Ascii.
From S2P Require Import Prelude.
From S2P Require Import Exceptions.
From S2P Require Import Models.
From S2P Require Import Session.
From S2P Require Import Invites.
From S2P Require Import Stores.
From S2P Require Import Messaging.
From S2P Require Import Numerals.
From S2P Require Import Timestamps.
#[local] Open Scope string_scope.
#[local] Open Scope list_scope.
#[local] Open Scope Z_scope.

(** ** SQL [ILIKE]

    [%] stands for any text, [_] for one character, a backslash quotes the next
    character; both sides are folded to lower case.  The patterns of this
    module end in [%], so a trailing backslash does not occur. *)

Fixpoint some_suffix (p : list ascii → bool) (s : list ascii) : bool :=
  p s || match s with [] => false | _ :: s' => some_suffix p s' end.

Fixpoint like (pattern : list ascii) : list ascii → bool :=
  match pattern with
  | [] => λ s, match s with [] => true | _ => false end
  | c :: p' =>
      if decide (c = "%"%char) then some_suffix (like p')
      else if decide (c = "_"%char) then
        λ s, match s with [] => false | _ :: s' => like p' s' end
      else if decide (c = "\"%char) then
        match p' with
        | [] => λ _, false
        | e :: p'' =>
            λ s, match s with [] => false | x :: s' => bool_decide (x = e) && like p'' s' end
        end
      else λ s, match s with [] => false | x :: s' => bool_decide (x = c) && like p' s' end
  end.
Definition ilike (pattern s : string) : bool :=
  like (String.list_ascii_of_string (str_lower pattern))
    (String.list_ascii_of_string (str_lower s)).

(** [col.ilike(f"%{q}%")] *)
Definition ilike_contains (q s : string) : bool := ilike ("%" +:+ q +:+ "%") s.

(** ** Filters and cursors *)

(** [if q:] — a given, non-empty string. *)
Definition truthy (q : option string) : option string :=
  q ≫= λ s, if decide (s = "") then None else Some s.

Definition user_status_of_str (s : string) : option UserStatus :=
  if decide (s = "active") then Some user_active
  else if decide (s = "suspended") then Some user_suspended else None.
Definition product_status_of_str (s : string) : option ProductStatus :=
  if decide (s = "active") then Some product_active
  else if decide (s = "disabled") then Some product_disabled
  else if decide (s = "out_of_stock") then Some product_out_of_stock else None.
Definition order_status_of_str (s : string) : option OrderStatus :=
  list_find (λ st, order_status_str st = s)
    [pending; accepted; preparing; Models.out_for_delivery; delivered; completed; cancelled]
    ≫= λ found, Some found.2.

Definition clamp_limit (limit : Z) : Z := Z.max 1 (Z.min limit 100).

Section admin.
Context `{FromIso}.

(** The instant of a usable cursor; a text that does not parse is ignored. *)
Definition cursor_instant (cursor : option string) : option datetime :=
  truthy cursor ≫= fromisoformat.

(** [limit + 1] rows are fetched, newest first, to know whether more follow. *)
Definition cursor_page {R} (key : R → datetime) (limit : Z) (found : list R) :
    list R * option string :=
  let fetched := take (Z.to_nat (limit + 1)) (order_by_desc key found) in
  let page := take (Z.to_nat limit) fetched in
  (page, if decide (limit < Z.of_nat (length fetched))
         then isoformat ∘ key <$> last page else None).

(** ** Users *)

Definition user_listed (q role status cursor : option string) (u : User) : Prop :=
  u_deleted_at u = None ∧
  nullable (λ q, ilike_contains q (u_email u) = true ∨
                 ilike_contains q (u_display_name u) = true) (truthy q) ∧
  nullable (λ r, u_role u = r) (truthy role ≫= role_of_str) ∧
  nullable (λ st, u_status u = st) (truthy status ≫= user_status_of_str) ∧
  nullable (λ ts, u_created_at u < ts) (cursor_instant cursor).
#[export] Instance user_listed_dec q role status cursor u :
  Decision (user_listed q role status cursor u).
Proof. unfold user_listed. apply _. Defined.

Definition list_users (q role status cursor : option string) (limit : Z) :
    M (list User * option string) :=
  found ← select (user_listed q role status cursor);
  mret (cursor_page u_created_at (clamp_limit limit) found).

Definition get_user_detail (user_id : uuid) : M (User * option Referral * list Referral) :=
  found ← get_row (R:=User) user_id;
  match found with
  | None => raise NotFoundError
  | Some user =>
      raise_if (u_deleted_at user ≠ None) NotFoundError;;
      referred_by ← select_one (λ r : Referral, rf_referred_user_id r = user_id);
      referred_users ← select (λ r : Referral, rf_referrer_id r = user_id);
      mret (user, referred_by, referred_users)
  end.

Definition suspend_user (user_id : uuid) (reason : string) : M User :=
  found ← get_row (R:=User) user_id;
  match found with
  | None => raise NotFoundError
  | Some user =>
      raise_if (u_deleted_at user ≠ None) NotFoundError;;
      t ← now;
      let user := user <| u_status := user_suspended |> <| u_suspended_at := Some t |>
                       <| u_suspended_reason := Some reason |> in
      save user;;
      mret user
  end.

Definition unsuspend_user (user_id : uuid) : M User :=
  found ← get_row (R:=User) user_id;
  match found with
  | None => raise NotFoundError
  | Some user =>
      raise_if (u_deleted_at user ≠ None) NotFoundError;;
      let user := user <| u_status := user_active |> <| u_suspended_at := None |>
                       <| u_suspended_reason := None |> in
      save user;;
      mret user
  end.

(** ** Invites *)

Definition issue_admin_invite (issuer : User) (role_target : string) (expires_in_days : Z) :
    M (InviteLink * string) :=
  raise_if (role_target ∉ Invites.VALID_ROLES) NotFoundError;;
  plaintext ← token_urlsafe;
  t ← now;
  let expires_at := t + timedelta_days expires_in_days in
  invite_id ← uuid4;
  created_at ← read_env server_now;
  let invite :=
    {| i_id := invite_id; i_issuer_id := u_id issuer; i_type := admin_invite;
       i_token := plaintext; i_role_target := role_of_str role_target;
       i_max_uses := Some 1; i_used_count := 0; i_expires_at := Some expires_at;
       i_revoked_at := None; i_created_at := created_at |} in
  insert_row invite;;
  mret (invite, plaintext).

(** ** Products *)

Definition product_listed (q status : option string) (seller_id : option uuid)
    (cursor : option string) (p : Product) : Prop :=
  p_deleted_at p = None ∧
  nullable (λ q, ilike_contains q (p_name p) = true) (truthy q) ∧
  nullable (λ st, p_status p = st) (status ≫= product_status_of_str) ∧
  nullable (λ sid, p_seller_id p = sid) seller_id ∧
  nullable (λ ts, p_created_at p < ts) (cursor_instant cursor).
#[export] Instance product_listed_dec q status sid cursor p :
  Decision (product_listed q status sid cursor p).
Proof. unfold product_listed. apply _. Defined.

Definition list_products (q status : option string) (seller_id : option uuid)
    (cursor : option string) (limit : Z) : M (list Product * option string) :=
  found ← select (product_listed q status seller_id cursor);
  mret (cursor_page p_created_at (clamp_limit limit) found).

Definition disable_product (product_id : uuid) (reason : string) : M Product :=
  found ← get_row (R:=Product) product_id;
  match found with
  | None => raise NotFoundError
  | Some product =>
      raise_if (p_deleted_at product ≠ None) NotFoundError;;
      t ← now;
      let product := product <| p_status := product_disabled |>
                             <| p_disabled_at := Some t |>
                             <| p_disabled_reason := Some reason |> in
      save product;;
      mret product
  end.

Definition restore_product (product_id : uuid) : M Product :=
  found ← get_row (R:=Product) product_id;
  match found with
  | None => raise NotFoundError
  | Some product =>
      raise_if (p_deleted_at product ≠ None) NotFoundError;;
      let product := product <| p_status := product_active |>
                             <| p_disabled_at := None |>
                             <| p_disabled_reason := None |> in
      save product;;
      mret product
  end.

(** ** Orders *)

Definition order_listed (status cursor : option string) (o : Order) : Prop :=
  o_deleted_at o = None ∧
  nullable (λ st, o_status o = st) (truthy status ≫= order_status_of_str) ∧
  nullable (λ ts, o_placed_at o < ts) (cursor_instant cursor).
#[export] Instance order_listed_dec status cursor o : Decision (order_listed status cursor o).
Proof. unfold order_listed. apply _. Defined.

Definition list_orders (status cursor : option string) (limit : Z) :
    M (list Order * option string) :=
  found ← select (order_listed status cursor);
  mret (cursor_page o_placed_at (clamp_limit limit) found).

(** ** Analytics *)

Record AnalyticsOverview := mkOverview {
  total_gmv_minor : Z;
  orders_count : Z;
  active_users_24h : Z;
  active_users_7d : Z;
  active_users_30d : Z;
  seller_count : Z;
  customer_count : Z;
  driver_count : Z;
  admin_count : Z;
}.

(** [COUNT(DISTINCT customer_id) WHERE delivered_at >= horizon] *)
Definition _active (horizon : datetime) : M Z :=
  recent ← select (λ sn : OrderAnalyticsSnapshot, horizon <= sn_delivered_at sn);
  mret (Z.of_nat (length (remove_dups (sn_customer_id <$> recent)))).

(** The count of the group of [role] in [GROUP BY role]. *)
Definition role_rows (l : list User) (r : UserRole) : Z :=
  Z.of_nat (length (filter (λ u, u_role u = r) l)).

Definition get_analytics_overview : M AnalyticsOverview :=
  _now ← now;
  snapshots ← select (λ _ : OrderAnalyticsSnapshot, True);
  active_24h ← _active (_now - timedelta_hours 24);
  active_7d ← _active (_now - timedelta_days 7);
  active_30d ← _active (_now - timedelta_days 30);
  accounts ← select (λ u : User, u_deleted_at u = None);
  mret (mkOverview (sum_totals snapshots) (Z.of_nat (length snapshots))
          active_24h active_7d active_30d
          (role_rows accounts seller) (role_rows accounts customer)
          (role_rows accounts driver) (role_rows accounts admin)).

Record TopSeller := mkTopSeller {
  ts_seller_id : uuid;
  ts_display_name : string;
  ts_lifetime_revenue_minor : Z;
  ts_lifetime_order_count : Z;
}.

(** [SELECT seller_id, SUM(total_minor), COUNT( * ) ... GROUP BY seller_id]: the
    query of the materialized view and of the fallback. *)
Definition group_by_seller (l : list OrderAnalyticsSnapshot) : list SellerSalesRollup :=
  (λ sid, let own := filter (λ sn, sn_seller_id sn = sid) l in
          mkRollup sid (sum_totals own) (Z.of_nat (length own)))
    <$> remove_dups (sn_seller_id <$> l).

(** [REFRESH MATERIALIZED VIEW CONCURRENTLY] ([scripts/refresh_rollups.py]). *)
Definition _refresh : M unit :=
  snapshots ← select (λ _ : OrderAnalyticsSnapshot, True);
  put_db (λ d, d <| seller_sales_rollups :=
    list_to_map ((λ r, (ro_seller_id r, r)) <$> group_by_seller snapshots) |>);;
  commit.

Definition top_entry (name : string) (r : SellerSalesRollup) : TopSeller :=
  mkTopSeller (ro_seller_id r) name (ro_lifetime_revenue_minor r) (ro_lifetime_order_count r).

(** [FROM seller_sales_rollups r JOIN sellers s ON s.id = r.seller_id] *)
Definition rollups_join_sellers (d : DB) : list TopSeller :=
  omap (λ r, (λ s, top_entry (se_display_name s) r) <$> sellers d !! ro_seller_id r)
    (rows (seller_sales_rollups d)).

Definition get_top_sellers (limit : Z) : M (list TopSeller) :=
  let limit := Z.to_nat (clamp_limit limit) in
  joined ← query rollups_join_sellers;
  let top := take limit (order_by_desc ts_lifetime_revenue_minor joined) in
  match top with
  | _ :: _ => mret top
  | [] =>
      snapshots ← select (λ _ : OrderAnalyticsSnapshot, True);
      let snap_rows := take limit
        (order_by_desc ro_lifetime_revenue_minor (group_by_seller snapshots)) in
      named ← select (λ s : Seller, se_id s ∈ (ro_seller_id <$> snap_rows));
      let name_by_id : gmap uuid string :=
        list_to_map ((λ s, (se_id s, se_display_name s)) <$> named) in
      mret ((λ r, top_entry (default "Unknown" (name_by_id !! ro_seller_id r)) r) <$> snap_rows)
  end.

(** ** The routes *)

Record AdminUserSummary := mkUserSummary {
  us_id : uuid;
  us_email : string;
  us_display_name : string;
  us_role : UserRole;
  us_status : UserStatus;
  us_is_active : bool;
  us_created_at : datetime;
  us_suspended_at : option datetime;
  us_suspended_reason : option string;
}.
Definition user_summary (u : User) : AdminUserSummary :=
  mkUserSummary (u_id u) (u_email u) (u_display_name u) (u_role u) (u_status u)
    (u_is_active u) (u_created_at u) (u_suspended_at u) (u_suspended_reason u).

Record ReferralEdge := mkEdge {
  ed_user_id : uuid;
  ed_email : string;
  ed_display_name : string;
  ed_role : UserRole;
  ed_created_at : datetime;
}.
Record AdminUserDetail := mkUserDetail {
  ud_base : AdminUserSummary;
  ud_referred_by : option ReferralEdge;
  ud_referred_users : list ReferralEdge;
}.

(** The edge of a referral, when its other end [user_id] is among the loaded
    users. *)
Definition edge_to (users_by_id : gmap uuid User) (user_id : uuid) (r : Referral) :
    option ReferralEdge :=
  u ← users_by_id !! user_id;
  Some (mkEdge (u_id u) (u_email u) (u_display_name u) (u_role u) (rf_created_at r)).

Definition user_detail_route (user_id : uuid) : M AdminUserDetail :=
  '(user, ref_by, ref_users) ← get_user_detail user_id;
  let edge_ids : gset uuid :=
    list_to_set (option_list (rf_referrer_id <$> ref_by)) ∪
    list_to_set (rf_referred_user_id <$> ref_users) in
  found ← select (λ u : User, u_id u ∈ edge_ids);
  let users_by_id : gmap uuid User := list_to_map ((λ u, (u_id u, u)) <$> found) in
  mret (mkUserDetail (user_summary user)
          (ref_by ≫= λ r, edge_to users_by_id (rf_referrer_id r) r)
          (omap (λ r, edge_to users_by_id (rf_referred_user_id r) r) ref_users)).

Record AdminProductSummary := mkProductSummary {
  psm_id : uuid;
  psm_seller_id : uuid;
  psm_store_id : uuid;
  psm_name : string;
  psm_price_minor : Z;
  psm_stock_quantity : option Z;
  psm_status : ProductStatus;
  psm_is_active : bool;
  psm_disabled_at : option datetime;
  psm_disabled_reason : option string;
  psm_created_at : datetime;
}.
Definition product_summary (p : Product) : AdminProductSummary :=
  mkProductSummary (p_id p) (p_seller_id p) (p_store_id p) (p_name p) (p_price_minor p)
    (p_stock_quantity p) (p_status p) (p_is_active p) (p_disabled_at p)
    (p_disabled_reason p) (p_created_at p).

Record AdminOrderSummary := mkOrderSummary {
  osm_id : uuid;
  osm_customer_id : uuid;
  osm_seller_id : uuid;
  osm_store_id : uuid;
  osm_status : OrderStatus;
  osm_total_minor : Z;
  osm_placed_at : datetime;
}.
Definition order_summary (o : Order) : AdminOrderSummary :=
  mkOrderSummary (o_id o) (o_customer_id o) (o_seller_id o) (o_store_id o) (o_status o)
    (o_total_minor o) (o_placed_at o).

(** A page with its [pagination] member: [has_more] is whether a cursor
    follows. *)
Record AdminListResponse (A : Type) := mkAdminList {
  al_data : list A;
  al_next_cursor : option string;
  al_has_more : bool;
}.
Arguments mkAdminList {A} _ _ _.
Definition list_response {R A} (summary : R → A) (page : list R * option string) :
    AdminListResponse A :=
  mkAdminList (summary <$> page.1) page.2 (bool_decide (page.2 ≠ None)).

(** The calls of the panel. *)
Inductive AdminCall :=
| ListUsers (q role status cursor : option string) (limit : Z)
| GetUserDetail (user_id : uuid)
| SuspendUser (user_id : uuid) (reason : string)
| UnsuspendUser (user_id : uuid)
| IssueInvite (role_target : string) (expires_in_days : Z) (email_hint : option string)
| ListProducts (q status : option string) (seller_id : option uuid) (cursor : option string)
    (limit : Z)
| DisableProduct (product_id : uuid) (reason : string)
| RestoreProduct (product_id : uuid)
| ListOrders (status cursor : option string) (limit : Z)
| AnalyticsOverviewCall
| TopSellers (limit : Z)
| OpsGetRetention
| OpsSetRetention (message_retention_days : Z)
| OpsRunPurge.

Inductive AdminAnswer :=
| UsersPage (r : AdminListResponse AdminUserSummary)
| UserDetail (r : AdminUserDetail)
| UserRow (r : AdminUserSummary)
| InviteIssued (id : uuid) (token : string) (role_target : option UserRole)
    (expires_at : option datetime) (created_at : datetime)
| ProductsPage (r : AdminListResponse AdminProductSummary)
| ProductRow (r : AdminProductSummary)
| OrdersPage (r : AdminListResponse AdminOrderSummary)
| Overview (r : AnalyticsOverview)
| TopSellersList (r : list TopSeller)
| RetentionDays (days : Z)
| PurgedCount (n : nat).

(** The endpoints, once the caller is known to be an admin. *)
Definition list_users_route (q role status cursor : option string) (limit : Z) : M AdminAnswer :=
  page ← list_users q role status cursor limit;
  mret (UsersPage (list_response user_summary page)).

Definition suspend_user_route (user_id : uuid) (reason : string) : M AdminAnswer :=
  user ← suspend_user user_id reason;
  mret (UserRow (user_summary user)).

Definition unsuspend_user_route (user_id : uuid) : M AdminAnswer :=
  user ← unsuspend_user user_id;
  mret (UserRow (user_summary user)).

Definition issue_invite_route (caller : User) (role_target : string) (days : Z) : M AdminAnswer :=
  '(invite, plaintext) ← issue_admin_invite caller role_target days;
  mret (InviteIssued (i_id invite) plaintext (i_role_target invite)
          (i_expires_at invite) (i_created_at invite)).

Definition list_products_panel (q status : option string) (seller_id : option uuid)
    (cursor : option string) (limit : Z) : M AdminAnswer :=
  page ← list_products q status seller_id cursor limit;
  mret (ProductsPage (list_response product_summary page)).

Definition disable_product_route (product_id : uuid) (reason : string) : M AdminAnswer :=
  product ← disable_product product_id reason;
  mret (ProductRow (product_summary product)).

Definition restore_product_route (product_id : uuid) : M AdminAnswer :=
  product ← restore_product product_id;
  mret (ProductRow (product_summary product)).

Definition list_orders_panel (status cursor : option string) (limit : Z) : M AdminAnswer :=
  page ← list_orders status cursor limit;
  mret (OrdersPage (list_response order_summary page)).

Definition analytics_overview : M AdminAnswer :=
  r ← get_analytics_overview; mret (Overview r).

Definition analytics_top_sellers (limit : Z) : M AdminAnswer :=
  r ← get_top_sellers limit; mret (TopSellersList r).

Definition ops_get_retention : M AdminAnswer :=
  days ← get_message_retention_days; mret (RetentionDays days).

Definition ops_set_retention (caller : User) (days : Z) : M AdminAnswer :=
  days ← update_message_retention_days caller days; mret (RetentionDays days).

Definition ops_run_purge : M AdminAnswer :=
  n ← purge_old_messages; mret (PurgedCount n).

Definition admin_exec (caller : User) (call : AdminCall) : M AdminAnswer :=
  match call with
  | ListUsers q role status cursor limit => list_users_route q role status cursor limit
  | GetUserDetail user_id => r ← user_detail_route user_id; mret (UserDetail r)
  | SuspendUser user_id reason => suspend_user_route user_id reason
  | UnsuspendUser user_id => unsuspend_user_route user_id
  | IssueInvite role_target days _ => issue_invite_route caller role_target days
  | ListProducts q status seller_id cursor limit =>
      list_products_panel q status seller_id cursor limit
  | DisableProduct product_id reason => disable_product_route product_id reason
  | RestoreProduct product_id => restore_product_route product_id
  | ListOrders status cursor limit => list_orders_panel status cursor limit
  | AnalyticsOverviewCall => analytics_overview
  | TopSellers limit => analytics_top_sellers limit
  | OpsGetRetention => ops_get_retention
  | OpsSetRetention days => ops_set_retention caller days
  | OpsRunPurge => ops_run_purge
  end.
End admin.

(** Open the definition of whatever endpoint of the panel the goal is about. *)
Ltac unfold_panel :=
  unfold admin_exec, list_users_route, suspend_user_route, unsuspend_user_route,
    issue_invite_route, list_products_panel, disable_product_route, restore_product_route,
    list_orders_panel, analytics_overview, analytics_top_sellers, ops_get_retention,
    ops_set_retention, ops_run_purge.
Tactic Notation "unfold_panel" "in" hyp(Hr) :=
  unfold admin_exec, list_users_route, suspend_user_route, unsuspend_user_route,
    issue_invite_route, list_products_panel, disable_product_route, restore_product_route,
    list_orders_panel, analytics_overview, analytics_top_sellers, ops_get_retention,
    ops_set_retention, ops_run_purge in Hr.
