(* ===== verification/Push.v ===== *)
(** * Push notifications

    [services/push_service.py] and the route of [api/v1/devices.py].  The
    answer of Firebase is a parameter; the devices of a user are notified
    concurrently in the code and one after the other here, which differs in
    the clock readings only. *)

From S2P Require Import Prelude.
From S2P Require Import Exceptions.
From S2P Require Import Models.
From S2P Require Import Session.
From S2P Require Import Security.
#[local] Open Scope string_scope.

Record Notification := mkNotification {
  nt_user_id : uuid;
  nt_title : string;
  nt_body : string;
  nt_data : option (gmap string string);
}.

(** The JSON body of a request to Firebase. *)
Record FCMPayload := mkPayload {
  fcm_to : string;
  fcm_title : string;
  fcm_body : string;
  fcm_data : gmap string string;
}.

(** The POST to Firebase: the status code of the answer, [None] for a transport
    error. *)
Class Firebase := fcm_post : string → FCMPayload → option Z.

Inductive Sender :=
| _NoopSender (reason : string)
| _FCMSender (server_key : string)
| _APNsSender (team_id key_id bundle_id key_pem : string).

Section push.
Context `{Firebase} (settings : Settings).

(** [False] is a permanent failure of the device's token. *)
Definition send (sender : Sender) (device : UserDevice) (n : Notification) : bool :=
  match sender with
  | _NoopSender _ => true
  | _FCMSender server_key =>
      let payload := mkPayload (dv_token device) (nt_title n) (nt_body n)
                       (default ∅ (nt_data n)) in
      match fcm_post server_key payload with
      | Some status => bool_decide (status = 200)%Z || bool_decide (500 ≤ status)%Z
      | None => true
      end
  | _APNsSender _ _ _ _ => true
  end.

Definition _pick_sender (platform : string) : Sender :=
  if decide (platform = "android" ∧ fcm_server_key settings ≠ "") then
    _FCMSender (fcm_server_key settings)
  else if decide (platform = "ios" ∧ apns_key_pem settings ≠ "" ∧ apns_team_id settings ≠ "")
  then _APNsSender (apns_team_id settings) (apns_key_id settings) (apns_bundle_id settings)
         (apns_key_pem settings)
  else _NoopSender "push-not-configured".

Definition active_device (user_id : uuid) (d : UserDevice) : Prop :=
  dv_user_id d = user_id ∧ dv_disabled_at d = None.
#[export] Instance active_device_dec uid d : Decision (active_device uid d).
Proof. unfold active_device. apply _. Defined.

Definition _load_devices (user_id : uuid) : M (list UserDevice) :=
  select (active_device user_id).

Definition _send_one (n : Notification) (device : UserDevice) : M unit :=
  let ok := send (_pick_sender (dv_platform device)) device n in
  t ← now;
  save (if ok then device <| dv_last_seen_at := Some t |>
        else device <| dv_disabled_at := Some t |>).

Definition send_notification (user_id : uuid) (title body : string)
    (data : option (gmap string string)) : M unit :=
  devices ← _load_devices user_id;
  match devices with
  | [] => mret tt
  | _ => for_each devices (_send_one (mkNotification user_id title body data))
  end.
End push.

Definition register_device (user_id : uuid) (platform token : string) : M UserDevice :=
  raise_if (platform ∉ ["ios"; "android"; "web"]) ValidationError;;
  existing ← select_one (λ d : UserDevice, dv_user_id d = user_id ∧ dv_token d = token);
  t ← now;
  match existing with
  | Some existing =>
      let device := existing <| dv_platform := platform |> <| dv_disabled_at := None |>
                             <| dv_last_seen_at := Some t |> in
      save device;;
      mret device
  | None =>
      device_id ← uuid4;
      let device := mkUserDevice device_id user_id platform token (Some t) None in
      insert_row device;;
      mret device
  end.
