(* ===== verification/PushProps.v ===== *)
(** * Correctness of push notifications

    What a notification does to the registered devices, and that registering
    is an upsert. *)

From S2P Require Import Prelude.
From S2P Require Import Exceptions.
From S2P Require Import Models.
From S2P Require Import Session.
From S2P Require Import SessionFacts.
From S2P Require Import Security.
From S2P Require Import Push.
From S2P Require Import Fixtures.
#[local] Open Scope string_scope.

Section push_props.
Context `{Firebase} (settings : Settings).

(** The device after its notification: alive now, or retired. *)
Definition notified (n : Notification) (t : datetime) (dev : UserDevice) : UserDevice :=
  if send (_pick_sender settings (dv_platform dev)) dev n
  then dev <| dv_last_seen_at := Some t |> else dev <| dv_disabled_at := Some t |>.

Lemma notified_key n t dev :
  dv_id (notified n t dev) = dv_id dev ∧ dv_user_id (notified n t dev) = dv_user_id dev ∧
  dv_token (notified n t dev) = dv_token dev.
Proof. unfold notified. by destruct (send _ _ _). Qed.

(** The devices of a database that a session may write. *)
Definition devices_ok (d : DB) : Prop :=
  keyed (R:=UserDevice) d ∧ valid_rows UserDevice d ∧ unique_rows (R:=UserDevice) d.

Lemma devices_ok_put d dev :
  devices_ok d → column_error dev = None → ¬ has_conflict dev (user_devices d) →
  devices_ok (d <| user_devices ::= <[dv_id dev := dev]> |>).
Proof.
  intros (Hk & Hv & Hu) Hc Hn. split_and!.
  - intros k r. cbn. intros [[<- <-]|[_ Hr]]%lookup_insert_Some; [done|by apply Hk].
  - intros k r. cbn. intros [[<- <-]|[_ Hr]]%lookup_insert_Some; [done|by apply (Hv k)].
  - assert (∀ a b : UserDevice, conflicts a b → conflicts b a) as Hsym by (intros a b []; done).
    exact (write_unique (R:=UserDevice) dev d Hsym Hk Hu Hn).
Qed.

(** A row with the same user and token as one of the table conflicts with no
    other. *)
Lemma same_device_no_conflict d dev dev' :
  devices_ok d → user_devices d !! dv_id dev = Some dev →
  dv_id dev' = dv_id dev → dv_user_id dev' = dv_user_id dev → dv_token dev' = dv_token dev →
  ¬ has_conflict dev' (user_devices d).
Proof.
  intros (Hk & _ & Hu) Hdev Hid Huid Htok. apply no_conflict_spec. intros k r Hr Hne Hc.
  pose proof (Hk _ _ Hr) as Hkr. cbn in Hkr, Hne, Hc.
  apply (Hu (dv_id dev) k dev r Hdev Hr); [congruence|]. cbn. by rewrite <- Huid, <- Htok.
Qed.

Lemma stored_device_fits d dev n t :
  devices_ok d → user_devices d !! dv_id dev = Some dev → column_error (notified n t dev) = None.
Proof.
  intros (_ & Hv & _) Hdev. apply Hv in Hdev. unfold notified. by destruct (send _ _ _).
Qed.

Lemma send_one_runs n dev env s :
  devices_ok (working s) → user_devices (working s) !! dv_id dev = Some dev →
  ∃ s', _send_one settings n dev env s = (Ok tt, s') ∧
    working s' = (working s) <| user_devices ::=
      <[dv_id dev := notified n (clock env (clock_reads s)) dev]> |>.
Proof.
  intros Hok Hdev. pose proof (stored_device_fits _ _ n (clock env (clock_reads s)) Hok Hdev) as Hc.
  destruct (notified_key n (clock env (clock_reads s)) dev) as (Hid & Hu & Ht).
  set (dev1 := notified n (clock env (clock_reads s)) dev) in *.
  exists (s <| clock_reads ::= S |> <| working ::= on_table (<[pk dev1 := dev1]>) |>). split.
  - change (save dev1 env (s <| clock_reads ::= S |>)
      = (Ok tt, s <| clock_reads ::= S |> <| working ::= on_table (<[pk dev1 := dev1]>) |>)).
    apply (save_runs (R:=UserDevice) _ dev); [by cbn; rewrite Hid|by cbn; rewrite Hu|exact Hc|].
    by apply (same_device_no_conflict _ dev).
  - rewrite <- Hid. done.
Qed.

Lemma send_loop_runs n l env s :
  devices_ok (working s) → NoDup (dv_id <$> l) →
  (∀ dev, dev ∈ l → user_devices (working s) !! dv_id dev = Some dev) →
  ∃ s' devs, for_each l (_send_one settings n) env s = (Ok tt, s') ∧
    working s' = (working s) <| user_devices := devs |> ∧
    (∀ dev, dev ∈ l → ∃ t, devs !! dv_id dev = Some (notified n t dev)) ∧
    (∀ k, k ∉ (dv_id <$> l) → devs !! k = user_devices (working s) !! k).
Proof.
  revert s. induction l as [|dev l IH]; intros s Hok Hnd Hl.
  { exists s, (user_devices (working s)). split_and!; [done|by destruct (working s)| |done].
    intros dev Hdev. by apply not_elem_of_nil in Hdev. }
  apply NoDup_cons in Hnd as [Hnew Hnd].
  assert (user_devices (working s) !! dv_id dev = Some dev) as Hdev by (apply Hl; left).
  destruct (send_one_runs n dev env s Hok Hdev) as (s1 & Hrun & Hw1).
  set (dev1 := notified n (clock env (clock_reads s)) dev) in *.
  destruct (notified_key n (clock env (clock_reads s)) dev) as (Hid & Hu & Ht).
  destruct (IH s1) as (s' & devs & Hloop & Hw & Hin & Hout).
  - rewrite Hw1, <- Hid. apply devices_ok_put; [done|by eapply stored_device_fits|].
    by apply (same_device_no_conflict _ dev).
  - done.
  - intros x Hx. rewrite Hw1. cbn. rewrite lookup_insert_ne.
    + apply Hl. by right.
    + intros E. apply Hnew. rewrite E. by apply list_elem_of_fmap_2.
  - exists s', devs. split_and!.
    + cbn. by rewrite (bind_run _ _ _ _ _ _ Hrun).
    + rewrite Hw, Hw1. done.
    + intros x [->|Hx]%elem_of_cons; [|by apply Hin]. eexists.
      rewrite Hout by done. rewrite Hw1. cbn. by rewrite lookup_insert_eq.
    + intros k [Hne Hk]%not_elem_of_cons. rewrite Hout by done. rewrite Hw1. cbn.
      by rewrite lookup_insert_ne.
Qed.

(** A notification never fails and touches nothing but the
    active devices of its addressee: each of them is retired when its platform
    is android, Firebase is configured and answers anything but 200 or a
    server error (a transport error does not count), and otherwise marked as
    seen; every other device and every other table stays as it is. *)
Theorem notification_outcome env d user_id title body data :
  devices_ok d →
  let n := mkNotification user_id title body data in
  ∃ devs, get_db (send_notification settings user_id title body data) env d
      = (Ok tt, d <| user_devices := devs |>) ∧
    ∀ k, match user_devices d !! k with
         | Some dev =>
             if decide (active_device user_id dev)
             then ∃ t, devs !! k = Some (notified n t dev)
             else devs !! k = Some dev
         | None => devs !! k = None
         end.
Proof.
  intros Hok n. pose proof Hok as (Hk & _ & _).
  set (l := filter (active_device user_id) (rows (user_devices d))).
  destruct (send_loop_runs n l env (open_session d)) as (s' & devs & Hrun & Hw & Hin & Hout).
  - done.
  - eapply sublist_NoDup; [exact (keyed_rows_NoDup (R:=UserDevice) d Hk)|].
    apply fmap_sublist, sublist_filter.
  - intros dev [_ [k Hdev]]%elem_of_selected. pose proof (Hk _ _ Hdev) as E. cbn in E. by rewrite E.
  - exists devs. split.
    + apply get_db_Ok. exists s'. split; [|by rewrite Hw].
      unfold send_notification, _load_devices, select, query, mbind, M_bind.
      cbn -[filter rows for_each]. fold l. by destruct l.
    + intros k. destruct (user_devices d !! k) as [dev|] eqn:Hdev.
      * pose proof (Hk _ _ Hdev) as Hid. cbn in Hid. case_decide as Hact.
        -- destruct (Hin dev) as [t Ht]; [apply elem_of_selected; eauto|].
           exists t. by rewrite <- Hid.
        -- rewrite Hout; [exact Hdev|]. intros (x & Hx & Hxl)%list_elem_of_fmap.
           apply elem_of_selected in Hxl as [Ha [k' Hk']].
           pose proof (Hk _ _ Hk') as Hid'. cbn in Hid', Hk'. apply Hact.
           assert (x = dev) as -> by congruence. exact Ha.
      * rewrite Hout; [exact Hdev|]. intros (x & Hx & Hxl)%list_elem_of_fmap.
        apply elem_of_selected in Hxl as [Ha [k' Hk']].
        pose proof (Hk _ _ Hk') as Hid'. cbn in Hid', Hk'. congruence.
Qed.
End push_props.

(** Registering a token is an upsert: the device is active afterwards, and the
    token of the user belongs to this device only. *)
Lemma register_device_spec env d user_id platform token dev d' :
  devices_ok d →
  get_db (register_device user_id platform token) env d = (Ok dev, d') →
  devices_ok d' ∧ user_devices d' !! dv_id dev = Some dev ∧
  active_device user_id dev ∧ dv_platform dev = platform ∧ dv_token dev = token ∧
  (∀ k r, user_devices d !! k = Some r → dv_user_id r = user_id → dv_token r = token →
     k = dv_id dev) ∧
  (∀ k, k ≠ dv_id dev → user_devices d' !! k = user_devices d !! k).
Proof.
  intros Hok H. pose proof Hok as (Hk & Hv & Hu). apply get_db_Ok in H as (s' & H & ->).
  unfold register_device in H. inv_run.
  match goal with H : (match ?o with _ => _ end) _ _ = _ |- _ => destruct o as [old|] eqn:Ho end;
    inv_run.
  - match goal with H : filter _ _ = option_list (Some old) |- _ =>
      apply selected_Some in H as ((Huid & Htok) & [k Hold] & Hone) end.
    pose proof (Hk _ _ Hold) as Hid. cbn in Hid, Hold. subst k.
    split_and!; cbn; try done.
    + match goal with Hc : ¬ has_conflict ?r _ |- _ => by apply (devices_ok_put d r Hok) end.
    + by rewrite lookup_insert_eq.
    + intros k r Hr Hru Hrt. pose proof (Hk _ _ Hr) as Hrid. cbn in Hrid.
      rewrite <- Hrid. f_equal. apply (Hone k r); [done|by split].
    + intros k Hne. by rewrite lookup_insert_ne.
  - match goal with H : filter _ _ = option_list None |- _ => pose proof (selected_None _ _ H) as Hno end.
    split_and!; cbn; try done.
    + match goal with Hc : ¬ has_conflict ?r _ |- _ => by apply (devices_ok_put d r Hok) end.
    + by rewrite lookup_insert_eq.
    + intros k r Hr Hru Hrt. by destruct (Hno k r Hr).
    + intros k Hne. by rewrite lookup_insert_ne.
Qed.

(** ** Witness: two phones of Alice, one of them unknown to Firebase *)

Definition firebase_404 : Firebase :=
  λ _ payload, Some (if decide (fcm_to payload = "dead") then 404 else 200)%Z.
Definition push_settings : Settings := default_config <| fcm_server_key := "key" |>.
Definition w_phones : DB :=
  after (get_db (register_device 3 "android" "dead") (env_at 2)
    (after (get_db (register_device 3 "android" "live") (env_at 1) world))).

Lemma notification_outcome_witness :
  ∃ devs, get_db (send_notification (H:=firebase_404) push_settings 3 "Hi" "there" None)
      (env_at 3) w_phones = (Ok tt, w_phones <| user_devices := devs |>) ∧
    dv_disabled_at <$> devs !! 2000%N = Some None ∧
    ∃ t, dv_disabled_at <$> devs !! 3000%N = Some (Some t).
Proof.
  assert (devices_ok w_phones) as Hok.
  { split_and!; [apply keyed_eval; vm_compute; reflexivity| |].
    { apply (bool_decide_eq_true_1 (map_Forall (λ _ dev, column_error dev = None) _));
        vm_compute; reflexivity. }
    assert (map_Forall (λ k1 r1, map_Forall (λ k2 r2, k1 ≠ k2 → ¬ conflicts r1 r2)
      (user_devices w_phones)) (user_devices w_phones)) as Hall
      by (apply (bool_decide_eq_true_1 _); vm_compute; reflexivity).
    intros k1 k2 r1 r2 H1 H2. exact (Hall k1 r1 H1 k2 r2 H2). }
  destruct (notification_outcome (H:=firebase_404) push_settings (env_at 3) w_phones 3 "Hi"
    "there" None Hok) as (devs & Hrun & Hdevs).
  set (n := mkNotification 3 "Hi" "there" None) in *.
  set (seen := λ k P, ∃ dev, user_devices w_phones !! k = Some dev ∧ active_device 3 dev ∧
    ∀ t, dv_disabled_at (notified (H:=firebase_404) push_settings n t dev) = P t).
  assert (seen 2000%N (λ _, None)) as (dev1 & E1 & Ha1 & Hn1)
    by (eexists; split; [vm_compute; reflexivity|split; [by split|reflexivity]]).
  assert (seen 3000%N (λ t, Some t)) as (dev2 & E2 & Ha2 & Hn2)
    by (eexists; split; [vm_compute; reflexivity|split; [by split|reflexivity]]).
  pose proof (Hdevs 2000%N) as H1. rewrite E1, decide_True in H1 by exact Ha1.
  pose proof (Hdevs 3000%N) as H2. rewrite E2, decide_True in H2 by exact Ha2.
  destruct H1 as [t1 H1], H2 as [t2 H2]. exists devs. split; [exact Hrun|].
  rewrite H1, H2. split; [|exists t2]; cbn [fmap option_fmap option_map].
  - by rewrite Hn1.
  - by rewrite Hn2.
Defined.
