(* ===== verification/Upload.v ===== *)
(** * Uploads to object storage

    [services/upload_service.py] and the routes of [api/v1/uploads.py].  The
    storage client is a library: the URL it signs and the [HEAD] of an object
    are parameters. *)

From Stdlib Require Import Ascii.
From S2P Require Import Prelude.
From S2P Require Import Exceptions.
From S2P Require Import Models.
From S2P Require Import Session.
From S2P Require Import PyString.
From S2P Require Import Security.
From S2P Require Import Numerals.
From S2P Require Import Timestamps.
#[local] Open Scope string_scope.

(** The two purposes of the request schema. *)
Inductive Purpose := product_image | avatar.

Definition _CONTENT_TYPE_TO_EXT (content_type : string) : option string :=
  if decide (content_type = "image/jpeg") then Some "jpg"
  else if decide (content_type = "image/png") then Some "png"
  else if decide (content_type = "image/webp") then Some "webp"
  else None.
Definition _ALLOWED_CONTENT_TYPES : list string := ["image/jpeg"; "image/png"; "image/webp"].

(** The storage service as the client sees it: signing a PUT, and the size that
    [HEAD] reports ([None] is a [ClientError]). *)
Class Storage := {
  generate_presigned_url : string → string → string → Z → string;
  head_object : string → string → option Z;
}.

Section upload.
Context `{Storage} (settings : Settings).

Definition _is_configured : bool :=
  bool_decide (s3_bucket settings ≠ "" ∧ aws_access_key_id settings ≠ "" ∧
               aws_secret_access_key settings ≠ "").

Definition _s3_client : M unit := raise_if (_is_configured = false) UploadNotConfigured.

Definition purpose_prefix (purpose : Purpose) : string :=
  match purpose with product_image => "product-images" | avatar => "avatars" end.

Definition object_key (purpose : Purpose) (user_id obj_id : uuid) (ext : string) : string :=
  purpose_prefix purpose +:+ "/" +:+ uuid_str user_id +:+ "/" +:+
  String.string_of_list_ascii (uuid_hex obj_id) +:+ "." +:+ ext.

Definition _build_key (purpose : Purpose) (user_id : uuid) (content_type : string) : M string :=
  ext ← key_lookup (_CONTENT_TYPE_TO_EXT content_type);
  obj_id ← uuid4;
  mret (object_key purpose user_id obj_id ext).

Record PresignResponse := mkPresign {
  upload_url : string;
  pr_s3_key : string;
  expires_at : string;
  max_bytes : Z;
  pr_content_type : string;
}.

Definition presign_upload (user_id : uuid) (purpose : Purpose) (content_type : string) :
    M PresignResponse :=
  raise_if (content_type ∉ _ALLOWED_CONTENT_TYPES) UploadInvalidContentType;;
  _s3_client;;
  key ← _build_key purpose user_id content_type;
  let expires := s3_presign_expires_seconds settings in
  let url := generate_presigned_url (s3_bucket settings) key content_type expires in
  t ← now;
  mret (mkPresign url key
          (replace "+00:00" "Z" (isoformat (t + timedelta_seconds expires)%Z))
          (s3_upload_max_bytes settings) content_type).

Record ConfirmResponse := mkConfirm { cf_s3_key : string; cf_url : string }.

Definition final_url (key : string) : string :=
  let cdn_base := rstrip "/"%char (s3_cdn_base_url settings) in
  if decide (cdn_base ≠ "") then cdn_base +:+ "/" +:+ key
  else "https://" +:+ s3_bucket settings +:+ ".s3." +:+ s3_region settings +:+
       ".amazonaws.com/" +:+ key.

Definition confirm_upload (key : string) : M ConfirmResponse :=
  _s3_client;;
  raise_if (contains ".." key = true ∨ startswith "/" key = true) UploadObjectMissing;;
  match head_object (s3_bucket settings) key with
  | None => raise UploadObjectMissing
  | Some size =>
      raise_if (size ≤ 0 ∨ s3_upload_max_bytes settings < size)%Z UploadObjectMissing;;
      mret (mkConfirm key (final_url key))
  end.
End upload.
