(* ===== verification/UploadProps.v ===== *)
(** * Correctness of uploads

    The keys that the service signs: whose they are, and that they pass the
    checks of the confirmation. *)

From Stdlib Require Import Ascii.
From S2P Require Import Prelude.
From S2P Require Import Exceptions.
From S2P Require Import Models.
From S2P Require Import Session.
From S2P Require Import SessionFacts.
From S2P Require Import PyString.
From S2P Require Import Security.
From S2P Require Import Numerals.
From S2P Require Import Upload.
From S2P Require Import Fixtures.
#[local] Open Scope string_scope.
#[local] Open Scope list_scope.
#[local] Open Scope nat_scope.

(** ** Texts as lists of characters *)

Lemma list_of_append s1 s2 :
  String.list_ascii_of_string (s1 +:+ s2) =
    String.list_ascii_of_string s1 ++ String.list_ascii_of_string s2.
Proof.
  induction s1 as [|c s1 IH]; [done|].
  change (c :: String.list_ascii_of_string (s1 +:+ s2) =
    c :: String.list_ascii_of_string s1 ++ String.list_ascii_of_string s2). by rewrite IH.
Qed.

(** How often a character occurs. *)
Definition occurrences (c : ascii) (l : list ascii) : nat := length (filter (λ x, x = c) l).

Lemma occurrences_app c l1 l2 : occurrences c (l1 ++ l2) = occurrences c l1 + occurrences c l2.
Proof. unfold occurrences. by rewrite filter_app, length_app. Qed.
Lemma occurrences_cons c x l :
  occurrences c (x :: l) = (if decide (x = c) then 1 else 0) + occurrences c l.
Proof. unfold occurrences. rewrite filter_cons. by case_decide. Qed.
Lemma occurrences_absent c l : c ∉ l → occurrences c l = 0.
Proof.
  intros Hc. unfold occurrences. induction l as [|x l IH]; [done|].
  apply not_elem_of_cons in Hc as [Hne Hc]. rewrite filter_cons_False by congruence. by apply IH.
Qed.

(** A double dot needs two dots. *)
Lemma has_prefix_spec p l : has_prefix p l = true → ∃ l', l = p ++ l'.
Proof.
  revert l. induction p as [|a p IH]; intros [|b l] H; cbn in *; try done; [by exists []|by exists (b :: l)|].
  apply andb_true_iff in H as [->%bool_decide_eq_true [l' ->]%IH]. by exists l'.
Qed.
Lemma contains_list_spec p l : contains_list p l = true → ∃ l1 l2, l = l1 ++ p ++ l2.
Proof.
  induction l as [|c l IH]; cbn; intros [H|H]%orb_true_iff.
  - apply has_prefix_spec in H as [l' ->]. by exists [], l'.
  - done.
  - apply has_prefix_spec in H as [l' ->]. by exists [], l'.
  - apply IH in H as (l1 & l2 & ->). by exists (c :: l1), l2.
Qed.
Lemma one_dot l : occurrences "." l ≤ 1 → contains_list ["."; "."]%char l = false.
Proof.
  intros Hl. apply not_true_iff_false. intros (l1 & l2 & ->)%contains_list_spec.
  rewrite !occurrences_app in Hl.
  change (occurrences "." ["."; "."]%char) with 2 in Hl. lia.
Qed.

(** A separator that neither head contains splits a text in one way. *)
Lemma split_unique (c : ascii) l1 l2 r1 r2 :
  c ∉ l1 → c ∉ l2 → l1 ++ c :: r1 = l2 ++ c :: r2 → l1 = l2 ∧ r1 = r2.
Proof.
  revert l2. induction l1 as [|x l1 IH]; intros [|y l2] H1 H2 E; cbn in E.
  - by injection E.
  - injection E as -> _. by destruct H2; left.
  - injection E as -> _. by destruct H1; left.
  - injection E as -> E. apply not_elem_of_cons in H1 as [_ H1]. apply not_elem_of_cons in H2 as [_ H2].
    by destruct (IH l2 H1 H2 E) as [-> ->].
Qed.

(** ** The keys *)

Definition prefix_chars (purpose : Purpose) : list ascii :=
  String.list_ascii_of_string (purpose_prefix purpose).

Lemma object_key_chars purpose uid obj ext :
  String.list_ascii_of_string (object_key purpose uid obj ext) =
    prefix_chars purpose ++ "/"%char :: uuid_chars uid ++ "/"%char :: uuid_hex obj ++
    "."%char :: String.list_ascii_of_string ext.
Proof.
  unfold object_key, uuid_str. rewrite !list_of_append.
  by rewrite !String.list_ascii_of_string_of_list_ascii.
Qed.

Lemma no_mark c l :
  c ∈ ["/"; "."]%char → Forall (λ x, plain_digit x ∨ x = "-"%char) l → c ∉ l.
Proof.
  intros Hc Hl Hin. rewrite Forall_forall in Hl. destruct (Hl _ Hin) as [(v & Hv & ->)| ->].
  - destruct (digit_char_spec v Hv) as (_ & Hno & _). set_solver.
  - set_solver.
Qed.
Lemma prefix_no_mark c purpose : c ∈ ["/"; "."]%char → c ∉ prefix_chars purpose.
Proof.
  intros Hc. assert (Forall (λ c, c ∉ prefix_chars purpose) ["/"; "."]%char) as Hall
    by (destruct purpose; apply (bool_decide_eq_true_1 _); vm_compute; reflexivity).
  rewrite Forall_forall in Hall. by apply Hall.
Qed.
Lemma hex_no_mark c obj : c ∈ ["/"; "."]%char → c ∉ uuid_hex obj.
Proof.
  intros Hc. apply no_mark; [done|]. eapply Forall_impl; [apply numeral_plain; lia|]. by left.
Qed.
Lemma uuid_no_mark c uid : c ∈ ["/"; "."]%char → c ∉ uuid_chars uid.
Proof. intros Hc. apply no_mark; [done|]. apply uuid_chars_ok. Qed.

(** The owner is part of the key. *)
Lemma object_key_owner purpose uid obj ext purpose' uid' obj' ext' :
  (uid < 2 ^ 128)%N → (uid' < 2 ^ 128)%N →
  object_key purpose uid obj ext = object_key purpose' uid' obj' ext' → uid = uid'.
Proof.
  intros Hu Hu' E. apply (f_equal String.list_ascii_of_string) in E.
  rewrite !object_key_chars in E.
  apply split_unique in E as [_ E]; [|apply prefix_no_mark; set_solver..].
  apply split_unique in E as [E _]; [|apply uuid_no_mark; set_solver..].
  assert (uuid_str uid = uuid_str uid') as Es by (unfold uuid_str; by rewrite E).
  pose proof (parse_uuid_str uid Hu) as P. rewrite Es, parse_uuid_str in P by done. by injection P.
Qed.

Lemma object_key_passes purpose uid obj ext content_type :
  _CONTENT_TYPE_TO_EXT content_type = Some ext →
  contains ".." (object_key purpose uid obj ext) = false ∧
  startswith "/" (object_key purpose uid obj ext) = false.
Proof.
  intros Hext. unfold contains, startswith. rewrite object_key_chars. split.
  - apply one_dot.
    assert (occurrences "." (String.list_ascii_of_string ext) = 0) as Hx.
    { unfold _CONTENT_TYPE_TO_EXT in Hext. repeat case_decide; simplify_eq; reflexivity. }
    repeat first [rewrite occurrences_app|rewrite (occurrences_cons "." "/")
                 |rewrite (occurrences_cons "." ".")].
    rewrite Hx, !occurrences_absent;
      [|apply hex_no_mark; set_solver|apply uuid_no_mark; set_solver
       |apply prefix_no_mark; set_solver].
    vm_compute. lia.
  - by destruct purpose.
Qed.

(** ** The service *)

Section upload_props.
Context `{Storage} (settings : Settings).

End upload_props.

(** ** Witness: a picture of Bob's *)

Definition bucket : Storage :=
  {| generate_presigned_url b k _ _ := "https://" +:+ b +:+ "/" +:+ k; head_object _ _ := Some 512%Z |}.
Definition upload_settings : Settings :=
  default_config <| s3_bucket := "shop" |> <| aws_access_key_id := "id" |>
                 <| aws_secret_access_key := "secret" |>.


(** The confirmation asks for no owner: anybody confirms anybody's key. *)
Example any_key_is_confirmed :
  succeeds (get_db (confirm_upload (H:=bucket) upload_settings
    (object_key avatar 99 7 "png")) (env_at 1) world) = true.
Proof. vm_compute. reflexivity. Qed.
