(* ===== verification/AdminProps.v ===== *)
(** * Correctness of the admin panel

    Listings, analytics and the ranking of sellers. *)

From Stdlib Require Import Ascii.
From S2P Require Import Prelude.
From S2P Require Import Exceptions.
From S2P Require Import Models.
From S2P Require Import Session.
From S2P Require Import SessionFacts.
From S2P Require Import Pages.
From S2P Require Import Orders.
From S2P Require Import Fixtures.
From S2P Require Import Stores.
From S2P Require Import StoreProps.
From S2P Require Import Products.
From S2P Require Import Timestamps.
From S2P Require Import Admin.
#[local] Open Scope string_scope.
#[local] Open Scope list_scope.
#[local] Open Scope Z_scope.

(** ** [ILIKE] *)

(** A text without the special characters of a pattern. *)
Definition literal (l : list ascii) : Prop := Forall (λ c, c ∉ ["%"; "_"; "\"]%char) l.

Lemma like_literal l s p : literal l → like (l ++ p) s = true ↔ ∃ s', s = l ++ s' ∧ like p s' = true.
Proof.
  intros Hl. revert s. induction Hl as [|c l Hc _ IH]; intros s.
  { split; [by exists s|]. by intros (s' & -> & ?). }
  cbn [app like]. rewrite !decide_False by set_solver. destruct s as [|x s].
  - split; [done|]. by intros (s' & ? & _).
  - rewrite andb_true_iff, bool_decide_eq_true, IH. split.
    + intros [-> (s' & -> & ?)]. by exists s'.
    + intros (s' & [= -> ->] & ?). split; [done|]. by exists s'.
Qed.

Lemma some_suffix_spec p s : some_suffix p s = true ↔ ∃ s1 s2, s = s1 ++ s2 ∧ p s2 = true.
Proof.
  induction s as [|c s IH]; cbn; rewrite orb_true_iff.
  - split; [intros [H|H]; [by exists [], []|done]|].
    intros (s1 & s2 & E & H). left. by destruct s1, s2.
  - rewrite IH. split.
    + intros [H|(s1 & s2 & -> & H)]; [by exists [], (c :: s)|by exists (c :: s1), s2].
    + intros ([|x s1] & s2 & E & H); cbn in E; [left; by rewrite E|].
      injection E as -> ->. right. by exists s1, s2.
Qed.

(** ** The walk over the pages *)

Section listings.
Context `{Hiso : FromIso} `{!FromIsoLaws} (env : Env) (d : DB).

(** The pages that a request serves. *)
Definition fetch_page {A} (m : option string → M (list A * option string))
    (cursor : option string) : option (list A * option string) :=
  match (get_db (m cursor) env d).1 with Ok page => Some page | Raised _ => None end.

Lemma isoformat_truthy t : truthy (Some (isoformat t)) = Some (isoformat t).
Proof.
  unfold truthy. cbn [mbind option_bind]. rewrite decide_False; [done|]. unfold isoformat.
  assert (∃ c l, iso_chars t = c :: l) as (c & l & ->); [|discriminate].
  unfold iso_chars. destruct (civil_of_days _) as [[y m] dd].
  destruct (dec 4 y) as [|c l]; cbn; eauto.
Qed.

(** The cursor text of an instant. *)
Definition cursor_means (c : string) (t : Z) : Prop := cursor_instant (Some c) = Some t.

Lemma cursor_of_instant t : representable t → cursor_means (isoformat t) t.
Proof.
  intros Ht. unfold cursor_means, cursor_instant. rewrite isoformat_truthy. cbn.
  by apply fromisoformat_isoformat.
Qed.

Section listing.
Context {A : Type} (key : A → datetime) (all : list A) (limit : Z).
Context (m : option string → M (list A * option string)).
Context (Hnd : NoDup (key <$> all)) (Hrep : Forall (λ a, representable (key a)) all).

Lemma cursor_pages_serve :
  (∀ cursor, fetch_page m cursor =
     Some (cursor_page key (clamp_limit limit)
             (filter (λ a, nullable (λ ts, key a < ts) (cursor_instant cursor)) all))) →
  serves key all cursor_means (fetch_page m).
Proof.
  intros Hm cursor before Hstart. rewrite Hm. unfold cursor_page.
  assert (cursor_instant cursor = before) as ->.
  { destruct cursor, before; cbn in Hstart; try done. }
  rewrite sort_before by done. fold (remaining key all before).
  set (L := clamp_limit limit). assert (1 <= L) as HL by (unfold L, clamp_limit; lia).
  rewrite take_take. replace (Z.to_nat L `min` Z.to_nat (L + 1))%nat with (Z.to_nat L) by lia.
  exists (take (Z.to_nat L) (remaining key all before)),
    (drop (Z.to_nat L) (remaining key all before)). eexists. split; [done|].
  rewrite take_drop. split; [done|]. rewrite length_take. case_decide as Hmore.
  - destruct (last (take (Z.to_nat L) (remaining key all before))) as [x|] eqn:Hlast; cbn.
    + exists x. split; [done|]. apply cursor_of_instant.
      rewrite Forall_forall in Hrep. apply Hrep.
      apply last_Some in Hlast as [pre Hpre].
      assert (x ∈ take (Z.to_nat L) (remaining key all before)) as Hx by (rewrite Hpre; set_solver).
      apply elem_of_take in Hx as (i & Hi & _). apply list_elem_of_lookup_2 in Hi.
      apply list_elem_of_filter in Hi as [_ Hi]. by rewrite order_by_desc_perm in Hi.
    + apply last_None in Hlast. apply (f_equal length) in Hlast.
      rewrite length_take in Hlast. cbn in Hlast. lia.
  - apply drop_ge. lia.
Qed.

Lemma listing_complete :
  (∀ cursor, fetch_page m cursor =
     Some (cursor_page key (clamp_limit limit)
             (filter (λ a, nullable (λ ts, key a < ts) (cursor_instant cursor)) all))) →
  follow (fetch_page m) (S (length all)) None = Some (order_by_desc key all).
Proof. intros Hm. by apply follow_all with (means := cursor_means), cursor_pages_serve. Qed.
End listing.

(** A listing that pages well: its timestamps are distinct dates. *)
Definition pages_well {A} (key : A → datetime) (all : list A) : Prop :=
  NoDup (key <$> all) ∧ Forall (λ a, representable (key a)) all.
End listings.

(** An administrator who follows the cursor through the list
    of accounts, products or orders, under any filters and with any page size,
    reads every matching row exactly once, newest first, and the walk ends,
    provided the timestamps of the matching rows are distinct. *)
Theorem admin_listings_are_complete `{FromIso} `{!FromIsoLaws} env d :
  (∀ q role status limit,
     let all := filter (user_listed q role status None) (rows (users d)) in
     pages_well u_created_at all →
     follow (fetch_page env d (λ c, list_users q role status c limit)) (S (length all)) None
       = Some (order_by_desc u_created_at all)) ∧
  (∀ q status sid limit,
     let all := filter (product_listed q status sid None) (rows (products d)) in
     pages_well p_created_at all →
     follow (fetch_page env d (λ c, list_products q status sid c limit)) (S (length all)) None
       = Some (order_by_desc p_created_at all)) ∧
  (∀ status limit,
     let all := filter (order_listed status None) (rows (orders d)) in
     pages_well o_placed_at all →
     follow (fetch_page env d (λ c, list_orders status c limit)) (S (length all)) None
       = Some (order_by_desc o_placed_at all)).
Proof.
  split_and!.
  - intros q role status limit all [Hnd Hrep]. apply (listing_complete _ _ _ _ limit); [done..|].
    intros cursor. unfold fetch_page, get_db, list_users, mbind, M_bind. cbn.
    unfold all. rewrite list_filter_filter. f_equal. f_equal. apply list_filter_iff.
    intros u. unfold user_listed. cbn. naive_solver.
  - intros q status sid limit all [Hnd Hrep]. apply (listing_complete _ _ _ _ limit); [done..|].
    intros cursor. unfold fetch_page, get_db, list_products, mbind, M_bind. cbn.
    unfold all. rewrite list_filter_filter. f_equal. f_equal. apply list_filter_iff.
    intros p. unfold product_listed. cbn. naive_solver.
  - intros status limit all [Hnd Hrep]. apply (listing_complete _ _ _ _ limit); [done..|].
    intros cursor. unfold fetch_page, get_db, list_orders, mbind, M_bind. cbn.
    unfold all. rewrite list_filter_filter. f_equal. f_equal. apply list_filter_iff.
    intros o. unfold order_listed. cbn. naive_solver.
Qed.

(** ** Rankings *)

Lemma sort_fmap {A B} (f : A → B) (ka : A → Z) (kb : B → Z) l :
  (∀ a, kb (f a) = ka a) → NoDup (ka <$> l) →
  order_by_desc kb (f <$> l) = f <$> order_by_desc ka l.
Proof.
  intros Hk Hnd. assert (kb <$> (f <$> l) = ka <$> l) as Hkeys.
  { rewrite <- list_fmap_compose. apply list_fmap_ext. intros _ a _. apply Hk. }
  apply (newest_first_unique kb).
  - apply newest_first_sorted. by rewrite Hkeys.
  - pose proof (newest_first_sorted ka l Hnd) as Hs. clear - Hk Hs.
    induction Hs as [|a l' Hs IH Hall]; cbn; constructor; [done|].
    apply Forall_fmap. eapply Forall_impl; [exact Hall|]. intros b. unfold newer. cbn. by rewrite !Hk.
  - by rewrite !order_by_desc_perm.
Qed.

Lemma sort_perm {A} (key : A → Z) l1 l2 :
  NoDup (key <$> l1) → l1 ≡ₚ l2 → order_by_desc key l1 = order_by_desc key l2.
Proof.
  intros Hnd Hp. apply (newest_first_unique key).
  - by apply newest_first_sorted.
  - apply newest_first_sorted. by rewrite <- Hp.
  - by rewrite !order_by_desc_perm.
Qed.

(** ** Groups of snapshots *)

Lemma sum_totals_cons sn l : sum_totals (sn :: l) = sn_total_minor sn + sum_totals l.
Proof. done. Qed.

Definition sum_of {A} (f : A → Z) (l : list A) : Z := foldr (λ a acc, f a + acc) 0 l.

Lemma sum_of_cons {A} (f : A → Z) a l : sum_of f (a :: l) = f a + sum_of f l.
Proof. done. Qed.
Lemma sum_of_zero {A} (l : list A) : sum_of (λ _, 0) l = 0.
Proof. unfold sum_of. induction l; cbn in *; lia. Qed.
Lemma sum_of_ext {A} (f g : A → Z) l : (∀ a, a ∈ l → f a = g a) → sum_of f l = sum_of g l.
Proof.
  induction l as [|a l IH]; intros H; [done|]. rewrite !sum_of_cons, H by left.
  f_equal. apply IH. intros b Hb. apply H. by right.
Qed.
Lemma sum_of_add {A} (f g : A → Z) l : sum_of (λ a, f a + g a) l = sum_of f l + sum_of g l.
Proof. unfold sum_of. induction l as [|a l IH]; cbn in *; lia. Qed.
Lemma sum_of_fmap {A B} (h : A → B) (f : B → Z) l : sum_of f (h <$> l) = sum_of (λ a, f (h a)) l.
Proof. unfold sum_of. induction l as [|a l IH]; cbn in *; lia. Qed.

(** Exactly one of distinct keys is hit. *)
Lemma sum_of_indicator `{EqDecision K} (k : K) (v : Z) ks :
  NoDup ks → k ∈ ks → sum_of (λ x, if decide (k = x) then v else 0) ks = v.
Proof.
  induction 1 as [|x ks Hx _ IH]; intros Hk; [by apply not_elem_of_nil in Hk|].
  rewrite sum_of_cons. apply elem_of_cons in Hk as [->|Hk].
  - rewrite decide_True by done. rewrite (sum_of_ext _ (λ _, 0)).
    + rewrite sum_of_zero. lia.
    + intros y Hy. rewrite decide_False; [done|]. by intros ->.
  - rewrite decide_False by (by intros ->). by rewrite IH.
Qed.

Section groups.
Context (f : list OrderAnalyticsSnapshot → Z) (g : OrderAnalyticsSnapshot → Z).
Context (Hnil : f [] = 0) (Hcons : ∀ sn l, f (sn :: l) = g sn + f l).

(** An additive figure of the groups adds up to the figure of the whole. *)
Lemma groups_add_up l ids :
  NoDup ids → (∀ sn, sn ∈ l → sn_seller_id sn ∈ ids) →
  sum_of (λ sid, f (filter (λ sn, sn_seller_id sn = sid) l)) ids = f l.
Proof.
  intros Hnd. induction l as [|sn l IH]; intros Hids.
  - rewrite (sum_of_ext _ (λ _, 0)) by (intros; apply Hnil).
    by rewrite Hnil, sum_of_zero.
  - rewrite (sum_of_ext _ (λ sid, (if decide (sn_seller_id sn = sid) then g sn else 0) +
      f (filter (λ sn, sn_seller_id sn = sid) l))).
    + rewrite sum_of_add, sum_of_indicator; [|done|apply Hids; left].
      rewrite IH; [by rewrite Hcons|]. intros sn' Hsn'. apply Hids. by right.
    + intros sid _. rewrite filter_cons. case_decide; [by rewrite Hcons|lia].
Qed.
End groups.

Lemma group_sellers l : ro_seller_id <$> group_by_seller l = remove_dups (sn_seller_id <$> l).
Proof.
  unfold group_by_seller. rewrite <- list_fmap_compose. etransitivity; [|apply list_fmap_id].
  by apply list_fmap_ext.
Qed.

Lemma group_seller_ids l e :
  e ∈ group_by_seller l → ∃ sn, sn ∈ l ∧ ro_seller_id e = sn_seller_id sn.
Proof.
  intros He. assert (ro_seller_id e ∈ (sn_seller_id <$> l)) as Hin.
  { rewrite <- elem_of_remove_dups, <- group_sellers. by apply list_elem_of_fmap_2. }
  apply list_elem_of_fmap in Hin as (sn & -> & ?). by exists sn.
Qed.

Lemma group_revenue l : sum_of ro_lifetime_revenue_minor (group_by_seller l) = sum_totals l.
Proof.
  unfold group_by_seller. rewrite sum_of_fmap. cbn.
  apply (groups_add_up sum_totals sn_total_minor); [done|done|apply NoDup_remove_dups|].
  intros sn Hsn. apply elem_of_remove_dups. by apply list_elem_of_fmap_2.
Qed.
Lemma group_count l :
  sum_of ro_lifetime_order_count (group_by_seller l) = Z.of_nat (length l).
Proof.
  unfold group_by_seller. rewrite sum_of_fmap. cbn.
  apply (groups_add_up (λ l, Z.of_nat (length l)) (λ _, 1)); [done| |apply NoDup_remove_dups|].
  - intros sn l'. cbn. lia.
  - intros sn Hsn. apply elem_of_remove_dups. by apply list_elem_of_fmap_2.
Qed.

(** Each group is the dashboard's lifetime figure of its seller. *)
Lemma group_is_lifetime d e :
  e ∈ group_by_seller (rows (order_analytics_snapshots d)) →
  (ro_lifetime_revenue_minor e, ro_lifetime_order_count e) = lifetime d (ro_seller_id e).
Proof. intros (sid & -> & _)%list_elem_of_fmap. done. Qed.

(** ** The overview *)

Lemma select_all {R} (l : list R) : filter (λ _, True) l = l.
Proof. induction l as [|r l IH]; [done|]. by rewrite filter_cons_True, IH. Qed.

Lemma distinct_grows {A} `{EqDecision A} (l1 l2 : list A) :
  (∀ x, x ∈ l1 → x ∈ l2) → (length (remove_dups l1) ≤ length (remove_dups l2))%nat.
Proof.
  intros H. apply submseteq_length, NoDup_submseteq; [apply NoDup_remove_dups|].
  intros x. rewrite !elem_of_remove_dups. apply H.
Qed.

(** The customers with a delivery since [horizon]. *)
Definition customers_since (d : DB) (horizon : datetime) : list uuid :=
  sn_customer_id <$>
    filter (λ sn, horizon <= sn_delivered_at sn) (rows (order_analytics_snapshots d)).

Lemma customers_since_grow d h1 h2 x :
  h2 <= h1 → x ∈ customers_since d h1 → x ∈ customers_since d h2.
Proof.
  intros Hh (sn & -> & Hsn)%list_elem_of_fmap. apply list_elem_of_fmap_2.
  apply list_elem_of_filter in Hsn as [Hp Hsn]. apply list_elem_of_filter. split; [lia|done].
Qed.

Lemma roles_partition l :
  role_rows l seller + role_rows l customer + role_rows l driver + role_rows l admin =
  Z.of_nat (length l).
Proof.
  unfold role_rows. induction l as [|u l IH]; [done|]. rewrite !filter_cons.
  destruct (u_role u) eqn:E; repeat case_decide; simplify_eq; cbn [length] in *; lia.
Qed.

Definition snapshot_sellers (d : DB) : list uuid :=
  remove_dups (sn_seller_id <$> rows (order_analytics_snapshots d)).

(** The overview is consistent with the dashboards of the
    sellers: the marketplace total and its number of orders are the sums of
    the lifetime figures over the sellers with a completed order; the active
    customers of a longer window include those of a shorter one; and the four
    role counts make up the live accounts.  The request always succeeds and
    changes nothing. *)
Theorem overview_adds_up env d :
  ∃ r, get_db get_analytics_overview env d = (Ok r, d) ∧
    total_gmv_minor r = sum_of (λ sid, (lifetime d sid).1) (snapshot_sellers d) ∧
    orders_count r = sum_of (λ sid, (lifetime d sid).2) (snapshot_sellers d) ∧
    0 <= active_users_24h r <= active_users_7d r ∧
    active_users_7d r <= active_users_30d r <= orders_count r ∧
    seller_count r + customer_count r + driver_count r + admin_count r =
      Z.of_nat (length (filter (λ u, u_deleted_at u = None) (rows (users d)))).
Proof.
  eexists. split; [reflexivity|]. cbn [total_gmv_minor orders_count active_users_24h
    active_users_7d active_users_30d seller_count customer_count driver_count admin_count].
  unfold update_field.
  cbn [working open_session eta_Session clock_reads table snapshots_table users_table].
  set (l := rows (order_analytics_snapshots d)).
  assert (filter (λ _ : OrderAnalyticsSnapshot, True) l = l) as Hl by apply select_all.
  assert (∀ f, sum_of f (snapshot_sellers d) = sum_of (λ e, f (ro_seller_id e)) (group_by_seller l))
    as Hids by (intros f; unfold snapshot_sellers; by rewrite <- group_sellers, sum_of_fmap).
  assert (∀ h1 h2, h2 <= h1 →
    Z.of_nat (length (remove_dups (customers_since d h1))) <=
    Z.of_nat (length (remove_dups (customers_since d h2)))) as Hgrow.
  { intros h1 h2 Hh. apply inj_le, distinct_grows. intros x. by apply customers_since_grow. }
  rewrite Hl, !Hids. split_and!.
  - rewrite <- group_revenue. apply sum_of_ext. intros e He. by rewrite <- group_is_lifetime.
  - rewrite <- group_count. apply sum_of_ext. intros e He. by rewrite <- group_is_lifetime.
  - lia.
  - apply Hgrow. unfold timedelta_hours, timedelta_days, timedelta_seconds. lia.
  - apply Hgrow. unfold timedelta_hours, timedelta_days, timedelta_seconds. lia.
  - apply inj_le. etransitivity; [apply (distinct_grows _ (sn_customer_id <$> l))|].
    + intros x (sn & -> & Hsn)%list_elem_of_fmap. apply list_elem_of_fmap_2.
      by apply list_elem_of_filter in Hsn as [_ ?].
    + rewrite <- (length_fmap sn_customer_id l). apply submseteq_length, NoDup_submseteq;
        [apply NoDup_remove_dups|]. intros x. by rewrite elem_of_remove_dups.
  - apply roles_partition.
Qed.

(** ** The ranking of the sellers *)

(** The ranking as specified: every seller with a completed order, by lifetime
    revenue. *)
Definition ranking (d : DB) : list TopSeller :=
  (λ r, top_entry (default "Unknown" (se_display_name <$> sellers d !! ro_seller_id r)) r) <$>
    order_by_desc ro_lifetime_revenue_minor
      (group_by_seller (rows (order_analytics_snapshots d))).

Definition revenues_differ (d : DB) : Prop :=
  NoDup (ro_lifetime_revenue_minor <$> group_by_seller (rows (order_analytics_snapshots d))).
(** The foreign key of a snapshot's order guarantees it. *)
Definition sellers_exist (d : DB) : Prop :=
  ∀ k sn, order_analytics_snapshots d !! k = Some sn → is_Some (sellers d !! sn_seller_id sn).

Lemma fallback_runs env d limit :
  keyed (R:=Seller) d → seller_sales_rollups d = ∅ →
  (get_db (get_top_sellers limit) env d).1 = Ok (take (Z.to_nat (clamp_limit limit)) (ranking d)).
Proof.
  intros Hk Hempty. unfold get_db, get_top_sellers, mbind, M_bind, select, query.
  cbn -[filter fmap take order_by_desc rows list_to_map elem_of group_by_seller rollups_join_sellers].
  assert (rollups_join_sellers d = []) as -> by (unfold rollups_join_sellers; by rewrite Hempty).
  change (order_by_desc ts_lifetime_revenue_minor []) with (@nil TopSeller). rewrite take_nil.
  cbn -[filter fmap take order_by_desc rows list_to_map elem_of group_by_seller].
  rewrite select_all. f_equal.
  unfold ranking. rewrite <- fmap_take.
  set (top := take _ (order_by_desc _ _)). apply list_fmap_ext. intros i r Hi. f_equal. f_equal.
  assert (ro_seller_id r ∈ (ro_seller_id <$> top)) as Hin
    by (apply list_elem_of_fmap_2; by apply list_elem_of_lookup_2 in Hi).
  set (found := filter _ (rows (sellers d))).
  assert (NoDup (((λ s, (se_id s, se_display_name s)) <$> found).*1)) as Hnd.
  { rewrite <- list_fmap_compose. eapply sublist_NoDup;
      [exact (keyed_rows_NoDup (R:=Seller) d Hk)|]. apply fmap_sublist, sublist_filter. }
  destruct (sellers d !! ro_seller_id r) as [s|] eqn:Hs; cbn.
  - apply elem_of_list_to_map_1; [done|]. apply list_elem_of_fmap. exists s.
    assert (se_id s = ro_seller_id r) as Hid by exact (Hk _ _ Hs).
    split; [by rewrite Hid|]. unfold found. apply elem_of_selected. rewrite Hid.
    split; [done|]. by exists (ro_seller_id r).
  - apply not_elem_of_list_to_map_1. rewrite <- list_fmap_compose.
    intros (s & E & Hsf)%list_elem_of_fmap. cbn in E. unfold found in Hsf.
    apply elem_of_selected in Hsf as [_ [k Hks]]. pose proof (Hk _ _ Hks) as Hid. cbn in Hid.
    congruence.
Qed.

(** The view after a refresh holds the groups. *)
Lemma refreshed env d :
  after (get_db _refresh env d) =
    d <| seller_sales_rollups := list_to_map ((λ r, (ro_seller_id r, r)) <$>
           group_by_seller (rows (order_analytics_snapshots d))) |>.
Proof.
  unfold after, get_db, _refresh, mbind, M_bind, select, query.
  cbn -[filter fmap rows list_to_map group_by_seller]. by rewrite select_all.
Qed.

Lemma view_runs env d limit :
  sellers_exist d → revenues_differ d →
  let v := d <| seller_sales_rollups := list_to_map ((λ r, (ro_seller_id r, r)) <$>
             group_by_seller (rows (order_analytics_snapshots d))) |> in
  (get_db (get_top_sellers limit) env v).1 =
    Ok (take (Z.to_nat (clamp_limit limit)) (ranking d)).
Proof.
  intros Hex Hdiff v. set (groups := group_by_seller (rows (order_analytics_snapshots d))) in *.
  set (name := λ r, default "Unknown" (se_display_name <$> sellers d !! ro_seller_id r)).
  assert (rollups_join_sellers v ≡ₚ (λ r, top_entry (name r) r) <$> groups) as Hjoin.
  { unfold rollups_join_sellers. cbn -[rows list_to_map fmap]. unfold rows.
    rewrite map_to_list_to_map.
    2: { rewrite <- list_fmap_compose. cbn. unfold groups.
         change (NoDup (ro_seller_id <$> group_by_seller (rows (order_analytics_snapshots d)))).
         rewrite group_sellers. apply NoDup_remove_dups. }
    rewrite <- list_fmap_compose. cbn. rewrite list_fmap_id.
    assert (∀ r, r ∈ groups → is_Some (sellers d !! ro_seller_id r)) as Hs.
    { intros r (sn & [k Hk]%elem_of_rows & ->)%group_seller_ids. by eapply Hex. }
    clear - Hs. induction groups as [|r l IH]; [done|]. cbn.
    destruct (Hs r ltac:(left)) as [s E]. unfold name at 1. rewrite E. cbn. f_equiv.
    apply IH. intros r' Hr'. apply Hs. by right. }
  assert (NoDup (ts_lifetime_revenue_minor <$> ((λ r, top_entry (name r) r) <$> groups))) as Hnd
    by (rewrite <- list_fmap_compose; exact Hdiff).
  assert (order_by_desc ts_lifetime_revenue_minor (rollups_join_sellers v) = ranking d) as Hsort.
  { rewrite (sort_perm _ (rollups_join_sellers v) ((λ r, top_entry (name r) r) <$> groups));
      [by apply sort_fmap|by rewrite Hjoin|exact Hjoin]. }
  unfold get_db, get_top_sellers, mbind, M_bind, select, query.
  cbn -[filter fmap take order_by_desc rows list_to_map elem_of group_by_seller rollups_join_sellers].
  rewrite Hsort. destruct (take (Z.to_nat (clamp_limit limit)) (ranking d)) eqn:E; [|done].
  unfold ranking in E. rewrite <- fmap_take in E. apply fmap_nil_inv in E.
  cbn -[filter fmap take order_by_desc rows list_to_map elem_of group_by_seller].
  change (order_analytics_snapshots v) with (order_analytics_snapshots d).
  by rewrite select_all, E.
Qed.


(** ** Witnesses *)

(** The accounts of the fixtures, created one second apart. *)
Definition w_accounts : DB :=
  world <| users ::= fmap (λ u, u <| u_created_at := timedelta_seconds (Z.of_N (u_id u)) |>) |>.

#[local] Existing Instance iso_reader.

Lemma admin_listings_are_complete_witness :
  fmap (M:=list) u_id <$> follow (fetch_page (env_at 1) w_accounts
    (λ c, list_users (Some "X") (Some "customer") None c 1)) 3 None = Some [5%N; 3%N].
Proof.
  set (all := filter (user_listed (Some "X") (Some "customer") None None)
    (rows (users w_accounts))).
  assert (length all = 2%nat) as Hlen by (vm_compute; reflexivity).
  assert (pages_well u_created_at all) as Hwell
    by (split; apply (bool_decide_eq_true_1 _); vm_compute; reflexivity).
  pose proof (proj1 (admin_listings_are_complete (env_at 1) w_accounts)
    (Some "X") (Some "customer") None 1 Hwell) as Hw.
  fold all in Hw. rewrite Hlen in Hw. rewrite Hw. vm_compute. reflexivity.
Defined.

(** The orders of two sellers are complete. *)
Definition carol_shop : Seller := mkSeller 7 7 "Carol" None "Porto" "PT" 0%Z None.
Definition sold (id order sid : uuid) (total : Z) : OrderAnalyticsSnapshot :=
  mkSnapshot id order sid 10 3 "Lisbon" 1 total total 0 None None.
Definition w_sales : DB :=
  world <| sellers ::= <[7%N := carol_shop]> |>
        <| order_analytics_snapshots := list_to_map ((λ s, (sn_id s, s)) <$>
             [sold 30 1 2 500; sold 31 2 7 800; sold 32 3 2 400]) |>.


(** Two accounts created at the same instant: the page boundary loses one. *)
Example tied_accounts_are_skipped :
  fmap (M:=list) u_id <$> follow (fetch_page (env_at 1) world
    (λ c, list_users None (Some "customer") None c 1)) 3 None ≠ Some [3%N; 5%N] ∧
  length <$> follow (fetch_page (env_at 1) world
    (λ c, list_users None (Some "customer") None c 1)) 3 None = Some 1%nat.
Proof. vm_compute. by split. Qed.

(** A product that the panel disabled is still listed, shown and sold: only
    [is_active] and the deletion mark are looked at. *)
Definition w_disabled : DB := after (get_db (disable_product 20 "unsafe") (env_at 1) world).
Example disabled_products_still_sell :
  p_status <$> products w_disabled !! 20%N = Some product_disabled ∧
  succeeds (get_db (get_product_for_caller alice 20) (env_at 2) w_disabled) = true ∧
  match (get_db (list_products_for_caller alice None None 20) (env_at 2) w_disabled).1 with
  | Ok l => bool_decide (20%N ∈ (p_id <$> l))
  | Raised _ => false
  end = true ∧
  succeeds (get_db (create_order alice basket no_address) (env_at 3) w_disabled) = true.
Proof. vm_compute. by split_and!. Qed.
