(* ===== verification/Schema.v ===== *)
(** * Database schemas and the operations of a migration

    The data definition language that the migration scripts under
    [alembic/versions/] are written in, as PostgreSQL executes it: a schema is
    its extensions, enum types, tables, indexes and materialized views, an
    operation succeeds with the new schema or fails.  Column comments and the
    sequence behind an integer primary key are not part of a schema here. *)

From S2P Require Import Prelude.
#[local] Open Scope string_scope.

(** ** Columns, predicates, constraints *)

Inductive sqltype :=
| UUID | CITEXT | Text | Varchar (n : N) | Boolean | Integer | BigInteger | Float | Double
| TIMESTAMPTZ | JSONB | LargeBinary | ENUM (name : string).
#[export] Instance sqltype_eq_dec : EqDecision sqltype.
Proof. solve_decision. Defined.

Record Column := mkColumn {
  col_type : sqltype;
  col_nullable : bool;
  server_default : option string;
}.
#[export] Instance Column_eq_dec : EqDecision Column.
Proof. solve_decision. Defined.

(** The predicates of CHECK constraints and partial indexes. *)
Inductive scalar := Col (c : string) | Int (z : Z) | Lit (s : string).
Inductive comparison_op := OLt | OLe | OGt | OGe | OEq.
Inductive pred :=
| Cmp (op : comparison_op) (a b : scalar)
| In (c : string) (labels : list string)
| IsNull (c : string)
| IsNotNull (c : string)
| And (p q : pred)
| Or (p q : pred).
#[export] Instance scalar_eq_dec : EqDecision scalar.
Proof. solve_decision. Defined.
#[export] Instance comparison_op_eq_dec : EqDecision comparison_op.
Proof. solve_decision. Defined.
#[export] Instance pred_eq_dec : EqDecision pred.
Proof. solve_decision. Defined.

Definition scalar_columns (a : scalar) : list string :=
  match a with Col c => [c] | _ => [] end.
Fixpoint pred_columns (p : pred) : list string :=
  match p with
  | Cmp _ a b => scalar_columns a ++ scalar_columns b
  | In c _ | IsNull c | IsNotNull c => [c]
  | And p q | Or p q => pred_columns p ++ pred_columns q
  end.

Inductive on_delete := RESTRICT | CASCADE | SET_NULL.
#[export] Instance on_delete_eq_dec : EqDecision on_delete.
Proof. solve_decision. Defined.

Inductive constraint :=
| PrimaryKey (cols : list string)
| Unique (cols : list string)
| Check (p : pred)
| ForeignKey (cols : list string) (target : string) (target_cols : list string)
    (ondelete : on_delete).
#[export] Instance constraint_eq_dec : EqDecision constraint.
Proof. solve_decision. Defined.

Definition constraint_columns (c : constraint) : list string :=
  match c with
  | PrimaryKey cols | Unique cols | ForeignKey cols _ _ _ => cols
  | Check p => pred_columns p
  end.
(** Constraints that PostgreSQL backs by an index of the same name. *)
Definition is_key (c : constraint) : bool :=
  match c with PrimaryKey _ | Unique _ => true | _ => false end.

Record TableDef := mkTable {
  columns : gmap string Column;
  constraints : gmap string constraint;
}.
#[export] Instance TableDef_eq_dec : EqDecision TableDef.
Proof. solve_decision. Defined.
#[export] Instance eta_TableDef : EtaRecord TableDef := fun t =>
  mkTable (columns t) (constraints t).

Record Index := mkIndex {
  ix_table : string;
  ix_cols : list string;
  ix_unique : bool;
  ix_where : option pred;
}.
#[export] Instance Index_eq_dec : EqDecision Index.
Proof. solve_decision. Defined.

(** A materialized view: the table and the columns it reads, and its own
    columns. *)
Record View := mkView {
  view_table : string;
  view_reads : list string;
  view_cols : list string;
}.
#[export] Instance View_eq_dec : EqDecision View.
Proof. solve_decision. Defined.

Record Schema := mkSchema {
  extensions : gset string;
  enums : gmap string (list string);
  tables : gmap string TableDef;
  indexes : gmap string Index;
  views : gmap string View;
}.
#[export] Instance Schema_eq_dec : EqDecision Schema.
Proof. solve_decision. Defined.
#[export] Instance eta_Schema : EtaRecord Schema := fun s =>
  mkSchema (extensions s) (enums s) (tables s) (indexes s) (views s).
Definition empty_schema : Schema := mkSchema ∅ ∅ ∅ ∅ ∅.

(** ** The operations of [alembic.op] that the scripts use *)

(** The options of a column in [create_table]. *)
Inductive col_option :=
| primary_key
| not_null
| default_ (text : string)
| references (name : option string) (target : string) (ondelete : on_delete).

Inductive item :=
| Column_ (name : string) (ty : sqltype) (options : list col_option)
| CheckConstraint (p : pred) (name : string)
| UniqueConstraint (cols : list string) (name : string).

Inductive constraint_type := unique | check_ | foreignkey.

Inductive op :=
| CREATE_EXTENSION (name : string)
| CREATE_TYPE (name : string) (labels : list string)
| enum_create (name : string) (labels : list string)
| DROP_TYPE_IF_EXISTS (name : string)
| create_table (name : string) (items : list item)
| drop_table (name : string)
| add_column (table : string) (name : string) (ty : sqltype) (options : list col_option)
| drop_column (table : string) (name : string)
| create_index (name table : string) (cols : list string) (unique_ : bool) (where_ : option pred)
| create_index_if_not_exists (name table : string) (cols : list string)
| drop_index (name : string)
| drop_index_if_exists (name : string)
| create_unique_constraint (name table : string) (cols : list string)
| create_check_constraint (name table : string) (p : pred)
| create_foreign_key (name source referent : string) (local_cols remote_cols : list string)
    (ondelete : on_delete)
| drop_constraint (name table : string) (ty : constraint_type)
| CREATE_MATERIALIZED_VIEW (name table : string) (reads cols : list string)
| CREATE_UNIQUE_INDEX_ON_VIEW (name view : string) (cols : list string)
| DROP_MATERIALIZED_VIEW_IF_EXISTS (name : string)
| COMMENT_ON (relation : string)
| INSERT_INTO (table : string) (cols : list string)
| UPDATE (table : string) (cols : list string).

(** ** Execution *)

(** Tables, indexes and views share one name space, with the indexes behind
    keys. *)
Definition key_names (t : TableDef) : list string :=
  (filter (λ kc, is_key kc.2 = true) (map_to_list (constraints t))).*1.
Definition relation_names (s : Schema) : list string :=
  (map_to_list (tables s)).*1 ++ (map_to_list (indexes s)).*1 ++ (map_to_list (views s)).*1 ++
  ((map_to_list (tables s)).*2 ≫= key_names).
Definition guard_ (P : Prop) `{Decision P} (s : option Schema) : option Schema :=
  if decide P then s else None.
Definition fresh (name : string) (s : Schema) : Prop := name ∉ relation_names s.

Definition type_known (s : Schema) (ty : sqltype) : Prop :=
  match ty with
  | ENUM name => is_Some (enums s !! name)
  | CITEXT => "citext" ∈ extensions s
  | _ => True
  end.
#[export] Instance type_known_dec s ty : Decision (type_known s ty).
Proof. destruct ty; cbn; apply _. Defined.

Definition has_columns (t : TableDef) (cols : list string) : Prop :=
  Forall (λ c, is_Some (columns t !! c)) cols.

(** A foreign key needs a key on the other side. *)
Definition keyed_by (t : TableDef) (cols : list string) : Prop :=
  Exists (λ kc, kc.2 = PrimaryKey cols ∨ kc.2 = Unique cols) (map_to_list (constraints t)).

Definition constraint_ok (s : Schema) (t : TableDef) (c : constraint) : Prop :=
  has_columns t (constraint_columns c) ∧
  match c with
  | ForeignKey _ target cols _ =>
      match tables s !! target with Some t' => keyed_by t' cols | None => False end
  | _ => True
  end.
#[export] Instance constraint_ok_dec s t c : Decision (constraint_ok s t c).
Proof.
  unfold constraint_ok, has_columns, keyed_by.
  destruct c as [| | |cols target tcols d]; try apply _. destruct (tables s !! target); apply _.
Defined.

(** The definition of a column, and the constraints that come with it. *)
Fixpoint column_of (ty : sqltype) (options : list col_option) : Column :=
  match options with
  | [] => mkColumn ty true None
  | o :: options' =>
      let c := column_of ty options' in
      match o with
      | primary_key | not_null => mkColumn ty false (server_default c)
      | default_ text => mkColumn ty (col_nullable c) (Some text)
      | references _ _ _ => c
      end
  end.
Definition option_constraint (table name : string) (o : col_option) :
    option (string * constraint) :=
  match o with
  | primary_key => Some (table +:+ "_pkey", PrimaryKey [name])
  | references fk target ondelete =>
      Some (default (table +:+ "_" +:+ name +:+ "_fkey") fk,
            ForeignKey [name] target ["id"] ondelete)
  | _ => None
  end.
Definition item_columns (i : item) : list (string * Column) :=
  match i with Column_ name ty options => [(name, column_of ty options)] | _ => [] end.
Definition item_constraints (table : string) (i : item) : list (string * constraint) :=
  match i with
  | Column_ name _ options => omap (option_constraint table name) options
  | CheckConstraint p name => [(name, Check p)]
  | UniqueConstraint cols name => [(name, Unique cols)]
  end.

(** [ALTER TABLE]: change one table. *)
Definition alter (table : string) (s : Schema) (f : TableDef → option TableDef) :
    option Schema :=
  t ← tables s !! table;
  t' ← f t;
  Some (s <| tables ::= <[table := t']> |>).

Definition add_constraint (s : Schema) (table name : string) (c : constraint) : option Schema :=
  guard_ (is_key c = true → fresh name s)
    (alter table s (λ t,
       if decide (constraints t !! name = None ∧ constraint_ok s t c)
       then Some (t <| constraints ::= <[name := c]> |>) else None)).

Definition referenced_by_other (s : Schema) (name : string) : Prop :=
  Exists (λ nt, nt.1 ≠ name ∧
      Exists (λ kc, match kc.2 with ForeignKey _ target _ _ => target = name | _ => False end)
        (map_to_list (constraints nt.2)))
    (map_to_list (tables s)).
#[export] Instance referenced_by_other_dec s name : Decision (referenced_by_other s name).
Proof.
  unfold referenced_by_other. apply Exists_dec. intros [n t]. apply and_dec; [apply _|].
  apply Exists_dec. intros [k []]; cbn; apply _.
Defined.

(** A column that a foreign key or a view needs. *)
Definition column_referenced (s : Schema) (table name : string) : Prop :=
  Exists (λ nt, Exists (λ kc, match kc.2 with
      | ForeignKey _ target cols _ => target = table ∧ name ∈ cols
      | _ => False end) (map_to_list (constraints nt.2))) (map_to_list (tables s)) ∨
  Exists (λ nv, view_table nv.2 = table ∧ name ∈ view_reads nv.2) (map_to_list (views s)).
#[export] Instance column_referenced_dec s table name : Decision (column_referenced s table name).
Proof.
  unfold column_referenced. apply or_dec; [|apply _]. apply Exists_dec. intros [n t].
  apply Exists_dec. intros [k []]; cbn; apply _.
Defined.

Definition type_used (s : Schema) (name : string) : Prop :=
  Exists (λ nt, Exists (λ kc, col_type kc.2 = ENUM name) (map_to_list (columns nt.2)))
    (map_to_list (tables s)).

Definition matches_type (ty : constraint_type) (c : constraint) : bool :=
  match ty, c with
  | unique, Unique _ | check_, Check _ | foreignkey, ForeignKey _ _ _ _ => true
  | _, _ => false
  end.

Definition drop_type (name : string) (s : Schema) : option Schema :=
  guard_ (¬ type_used s name) (Some (s <| enums ::= delete name |>)).

Definition add_index (name table : string) (ix : Index) (s : Schema) : option Schema :=
  t ← tables s !! table;
  guard_ (fresh name s ∧ has_columns t (ix_cols ix) ∧
          has_columns t (from_option pred_columns [] (ix_where ix)))
    (Some (s <| indexes ::= <[name := ix]> |>)).

Definition apply (o : op) (s : Schema) : option Schema :=
  match o with
  | CREATE_EXTENSION name => Some (s <| extensions ::= union {[ name ]} |>)
  | CREATE_TYPE name labels =>
      guard_ (enums s !! name = None) (Some (s <| enums ::= <[name := labels]> |>))
  | enum_create name labels =>
      Some (match enums s !! name with
            | Some _ => s
            | None => s <| enums ::= <[name := labels]> |>
            end)
  | DROP_TYPE_IF_EXISTS name => drop_type name s
  | create_table name items =>
      let cols := items ≫= item_columns in
      let cons := items ≫= item_constraints name in
      let t := mkTable (list_to_map cols) (list_to_map cons) in
      guard_ (fresh name s ∧ NoDup cols.*1 ∧ NoDup cons.*1 ∧
              Forall (λ c, type_known s (col_type c.2)) cols ∧
              Forall (λ c, constraint_ok (s <| tables ::= <[name := t]> |>) t c.2) cons ∧
              Forall (λ n, fresh n s) (key_names t))
        (Some (s <| tables ::= <[name := t]> |>))
  | drop_table name =>
      guard_ (is_Some (tables s !! name) ∧ ¬ referenced_by_other s name ∧
              Forall (λ nv, view_table nv.2 ≠ name) (map_to_list (views s)))
        (Some (s <| tables ::= delete name |>
                 <| indexes ::= filter (λ ni, ix_table ni.2 ≠ name) |>))
  | add_column table name ty options =>
      guard_ (type_known s ty)
        (alter table s (λ t,
           if decide (columns t !! name = None)
           then Some (t <| columns ::= <[name := column_of ty options]> |>) else None))
  | drop_column table name =>
      guard_ (¬ column_referenced s table name)
        (s' ← alter table s (λ t,
           if decide (is_Some (columns t !! name))
           then Some (t <| columns ::= delete name |>
                        <| constraints ::= filter (λ kc, name ∉ constraint_columns kc.2) |>)
           else None);
         Some (s' <| indexes ::= filter (λ ni, ¬ (ix_table ni.2 = table ∧ name ∈ ix_cols ni.2)) |>))
  | create_index name table cols unique_ where_ =>
      add_index name table (mkIndex table cols unique_ where_) s
  | create_index_if_not_exists name table cols =>
      if decide (fresh name s) then add_index name table (mkIndex table cols false None) s
      else Some s
  | drop_index name =>
      guard_ (is_Some (indexes s !! name)) (Some (s <| indexes ::= delete name |>))
  | drop_index_if_exists name => Some (s <| indexes ::= delete name |>)
  | create_unique_constraint name table cols => add_constraint s table name (Unique cols)
  | create_check_constraint name table p => add_constraint s table name (Check p)
  | create_foreign_key name source referent local_cols remote_cols ondelete =>
      add_constraint s source name (ForeignKey local_cols referent remote_cols ondelete)
  | drop_constraint name table ty =>
      alter table s (λ t,
        c ← constraints t !! name;
        if matches_type ty c then Some (t <| constraints ::= delete name |>) else None)
  | CREATE_MATERIALIZED_VIEW name table reads cols =>
      t ← tables s !! table;
      guard_ (fresh name s ∧ has_columns t reads)
        (Some (s <| views ::= <[name := mkView table reads cols]> |>))
  | CREATE_UNIQUE_INDEX_ON_VIEW name view cols =>
      v ← views s !! view;
      guard_ (fresh name s ∧ Forall (λ c, c ∈ view_cols v) cols)
        (Some (s <| indexes ::= <[name := mkIndex view cols true None]> |>))
  | DROP_MATERIALIZED_VIEW_IF_EXISTS name =>
      Some (s <| views ::= delete name |>
              <| indexes ::= filter (λ ni, ix_table ni.2 ≠ name) |>)
  | COMMENT_ON relation => guard_ (relation ∈ relation_names s) (Some s)
  | INSERT_INTO table cols | UPDATE table cols =>
      t ← tables s !! table; guard_ (has_columns t cols) (Some s)
  end.

(** A script runs its operations in one transaction. *)
Fixpoint run (script : list op) (s : Schema) : option Schema :=
  match script with
  | [] => Some s
  | o :: script' => s' ← apply o s; run script' s'
  end.

Record Migration := mkMigration {
  revision : string;
  down_revision : option string;
  upgrade : list op;
  downgrade : list op;
}.
