(* ===== verification/Migrations.v ===== *)
(** * The migration scripts

    [alembic/versions/0001] to [0010], operation by operation.  The migrations
    of the first script are grouped by table.  Left out: comments of columns,
    [postgresql_using] and the sort direction of an index, and the values that
    the data statements write. *)

From S2P Require Import Prelude.
From S2P Require Import Schema.
#[local] Open Scope string_scope.
#[local] Open Scope list_scope.

(** ** [0001_initial_schema.py]

    Initial schema — all tables, types, indexes, constraints, and seed data. *)

Definition m0001_extensions_and_types : list op :=
  [
    CREATE_EXTENSION "pgcrypto";
    CREATE_EXTENSION "citext";
    CREATE_TYPE "user_role" ["admin"; "seller"; "customer"; "driver"];
    CREATE_TYPE "order_status" ["pending"; "accepted"; "preparing"; "out_for_delivery";
        "delivered"; "completed"; "cancelled"];
    CREATE_TYPE "delivery_status" ["pending"; "in_transit"; "delivered"; "failed"];
    CREATE_TYPE "driver_assignment_status" ["requested"; "assigned"; "accepted"; "declined";
        "cancelled"];
    CREATE_TYPE "invite_link_type" ["admin_invite"; "seller_referral"]
  ].

Definition m0001_users : list op :=
  [
    create_table "users" [
      Column_ "id" UUID [primary_key; not_null];
      Column_ "email" CITEXT [not_null];
      Column_ "password_hash" Text [not_null];
      Column_ "role" (ENUM "user_role") [not_null];
      Column_ "display_name" (Varchar 255) [not_null];
      Column_ "phone" (Varchar 32) [];
      Column_ "is_active" Boolean [not_null; default_ "true"];
      Column_ "disabled_at" TIMESTAMPTZ [];
      Column_ "referring_seller_id" UUID [];
      Column_ "created_at" TIMESTAMPTZ [not_null; default_ "now()"];
      Column_ "updated_at" TIMESTAMPTZ [not_null; default_ "now()"];
      Column_ "deleted_at" TIMESTAMPTZ [];
      UniqueConstraint ["email"] "uq_users_email"];
    create_index "ix_users_role" "users" ["role"] false None;
    create_index "ix_users_deleted_at" "users" ["deleted_at"] false None;
    create_index "ix_users_referring_seller_id" "users" ["referring_seller_id"] false None
  ].

Definition m0001_refresh_tokens : list op :=
  [
    create_table "refresh_tokens" [
      Column_ "id" UUID [primary_key; not_null];
      Column_ "user_id" UUID [references (Some "fk_refresh_tokens_user_id") "users" CASCADE;
          not_null];
      Column_ "token_hash" (Varchar 64) [not_null];
      Column_ "device_label" (Varchar 255) [];
      Column_ "issued_at" TIMESTAMPTZ [not_null; default_ "now()"];
      Column_ "last_used_at" TIMESTAMPTZ [];
      Column_ "expires_at" TIMESTAMPTZ [not_null];
      Column_ "revoked_at" TIMESTAMPTZ [];
      UniqueConstraint ["token_hash"] "uq_refresh_tokens_token_hash"];
    create_index "ix_refresh_tokens_user_id" "refresh_tokens" ["user_id"] false None;
    create_index "ix_refresh_tokens_token_hash" "refresh_tokens" ["token_hash"] true None;
    create_index "ix_refresh_tokens_expires_at" "refresh_tokens" ["expires_at"] false None
  ].

Definition m0001_invite_links : list op :=
  [
    create_table "invite_links" [
      Column_ "id" UUID [primary_key; not_null];
      Column_ "issuer_id" UUID [references (Some "fk_invite_links_issuer_id") "users" RESTRICT;
          not_null];
      Column_ "type" (ENUM "invite_link_type") [not_null];
      Column_ "token" (Varchar 64) [not_null];
      Column_ "role_target" (ENUM "user_role") [];
      Column_ "max_uses" Integer [];
      Column_ "used_count" Integer [not_null; default_ "0"];
      Column_ "expires_at" TIMESTAMPTZ [];
      Column_ "revoked_at" TIMESTAMPTZ [];
      Column_ "created_at" TIMESTAMPTZ [not_null; default_ "now()"];
      Column_ "updated_at" TIMESTAMPTZ [not_null; default_ "now()"];
      UniqueConstraint ["token"] "uq_invite_links_token"];
    create_index "ix_invite_links_token" "invite_links" ["token"] true None;
    create_index "ix_invite_links_issuer_id" "invite_links" ["issuer_id"] false None;
    create_index "ix_invite_links_expires_at" "invite_links" ["expires_at"] false None;
    create_index "uq_invite_links_active_seller_referral" "invite_links" ["issuer_id"] true (Some
        (And (Cmp OEq (Col "type") (Lit "seller_referral")) (IsNull "revoked_at")))
  ].

Definition m0001_referrals : list op :=
  [
    create_table "referrals" [
      Column_ "id" UUID [primary_key; not_null];
      Column_ "referrer_id" UUID [references (Some "fk_referrals_referrer_id") "users" RESTRICT;
          not_null];
      Column_ "referred_user_id" UUID [references (Some "fk_referrals_referred_user_id") "users"
          RESTRICT; not_null];
      Column_ "invite_link_id" UUID [references (Some "fk_referrals_invite_link_id")
          "invite_links" RESTRICT; not_null];
      Column_ "created_at" TIMESTAMPTZ [not_null; default_ "now()"];
      UniqueConstraint ["referred_user_id"] "uq_referrals_referred_user_id"];
    create_index "ix_referrals_referrer_id" "referrals" ["referrer_id"] false None;
    create_index "ix_referrals_invite_link_id" "referrals" ["invite_link_id"] false None
  ].

Definition m0001_sellers : list op :=
  [
    create_table "sellers" [
      Column_ "id" UUID [primary_key; not_null];
      Column_ "user_id" UUID [references (Some "fk_sellers_user_id") "users" RESTRICT; not_null];
      Column_ "display_name" (Varchar 255) [not_null];
      Column_ "bio" Text [];
      Column_ "city" Text [not_null];
      Column_ "country_code" (Varchar 2) [not_null];
      Column_ "created_at" TIMESTAMPTZ [not_null; default_ "now()"];
      Column_ "updated_at" TIMESTAMPTZ [not_null; default_ "now()"];
      Column_ "deleted_at" TIMESTAMPTZ [];
      UniqueConstraint ["user_id"] "uq_sellers_user_id"];
    create_index "ix_sellers_city" "sellers" ["city"] false None
  ].

Definition m0001_stores : list op :=
  [
    create_table "stores" [
      Column_ "id" UUID [primary_key; not_null];
      Column_ "seller_id" UUID [references (Some "fk_stores_seller_id") "sellers" RESTRICT;
          not_null];
      Column_ "name" (Varchar 255) [not_null];
      Column_ "slug" (Varchar 255) [not_null];
      Column_ "description" Text [not_null; default_ "''"];
      Column_ "is_active" Boolean [not_null; default_ "true"];
      Column_ "created_at" TIMESTAMPTZ [not_null; default_ "now()"];
      Column_ "updated_at" TIMESTAMPTZ [not_null; default_ "now()"];
      Column_ "deleted_at" TIMESTAMPTZ [];
      UniqueConstraint ["seller_id"] "uq_stores_seller_id";
      UniqueConstraint ["slug"] "uq_stores_slug"];
    create_index "ix_stores_slug" "stores" ["slug"] false None
  ].

Definition m0001_products : list op :=
  [
    create_table "products" [
      Column_ "id" UUID [primary_key; not_null];
      Column_ "seller_id" UUID [references (Some "fk_products_seller_id") "sellers" RESTRICT;
          not_null];
      Column_ "store_id" UUID [references (Some "fk_products_store_id") "stores" RESTRICT;
          not_null];
      Column_ "name" (Varchar 255) [not_null];
      Column_ "description" Text [not_null; default_ "''"];
      Column_ "price_minor" BigInteger [not_null];
      Column_ "stock_quantity" Integer [];
      Column_ "is_active" Boolean [not_null; default_ "true"];
      Column_ "created_at" TIMESTAMPTZ [not_null; default_ "now()"];
      Column_ "updated_at" TIMESTAMPTZ [not_null; default_ "now()"];
      Column_ "deleted_at" TIMESTAMPTZ [];
      CheckConstraint (Cmp OGt (Col "price_minor") (Int 0)) "ck_products_price_minor_positive";
      CheckConstraint (Or (IsNull "stock_quantity") (Cmp OGe (Col "stock_quantity") (Int 0)))
          "ck_products_stock_quantity_non_negative"];
    create_index "ix_products_seller_id_is_active" "products" ["seller_id"; "is_active"] false
        None;
    create_index "ix_products_store_id_is_active" "products" ["store_id"; "is_active"] false None
  ].

Definition m0001_product_images : list op :=
  [
    create_table "product_images" [
      Column_ "id" UUID [primary_key; not_null];
      Column_ "product_id" UUID [references (Some "fk_product_images_product_id") "products"
          CASCADE; not_null];
      Column_ "s3_key" Text [not_null];
      Column_ "display_order" Integer [not_null; default_ "'0'"];
      Column_ "created_at" TIMESTAMPTZ [not_null; default_ "now()"]];
    create_index "ix_product_images_product_id" "product_images" ["product_id"] false None
  ].

Definition m0001_cart_items : list op :=
  [
    create_table "cart_items" [
      Column_ "id" UUID [primary_key; not_null];
      Column_ "customer_id" UUID [references (Some "fk_cart_items_customer_id") "users" CASCADE;
          not_null];
      Column_ "product_id" UUID [references (Some "fk_cart_items_product_id") "products" CASCADE;
          not_null];
      Column_ "quantity" Integer [not_null];
      Column_ "added_at" TIMESTAMPTZ [not_null; default_ "now()"];
      Column_ "updated_at" TIMESTAMPTZ [not_null; default_ "now()"];
      CheckConstraint (Cmp OGt (Col "quantity") (Int 0)) "ck_cart_items_quantity_positive";
      UniqueConstraint ["customer_id"; "product_id"] "uq_cart_items_customer_product"];
    create_index "ix_cart_items_customer_id" "cart_items" ["customer_id"] false None
  ].

Definition m0001_orders : list op :=
  [
    create_table "orders" [
      Column_ "id" UUID [primary_key; not_null];
      Column_ "customer_id" UUID [references (Some "fk_orders_customer_id") "users" RESTRICT;
          not_null];
      Column_ "seller_id" UUID [references (Some "fk_orders_seller_id") "sellers" RESTRICT;
          not_null];
      Column_ "store_id" UUID [references (Some "fk_orders_store_id") "stores" RESTRICT; not_null];
      Column_ "status" (ENUM "order_status") [not_null];
      Column_ "subtotal_minor" BigInteger [not_null];
      Column_ "total_minor" BigInteger [not_null];
      Column_ "delivery_address" JSONB [not_null];
      Column_ "placed_at" TIMESTAMPTZ [not_null; default_ "now()"];
      Column_ "accepted_at" TIMESTAMPTZ [];
      Column_ "preparing_at" TIMESTAMPTZ [];
      Column_ "out_for_delivery_at" TIMESTAMPTZ [];
      Column_ "delivered_at" TIMESTAMPTZ [];
      Column_ "completed_at" TIMESTAMPTZ [];
      Column_ "cancelled_at" TIMESTAMPTZ [];
      Column_ "cancellation_reason" Text [];
      Column_ "created_at" TIMESTAMPTZ [not_null; default_ "now()"];
      Column_ "updated_at" TIMESTAMPTZ [not_null; default_ "now()"];
      Column_ "deleted_at" TIMESTAMPTZ []];
    create_index "ix_orders_seller_id_status" "orders" ["seller_id"; "status"] false None;
    create_index "ix_orders_customer_id_status" "orders" ["customer_id"; "status"] false None;
    create_index "ix_orders_status_placed_at" "orders" ["status"; "placed_at"] false None;
    create_index "ix_orders_delivered_at" "orders" ["delivered_at"] false None
  ].

Definition m0001_order_items : list op :=
  [
    create_table "order_items" [
      Column_ "id" UUID [primary_key; not_null];
      Column_ "order_id" UUID [references (Some "fk_order_items_order_id") "orders" CASCADE;
          not_null];
      Column_ "product_id" UUID [references (Some "fk_order_items_product_id") "products"
          SET_NULL];
      Column_ "product_name_snapshot" Text [not_null];
      Column_ "unit_price_minor_snapshot" BigInteger [not_null];
      Column_ "quantity" Integer [not_null];
      CheckConstraint (Cmp OGt (Col "quantity") (Int 0)) "ck_order_items_quantity_positive"];
    create_index "ix_order_items_order_id" "order_items" ["order_id"] false None
  ].

Definition m0001_deliveries : list op :=
  [
    create_table "deliveries" [
      Column_ "id" UUID [primary_key; not_null];
      Column_ "order_id" UUID [references (Some "fk_deliveries_order_id") "orders" CASCADE;
          not_null];
      Column_ "driver_id" UUID [references (Some "fk_deliveries_driver_id") "users" SET_NULL];
      Column_ "seller_id" UUID [references (Some "fk_deliveries_seller_id") "sellers" RESTRICT;
          not_null];
      Column_ "status" (ENUM "delivery_status") [not_null];
      Column_ "started_at" TIMESTAMPTZ [];
      Column_ "delivered_at" TIMESTAMPTZ [];
      Column_ "current_lat" Double [];
      Column_ "current_lng" Double [];
      Column_ "last_location_at" TIMESTAMPTZ [];
      Column_ "distance_meters" Integer [];
      Column_ "duration_seconds" Integer [];
      CheckConstraint (Or (IsNotNull "driver_id") (IsNotNull "seller_id"))
          "ck_deliveries_at_least_one_actor";
      UniqueConstraint ["order_id"] "uq_deliveries_order_id"]
  ].

Definition m0001_driver_assignments : list op :=
  [
    create_table "driver_assignments" [
      Column_ "id" UUID [primary_key; not_null];
      Column_ "order_id" UUID [references (Some "fk_driver_assignments_order_id") "orders"
          CASCADE; not_null];
      Column_ "driver_id" UUID [references (Some "fk_driver_assignments_driver_id") "users"
          SET_NULL];
      Column_ "status" (ENUM "driver_assignment_status") [not_null];
      Column_ "requested_by_seller_id" UUID [references (Some
          "fk_driver_assignments_requested_by_seller_id") "sellers" RESTRICT; not_null];
      Column_ "requested_at" TIMESTAMPTZ [not_null; default_ "now()"];
      Column_ "assigned_by_admin_id" UUID [references (Some
          "fk_driver_assignments_assigned_by_admin_id") "users" SET_NULL];
      Column_ "assigned_at" TIMESTAMPTZ [];
      Column_ "responded_at" TIMESTAMPTZ [];
      Column_ "decline_reason" Text []];
    create_index "ix_driver_assignments_status_requested_at" "driver_assignments" ["status";
        "requested_at"] false None;
    create_index "ix_driver_assignments_order_id" "driver_assignments" ["order_id"] false None;
    create_index "ix_driver_assignments_driver_id" "driver_assignments" ["driver_id"] false None
  ].

Definition m0001_conversations : list op :=
  [
    create_table "conversations" [
      Column_ "id" UUID [primary_key; not_null];
      Column_ "user_a_id" UUID [references (Some "fk_conversations_user_a_id") "users" RESTRICT;
          not_null];
      Column_ "user_b_id" UUID [references (Some "fk_conversations_user_b_id") "users" RESTRICT;
          not_null];
      Column_ "created_at" TIMESTAMPTZ [not_null; default_ "now()"];
      Column_ "last_message_at" TIMESTAMPTZ [];
      CheckConstraint (Cmp OLt (Col "user_a_id") (Col "user_b_id"))
          "ck_conversations_canonical_ordering";
      UniqueConstraint ["user_a_id"; "user_b_id"] "uq_conversations_user_pair"];
    create_index "ix_conversations_user_a_id" "conversations" ["user_a_id"] false None;
    create_index "ix_conversations_user_b_id" "conversations" ["user_b_id"] false None
  ].

Definition m0001_messages : list op :=
  [
    create_table "messages" [
      Column_ "id" UUID [primary_key; not_null];
      Column_ "conversation_id" UUID [references (Some "fk_messages_conversation_id")
          "conversations" CASCADE; not_null];
      Column_ "sender_id" UUID [references (Some "fk_messages_sender_id") "users" RESTRICT;
          not_null];
      Column_ "ciphertext" LargeBinary [not_null];
      Column_ "nonce" LargeBinary [not_null];
      Column_ "ephemeral_public_key" LargeBinary [not_null];
      Column_ "ratchet_state" JSONB [];
      Column_ "sent_at" TIMESTAMPTZ [not_null; default_ "now()"];
      Column_ "read_at" TIMESTAMPTZ [];
      Column_ "deleted_at" TIMESTAMPTZ [];
      Column_ "created_at" TIMESTAMPTZ [not_null; default_ "now()"]];
    COMMENT_ON "messages";
    create_index "ix_messages_conversation_id_sent_at" "messages" ["conversation_id"; "sent_at"]
        false None
  ].

Definition m0001_user_public_keys : list op :=
  [
    create_table "user_public_keys" [
      Column_ "id" UUID [primary_key; not_null];
      Column_ "user_id" UUID [references (Some "fk_user_public_keys_user_id") "users" CASCADE;
          not_null];
      Column_ "public_key" LargeBinary [not_null];
      Column_ "registered_at" TIMESTAMPTZ [not_null; default_ "now()"];
      Column_ "updated_at" TIMESTAMPTZ [not_null; default_ "now()"];
      UniqueConstraint ["user_id"] "uq_user_public_keys_user_id"]
  ].

Definition m0001_reviews : list op :=
  [
    create_table "reviews" [
      Column_ "id" UUID [primary_key; not_null];
      Column_ "order_id" UUID [references (Some "fk_reviews_order_id") "orders" CASCADE; not_null];
      Column_ "customer_id" UUID [references (Some "fk_reviews_customer_id") "users" RESTRICT;
          not_null];
      Column_ "store_id" UUID [references (Some "fk_reviews_store_id") "stores" RESTRICT;
          not_null];
      Column_ "rating" Integer [not_null];
      Column_ "comment" Text [];
      Column_ "created_at" TIMESTAMPTZ [not_null; default_ "now()"];
      Column_ "updated_at" TIMESTAMPTZ [not_null; default_ "now()"];
      CheckConstraint (And (Cmp OGe (Col "rating") (Int 1)) (Cmp OLe (Col "rating") (Int 5)))
          "ck_reviews_rating_range";
      UniqueConstraint ["order_id"] "uq_reviews_order_id"];
    create_index "ix_reviews_store_id" "reviews" ["store_id"] false None;
    create_index "ix_reviews_customer_id" "reviews" ["customer_id"] false None
  ].

Definition m0001_platform_settings : list op :=
  [
    create_table "platform_settings" [
      Column_ "id" Integer [primary_key];
      Column_ "retention_min_days" Integer [not_null; default_ "30"];
      Column_ "currency_code" (Varchar 3) [not_null; default_ "'USD'"];
      Column_ "updated_at" TIMESTAMPTZ [not_null; default_ "now()"];
      Column_ "updated_by_user_id" UUID [references (Some
          "fk_platform_settings_updated_by_user_id") "users" SET_NULL];
      CheckConstraint (Cmp OEq (Col "id") (Int 1)) "ck_platform_settings_singleton"]
  ].

Definition m0001_order_analytics_snapshots : list op :=
  [
    create_table "order_analytics_snapshots" [
      Column_ "id" UUID [primary_key; not_null];
      Column_ "order_id" UUID [not_null];
      Column_ "seller_id" UUID [not_null];
      Column_ "store_id" UUID [not_null];
      Column_ "customer_id" UUID [not_null];
      Column_ "city" Text [not_null];
      Column_ "item_count" Integer [not_null];
      Column_ "subtotal_minor" BigInteger [not_null];
      Column_ "total_minor" BigInteger [not_null];
      Column_ "delivered_at" TIMESTAMPTZ [not_null];
      Column_ "created_at" TIMESTAMPTZ [not_null; default_ "now()"]];
    COMMENT_ON "order_analytics_snapshots";
    create_index "ix_order_analytics_snapshots_seller_id_delivered_at"
        "order_analytics_snapshots" ["seller_id"; "delivered_at"] false None;
    create_index "ix_order_analytics_snapshots_delivered_at" "order_analytics_snapshots"
        ["delivered_at"] false None
  ].

Definition m0001_seller_sales_rollups : list op :=
  [
    CREATE_MATERIALIZED_VIEW "seller_sales_rollups" "order_analytics_snapshots" ["seller_id";
        "total_minor"] ["seller_id"; "lifetime_revenue_minor"; "lifetime_order_count"];
    COMMENT_ON "seller_sales_rollups";
    CREATE_UNIQUE_INDEX_ON_VIEW "uq_seller_sales_rollups_seller_id" "seller_sales_rollups"
        ["seller_id"]
  ].

Definition m0001_seed : list op :=
  [
    INSERT_INTO "platform_settings" ["id"; "retention_min_days"; "currency_code"; "updated_at"]
  ].

Definition m0001_upgrade : list op :=
  m0001_extensions_and_types ++ m0001_users ++ m0001_refresh_tokens ++ m0001_invite_links ++
      m0001_referrals ++ m0001_sellers ++ m0001_stores ++ m0001_products ++ m0001_product_images
      ++ m0001_cart_items ++ m0001_orders ++ m0001_order_items ++ m0001_deliveries ++
      m0001_driver_assignments ++ m0001_conversations ++ m0001_messages ++ m0001_user_public_keys
      ++ m0001_reviews ++ m0001_platform_settings ++ m0001_order_analytics_snapshots ++
      m0001_seller_sales_rollups ++ m0001_seed.

Definition m0001_downgrade : list op :=
  [
    DROP_MATERIALIZED_VIEW_IF_EXISTS "seller_sales_rollups";
    drop_table "order_analytics_snapshots";
    drop_table "platform_settings";
    drop_table "reviews";
    drop_table "user_public_keys";
    drop_table "messages";
    drop_table "conversations";
    drop_table "driver_assignments";
    drop_table "deliveries";
    drop_table "order_items";
    drop_table "orders";
    drop_table "cart_items";
    drop_table "product_images";
    drop_table "products";
    drop_table "stores";
    drop_table "sellers";
    drop_table "referrals";
    drop_table "invite_links";
    drop_table "refresh_tokens";
    drop_table "users";
    DROP_TYPE_IF_EXISTS "invite_link_type";
    DROP_TYPE_IF_EXISTS "driver_assignment_status";
    DROP_TYPE_IF_EXISTS "delivery_status";
    DROP_TYPE_IF_EXISTS "order_status";
    DROP_TYPE_IF_EXISTS "user_role"
  ].

Definition m0001 : Migration :=
  mkMigration "0001" None m0001_upgrade m0001_downgrade.

(** ** [0002_phase5_orders.py]

    Phase 5 — order auto-complete grace, snapshot idempotency. *)

Definition m0002_upgrade : list op :=
  [
    add_column "platform_settings" "order_auto_complete_grace_hours" Integer [not_null; default_
        "72"];
    create_check_constraint "ck_platform_settings_auto_complete_grace_positive"
        "platform_settings" (Cmp OGe (Col "order_auto_complete_grace_hours") (Int 1));
    create_unique_constraint "uq_order_analytics_snapshots_order_id" "order_analytics_snapshots"
        ["order_id"]
  ].

Definition m0002_downgrade : list op :=
  [
    drop_constraint "uq_order_analytics_snapshots_order_id" "order_analytics_snapshots" unique;
    drop_constraint "ck_platform_settings_auto_complete_grace_positive" "platform_settings" check_;
    drop_column "platform_settings" "order_auto_complete_grace_hours"
  ].

Definition m0002 : Migration :=
  mkMigration "0002" (Some "0001") m0002_upgrade m0002_downgrade.

(** ** [0003_phase6_messaging.py]

    Phase 6 — messaging: multi-key rotation, message retention, recipient_key_id. *)

Definition m0003_upgrade : list op :=
  [
    drop_constraint "uq_user_public_keys_user_id" "user_public_keys" unique;
    add_column "user_public_keys" "key_version" Integer [not_null; default_ "1"];
    add_column "user_public_keys" "status" (Varchar 16) [not_null; default_ "'active'"];
    add_column "user_public_keys" "rotated_at" TIMESTAMPTZ [];
    add_column "user_public_keys" "revoked_at" TIMESTAMPTZ [];
    add_column "user_public_keys" "created_at" TIMESTAMPTZ [not_null; default_ "now()"];
    create_check_constraint "ck_user_public_keys_status_valid" "user_public_keys" (In "status"
        ["active"; "rotated"; "revoked"]);
    create_index "uq_user_public_keys_one_active" "user_public_keys" ["user_id"] true (Some (Cmp
        OEq (Col "status") (Lit "active")));
    create_index "ix_user_public_keys_user_id_status" "user_public_keys" ["user_id"; "status"]
        false None;
    add_column "messages" "recipient_key_id" UUID [];
    create_foreign_key "fk_messages_recipient_key_id" "messages" "user_public_keys"
        ["recipient_key_id"] ["id"] SET_NULL;
    add_column "platform_settings" "message_retention_days" Integer [not_null; default_ "90"];
    create_check_constraint "ck_platform_settings_message_retention_min" "platform_settings" (Cmp
        OGe (Col "message_retention_days") (Int 7))
  ].

Definition m0003_downgrade : list op :=
  [
    drop_constraint "ck_platform_settings_message_retention_min" "platform_settings" check_;
    drop_column "platform_settings" "message_retention_days";
    drop_constraint "fk_messages_recipient_key_id" "messages" foreignkey;
    drop_column "messages" "recipient_key_id";
    drop_index "ix_user_public_keys_user_id_status";
    drop_index "uq_user_public_keys_one_active";
    drop_constraint "ck_user_public_keys_status_valid" "user_public_keys" check_;
    drop_column "user_public_keys" "created_at";
    drop_column "user_public_keys" "revoked_at";
    drop_column "user_public_keys" "rotated_at";
    drop_column "user_public_keys" "status";
    drop_column "user_public_keys" "key_version";
    create_unique_constraint "uq_user_public_keys_user_id" "user_public_keys" ["user_id"]
  ].

Definition m0003 : Migration :=
  mkMigration "0003" (Some "0002") m0003_upgrade m0003_downgrade.

(** ** [0004_phase7_delivery_tracking.py]

    Phase 7 — delivery tracking: ETA fields on deliveries, metric fields on snapshots. *)

Definition m0004_upgrade : list op :=
  [
    add_column "deliveries" "current_eta_seconds" Integer [];
    add_column "deliveries" "current_eta_updated_at" TIMESTAMPTZ [];
    add_column "order_analytics_snapshots" "delivery_duration_seconds" Integer [];
    add_column "order_analytics_snapshots" "delivery_distance_meters" Integer []
  ].

Definition m0004_downgrade : list op :=
  [
    drop_column "order_analytics_snapshots" "delivery_distance_meters";
    drop_column "order_analytics_snapshots" "delivery_duration_seconds";
    drop_column "deliveries" "current_eta_updated_at";
    drop_column "deliveries" "current_eta_seconds"
  ].

Definition m0004 : Migration :=
  mkMigration "0004" (Some "0003") m0004_upgrade m0004_downgrade.

(** ** [0005_user_status_product_status.py]

    Phase 11 — user and product status columns for admin moderation. *)

Definition m0005_upgrade : list op :=
  [
    enum_create "user_status" ["active"; "suspended"];
    enum_create "product_status" ["active"; "disabled"; "out_of_stock"];
    add_column "users" "status" (ENUM "user_status") [not_null; default_ "'active'"];
    add_column "users" "suspended_at" TIMESTAMPTZ [];
    add_column "users" "suspended_reason" Text [];
    create_index "ix_users_status" "users" ["status"] false None;
    add_column "products" "status" (ENUM "product_status") [not_null; default_ "'active'"];
    add_column "products" "disabled_at" TIMESTAMPTZ [];
    add_column "products" "disabled_reason" Text [];
    create_index "ix_products_status" "products" ["status"] false None
  ].

Definition m0005_downgrade : list op :=
  [
    drop_index "ix_products_status";
    drop_column "products" "disabled_reason";
    drop_column "products" "disabled_at";
    drop_column "products" "status";
    drop_index "ix_users_status";
    drop_column "users" "suspended_reason";
    drop_column "users" "suspended_at";
    drop_column "users" "status";
    DROP_TYPE_IF_EXISTS "product_status";
    DROP_TYPE_IF_EXISTS "user_status"
  ].

Definition m0005 : Migration :=
  mkMigration "0005" (Some "0004") m0005_upgrade m0005_downgrade.

(** ** [0006_performance_indexes.py]

    Phase 12 — hot-path performance indexes. *)

Definition m0006_upgrade : list op :=
  [
    create_index_if_not_exists "ix_users_role_status" "users" ["role"; "status"];
    create_index_if_not_exists "ix_messages_conversation_id_sent_at_desc" "messages"
        ["conversation_id"; "sent_at"];
    create_index_if_not_exists "ix_orders_seller_status_placed_at_desc" "orders" ["seller_id";
        "status"; "placed_at"];
    create_index_if_not_exists "ix_orders_customer_placed_at_desc" "orders" ["customer_id";
        "placed_at"];
    create_index_if_not_exists "ix_products_seller_status" "products" ["seller_id"; "status"];
    create_index_if_not_exists "ix_invite_links_issuer_created_at_desc" "invite_links"
        ["issuer_id"; "created_at"]
  ].

Definition m0006_downgrade : list op :=
  [
    drop_index_if_exists "ix_invite_links_issuer_created_at_desc";
    drop_index_if_exists "ix_products_seller_status";
    drop_index_if_exists "ix_orders_customer_placed_at_desc";
    drop_index_if_exists "ix_orders_seller_status_placed_at_desc";
    drop_index_if_exists "ix_messages_conversation_id_sent_at_desc";
    drop_index_if_exists "ix_users_role_status"
  ].

Definition m0006 : Migration :=
  mkMigration "0006" (Some "0005") m0006_upgrade m0006_downgrade.

(** ** [0007_user_devices.py]

    Phase 12 — user_devices table for push-notification endpoints. *)

Definition m0007_upgrade : list op :=
  [
    create_table "user_devices" [
      Column_ "id" UUID [primary_key; not_null];
      Column_ "created_at" TIMESTAMPTZ [not_null; default_ "now()"];
      Column_ "updated_at" TIMESTAMPTZ [not_null; default_ "now()"];
      Column_ "user_id" UUID [references (Some "fk_user_devices_user_id") "users" CASCADE;
          not_null];
      Column_ "platform" (Varchar 16) [not_null];
      Column_ "token" Text [not_null];
      Column_ "last_seen_at" TIMESTAMPTZ [];
      Column_ "disabled_at" TIMESTAMPTZ [];
      UniqueConstraint ["user_id"; "token"] "uq_user_devices_user_token"];
    create_index_if_not_exists "ix_user_devices_user_id" "user_devices" ["user_id"];
    create_index_if_not_exists "ix_user_devices_platform" "user_devices" ["platform"]
  ].

Definition m0007_downgrade : list op :=
  [
    drop_index_if_exists "ix_user_devices_platform";
    drop_index_if_exists "ix_user_devices_user_id";
    drop_table "user_devices"
  ].

Definition m0007 : Migration :=
  mkMigration "0007" (Some "0006") m0007_upgrade m0007_downgrade.

(** ** [0008_user_notification_prefs.py]

    Account settings — user_notification_prefs table. *)

Definition m0008_upgrade : list op :=
  [
    add_column "users" "avatar_url" Text [];
    create_table "user_notification_prefs" [
      Column_ "user_id" UUID [references None "users" CASCADE; primary_key; not_null];
      Column_ "push_enabled" Boolean [not_null; default_ "true"];
      Column_ "email_enabled" Boolean [not_null; default_ "true"];
      Column_ "order_updates" Boolean [not_null; default_ "true"];
      Column_ "messages" Boolean [not_null; default_ "true"];
      Column_ "marketing" Boolean [not_null; default_ "false"];
      Column_ "created_at" TIMESTAMPTZ [not_null; default_ "now()"];
      Column_ "updated_at" TIMESTAMPTZ [not_null; default_ "now()"]]
  ].

Definition m0008_downgrade : list op :=
  [
    drop_table "user_notification_prefs";
    drop_column "users" "avatar_url"
  ].

Definition m0008 : Migration :=
  mkMigration "0008" (Some "0007") m0008_upgrade m0008_downgrade.

(** ** [0009_store_is_public.py]

    Store visibility — add stores.is_public flag. *)

Definition m0009_upgrade : list op :=
  [
    add_column "stores" "is_public" Boolean [not_null; default_ "false"];
    create_index "ix_stores_is_public_true" "stores" ["id"] false (Some (And (Cmp OEq (Col
        "is_public") (Lit "true")) (IsNull "deleted_at")))
  ].

Definition m0009_downgrade : list op :=
  [
    drop_index "ix_stores_is_public_true";
    drop_column "stores" "is_public"
  ].

Definition m0009 : Migration :=
  mkMigration "0009" (Some "0008") m0009_upgrade m0009_downgrade.

(** ** [0010_delivery_flow.py]

    Delivery flow — order tracking, driver-customer chat, delivery codes. *)

Definition m0010_orders_columns : list op :=
  [
    add_column "orders" "driver_accepted_at" TIMESTAMPTZ [];
    add_column "orders" "customer_visible_after" TIMESTAMPTZ [];
    add_column "orders" "seller_full_visible_until" TIMESTAMPTZ [];
    add_column "orders" "delivery_code_locked" Boolean [not_null; default_ "false"];
    UPDATE "orders" ["seller_full_visible_until"; "placed_at"];
    UPDATE "orders" ["customer_visible_after"; "delivered_at"]
  ].

Definition m0010_order_tracking_points : list op :=
  [
    create_table "order_tracking_points" [
      Column_ "id" UUID [primary_key; default_ "gen_random_uuid()"];
      Column_ "order_id" UUID [references None "orders" CASCADE; not_null];
      Column_ "driver_id" UUID [references None "users" SET_NULL];
      Column_ "lat" Float [not_null];
      Column_ "lng" Float [not_null];
      Column_ "recorded_at" TIMESTAMPTZ [not_null; default_ "now()"]];
    create_index "ix_order_tracking_points_order_recorded_at" "order_tracking_points"
        ["order_id"; "recorded_at"] false None
  ].

Definition m0010_order_messages : list op :=
  [
    create_table "order_messages" [
      Column_ "id" UUID [primary_key; default_ "gen_random_uuid()"];
      Column_ "order_id" UUID [references None "orders" CASCADE; not_null];
      Column_ "sender_id" UUID [references None "users" SET_NULL];
      Column_ "sender_role" Text [not_null];
      Column_ "ciphertext" Text [not_null];
      Column_ "nonce" Text [not_null];
      Column_ "created_at" TIMESTAMPTZ [not_null; default_ "now()"];
      Column_ "archived_at" TIMESTAMPTZ [];
      CheckConstraint (In "sender_role" ["customer"; "driver"]) "ck_order_messages_sender_role"];
    create_index "ix_order_messages_order_created_at" "order_messages" ["order_id"; "created_at"]
        false None
  ].

Definition m0010_delivery_codes : list op :=
  [
    create_table "delivery_codes" [
      Column_ "order_id" UUID [references None "orders" CASCADE; primary_key];
      Column_ "code_hash" Text [not_null];
      Column_ "code_plain" Text [not_null];
      Column_ "attempts_used" Integer [not_null; default_ "0"];
      Column_ "locked" Boolean [not_null; default_ "false"];
      Column_ "created_at" TIMESTAMPTZ [not_null; default_ "now()"];
      Column_ "consumed_at" TIMESTAMPTZ []]
  ].

Definition m0010_delivery_code_attempts : list op :=
  [
    create_table "delivery_code_attempts" [
      Column_ "id" UUID [primary_key; default_ "gen_random_uuid()"];
      Column_ "order_id" UUID [references None "orders" CASCADE; not_null];
      Column_ "driver_id" UUID [references None "users" SET_NULL];
      Column_ "submitted_code" Text [not_null];
      Column_ "success" Boolean [not_null];
      Column_ "attempted_at" TIMESTAMPTZ [not_null; default_ "now()"]];
    create_index "ix_delivery_code_attempts_order" "delivery_code_attempts" ["order_id"] false
        None
  ].

Definition m0010_upgrade : list op :=
  m0010_orders_columns ++ m0010_order_tracking_points ++ m0010_order_messages ++
      m0010_delivery_codes ++ m0010_delivery_code_attempts.

Definition m0010_downgrade : list op :=
  [
    drop_index "ix_delivery_code_attempts_order";
    drop_table "delivery_code_attempts";
    drop_table "delivery_codes";
    drop_index "ix_order_messages_order_created_at";
    drop_table "order_messages";
    drop_index "ix_order_tracking_points_order_recorded_at";
    drop_table "order_tracking_points";
    drop_column "orders" "delivery_code_locked";
    drop_column "orders" "seller_full_visible_until";
    drop_column "orders" "customer_visible_after";
    drop_column "orders" "driver_accepted_at"
  ].

Definition m0010 : Migration :=
  mkMigration "0010" (Some "0009") m0010_upgrade m0010_downgrade.

(** The chain of revisions, oldest first. *)
Definition history : list Migration := [m0001; m0002; m0003; m0004; m0005; m0006; m0007; m0008; m0009; m0010].
