(* ===== verification/SchemaRows.v ===== *)
(** * Rows under a schema

    What PostgreSQL checks of a row that is written to a table of a schema:
    the types of its columns, NULLs, the CHECK constraints and the keys; and the
    columns of the rows of this library, under the names that the ORM classes of
    [models/] give them. *)

From S2P Require Import Prelude.
From S2P Require Import Models.
From S2P Require Import Session.
From S2P Require Import Schema.
#[local] Open Scope string_scope.
#[local] Open Scope list_scope.

(** ** Values *)

Inductive value :=
| Null
| VUuid (u : uuid)
| VInt (z : Z)
| VText (s : string)
| VBool (b : bool)
| VTime (t : datetime)
| VReal (f : float64)
| VJson (a : Address)
| VBytes (b : list Z).

Definition or_null {A} (v : A → value) (o : option A) : value := from_option v Null o.

(** A row as it is inserted: the columns it names; the database fills in the
    others. *)
Abbreviation sql_row := (list (string * value)).
Fixpoint col (row : sql_row) (c : string) : option value :=
  match row with
  | [] => None
  | (c', v) :: row' => if String.eqb c' c then Some v else col row' c
  end.
Definition value_of (row : sql_row) (c : string) : value := default Null (col row c).

(** ** Types *)

(** The labels are those of the enum type, if the type is one. *)
Definition has_type (ty : sqltype) (labels : list string) (v : value) : Prop :=
  match ty, v with
  | UUID, VUuid _ | CITEXT, VText _ | Text, VText _ | Boolean, VBool _
  | Float, VReal _ | Double, VReal _ | TIMESTAMPTZ, VTime _ | JSONB, VJson _
  | LargeBinary, VBytes _ => True
  | Varchar n, VText s => varchar (N.to_nat n) s
  | Integer, VInt z => int4 z
  | BigInteger, VInt z => int8 z
  | ENUM _, VText l => l ∈ labels
  | _, _ => False
  end.
(** Equality of a key column; NULLs are distinct. *)
Definition same_value (ty : sqltype) (v v' : value) : Prop :=
  match v, v' with
  | Null, _ | _, Null => False
  | VText a, VText b => match ty with CITEXT => citext_eq a b | _ => a = b end
  | _, _ => v = v'
  end.

(** ** Predicates

    Three-valued: a CHECK passes unless it is false, a partial index holds the
    rows where its predicate is true. *)

Definition scalar_value (row : sql_row) (a : scalar) : value :=
  match a with Col c => value_of row c | Int z => VInt z | Lit s => VText s end.
Definition compares (op : comparison_op) (v v' : value) : option Prop :=
  match v, v' with
  | VInt a, VInt b =>
      Some match op with
           | OLt => (a < b)%Z | OLe => (a ≤ b)%Z | OGt => (b < a)%Z | OGe => (b ≤ a)%Z
           | OEq => a = b
           end
  | VUuid a, VUuid b =>
      Some match op with
           | OLt => (a < b)%N | OLe => (a ≤ b)%N | OGt => (b < a)%N | OGe => (b ≤ a)%N
           | OEq => a = b
           end
  | VText a, VText b => match op with OEq => Some (a = b) | _ => None end
  | _, _ => None
  end.
Fixpoint is_true (row : sql_row) (p : pred) : Prop :=
  match p with
  | Cmp op a b => from_option id False (compares op (scalar_value row a) (scalar_value row b))
  | In c labels => match value_of row c with VText l => l ∈ labels | _ => False end
  | IsNull c => value_of row c = Null
  | IsNotNull c => value_of row c ≠ Null
  | And p q => is_true row p ∧ is_true row q
  | Or p q => is_true row p ∨ is_true row q
  end.
Fixpoint is_false (row : sql_row) (p : pred) : Prop :=
  match p with
  | Cmp op a b =>
      from_option (λ P : Prop, ¬ P) False (compares op (scalar_value row a) (scalar_value row b))
  | In c labels => match value_of row c with VText l => l ∉ labels | _ => False end
  | IsNull c => value_of row c ≠ Null
  | IsNotNull c => value_of row c = Null
  | And p q => is_false row p ∨ is_false row q
  | Or p q => is_false row p ∧ is_false row q
  end.

(** ** Tables *)

(** What a schema says of the rows of one table: its columns, with the labels of
    enum types, its CHECKs, its unique keys (a unique index may be partial), its
    primary key and its foreign keys. *)
Record Shape := mkShape {
  sh_columns : list (string * Column * list string);
  sh_checks : list pred;
  sh_unique : list (list string * option pred);
  sh_primary : list (list string);
  sh_foreign : list (list string * string * list string * on_delete);
}.
Definition labels_of (s : Schema) (ty : sqltype) : list string :=
  match ty with ENUM name => default [] (enums s !! name) | _ => [] end.
Definition shape_of (s : Schema) (name : string) : option Shape :=
  (λ t, mkShape
     ((λ nc, (nc.1, nc.2, labels_of s (col_type nc.2))) <$> map_to_list (columns t))
     (omap (λ kc, match kc.2 with Check p => Some p | _ => None end) (map_to_list (constraints t)))
     (omap (λ kc, match kc.2 with Unique cols => Some (cols, None) | _ => None end)
        (map_to_list (constraints t)) ++
      omap (λ ni, if decide (ix_table ni.2 = name ∧ ix_unique ni.2 = true)
                  then Some (ix_cols ni.2, ix_where ni.2) else None) (map_to_list (indexes s)))
     (omap (λ kc, match kc.2 with PrimaryKey cols => Some cols | _ => None end)
        (map_to_list (constraints t)))
     (omap (λ kc, match kc.2 with
                  | ForeignKey cols target target_cols d => Some (cols, target, target_cols, d)
                  | _ => None
                  end) (map_to_list (constraints t)))) <$> tables s !! name.

(** The names the row gives are columns of the table, and so are all those that
    its constraints read. *)
Definition knows (sh : Shape) (row : sql_row) : Prop :=
  row.*1 ⊆ (λ c, c.1.1) <$> sh_columns sh ∧
  (sh_checks sh ≫= pred_columns) ++ (sh_unique sh ≫= λ k, k.1 ++ from_option pred_columns [] k.2) ++
    (sh_primary sh ≫= λ cols, cols) ++ (sh_foreign sh ≫= λ f, f.1.1.1) ⊆ row.*1.

Definition column_ok (row : sql_row) (c : string * Column * list string) : Prop :=
  match col row c.1.1 with
  | None => col_nullable c.1.2 = true ∨ server_default c.1.2 ≠ None
  | Some Null => col_nullable c.1.2 = true
  | Some v => has_type (col_type c.1.2) c.2 v
  end.
Definition accepted (sh : Shape) (row : sql_row) : Prop :=
  Forall (column_ok row) (sh_columns sh) ∧ Forall (λ p, ¬ is_false row p) (sh_checks sh).
Fixpoint type_in (cols : list (string * Column * list string)) (c : string) : sqltype :=
  match cols with
  | [] => Text
  | (c', column, _) :: cols' => if String.eqb c' c then col_type column else type_in cols' c
  end.
Definition agree_on (sh : Shape) (cols : list string) (row row' : sql_row) : Prop :=
  Forall (λ c, same_value (type_in (sh_columns sh) c) (value_of row c) (value_of row' c)) cols.
Definition clash (sh : Shape) (row row' : sql_row) : Prop :=
  Exists (λ k, from_option (is_true row) True k.2 ∧ from_option (is_true row') True k.2 ∧
             agree_on sh k.1 row row') (sh_unique sh).
(** The rows that the foreign keys of a row point to; a NULL points nowhere. *)
Definition points_to (sh : Shape) (row : sql_row) : list (string * uuid) :=
  omap (λ f, match f.1.1.1, f.1.2 with
             | [c], ["id"] => match value_of row c with
                              | VUuid u => Some (f.1.1.2, u)
                              | _ => None
                              end
             | _, _ => None
             end) (sh_foreign sh).
Definition same_key (sh : Shape) (row row' : sql_row) : Prop :=
  Forall (λ cols, agree_on sh cols row row') (sh_primary sh).

(** ** The rows of the models *)

Definition user_status_str (s : UserStatus) : string :=
  match s with user_active => "active" | user_suspended => "suspended" end.
Definition product_status_str (s : ProductStatus) : string :=
  match s with
  | product_active => "active" | product_disabled => "disabled"
  | product_out_of_stock => "out_of_stock"
  end.
Definition key_status_str (s : KeyStatus) : string :=
  match s with key_active => "active" | key_rotated => "rotated" | key_revoked => "revoked" end.

(** A row type, the table behind it and the columns it sets. *)
Class Mapped (R : Type) := { relation : string; row : R → sql_row }.
Arguments relation R {_}.

#[export] Instance mapped_user : Mapped User := {|
  relation := "users";
  row u :=
    [ ("id", VUuid (u_id u)); ("email", VText (u_email u));
      ("password_hash", VText (u_password_hash u)); ("role", VText (user_role_str (u_role u)));
      ("display_name", VText (u_display_name u)); ("phone", or_null VText (u_phone u));
      ("is_active", VBool (u_is_active u)); ("disabled_at", or_null VTime (u_disabled_at u));
      ("status", VText (user_status_str (u_status u)));
      ("suspended_at", or_null VTime (u_suspended_at u));
      ("suspended_reason", or_null VText (u_suspended_reason u));
      ("avatar_url", or_null VText (u_avatar_url u));
      ("referring_seller_id", or_null VUuid (u_referring_seller_id u));
      ("created_at", VTime (u_created_at u)); ("deleted_at", or_null VTime (u_deleted_at u)) ] |}.
#[export] Instance mapped_seller : Mapped Seller := {|
  relation := "sellers";
  row r :=
    [ ("id", VUuid (se_id r)); ("user_id", VUuid (se_user_id r));
      ("display_name", VText (se_display_name r)); ("bio", or_null VText (se_bio r));
      ("city", VText (se_city r)); ("country_code", VText (se_country_code r));
      ("created_at", VTime (se_created_at r)); ("deleted_at", or_null VTime (se_deleted_at r)) ] |}.
#[export] Instance mapped_store : Mapped Store := {|
  relation := "stores";
  row r :=
    [ ("id", VUuid (st_id r)); ("seller_id", VUuid (st_seller_id r)); ("name", VText (st_name r));
      ("slug", VText (st_slug r)); ("description", VText (st_description r));
      ("is_active", VBool (st_is_active r)); ("is_public", VBool (st_is_public r));
      ("created_at", VTime (st_created_at r)); ("deleted_at", or_null VTime (st_deleted_at r)) ] |}.
#[export] Instance mapped_product : Mapped Product := {|
  relation := "products";
  row r :=
    [ ("id", VUuid (p_id r)); ("seller_id", VUuid (p_seller_id r));
      ("store_id", VUuid (p_store_id r)); ("name", VText (p_name r));
      ("description", VText (p_description r)); ("price_minor", VInt (p_price_minor r));
      ("stock_quantity", or_null VInt (p_stock_quantity r)); ("is_active", VBool (p_is_active r));
      ("status", VText (product_status_str (p_status r)));
      ("disabled_at", or_null VTime (p_disabled_at r));
      ("disabled_reason", or_null VText (p_disabled_reason r));
      ("created_at", VTime (p_created_at r)); ("deleted_at", or_null VTime (p_deleted_at r)) ] |}.
#[export] Instance mapped_image : Mapped ProductImage := {|
  relation := "product_images";
  row r :=
    [ ("id", VUuid (pi_id r)); ("product_id", VUuid (pi_product_id r));
      ("s3_key", VText (pi_s3_key r)); ("display_order", VInt (pi_display_order r)) ] |}.
#[export] Instance mapped_order : Mapped Order := {|
  relation := "orders";
  row o :=
    [ ("id", VUuid (o_id o)); ("customer_id", VUuid (o_customer_id o));
      ("seller_id", VUuid (o_seller_id o)); ("store_id", VUuid (o_store_id o));
      ("status", VText (order_status_str (o_status o)));
      ("subtotal_minor", VInt (o_subtotal_minor o)); ("total_minor", VInt (o_total_minor o));
      ("delivery_address", VJson (o_delivery_address o)); ("placed_at", VTime (o_placed_at o));
      ("accepted_at", or_null VTime (o_accepted_at o));
      ("preparing_at", or_null VTime (o_preparing_at o));
      ("out_for_delivery_at", or_null VTime (o_out_for_delivery_at o));
      ("delivered_at", or_null VTime (o_delivered_at o));
      ("completed_at", or_null VTime (o_completed_at o));
      ("cancelled_at", or_null VTime (o_cancelled_at o));
      ("cancellation_reason", or_null VText (o_cancellation_reason o));
      ("driver_accepted_at", or_null VTime (o_driver_accepted_at o));
      ("customer_visible_after", or_null VTime (o_customer_visible_after o));
      ("seller_full_visible_until", or_null VTime (o_seller_full_visible_until o));
      ("delivery_code_locked", VBool (o_delivery_code_locked o));
      ("deleted_at", or_null VTime (o_deleted_at o)) ] |}.
#[export] Instance mapped_item : Mapped OrderItem := {|
  relation := "order_items";
  row r :=
    [ ("id", VUuid (oi_id r)); ("order_id", VUuid (oi_order_id r));
      ("product_id", or_null VUuid (oi_product_id r));
      ("product_name_snapshot", VText (oi_product_name_snapshot r));
      ("unit_price_minor_snapshot", VInt (oi_unit_price_minor_snapshot r));
      ("quantity", VInt (oi_quantity r)) ] |}.
#[export] Instance mapped_delivery : Mapped Delivery := {|
  relation := "deliveries";
  row d :=
    [ ("id", VUuid (d_id d)); ("order_id", VUuid (d_order_id d));
      ("driver_id", or_null VUuid (d_driver_id d)); ("seller_id", VUuid (d_seller_id d));
      ("status", VText (delivery_status_str (d_status d)));
      ("started_at", or_null VTime (d_started_at d));
      ("delivered_at", or_null VTime (d_delivered_at d));
      ("current_lat", or_null VReal (d_current_lat d));
      ("current_lng", or_null VReal (d_current_lng d));
      ("last_location_at", or_null VTime (d_last_location_at d));
      ("distance_meters", or_null VInt (d_distance_meters d));
      ("duration_seconds", or_null VInt (d_duration_seconds d));
      ("current_eta_seconds", or_null VInt (d_current_eta_seconds d));
      ("current_eta_updated_at", or_null VTime (d_current_eta_updated_at d)) ] |}.
#[export] Instance mapped_assignment : Mapped DriverAssignment := {|
  relation := "driver_assignments";
  row a :=
    [ ("id", VUuid (a_id a)); ("order_id", VUuid (a_order_id a));
      ("driver_id", or_null VUuid (a_driver_id a));
      ("status", VText (assignment_status_str (a_status a)));
      ("requested_by_seller_id", VUuid (a_requested_by_seller_id a));
      ("requested_at", VTime (a_requested_at a));
      ("assigned_by_admin_id", or_null VUuid (a_assigned_by_admin_id a));
      ("assigned_at", or_null VTime (a_assigned_at a)) ] |}.
#[export] Instance mapped_snapshot : Mapped OrderAnalyticsSnapshot := {|
  relation := "order_analytics_snapshots";
  row s :=
    [ ("id", VUuid (sn_id s)); ("order_id", VUuid (sn_order_id s));
      ("seller_id", VUuid (sn_seller_id s)); ("store_id", VUuid (sn_store_id s));
      ("customer_id", VUuid (sn_customer_id s)); ("city", VText (sn_city s));
      ("item_count", VInt (sn_item_count s)); ("subtotal_minor", VInt (sn_subtotal_minor s));
      ("total_minor", VInt (sn_total_minor s)); ("delivered_at", VTime (sn_delivered_at s));
      ("delivery_duration_seconds", or_null VInt (sn_delivery_duration_seconds s));
      ("delivery_distance_meters", or_null VInt (sn_delivery_distance_meters s)) ] |}.
#[export] Instance mapped_settings : Mapped PlatformSettings := {|
  relation := "platform_settings";
  row r :=
    [ ("id", VInt (Z.of_N (ps_id r))); ("retention_min_days", VInt (ps_retention_min_days r));
      ("order_auto_complete_grace_hours", VInt (ps_order_auto_complete_grace_hours r));
      ("message_retention_days", VInt (ps_message_retention_days r));
      ("currency_code", VText (ps_currency_code r)); ("updated_at", VTime (ps_updated_at r));
      ("updated_by_user_id", or_null VUuid (ps_updated_by_user_id r)) ] |}.
#[export] Instance mapped_invite : Mapped InviteLink := {|
  relation := "invite_links";
  row i :=
    [ ("id", VUuid (i_id i)); ("issuer_id", VUuid (i_issuer_id i));
      ("type", VText (invite_link_type_str (i_type i))); ("token", VText (i_token i));
      ("role_target", or_null (λ r, VText (user_role_str r)) (i_role_target i));
      ("max_uses", or_null VInt (i_max_uses i)); ("used_count", VInt (i_used_count i));
      ("expires_at", or_null VTime (i_expires_at i)); ("revoked_at", or_null VTime (i_revoked_at i));
      ("created_at", VTime (i_created_at i)) ] |}.
#[export] Instance mapped_referral : Mapped Referral := {|
  relation := "referrals";
  row r :=
    [ ("id", VUuid (rf_id r)); ("referrer_id", VUuid (rf_referrer_id r));
      ("referred_user_id", VUuid (rf_referred_user_id r));
      ("invite_link_id", VUuid (rf_invite_link_id r)); ("created_at", VTime (rf_created_at r)) ] |}.
#[export] Instance mapped_token : Mapped RefreshToken := {|
  relation := "refresh_tokens";
  row r :=
    [ ("id", VUuid (rt_id r)); ("user_id", VUuid (rt_user_id r));
      ("token_hash", VText (rt_token_hash r)); ("device_label", or_null VText (rt_device_label r));
      ("issued_at", VTime (rt_issued_at r)); ("last_used_at", or_null VTime (rt_last_used_at r));
      ("expires_at", VTime (rt_expires_at r)); ("revoked_at", or_null VTime (rt_revoked_at r)) ] |}.
#[export] Instance mapped_prefs : Mapped UserNotificationPrefs := {|
  relation := "user_notification_prefs";
  row r :=
    [ ("user_id", VUuid (np_user_id r)); ("push_enabled", VBool (np_push_enabled r));
      ("email_enabled", VBool (np_email_enabled r)); ("order_updates", VBool (np_order_updates r));
      ("messages", VBool (np_messages r)); ("marketing", VBool (np_marketing r)) ] |}.
#[export] Instance mapped_conversation : Mapped Conversation := {|
  relation := "conversations";
  row r :=
    [ ("id", VUuid (c_id r)); ("user_a_id", VUuid (c_user_a_id r));
      ("user_b_id", VUuid (c_user_b_id r)); ("created_at", VTime (c_created_at r));
      ("last_message_at", or_null VTime (c_last_message_at r)) ] |}.
#[export] Instance mapped_message : Mapped Message := {|
  relation := "messages";
  row r :=
    [ ("id", VUuid (m_id r)); ("conversation_id", VUuid (m_conversation_id r));
      ("sender_id", VUuid (m_sender_id r)); ("ciphertext", VBytes (m_ciphertext r));
      ("nonce", VBytes (m_nonce r)); ("ephemeral_public_key", VBytes (m_ephemeral_public_key r));
      ("recipient_key_id", or_null VUuid (m_recipient_key_id r)); ("sent_at", VTime (m_sent_at r));
      ("read_at", or_null VTime (m_read_at r)); ("deleted_at", or_null VTime (m_deleted_at r)) ] |}.
#[export] Instance mapped_public_key : Mapped UserPublicKey := {|
  relation := "user_public_keys";
  row r :=
    [ ("id", VUuid (k_id r)); ("user_id", VUuid (k_user_id r));
      ("public_key", VBytes (k_public_key r)); ("key_version", VInt (k_key_version r));
      ("status", VText (key_status_str (k_status r))); ("registered_at", VTime (k_registered_at r));
      ("rotated_at", or_null VTime (k_rotated_at r));
      ("revoked_at", or_null VTime (k_revoked_at r)); ("created_at", VTime (k_created_at r)) ] |}.
#[export] Instance mapped_point : Mapped OrderTrackingPoint := {|
  relation := "order_tracking_points";
  row r :=
    [ ("id", VUuid (tp_id r)); ("order_id", VUuid (tp_order_id r));
      ("driver_id", or_null VUuid (tp_driver_id r)); ("lat", VReal (tp_lat r));
      ("lng", VReal (tp_lng r)); ("recorded_at", VTime (tp_recorded_at r)) ] |}.
#[export] Instance mapped_order_message : Mapped OrderMessage := {|
  relation := "order_messages";
  row r :=
    [ ("id", VUuid (om_id r)); ("order_id", VUuid (om_order_id r));
      ("sender_id", or_null VUuid (om_sender_id r)); ("sender_role", VText (om_sender_role r));
      ("ciphertext", VText (om_ciphertext r)); ("nonce", VText (om_nonce r));
      ("created_at", VTime (om_created_at r)); ("archived_at", or_null VTime (om_archived_at r)) ] |}.
#[export] Instance mapped_code : Mapped DeliveryCode := {|
  relation := "delivery_codes";
  row r :=
    [ ("order_id", VUuid (dc_order_id r)); ("code_hash", VText (dc_code_hash r));
      ("code_plain", VText (dc_code_plain r)); ("attempts_used", VInt (dc_attempts_used r));
      ("locked", VBool (dc_locked r)); ("consumed_at", or_null VTime (dc_consumed_at r)) ] |}.
#[export] Instance mapped_attempt : Mapped DeliveryCodeAttempt := {|
  relation := "delivery_code_attempts";
  row r :=
    [ ("id", VUuid (at_id r)); ("order_id", VUuid (at_order_id r));
      ("driver_id", or_null VUuid (at_driver_id r));
      ("submitted_code", VText (at_submitted_code r)); ("success", VBool (at_success r)) ] |}.
#[export] Instance mapped_device : Mapped UserDevice := {|
  relation := "user_devices";
  row r :=
    [ ("id", VUuid (dv_id r)); ("user_id", VUuid (dv_user_id r));
      ("platform", VText (dv_platform r)); ("token", VText (dv_token r));
      ("last_seen_at", or_null VTime (dv_last_seen_at r));
      ("disabled_at", or_null VTime (dv_disabled_at r)) ] |}.

(** The tables that foreign keys point to, by name. *)
Definition target_relation (t : Target) : string :=
  match t with
  | to_users => relation User | to_sellers => relation Seller | to_stores => relation Store
  | to_products => relation Product | to_orders => relation Order
  | to_invite_links => relation InviteLink | to_conversations => relation Conversation
  | to_public_keys => relation UserPublicKey
  end.
