(* ===== verification/SchemaProps.v ===== *)
(** * The migrated schema

    The migrations run and can be reversed. *)

From S2P Require Import Prelude.
From S2P Require Import Models.
From S2P Require Import Session.
From S2P Require Import Schema.
From S2P Require Import Migrations.
#[local] Open Scope string_scope.
#[local] Open Scope list_scope.
#[local] Open Scope nat_scope.

(** ** Moving between revisions *)

(** The schema of the first [n] revisions, on an empty database. *)
Definition schema_at (n : nat) : option Schema := run (take n history ≫= upgrade) empty_schema.
(** [alembic downgrade]: undo the revisions from the [i]-th down to the one after
    the [j]-th. *)
Definition downgrades (i j : nat) : list op := reverse (drop j (take i history)) ≫= downgrade.

Lemma run_app script1 script2 s :
  run (script1 ++ script2) s = run script1 s ≫= run script2.
Proof.
  revert s. induction script1 as [|o script1 IH]; intros s; [done|]. cbn.
  destruct (apply o s) as [s'|]; cbn; [apply IH|done].
Qed.

Lemma schema_at_S i m :
  history !! i = Some m → schema_at (S i) = schema_at i ≫= run (upgrade m).
Proof.
  intros Hm. unfold schema_at. rewrite (take_S_r _ _ _ Hm), bind_app, run_app. cbn.
  by rewrite app_nil_r.
Qed.

Lemma downgrades_S i j m :
  history !! i = Some m → j ≤ i → downgrades (S i) j = downgrade m ++ downgrades i j.
Proof.
  intros Hm Hj. unfold downgrades. rewrite (take_S_r _ _ _ Hm), drop_app_le.
  - by rewrite reverse_app.
  - rewrite length_take. apply lookup_lt_Some in Hm. lia.
Qed.

(** One revision and back. *)
Definition step_reverses (s : Schema) (m : Migration) : bool :=
  match run (upgrade m) s with
  | Some s' => bool_decide (run (downgrade m) s' = Some (s <| extensions := extensions s' |>))
  | None => false
  end.
Fixpoint chain_reverses (h : list Migration) (s : Schema) : bool :=
  match h with
  | [] => true
  | m :: h' =>
      step_reverses s m &&
      match run (upgrade m) s with Some s' => chain_reverses h' s' | None => false end
  end.

Lemma history_reverses : chain_reverses history empty_schema = true.
Proof. vm_compute. reflexivity. Qed.

Lemma chain_steps h s0 i m :
  chain_reverses h s0 = true → h !! i = Some m →
  ∃ s s', run (take i h ≫= upgrade) s0 = Some s ∧ run (upgrade m) s = Some s' ∧
    run (downgrade m) s' = Some (s <| extensions := extensions s' |>).
Proof.
  revert s0 i. induction h as [|m0 h IH]; intros s0 i Hc Hi; [done|].
  cbn in Hc. apply andb_true_iff in Hc as [Hstep Hc].
  destruct (run (upgrade m0) s0) as [s1|] eqn:E; [|done]. destruct i as [|i].
  - cbn in Hi. injection Hi as ->. exists s0, s1. split_and!; [done|done|].
    unfold step_reverses in Hstep. rewrite E in Hstep. by apply bool_decide_eq_true in Hstep.
  - destruct (IH s1 i Hc Hi) as (s & s' & Hr & Hu & Hd). exists s, s'. split_and!; [|done|done].
    cbn. by rewrite run_app, E.
Qed.

(** The extensions are installed once and for all by the first revision. *)
Fixpoint extensions_kept (h : list Migration) (s : Schema) : bool :=
  match h with
  | [] => true
  | m :: h' =>
      match run (upgrade m) s with
      | Some s' => bool_decide (extensions s' = extensions s) && extensions_kept h' s'
      | None => false
      end
  end.

Lemma kept_extensions h s0 i m s s' :
  extensions_kept h s0 = true → h !! i = Some m → run (take i h ≫= upgrade) s0 = Some s →
  run (upgrade m) s = Some s' → extensions s' = extensions s.
Proof.
  revert s0 i. induction h as [|m0 h IH]; intros s0 i Hk Hi Hr Hu; [done|].
  cbn in Hk. destruct (run (upgrade m0) s0) as [s1|] eqn:E; [|done].
  apply andb_true_iff in Hk as [He Hk]. destruct i as [|i].
  - cbn in Hi, Hr. injection Hi as ->. injection Hr as ->. rewrite E in Hu. injection Hu as ->.
    by apply bool_decide_eq_true in He.
  - apply (IH s1 i); [done|done| |done]. cbn in Hr. by rewrite run_app, E in Hr.
Qed.

Lemma first_revision_installs :
  from_option (λ s, extensions_kept (tail history) s) false (schema_at 1) = true.
Proof. vm_compute. reflexivity. Qed.

Lemma later_extensions i m s s' :
  history !! S i = Some m → schema_at (S i) = Some s → run (upgrade m) s = Some s' →
  extensions s' = extensions s.
Proof.
  assert (∃ m0 h, history = m0 :: h) as (m0 & h & Eh) by (eexists _, _; reflexivity).
  pose proof first_revision_installs as Hk. unfold schema_at in *. revert Hk. rewrite Eh. clear Eh.
  change (take 1 (m0 :: h)) with [m0]. change (take (S i) (m0 :: h)) with (m0 :: take i h).
  rewrite !bind_cons, app_nil_r. intros Hk Hm Hs Hu. rewrite run_app in Hs.
  destruct (run (upgrade m0) empty_schema) as [s1|]; [|done].
  apply (kept_extensions h s1 i m); done.
Qed.

(** ** The chain of revisions *)

(** What [alembic] needs to order the scripts: one base, and every other script
    names its predecessor. *)
Definition previous (h : list Migration) (i : nat) : option string :=
  match i with O => None | S i' => revision <$> h !! i' end.
Definition linear (h : list Migration) : Prop :=
  NoDup (revision <$> h) ∧ ∀ i m, h !! i = Some m → down_revision m = previous h i.

Lemma history_linear : linear history.
Proof.
  split; [apply (bool_decide_eq_true_1 _); vm_compute; reflexivity|].
  intros i m Hm. do 10 (destruct i as [|i]; [injection Hm as <-; reflexivity|]). done.
Qed.

Lemma schema_step i m :
  history !! i = Some m →
  ∃ s s', schema_at i = Some s ∧ schema_at (S i) = Some s' ∧
    run (downgrade m) s' = Some (s <| extensions := extensions s' |>) ∧
    (0 < i → extensions s' = extensions s).
Proof.
  intros Hm. destruct (chain_steps _ _ _ _ history_reverses Hm) as (s & s' & Hs & Hu & Hd).
  exists s, s'. split_and!; [done| |done|].
  - rewrite (schema_at_S _ _ Hm). unfold schema_at. by rewrite Hs.
  - intros Hi. destruct i as [|i]; [lia|]. by apply (later_extensions i m).
Qed.

Lemma set_own_extensions s : s <| extensions := extensions s |> = s.
Proof. by destruct s. Qed.

(** C37: The migration scripts form one chain, the whole chain runs on an empty
    database, and from any revision reached so a downgrade to any earlier one
    runs as well and restores exactly the schema of that revision — its types,
    tables, columns, constraints, indexes and views — but for the extensions,
    which stay installed. *)
Theorem downgrade_reverses_upgrade :
  linear history ∧
  ∀ i j, j ≤ i → i ≤ length history →
  ∃ si sj, schema_at i = Some si ∧ schema_at j = Some sj ∧
    run (downgrades i j) si = Some (sj <| extensions := extensions si |>).
Proof.
  split; [exact history_linear|]. intros i j Hj Hi. induction Hj as [|i Hj IH].
  - destruct j as [|j].
    + exists empty_schema, empty_schema. done.
    + destruct (lookup_lt_is_Some_2 history j) as [m Hm]; [lia|].
      destruct (schema_step _ _ Hm) as (s & s' & _ & Hs' & _). exists s', s'.
      split_and!; [done|done|]. unfold downgrades.
      rewrite drop_ge by (rewrite length_take; lia). by rewrite set_own_extensions.
  - destruct IH as (s0 & sj & Hs0 & Hsj & Hd); [lia|].
    destruct (lookup_lt_is_Some_2 history i) as [m Hm]; [lia|].
    destruct (schema_step _ _ Hm) as (s & s' & Hs & Hs' & Hdm & He).
    rewrite Hs in Hs0. injection Hs0 as ->. exists s', sj. split_and!; [done|done|].
    rewrite (downgrades_S _ _ _ Hm Hj), run_app, Hdm. cbn [mbind option_bind].
    destruct i as [|i].
    + assert (j = 0) as -> by lia. unfold schema_at in *. cbn in Hs, Hsj |- *. congruence.
    + rewrite He by lia. rewrite set_own_extensions. exact Hd.
Qed.

Lemma downgrade_reverses_upgrade_witness :
  ∃ si sj, schema_at 10 = Some si ∧ schema_at 3 = Some sj ∧
    run (downgrades 10 3) si = Some (sj <| extensions := extensions si |>).
Proof. apply (proj2 downgrade_reverses_upgrade 10 3); [lia|vm_compute; lia]. Defined.
