(* ===== verification/SchemaRowsProps.v ===== *)
(** * The session layer enforces the migrated schema

    The column ranges, CHECKs, unique keys and foreign keys that the session
    layer of this library checks on every write are exactly those of the tables
    that the migrations leave behind. *)

From S2P Require Import Prelude.
From S2P Require Import Models.
From S2P Require Import Session.
From S2P Require Import Schema.
From S2P Require Import Migrations.
From S2P Require Import SchemaRows.
From S2P Require Import SchemaProps.
#[local] Open Scope string_scope.
#[local] Open Scope list_scope.

(** ** The tables after the last revision *)

Definition relations : list string :=
  [ relation User; relation Seller; relation Store; relation Product; relation ProductImage;
    relation Order; relation OrderItem; relation Delivery; relation DriverAssignment;
    relation OrderAnalyticsSnapshot; relation PlatformSettings; relation InviteLink;
    relation Referral; relation RefreshToken; relation UserNotificationPrefs;
    relation Conversation; relation Message; relation UserPublicKey; relation OrderTrackingPoint;
    relation OrderMessage; relation DeliveryCode; relation DeliveryCodeAttempt;
    relation UserDevice ].
Definition shapes_in (s : Schema) : list (string * option Shape) :=
  (λ t, (t, shape_of s t)) <$> relations.
Definition shapes : list (string * option Shape) :=
  Eval vm_compute in from_option shapes_in [] (schema_at (length history)).

Lemma migrated_shapes : shapes_in <$> schema_at (length history) = Some shapes.
Proof. vm_compute. reflexivity. Qed.

(** ** Agreement of a row type with its table *)

Section agreement.
Context (R : Type) `{Table R, Mapped R}.

Definition enforced (sh : Shape) : Prop := ∀ r r' : R,
  knows sh (row r) ∧
  (accepted sh (row r) ↔ column_error r = None) ∧
  (clash sh (row r) (row r') ↔ conflicts r r') ∧
  (∀ ref, ref ∈ points_to sh (row r) ↔
     ref ∈ (λ ref, (target_relation ref.1, ref.2)) <$> Session.references r) ∧
  (same_key sh (row r) (row r') ↔ pk r = pk r').
Definition enforced_in (s : Schema) : Prop :=
  ∃ sh, shape_of s (relation R) = Some sh ∧ enforced sh.
End agreement.

Fixpoint shape_named (l : list (string * option Shape)) (t : string) : option Shape :=
  match l with
  | [] => None
  | (t', sh) :: l' => if decide (t' = t) then sh else shape_named l' t
  end.
Lemma shape_named_in s ts t :
  t ∈ ts → shape_named ((λ t, (t, shape_of s t)) <$> ts) t = shape_of s t.
Proof.
  induction ts as [|t' ts IH]; [by intros ?%not_elem_of_nil|]. cbn. case_decide as E.
  - by subst.
  - intros [->|Hin]%elem_of_cons; [done|by apply IH].
Qed.

Lemma enforced_intro R `{Table R, Mapped R} s sh :
  shapes_in s = shapes → relation R ∈ relations → shape_named shapes (relation R) = Some sh →
  enforced R sh → enforced_in R s.
Proof.
  intros Es Hin Esh He. exists sh. split; [|done]. rewrite <- Esh, <- Es. symmetry.
  by apply shape_named_in.
Qed.

Lemma Forall_all {A} (P : A → Prop) l : Forall P l ↔ foldr (λ x Q, P x ∧ Q) True l.
Proof. induction l as [|x l IH]; cbn; [by rewrite Forall_nil|]. by rewrite Forall_cons, IH. Qed.
Lemma Exists_any {A} (P : A → Prop) l : Exists P l ↔ foldr (λ x Q, P x ∨ Q) False l.
Proof. induction l as [|x l IH]; cbn; [by rewrite Exists_nil|]. by rewrite Exists_cons, IH. Qed.


Lemma check_passes P `{Decision P} e next : check P e next = None ↔ P ∧ next = None.
Proof. unfold check. case_decide; naive_solver. Qed.

(** The atoms of the constraints, in terms of the model. *)
Lemma VUuid_eq a b : VUuid a = VUuid b ↔ a = b.
Proof. split; congruence. Qed.
Lemma VInt_of_N_eq a b : VInt (Z.of_N a) = VInt (Z.of_N b) ↔ a = b.
Proof. split; [intros [= E]; lia|by intros ->]. Qed.
Lemma or_null_time o : or_null VTime o = Null ↔ o = None.
Proof. by destruct o. Qed.
Lemma seller_referral_label t : invite_link_type_str t = "seller_referral" ↔ t = seller_referral.
Proof. by destruct t. Qed.
Lemma active_label k : key_status_str k = "active" ↔ k = key_active.
Proof. by destruct k. Qed.
Lemma key_status_known k : key_status_str k ∈ ["active"; "rotated"; "revoked"].
Proof. destruct k; by repeat constructor. Qed.
Lemma key_status_short k : varchar (N.to_nat 16) (key_status_str k).
Proof. destruct k; apply (bool_decide_unpack _); vm_compute; exact I. Qed.
Lemma one_is_int4 n : n = 1%N → int4 (Z.of_N n).
Proof. by intros ->. Qed.

(** One column or CHECK, given the others. *)
Ltac column_tac :=
  first [ exact I | done | tauto | lia
        | by repeat constructor
        | apply dec_stable; intuition (discriminate || lia)
        | intuition (discriminate || lia)
        | apply one_is_int4; tauto
        | apply key_status_short
        | pose proof key_status_known; naive_solver ].
(** A key, column by column. *)
Ltac key_tac :=
  rewrite ?Forall_all; cbn;
  rewrite ?VUuid_eq, ?VInt_of_N_eq, ?or_null_time, ?seller_referral_label, ?active_label; tauto.

(** The foreign keys, one by one. *)
Ltac foreign_tac :=
  unfold points_to, ref_opt; cbn;
  repeat match goal with |- context [or_null VUuid ?o] => destruct o; cbn end;
  rewrite ?elem_of_cons, ?elem_of_nil; tauto.

Ltac enforced_tac Es R :=
  let sh := eval vm_compute in (shape_named shapes (relation R)) in
  lazymatch sh with Some ?x => apply (enforced_intro R _ x Es) end;
  [ apply (bool_decide_unpack _); vm_compute; exact I | vm_compute; reflexivity
  | intros r r'; split_and!;
    [ unfold knows; cbn; split; apply (bool_decide_unpack _); vm_compute; exact I
    | unfold accepted, column_ok; rewrite !Forall_all; cbn; rewrite ?check_passes;
      repeat match goal with
      | |- context [or_null VInt ?o] => destruct o; cbn
      | |- context [or_null VText ?o] => destruct o; cbn
      end;
      (split;
      [ intros [Hc Hk]; split_and?; column_tac
      | intros Hc; split_and?;
        repeat match goal with
        | |- context [or_null _ ?o] => destruct o; cbn
        end;
        try match goal with |- ?f ?x ∈ _ => destruct x; cbn end;
        column_tac ])
    | unfold clash, agree_on; rewrite !Exists_any; cbn; key_tac
    | intros ref; foreign_tac
    | unfold same_key, agree_on; rewrite !Forall_all; cbn; key_tac ] ].

(** C36: The migrations leave a schema in which, for every table of the
    program, the columns that a row sets exist with their types; a row passes
    the column types with their lengths, NOT NULLs and CHECKs of the schema exactly if the session
    layer lets it pass; two rows collide on a unique constraint or a unique
    index of the schema, partial ones included, exactly if the session layer
    says so; the foreign keys are those that the session layer checks; and the
    primary key is the one under which rows are stored. *)
Theorem session_enforces_the_schema :
  ∃ s, schema_at (length history) = Some s ∧
    enforced_in User s ∧ enforced_in Seller s ∧ enforced_in Store s ∧ enforced_in Product s ∧
    enforced_in ProductImage s ∧ enforced_in Order s ∧ enforced_in OrderItem s ∧
    enforced_in Delivery s ∧ enforced_in DriverAssignment s ∧
    enforced_in OrderAnalyticsSnapshot s ∧ enforced_in PlatformSettings s ∧
    enforced_in InviteLink s ∧ enforced_in Referral s ∧ enforced_in RefreshToken s ∧
    enforced_in UserNotificationPrefs s ∧ enforced_in Conversation s ∧ enforced_in Message s ∧
    enforced_in UserPublicKey s ∧ enforced_in OrderTrackingPoint s ∧
    enforced_in OrderMessage s ∧ enforced_in DeliveryCode s ∧
    enforced_in DeliveryCodeAttempt s ∧ enforced_in UserDevice s.
Proof.
  pose proof migrated_shapes as Es. destruct (schema_at (length history)) as [s|]; [|discriminate].
  apply (inj Some) in Es. exists s. split; [done|].
  split_and!; match goal with |- enforced_in ?R s => enforced_tac Es R end.
Qed.

(** What the deletion of an order removes are the tables that point to orders,
    all of them with ON DELETE CASCADE. *)
Example what_hangs_on_an_order :
  omap (λ ns, sh ← ns.2; match filter (λ f, f.1.1.2 = relation Order) (sh_foreign sh) with
                         | [] => None
                         | l => Some (ns.1, snd <$> l)
                         end) shapes =
  [ (relation OrderItem, [CASCADE]); (relation Delivery, [CASCADE]);
    (relation DriverAssignment, [CASCADE]); (relation OrderTrackingPoint, [CASCADE]);
    (relation OrderMessage, [CASCADE]); (relation DeliveryCode, [CASCADE]);
    (relation DeliveryCodeAttempt, [CASCADE]) ].
Proof. vm_compute. reflexivity. Qed.
