(* ===== verification/Schemas.v ===== *)
(** * Request bodies

    The pydantic models of [app/schemas/] and of the routers that a request is
    validated against: the fields with a constraint, and [valid_*], the check
    whose failure is the 422 of the framework.  The parsing of JSON into typed
    fields is the framework's; so is the normalisation of an e-mail address,
    which is a parameter.  Texts are ASCII, so that a length counts characters. *)

From S2P Require Import Prelude.
From S2P Require Import Exceptions.
From S2P Require Import Models.
From S2P Require Import Session.
From S2P Require Import PyFloat.
From S2P Require Import Orders.
From S2P Require Import Auth.
From S2P Require Import DeliveryFlow.
From S2P Require Import Base64.
From S2P Require Import Messaging.
From S2P Require Import Products.
From S2P Require Import Upload.
#[local] Open Scope string_scope.
#[local] Open Scope Z_scope.

(** ** Field constraints *)

Definition str_len (lo hi : Z) (s : string) : bool :=
  bool_decide (lo ≤ Z.of_nat (String.length s) ≤ hi).
Definition int_in (lo hi n : Z) : bool := bool_decide (lo ≤ n ≤ hi).
Definition opt_ok {A} (ok : A → bool) (o : option A) : bool :=
  match o with Some a => ok a | None => true end.
Definition float_in (lo hi : Z) (x : float64) : bool :=
  SpecFloat.SFleb (float_of_Z lo) x && SpecFloat.SFleb x (float_of_Z hi).
(** A query parameter [limit: int = Query(ge=1, le=hi)]. *)
Definition limit_ok (hi limit : Z) : bool := int_in 1 hi limit.

(** The address that an accepted [EmailStr] field holds. *)
Class EmailStr := validate_email : string → option string.

(** ** [schemas/auth.py] *)

(** The password of a sign-up has 12 to 128 characters, whatever the policy of
    the service adds. *)
Definition valid_signup `{EmailStr} (r : SignupRequest) : option SignupRequest :=
  email ← validate_email (sr_email r);
  if str_len 12 128 (sr_password r) && str_len 1 255 (sr_display_name r) &&
     opt_ok (str_len 0 32) (sr_phone r) &&
     bool_decide (1 ≤ Z.of_nat (String.length (sr_invite_token r)))
  then Some (mkSignup email (sr_password r) (sr_display_name r) (sr_phone r)
               (sr_invite_token r) (sr_role_choice r))
  else None.

Record LoginRequest := mkLogin {
  lq_email : string;
  lq_password : string;
  lq_device_label : option string;
}.
Definition valid_login `{EmailStr} (r : LoginRequest) : option LoginRequest :=
  email ← validate_email (lq_email r);
  if opt_ok (str_len 0 255) (lq_device_label r)
  then Some (mkLogin email (lq_password r) (lq_device_label r)) else None.

Record UpdateMeRequest := mkUpdateMe {
  um_display_name : option string;
  um_phone : option string;
  um_avatar_url : option string;
}.
Definition valid_update_me (r : UpdateMeRequest) : bool :=
  opt_ok (str_len 1 255) (um_display_name r) && opt_ok (str_len 0 32) (um_phone r) &&
  opt_ok (str_len 0 2048) (um_avatar_url r).

Record ChangePasswordRequest := mkChangePassword {
  cp_current_password : string;
  cp_new_password : string;
}.
Definition valid_change_password (r : ChangePasswordRequest) : bool :=
  str_len 8 128 (cp_new_password r).

Record UpdateNotificationPrefsRequest := mkUpdatePrefs {
  un_push_enabled : option bool;
  un_email_enabled : option bool;
  un_order_updates : option bool;
  un_messages : option bool;
  un_marketing : option bool;
}.

(** ** [schemas/invites.py], [schemas/keys.py], [schemas/conversations.py] *)

Record CreateAdminInviteRequest := mkCreateAdminInvite {
  ci_role_target : string;
  ci_expires_in_hours : Z;
  ci_email_hint : option string;
}.
Definition valid_create_admin_invite (r : CreateAdminInviteRequest) : bool :=
  int_in 1 8760 (ci_expires_in_hours r) && opt_ok (str_len 0 255) (ci_email_hint r).

Record RegisterKeyRequest := mkRegisterKey {
  rk_public_key_b64url : list Ascii.ascii;
  rk_key_version : Z;
}.
Definition chars_in {A} (lo hi : Z) (l : list A) : bool :=
  bool_decide (lo ≤ Z.of_nat (length l) ≤ hi).
(** [to_bytes] of a validated body. *)
Definition register_key_bytes (r : RegisterKeyRequest) : option (list Z) :=
  if chars_in 1 128 (rk_public_key_b64url r) && bool_decide (1 ≤ rk_key_version r)
  then _decode_b64url_32 (rk_public_key_b64url r) else None.

Definition valid_send_message (r : SendMessageRequest) : option (list Z * list Z * list Z) :=
  if chars_in 1 131072 (sm_ciphertext_b64url r) && chars_in 1 32 (sm_nonce_b64url r) &&
     chars_in 1 128 (sm_ephemeral_public_key_b64url r)
  then send_bytes r else None.

Definition valid_message_retention (days : Z) : bool := int_in 7 3650 days.

(** ** [schemas/orders.py] *)

Record AddressIn := mkAddressIn {
  ad_line1 : string;
  ad_line2 : option string;
  ad_city : string;
  ad_region : option string;
  ad_postal : option string;
  ad_country : string;
  ad_lat : option float64;
  ad_lng : option float64;
  ad_notes : option string;
}.
Definition valid_address (a : AddressIn) : bool :=
  str_len 1 255 (ad_line1 a) && opt_ok (str_len 0 255) (ad_line2 a) &&
  str_len 1 100 (ad_city a) && opt_ok (str_len 0 100) (ad_region a) &&
  opt_ok (str_len 0 32) (ad_postal a) && str_len 2 2 (ad_country a) &&
  opt_ok (str_len 0 500) (ad_notes a).
(** [model_dump()]: every field, an absent one as [null]. *)
Definition model_dump (a : AddressIn) : Address :=
  let text := from_option JStr JNull in
  let number := from_option JNum JNull in
  list_to_map [("line1", JStr (ad_line1 a)); ("line2", text (ad_line2 a));
    ("city", JStr (ad_city a)); ("region", text (ad_region a));
    ("postal", text (ad_postal a)); ("country", JStr (ad_country a));
    ("lat", number (ad_lat a)); ("lng", number (ad_lng a)); ("notes", text (ad_notes a))].

Definition valid_line (it : LineItem) : bool :=
  bool_decide (0 < li_quantity it) && bool_decide (li_quantity it ≤ 10000).

Record CreateOrderRequest := mkCreateOrder {
  co_items : list LineItem;
  co_delivery_address : AddressIn;
}.
Definition valid_create_order (r : CreateOrderRequest) : bool :=
  chars_in 1 100 (co_items r) && forallb valid_line (co_items r) &&
  valid_address (co_delivery_address r).

(** [reason: Optional[str] = Field(max_length=500)]; the body may be missing. *)
Definition valid_cancel (reason : option string) : bool := opt_ok (str_len 0 500) reason.

Record UpdateRetentionSettingsRequest := mkUpdateRetention {
  ur_retention_min_days : option Z;
  ur_order_auto_complete_grace_hours : option Z;
}.
Definition valid_update_retention (r : UpdateRetentionSettingsRequest) : bool :=
  opt_ok (int_in 1 3650) (ur_retention_min_days r) &&
  opt_ok (int_in 1 720) (ur_order_auto_complete_grace_hours r).

(** ** [schemas/delivery_tracking.py], [schemas/delivery_flow.py] *)

Record LocationUpdateRequest := mkLocationUpdate {
  lu_lat : float64;
  lu_lng : float64;
  lu_eta_seconds : option Z;
  lu_distance_meters : option Z;
}.
Definition valid_location_update (r : LocationUpdateRequest) : bool :=
  float_in (-90) 90 (lu_lat r) && float_in (-180) 180 (lu_lng r) &&
  opt_ok (int_in 0 86400) (lu_eta_seconds r) && opt_ok (int_in 0 10000000) (lu_distance_meters r).

Record AdminDeliveryPatchRequest := mkDeliveryPatch {
  dp_driver_id : option uuid;
  dp_distance_meters : option Z;
  dp_duration_seconds : option Z;
}.
Definition valid_delivery_patch (r : AdminDeliveryPatchRequest) : bool :=
  opt_ok (int_in 0 10000000) (dp_distance_meters r) &&
  opt_ok (int_in 0 604800) (dp_duration_seconds r).

Record DriverLocationRequest := mkDriverLocation { dl_lat : float64; dl_lng : float64 }.
Definition valid_driver_location (r : DriverLocationRequest) : bool :=
  float_in (-90) 90 (dl_lat r) && float_in (-180) 180 (dl_lng r).

Record PostMessageRequest := mkPostMessage { pm_ciphertext : string; pm_nonce : string }.
Definition valid_post_message (r : PostMessageRequest) : bool :=
  str_len 1 4096 (pm_ciphertext r) && str_len 1 64 (pm_nonce r).

(** ** [schemas/stores.py], [schemas/products.py] *)

Record CreateStoreRequest := mkCreateStore {
  cs_name : string;
  cs_city : string;
  cs_description : option string;
  cs_slug : option string;
  cs_is_public : bool;
}.
Definition valid_create_store (r : CreateStoreRequest) : bool :=
  str_len 1 255 (cs_name r) && str_len 1 255 (cs_city r) &&
  opt_ok (str_len 0 5000) (cs_description r) && opt_ok (str_len 1 255) (cs_slug r).

Record UpdateStoreRequest := mkUpdateStore {
  us_name : option string;
  us_city : option string;
  us_description : option string;
  us_is_active : option bool;
  us_is_public : option bool;
}.
Definition valid_update_store (r : UpdateStoreRequest) : bool :=
  opt_ok (str_len 1 255) (us_name r) && opt_ok (str_len 1 255) (us_city r) &&
  opt_ok (str_len 0 5000) (us_description r).

Definition valid_image (i : ImageSpec) : bool :=
  str_len 1 1024 (s3_key i) && bool_decide (0 ≤ display_order i).

Record CreateProductRequest := mkCreateProduct {
  pc_store_id : option uuid;
  pc_name : string;
  pc_description : option string;
  pc_price_minor : Z;
  pc_stock_quantity : option Z;
  pc_images : list ImageSpec;
}.
Definition valid_create_product (r : CreateProductRequest) : bool :=
  str_len 1 255 (pc_name r) && opt_ok (str_len 0 10000) (pc_description r) &&
  bool_decide (0 < pc_price_minor r) &&
  opt_ok (λ n, bool_decide (0 ≤ n)) (pc_stock_quantity r) && forallb valid_image (pc_images r).

Record UpdateProductRequest := mkUpdateProduct {
  pu_name : option string;
  pu_description : option string;
  pu_price_minor : option Z;
  pu_stock_quantity : option Z;
  pu_is_active : option bool;
  pu_images : option (list ImageSpec);
}.
Definition valid_update_product (r : UpdateProductRequest) : bool :=
  opt_ok (str_len 1 255) (pu_name r) && opt_ok (str_len 0 10000) (pu_description r) &&
  opt_ok (λ n, bool_decide (0 < n)) (pu_price_minor r) &&
  opt_ok (λ n, bool_decide (0 ≤ n)) (pu_stock_quantity r) &&
  opt_ok (forallb valid_image) (pu_images r).

(** ** The routers [uploads.py] and [devices.py] *)

Record PresignRequest := mkPresignRequest {
  pq_purpose : Purpose;
  pq_filename : string;
  pq_content_type : string;
}.
Definition valid_presign (r : PresignRequest) : bool :=
  str_len 1 255 (pq_filename r) && str_len 3 64 (pq_content_type r).
Definition valid_confirm (key : string) : bool := str_len 1 1024 key.

Record RegisterDeviceRequest := mkRegisterDevice { rd_platform : string; rd_token : string }.
Definition valid_register_device (r : RegisterDeviceRequest) : bool :=
  bool_decide (rd_platform r ∈ ["ios"; "android"; "web"]) && str_len 1 4096 (rd_token r).
