(* ===== verification/Api.v ===== *)
(** * The HTTP API

    The routers of [app/api/v1/] on top of the services: every endpoint as one
    request with its access rule ([Depends(get_current_user)],
    [Depends(require_roles(...))] or none), the validation of its body, its
    handler, and the frames its handler hands to the gateway.  Authorisation
    comes first, then validation, then the handler, and all of it in one
    database session. *)

From S2P Require Import Prelude.
From S2P Require Import Exceptions.
From S2P Require Import Models.
From S2P Require Import Session.
From S2P Require Import Security.
From S2P Require Import Invites.
From S2P Require Import Auth.
From S2P Require Import PyFloat.
From S2P Require Import Orders.
From S2P Require Import Retention.
From S2P Require Import OrderViews.
From S2P Require Import DeliveryFlow.
From S2P Require Import Base64.
From S2P Require Import Messaging.
From S2P Require Import Keys.
From S2P Require Import DeliveryTracking.
From S2P Require Import Timestamps.
From S2P Require Import Gateway.
From S2P Require Import Stores.
From S2P Require Import Products.
From S2P Require Import Admin.
From S2P Require Import Push.
From S2P Require Import Upload.
From S2P Require Import Schemas.
#[local] Open Scope string_scope.
#[local] Open Scope Z_scope.

(** ** Responses that only the routers build *)

Record MeResponse := mkMe {
  me_id : uuid;
  me_email : string;
  me_role : UserRole;
  me_display_name : string;
  me_phone : option string;
  me_avatar_url : option string;
  me_is_active : bool;
  me_created_at : datetime;
  me_referring_seller_id : option uuid;
}.
Definition me_response (u : User) : MeResponse :=
  mkMe (u_id u) (u_email u) (u_role u) (u_display_name u) (u_phone u) (u_avatar_url u)
    (u_is_active u) (u_created_at u) (u_referring_seller_id u).

Record NotificationPrefsResponse := mkPrefsResponse {
  npr_push_enabled : bool;
  npr_email_enabled : bool;
  npr_order_updates : bool;
  npr_messages : bool;
  npr_marketing : bool;
}.
Definition prefs_response (p : UserNotificationPrefs) : NotificationPrefsResponse :=
  mkPrefsResponse (np_push_enabled p) (np_email_enabled p) (np_order_updates p)
    (np_messages p) (np_marketing p).

Record SellerResponse := mkSellerResponse {
  slr_id : uuid;
  slr_user_id : uuid;
  slr_display_name : string;
  slr_bio : option string;
  slr_city : string;
  slr_country_code : string;
  slr_created_at : datetime;
}.
Definition seller_response (r : Seller) : SellerResponse :=
  mkSellerResponse (se_id r) (se_user_id r) (se_display_name r) (se_bio r) (se_city r)
    (se_country_code r) (se_created_at r).

Record PublicKeyResponse := mkKeyResponse {
  kr_key_id : uuid;
  kr_user_id : uuid;
  kr_public_key_b64url : list Ascii.ascii;
  kr_key_version : Z;
  kr_status : KeyStatus;
  kr_created_at : datetime;
  kr_rotated_at : option datetime;
  kr_revoked_at : option datetime;
}.
Definition _render (row : UserPublicKey) : PublicKeyResponse :=
  mkKeyResponse (k_id row) (k_user_id row) (_b64url_encode (k_public_key row))
    (k_key_version row) (k_status row) (k_created_at row) (k_rotated_at row) (k_revoked_at row).

Record CustomerCodeResponse := mkCodeResponse {
  ccr_order_id : uuid;
  ccr_code : string;
  ccr_locked : bool;
  ccr_attempts_used : Z;
}.
Definition code_response (c : DeliveryCode) : CustomerCodeResponse :=
  mkCodeResponse (dc_order_id c) (dc_code_plain c) (dc_locked c) (dc_attempts_used c).

Record OrderMessageResponse := mkOrderMessageResponse {
  omr_id : uuid;
  omr_order_id : uuid;
  omr_sender_id : option uuid;
  omr_sender_role : string;
  omr_ciphertext : string;
  omr_nonce : string;
  omr_created_at : datetime;
}.
Definition chat_response (m : OrderMessage) : OrderMessageResponse :=
  mkOrderMessageResponse (om_id m) (om_order_id m) (om_sender_id m) (om_sender_role m)
    (om_ciphertext m) (om_nonce m) (om_created_at m).

(** A required field of a response model: [None] fails its validation. *)
Definition required {A} (o : option A) : M A :=
  match o with Some a => mret a | None => raise ValueError end.

(** The body of an answer. *)
Inductive Answer :=
| NoContent
| LoginAnswer (r : LoginResponse)
| RefreshAnswer (r : RefreshResponse)
| MeAnswer (r : MeResponse)
| PrefsAnswer (r : NotificationPrefsResponse)
| InviteStatus (r : ValidateInviteResponse)
| InviteAnswer (r : InviteResponse)
| InvitesAnswer (r : list InviteResponse)
| SellerAnswer (r : SellerResponse)
| SellerPublicAnswer (r : SellerPublicResponse)
| DashboardAnswer (r : Dashboard)
| StoreAnswer (r : StoreResponse)
| ProductAnswer (r : ProductResponse)
| ProductsAnswer (r : list ProductListItem)
| OrderAnswer (r : OrderResponse)
| OrdersAnswer (r : list OrderResponse)
| RetentionAnswer (retention_min_days order_auto_complete_grace_hours : Z)
| PurgeAnswer (r : PurgeResult)
| MessageRetentionAnswer (message_retention_days : Z)
| MessagesPurged (purged_count : nat)
| TrackAnswer (r : TrackView)
| DriverAccepted (order_id : uuid) (driver_accepted_at : datetime)
| RouteAnswer (r : Route)
| DeliveryCompleted (order_id : uuid) (delivered_at : datetime)
| EtaAnswer (order_id : uuid) (eta_seconds : option Z) (last_update_at : option datetime)
| CodeAnswer (r : CustomerCodeResponse)
| ChatAnswer (r : list OrderMessageResponse)
| ChatMessageAnswer (r : OrderMessageResponse)
| TrackingPointsAnswer (points : list OrderTrackingPoint)
| KeyAnswer (r : PublicKeyResponse)
| KeysAnswer (r : list PublicKeyResponse)
| ConversationAnswer (r : ConversationResponse)
| ConversationsAnswer (r : list ConversationResponse)
| MessageAnswer (r : MessageResponse)
| MessagesAnswer (r : list MessageResponse) (next_cursor : option string)
| PanelAnswer (r : AdminAnswer)
| PresignAnswer (r : PresignResponse)
| ConfirmAnswer (r : ConfirmResponse)
| DeviceAnswer (id : uuid) (platform : string).

(** An answer, with what the handler does to the gateway. *)
Record Reply := mkReply { answer : Answer; broadcasts : Gateway → Gateway }.
Definition reply (a : Answer) : Reply := mkReply a (λ g, g).
Definition done_ (m : M unit) : M Reply := m ;; mret (reply NoContent).
Definition answers {A} (f : A → Answer) (m : M A) : M Reply := a ← m; mret (reply (f a)).

(** The failure of a body check. *)
Definition valid_body (ok : bool) : M unit := raise_if (ok = false) RequestValidationError.
Definition parsed_body {A} (o : option A) : M A :=
  match o with Some a => mret a | None => raise RequestValidationError end.

(** ** Requests *)

(** The endpoints without authentication. *)
Inductive PublicRequest :=
| PostSignup (body : SignupRequest)
| PostLogin (body : LoginRequest)
| PostRefresh (refresh_token : string)
| GetInvitesValidate (token : string).

(** The endpoints behind a token. *)
Inductive MemberRequest :=
(* auth.py *)
| PostLogout (refresh_token : string)
| PostLogoutAll
| GetMe
| PatchMe (body : UpdateMeRequest)
| PostMePassword (body : ChangePasswordRequest)
| GetMeNotifications
| PatchMeNotifications (body : UpdateNotificationPrefsRequest)
(* invites.py *)
| PostAdminInvite (body : CreateAdminInviteRequest)
| PostSellerReferral
| PostSellerReferralRegenerate
| GetInvites
| DeleteInvite (invite_id : uuid)
(* sellers.py *)
| GetMySeller
| GetMyDashboard
| GetSeller (seller_id : uuid)
| GetSellerDashboard (seller_id : uuid)
(* stores.py *)
| PostStore (body : CreateStoreRequest)
| GetMyStore
| PatchMyStore (body : UpdateStoreRequest)
| GetStore (store_id : uuid)
(* products.py *)
| PostProduct (body : CreateProductRequest)
| GetProducts (store_id seller_id : option uuid) (limit : Z)
| GetProduct (product_id : uuid)
| PatchProduct (product_id : uuid) (body : UpdateProductRequest)
| DeleteProduct (product_id : uuid)
(* orders.py *)
| PostOrder (body : CreateOrderRequest)
| GetOrders (status : option string) (limit : Z)
| GetOrder (order_id : uuid)
| PostOrderAccept (order_id : uuid)
| PostOrderPreparing (order_id : uuid)
| PostOrderSelfDeliver (order_id : uuid)
| PostOrderRequestDriver (order_id : uuid)
| PostOrderOutForDelivery (order_id : uuid)
| PostOrderDelivered (order_id : uuid)
| PostOrderComplete (order_id : uuid)
| PostOrderCancel (order_id : uuid) (reason : option string)
| DeleteOrderRequest (order_id : uuid)
(* admin_orders.py *)
| PostAssignDriver (order_id driver_id : uuid)
| GetRetention
| PatchRetention (body : UpdateRetentionSettingsRequest)
| PostPurgeOrders
(* admin_messages.py *)
| GetMessageRetention
| PatchMessageRetention (message_retention_days : Z)
| PostPurgeMessages
(* deliveries.py *)
| PostDeliveryLocation (order_id : uuid) (body : LocationUpdateRequest)
| GetTrack (order_id : uuid)
| PatchAdminDelivery (order_id : uuid) (body : AdminDeliveryPatchRequest)
(* delivery_flow.py *)
| PostDriverAccept (order_id : uuid)
| PostDriverLocation (order_id : uuid) (body : DriverLocationRequest)
| GetDriverRoute (order_id : uuid)
| PostDriverComplete (order_id : uuid) (code : string)
| GetCustomerEta (order_id : uuid)
| GetCustomerCode (order_id : uuid)
| GetChat (order_id : uuid)
| PostChat (order_id : uuid) (body : PostMessageRequest)
| GetAdminTracking (order_id : uuid)
| GetAdminMessages (order_id : uuid)
(* keys.py *)
| PostKey (body : RegisterKeyRequest)
| GetMyKeys
| GetUserKey (user_id : uuid)
| DeleteKey (key_id : uuid)
(* conversations.py *)
| PostConversation (peer_user_id : uuid)
| GetConversations (limit : Z)
| GetConversation (conversation_id : uuid)
| GetMessages (conversation_id : uuid) (before : option datetime) (limit : Z)
| PostMessage (conversation_id : uuid) (body : SendMessageRequest)
| PostMessageRead (conversation_id message_id : uuid)
(* admin.py *)
| Panel (call : AdminCall)
(* uploads.py, devices.py *)
| PostPresign (body : PresignRequest)
| PostConfirm (s3_key : string)
| PostDevice (body : RegisterDeviceRequest).

Inductive Request :=
| AsPublic (r : PublicRequest)
| AsMember (credentials : option string) (r : MemberRequest).

(** The dependency that supplies the caller of an endpoint: [None] is
    [get_current_user], [Some roles] is [require_roles] with these roles. *)
Definition required_roles (r : MemberRequest) : option (list UserRole) :=
  match r with
  | PostSellerReferral | PostSellerReferralRegenerate | GetInvites
  | PatchProduct _ _ | DeleteProduct _ => Some [seller; admin]
  | GetMySeller | GetMyDashboard | PostStore _ | GetMyStore | PatchMyStore _
  | PostProduct _ => Some [seller]
  | PostAdminInvite _ | GetSellerDashboard _ | PostAssignDriver _ _ | GetRetention
  | PatchRetention _ | PostPurgeOrders | GetMessageRetention | PatchMessageRetention _
  | PostPurgeMessages | PatchAdminDelivery _ _ | GetAdminTracking _ | GetAdminMessages _
  | Panel _ => Some [admin]
  | _ => None
  end.

(** The checks of the panel's bodies and query parameters. *)
Definition valid_panel (call : AdminCall) : bool :=
  match call with
  | ListUsers q _ _ _ limit | ListProducts q _ _ _ limit =>
      opt_ok (str_len 0 200) q && limit_ok 100 limit
  | SuspendUser _ reason | DisableProduct _ reason => str_len 1 500 reason
  | IssueInvite _ days hint => int_in 1 365 days && opt_ok (str_len 0 255) hint
  | ListOrders _ _ limit | TopSellers limit => limit_ok 100 limit
  | OpsSetRetention days => valid_message_retention days
  | _ => true
  end.
