(* ===== verification/Routes.v ===== *)
(** * The routes

    One definition per endpoint of [app/api/v1/*.py]: the checks of its body,
    the call of the service and the rendering of the answer; the dispatch of a
    request to its endpoint, behind the dependency that finds the caller. *)

From S2P Require Import Prelude.
From S2P Require Import Exceptions.
From S2P Require Import Models.
From S2P Require Import Session.
From S2P Require Import Security.
From S2P Require Import Invites.
From S2P Require Import Auth.
From S2P Require Import PyFloat.
From S2P Require Import Orders.
From S2P Require Import Retention.
From S2P Require Import OrderViews.
From S2P Require Import DeliveryFlow.
From S2P Require Import Base64.
From S2P Require Import Messaging.
From S2P Require Import Keys.
From S2P Require Import DeliveryTracking.
From S2P Require Import Timestamps.
From S2P Require Import Gateway.
From S2P Require Import Stores.
From S2P Require Import Products.
From S2P Require Import Admin.
From S2P Require Import Push.
From S2P Require Import Upload.
From S2P Require Import Schemas.
From S2P Require Import Api.
#[local] Open Scope string_scope.
#[local] Open Scope Z_scope.

(** The conversations a page lists, with their unread counts. *)
Definition conversation_response (caller : User) (conv : Conversation) :
    M ConversationResponse :=
  unread ← unread_count (c_id conv) (u_id caller);
  mret (conversation_to_response_dict conv (u_id caller) unread).
Fixpoint conversation_responses (caller : User) (convs : list Conversation) :
    M (list ConversationResponse) :=
  match convs with
  | [] => mret []
  | c :: convs' =>
      r ← conversation_response caller c;
      rs ← conversation_responses caller convs';
      mret (r :: rs)
  end.

(** [except ValueError: raise HTTPException(400)]. *)
Definition except_value_error {A} (m : M A) (handler : M A) : M A := λ env s,
  match m env s with
  | (Raised (PyErr ValueError), s1) => handler env s1
  | r => r
  end.

Section api.
Context `{Crypto, EmailStr, Libm, FromIso, Storage} (settings : Settings).

(** *** [api/v1/auth.py] *)

Definition signup_route (body : SignupRequest) : M Reply :=
  body ← parsed_body (valid_signup body);
  answers LoginAnswer (signup settings body).

Definition login_route (body : LoginRequest) : M Reply :=
  body ← parsed_body (valid_login body);
  answers LoginAnswer (login settings (lq_email body) (lq_password body) (lq_device_label body)).

Definition refresh_token_route (token : string) : M Reply :=
  answers RefreshAnswer (refresh settings token).

(** *** [api/v1/invites.py] *)

Definition validate_invite_route (token : string) : M Reply :=
  answers InviteStatus (validate_invite token).

(** *** [api/v1/auth.py] *)

Definition logout_route (token : string) : M Reply :=
  done_ (logout token).

Definition logout_all_route (caller : User) : M Reply :=
  done_ (logout_all caller).

Definition get_me_route (caller : User) : M Reply :=
  answers (λ u, MeAnswer (me_response u)) (get_me caller).

Definition update_me_route (caller : User) (b : UpdateMeRequest) : M Reply :=
  valid_body (valid_update_me b);;
  answers (λ u, MeAnswer (me_response u))
    (update_me caller (um_display_name b) (um_phone b) (um_avatar_url b)).

Definition change_password_route (caller : User) (b : ChangePasswordRequest) : M Reply :=
  valid_body (valid_change_password b);;
  done_ (except_value_error
    (change_password caller (cp_current_password b) (cp_new_password b))
    (raise (HTTPException 400))).

Definition get_notification_prefs_route (caller : User) : M Reply :=
  answers (λ p, PrefsAnswer (prefs_response p)) (get_or_create_notification_prefs caller).

Definition update_notification_prefs_route (caller : User)
    (b : UpdateNotificationPrefsRequest) : M Reply :=
  answers (λ p, PrefsAnswer (prefs_response p))
    (update_notification_prefs caller (un_push_enabled b) (un_email_enabled b)
       (un_order_updates b) (un_messages b) (un_marketing b)).

(** *** [api/v1/invites.py] *)

Definition create_admin_invite_route (caller : User) (b : CreateAdminInviteRequest) : M Reply :=
  valid_body (valid_create_admin_invite b);;
  answers (λ ip, InviteAnswer (_build_invite_response ip.1 (Some ip.2) None))
    (create_admin_invite caller (ci_role_target b) (ci_expires_in_hours b)).

Definition get_or_create_seller_referral_route (caller : User) : M Reply :=
  answers (λ ip, InviteAnswer (_build_invite_response ip.1 ip.2 None))
    (get_or_create_seller_referral caller).

Definition regenerate_seller_referral_route (caller : User) : M Reply :=
  answers (λ ip, InviteAnswer (_build_invite_response ip.1 (Some ip.2) None))
    (regenerate_seller_referral caller).

Definition list_invites_route (caller : User) : M Reply :=
  answers (λ is_, InvitesAnswer ((λ i, _build_invite_response i None None) <$> is_))
    (list_own_invites caller).

Definition revoke_invite_route (caller : User) (invite_id : uuid) : M Reply :=
  done_ (revoke_invite caller invite_id).

(** *** [api/v1/sellers.py] *)

Definition get_my_seller_route (caller : User) : M Reply :=
  answers (λ r, SellerAnswer (seller_response r)) (Orders._get_caller_seller caller).

Definition get_my_dashboard_route (caller : User) : M Reply :=
  answers DashboardAnswer (get_dashboard caller None).

Definition get_seller_by_id_route (caller : User) (sid : uuid) : M Reply :=
  answers SellerPublicAnswer (get_seller_by_id caller sid).

Definition get_seller_dashboard_admin_route (caller : User) (sid : uuid) : M Reply :=
  answers DashboardAnswer (get_dashboard caller (Some sid)).

(** *** [api/v1/stores.py] *)

Definition create_store_route (caller : User) (b : CreateStoreRequest) : M Reply :=
  valid_body (valid_create_store b);;
  answers StoreAnswer
    (post_store caller (cs_name b) (cs_city b) (cs_description b) (cs_slug b) (cs_is_public b)).

Definition get_my_store_route (caller : User) : M Reply :=
  answers StoreAnswer (get_my_store caller).

Definition patch_my_store_route (caller : User) (b : UpdateStoreRequest) : M Reply :=
  valid_body (valid_update_store b);;
  answers StoreAnswer
    (patch_my_store caller (us_name b) (us_city b) (us_description b) (us_is_active b)
       (us_is_public b)).

Definition get_store_by_id_route (caller : User) (sid : uuid) : M Reply :=
  answers StoreAnswer (get_store_by_id caller sid).

(** *** [api/v1/products.py] *)

Definition create_product_route (caller : User) (b : CreateProductRequest) : M Reply :=
  valid_body (valid_create_product b);;
  answers ProductAnswer
    (post_product caller (pc_name b) (pc_price_minor b) (pc_description b)
       (pc_stock_quantity b) (pc_images b) (pc_store_id b)).

Definition list_products_route (caller : User) (store_id : option uuid)
    (seller_id : option uuid) (limit : Z) : M Reply :=
  valid_body (limit_ok 100 limit);;
  answers ProductsAnswer (Products.list_products caller store_id seller_id limit).

Definition get_product_route (caller : User) (pid : uuid) : M Reply :=
  answers ProductAnswer (get_product caller pid).

Definition patch_product_route (caller : User) (pid : uuid) (b : UpdateProductRequest) : M Reply :=
  valid_body (valid_update_product b);;
  answers ProductAnswer
    (patch_product caller pid (pu_name b) (pu_description b) (pu_price_minor b)
       (pu_stock_quantity b) (pu_is_active b) (pu_images b)).

Definition delete_product_route (caller : User) (pid : uuid) : M Reply :=
  done_ (soft_delete_product caller pid).

(** *** [api/v1/orders.py] *)

Definition create_order_route (caller : User) (b : CreateOrderRequest) : M Reply :=
  valid_body (valid_create_order b);;
  answers (λ lo, OrderAnswer (order_to_response_dict lo))
    (create_order caller (co_items b) (model_dump (co_delivery_address b))).

Definition list_orders_route (caller : User) (status : option string) (limit : Z) : M Reply :=
  valid_body (limit_ok 200 limit);;
  status ← match status with
           | None => mret None
           | Some text =>
               match order_status_of_str text with
               | Some st => mret (Some st)
               | None => raise DataError
               end
           end;
  answers OrdersAnswer (OrderViews.list_orders caller status limit).

Definition get_order_route (caller : User) (oid : uuid) : M Reply :=
  answers OrderAnswer (get_order caller oid).

Definition accept_order_route (caller : User) (oid : uuid) : M Reply :=
  answers (λ lo, OrderAnswer (order_to_response_dict lo)) (Orders.accept_order caller oid).

Definition mark_preparing_route (caller : User) (oid : uuid) : M Reply :=
  answers (λ lo, OrderAnswer (order_to_response_dict lo)) (mark_preparing caller oid).

Definition self_deliver_route (caller : User) (oid : uuid) : M Reply :=
  answers (λ lo, OrderAnswer (order_to_response_dict lo)) (choose_self_delivery caller oid).

Definition request_driver_route (caller : User) (oid : uuid) : M Reply :=
  answers (λ lo, OrderAnswer (order_to_response_dict lo)) (request_driver caller oid).

Definition out_for_delivery_route (caller : User) (oid : uuid) : M Reply :=
  lo ← Orders.out_for_delivery caller oid;
  mret (mkReply (OrderAnswer (order_to_response_dict lo)) (dispatched_broadcast lo)).

Definition delivered_route (caller : User) (oid : uuid) : M Reply :=
  lo ← mark_delivered caller oid;
  mret (mkReply (OrderAnswer (order_to_response_dict lo)) (delivered_broadcast lo)).

Definition complete_order_route (caller : User) (oid : uuid) : M Reply :=
  answers (λ lo, OrderAnswer (order_to_response_dict lo)) (complete_order caller oid).

Definition cancel_order_route (caller : User) (oid : uuid) (reason : option string) : M Reply :=
  valid_body (valid_cancel reason);;
  answers (λ lo, OrderAnswer (order_to_response_dict lo)) (cancel_order caller oid reason).

Definition delete_order_route (caller : User) (oid : uuid) : M Reply :=
  done_ (delete_order caller oid).

(** *** [api/v1/admin_orders.py] *)

Definition assign_driver_route (caller : User) (oid : uuid) (drv : uuid) : M Reply :=
  answers (λ lo, OrderAnswer (order_to_response_dict lo)) (assign_driver caller oid drv).

Definition get_retention_settings_route : M Reply :=
  answers (λ ps, RetentionAnswer (ps_retention_min_days ps)
                   (ps_order_auto_complete_grace_hours ps)) get_retention_settings.

Definition patch_retention_settings_route (caller : User)
    (b : UpdateRetentionSettingsRequest) : M Reply :=
  valid_body (valid_update_retention b);;
  answers (λ ps, RetentionAnswer (ps_retention_min_days ps)
                   (ps_order_auto_complete_grace_hours ps))
    (update_retention_settings caller (ur_retention_min_days b)
       (ur_order_auto_complete_grace_hours b)).

Definition run_purge_job_route : M Reply :=
  answers PurgeAnswer run_purge_job.

(** *** [api/v1/admin_messages.py] *)

Definition get_message_retention_route : M Reply :=
  answers MessageRetentionAnswer get_message_retention_days.

Definition patch_message_retention_route (caller : User) (days : Z) : M Reply :=
  valid_body (valid_message_retention days);;
  answers MessageRetentionAnswer (update_message_retention_days caller days).

Definition run_purge_messages_route : M Reply :=
  answers MessagesPurged purge_old_messages.

(** *** [api/v1/deliveries.py] *)

Definition post_location_route (caller : User) (oid : uuid) (b : LocationUpdateRequest) : M Reply :=
  valid_body (valid_location_update b);;
  od ← post_location caller oid (lu_lat b) (lu_lng b) (lu_eta_seconds b)
         (lu_distance_meters b);
  mret (mkReply NoContent (location_broadcast (lu_eta_seconds b) od)).

Definition track_route (caller : User) (oid : uuid) : M Reply :=
  answers TrackAnswer (get_track_view caller oid).

Definition admin_patch_route (caller : User) (oid : uuid)
    (b : AdminDeliveryPatchRequest) : M Reply :=
  valid_body (valid_delivery_patch b);;
  answers (λ od, TrackAnswer (InternalView (build_internal_view od.1 od.2)))
    (admin_patch_delivery caller oid (dp_driver_id b) (dp_distance_meters b)
       (dp_duration_seconds b)).

(** *** [api/v1/delivery_flow.py] *)

Definition driver_accept_route (caller : User) (oid : uuid) : M Reply :=
  oc ← DeliveryFlow.accept_order caller oid;
  accepted_at ← required (o_driver_accepted_at oc.1);
  mret (reply (DriverAccepted (o_id oc.1) accepted_at)).

Definition driver_location_route (caller : User) (oid : uuid)
    (b : DriverLocationRequest) : M Reply :=
  valid_body (valid_driver_location b);;
  record_location caller oid (dl_lat b) (dl_lng b);;
  mret (reply NoContent).

Definition driver_route_route (caller : User) (oid : uuid) : M Reply :=
  answers RouteAnswer (driver_route caller oid).

Definition driver_complete_route (caller : User) (oid : uuid) (code : string) : M Reply :=
  valid_body (valid_code code);;
  o ← complete_delivery caller oid code;
  delivered_at ← required (o_delivered_at o);
  mret (reply (DeliveryCompleted (o_id o) delivered_at)).

Definition customer_eta_route (caller : User) (oid : uuid) : M Reply :=
  answers (λ e, EtaAnswer e.1.1 e.1.2 e.2) (customer_eta caller oid).

Definition customer_code_route (caller : User) (oid : uuid) : M Reply :=
  answers (λ c, CodeAnswer (code_response c)) (get_delivery_code_for_customer caller oid).

Definition list_chat_route (caller : User) (oid : uuid) : M Reply :=
  answers (λ ms, ChatAnswer (chat_response <$> ms)) (list_chat caller oid).

Definition post_chat_route (caller : User) (oid : uuid) (b : PostMessageRequest) : M Reply :=
  valid_body (valid_post_message b);;
  answers (λ m, ChatMessageAnswer (chat_response m))
    (post_order_message caller oid (pm_ciphertext b) (pm_nonce b)).

Definition admin_tracking_route (oid : uuid) : M Reply :=
  answers TrackingPointsAnswer (list_tracking_points oid).

Definition admin_messages_route (oid : uuid) : M Reply :=
  answers (λ ms, ChatAnswer (chat_response <$> ms)) (list_order_messages oid true).

(** *** [api/v1/keys.py] *)

Definition register_key_route (caller : User) (b : RegisterKeyRequest) : M Reply :=
  raw ← parsed_body (register_key_bytes b);
  answers (λ k, KeyAnswer (_render k)) (register_key caller raw (rk_key_version b)).

Definition list_my_keys_route (caller : User) : M Reply :=
  answers (λ ks, KeysAnswer (_render <$> ks)) (list_keys_for_user (u_id caller)).

Definition get_user_active_key_route (caller : User) (uid : uuid) : M Reply :=
  answers (λ k, KeyAnswer (_render k)) (get_user_active_key caller uid).

Definition revoke_key_route (caller : User) (kid : uuid) : M Reply :=
  revoke_key caller kid;; mret (reply NoContent).

(** *** [api/v1/conversations.py] *)

Definition create_conversation_route (caller : User) (peer : uuid) : M Reply :=
  conv ← create_conversation caller peer;
  answers ConversationAnswer (conversation_response caller conv).

Definition list_conversations_route (caller : User) (limit : Z) : M Reply :=
  valid_body (limit_ok 200 limit);;
  convs ← list_conversations_for_caller caller limit;
  answers ConversationsAnswer (conversation_responses caller convs).

Definition get_conversation_route (caller : User) (cid : uuid) : M Reply :=
  conv ← get_conversation caller cid;
  answers ConversationAnswer (conversation_response caller conv).

Definition list_messages_route (caller : User) (cid : uuid) (before : option datetime)
    (limit : Z) : M Reply :=
  valid_body (limit_ok 200 limit);;
  answers (λ page, MessagesAnswer (message_to_response_dict <$> page.1)
                     (isoformat <$> page.2))
    (messages_page caller cid before limit).

Definition send_message_route (caller : User) (cid : uuid) (b : SendMessageRequest) : M Reply :=
  parts ← parsed_body (valid_send_message b);
  let '(ciphertext, nonce, epk) := parts in
  msg ← store_message caller cid ciphertext nonce epk (sm_recipient_key_id b);
  let payload := message_to_response_dict msg in
  mret (mkReply (MessageAnswer payload) (broadcast_message_new cid payload)).

Definition mark_read_route (caller : User) (cid : uuid) (mid : uuid) : M Reply :=
  msg ← mark_message_read caller cid mid;
  let payload := message_to_response_dict msg in
  mret (mkReply (MessageAnswer payload) (broadcast_message_read cid payload)).

(** *** [api/v1/uploads.py] *)

Definition presign_upload_route (caller : User) (b : PresignRequest) : M Reply :=
  valid_body (valid_presign b);;
  answers PresignAnswer
    (presign_upload settings (u_id caller) (pq_purpose b) (pq_content_type b)).

Definition confirm_upload_route (key : string) : M Reply :=
  valid_body (valid_confirm key);;
  answers ConfirmAnswer (confirm_upload settings key).

(** *** [api/v1/devices.py] *)

Definition register_device_route (caller : User) (b : RegisterDeviceRequest) : M Reply :=
  valid_body (valid_register_device b);;
  answers (λ dv, DeviceAnswer (dv_id dv) (dv_platform dv))
    (register_device (u_id caller) (rd_platform b) (rd_token b)).

(** ** Dispatch *)

Definition public_handler (r : PublicRequest) : M Reply :=
  match r with
  | PostSignup body => signup_route body
  | PostLogin body => login_route body
  | PostRefresh token => refresh_token_route token
  | GetInvitesValidate token => validate_invite_route token
  end.

Definition handler (caller : User) (r : MemberRequest) : M Reply :=
  match r with
  | PostLogout token => logout_route token
  | PostLogoutAll => logout_all_route caller
  | GetMe => get_me_route caller
  | PatchMe b => update_me_route caller b
  | PostMePassword b => change_password_route caller b
  | GetMeNotifications => get_notification_prefs_route caller
  | PatchMeNotifications b => update_notification_prefs_route caller b
  | PostAdminInvite b => create_admin_invite_route caller b
  | PostSellerReferral => get_or_create_seller_referral_route caller
  | PostSellerReferralRegenerate => regenerate_seller_referral_route caller
  | GetInvites => list_invites_route caller
  | DeleteInvite invite_id => revoke_invite_route caller invite_id
  | GetMySeller => get_my_seller_route caller
  | GetMyDashboard => get_my_dashboard_route caller
  | GetSeller sid => get_seller_by_id_route caller sid
  | GetSellerDashboard sid => get_seller_dashboard_admin_route caller sid
  | PostStore b => create_store_route caller b
  | GetMyStore => get_my_store_route caller
  | PatchMyStore b => patch_my_store_route caller b
  | GetStore sid => get_store_by_id_route caller sid
  | PostProduct b => create_product_route caller b
  | GetProducts store_id seller_id limit => list_products_route caller store_id seller_id limit
  | GetProduct pid => get_product_route caller pid
  | PatchProduct pid b => patch_product_route caller pid b
  | DeleteProduct pid => delete_product_route caller pid
  | PostOrder b => create_order_route caller b
  | GetOrders status limit => list_orders_route caller status limit
  | GetOrder oid => get_order_route caller oid
  | PostOrderAccept oid => accept_order_route caller oid
  | PostOrderPreparing oid => mark_preparing_route caller oid
  | PostOrderSelfDeliver oid => self_deliver_route caller oid
  | PostOrderRequestDriver oid => request_driver_route caller oid
  | PostOrderOutForDelivery oid => out_for_delivery_route caller oid
  | PostOrderDelivered oid => delivered_route caller oid
  | PostOrderComplete oid => complete_order_route caller oid
  | PostOrderCancel oid reason => cancel_order_route caller oid reason
  | DeleteOrderRequest oid => delete_order_route caller oid
  | PostAssignDriver oid drv => assign_driver_route caller oid drv
  | GetRetention => get_retention_settings_route
  | PatchRetention b => patch_retention_settings_route caller b
  | PostPurgeOrders => run_purge_job_route
  | GetMessageRetention => get_message_retention_route
  | PatchMessageRetention days => patch_message_retention_route caller days
  | PostPurgeMessages => run_purge_messages_route
  | PostDeliveryLocation oid b => post_location_route caller oid b
  | GetTrack oid => track_route caller oid
  | PatchAdminDelivery oid b => admin_patch_route caller oid b
  | PostDriverAccept oid => driver_accept_route caller oid
  | PostDriverLocation oid b => driver_location_route caller oid b
  | GetDriverRoute oid => driver_route_route caller oid
  | PostDriverComplete oid code => driver_complete_route caller oid code
  | GetCustomerEta oid => customer_eta_route caller oid
  | GetCustomerCode oid => customer_code_route caller oid
  | GetChat oid => list_chat_route caller oid
  | PostChat oid b => post_chat_route caller oid b
  | GetAdminTracking oid => admin_tracking_route oid
  | GetAdminMessages oid => admin_messages_route oid
  | PostKey b => register_key_route caller b
  | GetMyKeys => list_my_keys_route caller
  | GetUserKey uid => get_user_active_key_route caller uid
  | DeleteKey kid => revoke_key_route caller kid
  | PostConversation peer => create_conversation_route caller peer
  | GetConversations limit => list_conversations_route caller limit
  | GetConversation cid => get_conversation_route caller cid
  | GetMessages cid before limit => list_messages_route caller cid before limit
  | PostMessage cid b => send_message_route caller cid b
  | PostMessageRead cid mid => mark_read_route caller cid mid
  | Panel call =>
      valid_body (valid_panel call);;
      answers PanelAnswer (admin_exec caller call)
  | PostPresign b => presign_upload_route caller b
  | PostConfirm key => confirm_upload_route key
  | PostDevice b => register_device_route caller b
  end.

(** The caller of a request, or the error of the dependency. *)
Definition authorize (credentials : option string) (r : MemberRequest) : M User :=
  match required_roles r with
  | None => get_current_user settings credentials
  | Some roles => require_roles settings roles credentials
  end.

(** What is left of the readings of a request after its first steps. *)
Definition continue_env (env : Env) (s : Session) : Env :=
  mkEnv (λ i, clock env (clock_reads s + i)%nat) (λ i, uuids env (uuid_draws s + i)%nat)
    (λ i, tokens env (token_draws s + i)%nat) (λ i, randoms env (random_draws s + i)%nat)
    (server_now env).

(** One request.  Authorisation only reads ([authorize_reads]), so the handler
    starts on the same database, and goes on with the clock where the token
    check has left it. *)
Definition serve (r : Request) (env : Env) (d : DB) : outcome Reply * DB :=
  match r with
  | AsPublic p => get_db (public_handler p) env d
  | AsMember credentials m =>
      match authorize credentials m env (open_session d) with
      | (Raised e, s) => (Raised e, committed s)
      | (Ok caller, s) => get_db (handler caller m) (continue_env env s) (working s)
      end
  end.
End api.

(** Open the definition of whatever endpoint the goal is about. *)
Ltac unfold_routes :=
  unfold
    handler, public_handler, signup_route, login_route, refresh_token_route,
    validate_invite_route, logout_route, logout_all_route, get_me_route, update_me_route,
    change_password_route, get_notification_prefs_route, update_notification_prefs_route,
    create_admin_invite_route, get_or_create_seller_referral_route,
    regenerate_seller_referral_route, list_invites_route, revoke_invite_route,
    get_my_seller_route, get_my_dashboard_route, get_seller_by_id_route,
    get_seller_dashboard_admin_route, create_store_route, get_my_store_route,
    patch_my_store_route, get_store_by_id_route, create_product_route, list_products_route,
    get_product_route, patch_product_route, delete_product_route, create_order_route,
    list_orders_route, get_order_route, accept_order_route, mark_preparing_route,
    self_deliver_route, request_driver_route, out_for_delivery_route, delivered_route,
    complete_order_route, cancel_order_route, delete_order_route, assign_driver_route,
    get_retention_settings_route, patch_retention_settings_route, run_purge_job_route,
    get_message_retention_route, patch_message_retention_route, run_purge_messages_route,
    post_location_route, track_route, admin_patch_route, driver_accept_route,
    driver_location_route, driver_route_route, driver_complete_route, customer_eta_route,
    customer_code_route, list_chat_route, post_chat_route, admin_tracking_route,
    admin_messages_route, register_key_route, list_my_keys_route, get_user_active_key_route,
    revoke_key_route, create_conversation_route, list_conversations_route,
    get_conversation_route, list_messages_route, send_message_route, mark_read_route,
    presign_upload_route, confirm_upload_route, register_device_route.
Tactic Notation "unfold_routes" "in" hyp(Hr) :=
  unfold
    handler, public_handler, signup_route, login_route, refresh_token_route,
    validate_invite_route, logout_route, logout_all_route, get_me_route, update_me_route,
    change_password_route, get_notification_prefs_route, update_notification_prefs_route,
    create_admin_invite_route, get_or_create_seller_referral_route,
    regenerate_seller_referral_route, list_invites_route, revoke_invite_route,
    get_my_seller_route, get_my_dashboard_route, get_seller_by_id_route,
    get_seller_dashboard_admin_route, create_store_route, get_my_store_route,
    patch_my_store_route, get_store_by_id_route, create_product_route, list_products_route,
    get_product_route, patch_product_route, delete_product_route, create_order_route,
    list_orders_route, get_order_route, accept_order_route, mark_preparing_route,
    self_deliver_route, request_driver_route, out_for_delivery_route, delivered_route,
    complete_order_route, cancel_order_route, delete_order_route, assign_driver_route,
    get_retention_settings_route, patch_retention_settings_route, run_purge_job_route,
    get_message_retention_route, patch_message_retention_route, run_purge_messages_route,
    post_location_route, track_route, admin_patch_route, driver_accept_route,
    driver_location_route, driver_route_route, driver_complete_route, customer_eta_route,
    customer_code_route, list_chat_route, post_chat_route, admin_tracking_route,
    admin_messages_route, register_key_route, list_my_keys_route, get_user_active_key_route,
    revoke_key_route, create_conversation_route, list_conversations_route,
    get_conversation_route, list_messages_route, send_message_route, mark_read_route,
    presign_upload_route, confirm_upload_route, register_device_route
    in Hr.
