(* ===== verification/Footprints.v ===== *)
(** * What a request may write

    The tables that each endpoint writes, and the proof that it writes no
    other, whatever its arguments, its outcome and its commits. *)

From S2P Require Import Prelude.
From S2P Require Import Exceptions.
From S2P Require Import Models.
From S2P Require Import Session.
From S2P Require Import SessionFacts.
From S2P Require Import Security.
From S2P Require Import Invites.
From S2P Require Import Auth.
From S2P Require Import AccountMachine.
From S2P Require Import PyFloat.
From S2P Require Import Orders.
From S2P Require Import Retention.
From S2P Require Import OrderMachine.
From S2P Require Import OrderViews.
From S2P Require Import DeliveryFlow.
From S2P Require Import Messaging.
From S2P Require Import Keys.
From S2P Require Import DeliveryTracking.
From S2P Require Import Timestamps.
From S2P Require Import Gateway.
From S2P Require Import Stores.
From S2P Require Import Products.
From S2P Require Import ProductProps.
From S2P Require Import Admin.
From S2P Require Import Push.
From S2P Require Import Upload.
From S2P Require Import Schemas.
From S2P Require Import Api.
From S2P Require Import Routes.
#[local] Open Scope list_scope.

(** ** Tables by name *)

Inductive TableName :=
| t_users | t_sellers | t_stores | t_products | t_product_images | t_orders | t_order_items
| t_deliveries | t_driver_assignments | t_snapshots | t_platform_settings | t_invite_links
| t_referrals | t_refresh_tokens | t_prefs | t_conversations | t_messages | t_public_keys
| t_tracking_points | t_order_messages | t_delivery_codes | t_attempts | t_devices | t_rollups.
#[export] Instance TableName_eq_dec : EqDecision TableName.
Proof. solve_decision. Defined.

Definition same_rows (t : TableName) (d d' : DB) : Prop :=
  match t with
  | t_users => users d' = users d
  | t_sellers => sellers d' = sellers d
  | t_stores => stores d' = stores d
  | t_products => products d' = products d
  | t_product_images => product_images d' = product_images d
  | t_orders => orders d' = orders d
  | t_order_items => order_items d' = order_items d
  | t_deliveries => deliveries d' = deliveries d
  | t_driver_assignments => driver_assignments d' = driver_assignments d
  | t_snapshots => order_analytics_snapshots d' = order_analytics_snapshots d
  | t_platform_settings => platform_settings d' = platform_settings d
  | t_invite_links => invite_links d' = invite_links d
  | t_referrals => referrals d' = referrals d
  | t_refresh_tokens => refresh_tokens d' = refresh_tokens d
  | t_prefs => user_notification_prefs d' = user_notification_prefs d
  | t_conversations => conversations d' = conversations d
  | t_messages => messages d' = messages d
  | t_public_keys => user_public_keys d' = user_public_keys d
  | t_tracking_points => order_tracking_points d' = order_tracking_points d
  | t_order_messages => order_messages d' = order_messages d
  | t_delivery_codes => delivery_codes d' = delivery_codes d
  | t_attempts => delivery_code_attempts d' = delivery_code_attempts d
  | t_devices => user_devices d' = user_devices d
  | t_rollups => seller_sales_rollups d' = seller_sales_rollups d
  end.

(** The databases agree outside the tables [ts]. *)
Definition agree_outside (ts : list TableName) (d d' : DB) : Prop :=
  ∀ t, t ∉ ts → same_rows t d d'.

Lemma agree_refl ts d : agree_outside ts d d.
Proof. by intros []. Qed.
Lemma agree_trans ts d1 d2 d3 :
  agree_outside ts d1 d2 → agree_outside ts d2 d3 → agree_outside ts d1 d3.
Proof.
  intros H1 H2 t Ht. specialize (H1 t Ht). specialize (H2 t Ht).
  destruct t; cbn in *; congruence.
Qed.
Lemma agree_weaken ts ts' d d' : ts ⊆ ts' → agree_outside ts d d' → agree_outside ts' d d'.
Proof. intros Hs H t Ht. apply H. set_solver. Qed.

(** The table of a row type. *)
Class Named (R : Type) `{Table R} := {
  name_of : TableName;
  named_frame t (f : gmap uuid R → gmap uuid R) d : t ≠ name_of → same_rows t d (on_table f d);
}.
Arguments name_of R {_ _}.

Ltac named := intros [] ? ?; cbn; done.
#[export, refine] Instance named_users : Named User := {| name_of := t_users |}.
Proof. named. Defined.
#[export, refine] Instance named_sellers : Named Seller := {| name_of := t_sellers |}.
Proof. named. Defined.
#[export, refine] Instance named_stores : Named Store := {| name_of := t_stores |}.
Proof. named. Defined.
#[export, refine] Instance named_products : Named Product := {| name_of := t_products |}.
Proof. named. Defined.
#[export, refine] Instance named_images : Named ProductImage := {| name_of := t_product_images |}.
Proof. named. Defined.
#[export, refine] Instance named_orders : Named Order := {| name_of := t_orders |}.
Proof. named. Defined.
#[export, refine] Instance named_items : Named OrderItem := {| name_of := t_order_items |}.
Proof. named. Defined.
#[export, refine] Instance named_deliveries : Named Delivery := {| name_of := t_deliveries |}.
Proof. named. Defined.
#[export, refine] Instance named_assignments : Named DriverAssignment :=
  {| name_of := t_driver_assignments |}.
Proof. named. Defined.
#[export, refine] Instance named_snapshots : Named OrderAnalyticsSnapshot :=
  {| name_of := t_snapshots |}.
Proof. named. Defined.
#[export, refine] Instance named_settings : Named PlatformSettings :=
  {| name_of := t_platform_settings |}.
Proof. named. Defined.
#[export, refine] Instance named_invites : Named InviteLink := {| name_of := t_invite_links |}.
Proof. named. Defined.
#[export, refine] Instance named_referrals : Named Referral := {| name_of := t_referrals |}.
Proof. named. Defined.
#[export, refine] Instance named_tokens : Named RefreshToken := {| name_of := t_refresh_tokens |}.
Proof. named. Defined.
#[export, refine] Instance named_prefs : Named UserNotificationPrefs := {| name_of := t_prefs |}.
Proof. named. Defined.
#[export, refine] Instance named_conversations : Named Conversation :=
  {| name_of := t_conversations |}.
Proof. named. Defined.
#[export, refine] Instance named_messages : Named Message := {| name_of := t_messages |}.
Proof. named. Defined.
#[export, refine] Instance named_keys : Named UserPublicKey := {| name_of := t_public_keys |}.
Proof. named. Defined.
#[export, refine] Instance named_points : Named OrderTrackingPoint :=
  {| name_of := t_tracking_points |}.
Proof. named. Defined.
#[export, refine] Instance named_order_messages : Named OrderMessage :=
  {| name_of := t_order_messages |}.
Proof. named. Defined.
#[export, refine] Instance named_codes : Named DeliveryCode := {| name_of := t_delivery_codes |}.
Proof. named. Defined.
#[export, refine] Instance named_attempts : Named DeliveryCodeAttempt :=
  {| name_of := t_attempts |}.
Proof. named. Defined.
#[export, refine] Instance named_devices : Named UserDevice := {| name_of := t_devices |}.
Proof. named. Defined.
#[export, refine] Instance named_rollups : Named SellerSalesRollup := {| name_of := t_rollups |}.
Proof. named. Defined.

Lemma agree_on_table {R} `{Named R} ts (f : gmap uuid R → gmap uuid R) d :
  name_of R ∈ ts → agree_outside ts d (on_table f d).
Proof. intros Hin t Ht. apply named_frame. congruence. Qed.

(** ** The relation of a program that writes the tables [ts] only

    Both databases of the session, after commits and rollbacks, agree with one
    of the two it started from. *)
Definition writes_only (ts : list TableName) : relation Session := λ s s',
  (agree_outside ts (working s) (working s') ∨ agree_outside ts (committed s) (working s')) ∧
  (agree_outside ts (working s) (committed s') ∨ agree_outside ts (committed s) (committed s')).
#[export] Instance writes_only_rel ts : SessionRel (writes_only ts).
Proof.
  split; [split|].
  - intros s. split; [left|right]; apply agree_refl.
  - intros s1 s2 s3 [Hw Hc] [Hw' Hc'].
    split; [destruct Hw' as [H|H]|destruct Hc' as [H|H]];
      first [ destruct Hw; eauto using agree_trans; fail
            | destruct Hc; eauto using agree_trans ].
  - intros s s' Hc Hw. unfold writes_only. rewrite Hc, Hw. split; [left|right]; apply agree_refl.
Qed.

Lemma writes_put {R} `{Named R} ts (f : gmap uuid R → gmap uuid R) s :
  name_of R ∈ ts → writes_only ts s (s <| working ::= on_table f |>).
Proof. intros Hin. split; [left; by apply agree_on_table|right; apply agree_refl]. Qed.
Lemma writes_commit ts : stable (writes_only ts) commit.
Proof.
  intros env s o s' E. injection E as <- <-. split; left; apply agree_refl.
Qed.
Lemma writes_rollback ts : stable (writes_only ts) rollback.
Proof.
  intros env s o s' E. injection E as <- <-. split; right; apply agree_refl.
Qed.
#[export] Hint Extern 2 (writes_only _ _ _) =>
  eapply writes_put; repeat constructor : stable.
#[export] Hint Resolve writes_commit writes_rollback : stable.

(** ** The footprint of each endpoint *)

Definition order_tables : list TableName :=
  [t_orders; t_order_items; t_deliveries; t_driver_assignments; t_tracking_points;
   t_order_messages; t_delivery_codes; t_attempts].

Definition panel_footprint (call : AdminCall) : list TableName :=
  match call with
  | SuspendUser _ _ | UnsuspendUser _ => [t_users]
  | IssueInvite _ _ _ => [t_invite_links]
  | DisableProduct _ _ | RestoreProduct _ => [t_products]
  | OpsGetRetention | OpsSetRetention _ => [t_platform_settings]
  | OpsRunPurge => [t_platform_settings; t_messages]
  | _ => []
  end.

Definition public_footprint (r : PublicRequest) : list TableName :=
  match r with
  | PostSignup _ => [t_users; t_invite_links; t_referrals; t_refresh_tokens]
  | PostLogin _ => [t_users; t_refresh_tokens]
  | PostRefresh _ => [t_refresh_tokens]
  | GetInvitesValidate _ => []
  end.

Definition footprint (r : MemberRequest) : list TableName :=
  match r with
  | PostLogout _ | PostLogoutAll => [t_refresh_tokens]
  | PatchMe _ => [t_users]
  | PostMePassword _ => [t_users]
  | GetMeNotifications | PatchMeNotifications _ => [t_prefs]
  | PostAdminInvite _ | PostSellerReferral | PostSellerReferralRegenerate
  | DeleteInvite _ => [t_invite_links]
  | PostStore _ | PatchMyStore _ => [t_sellers; t_stores]
  | PostProduct _ | PatchProduct _ _ => [t_products; t_product_images]
  | DeleteProduct _ => [t_products]
  | PostOrder _ => [t_products; t_orders; t_order_items]
  | PostOrderAccept _ | PostOrderPreparing _ => [t_orders]
  | PostOrderSelfDeliver _ => [t_deliveries]
  | PostOrderRequestDriver _ => [t_driver_assignments]
  | PostOrderOutForDelivery _ | PostOrderDelivered _ => [t_orders; t_deliveries]
  | PostOrderComplete _ => [t_orders; t_snapshots]
  | PostOrderCancel _ _ => [t_orders; t_driver_assignments]
  | DeleteOrderRequest _ | PostPurgeOrders => t_snapshots :: t_platform_settings :: order_tables
  | PostAssignDriver _ _ => [t_deliveries; t_driver_assignments]
  | GetRetention | PatchRetention _ | GetMessageRetention | PatchMessageRetention _ =>
      [t_platform_settings]
  | PostPurgeMessages => [t_platform_settings; t_messages]
  | PostDeliveryLocation _ _ | PatchAdminDelivery _ _ => [t_deliveries]
  | PostDriverAccept _ => [t_orders; t_deliveries; t_delivery_codes]
  | PostDriverLocation _ _ => [t_deliveries; t_tracking_points]
  | PostDriverComplete _ _ => [t_orders; t_order_messages; t_delivery_codes; t_attempts]
  | PostChat _ _ => [t_order_messages]
  | PostKey _ | DeleteKey _ => [t_public_keys]
  | PostConversation _ => [t_conversations]
  | PostMessage _ _ => [t_conversations; t_messages]
  | PostMessageRead _ _ => [t_messages]
  | Panel call => panel_footprint call
  | PostDevice _ => [t_devices]
  | _ => []
  end.

(** ** The proof *)

Lemma load_all_stable Rel `{!SessionRel Rel} os : stable Rel (load_all os).
Proof. induction os; cbn; stable_deep. Qed.
Lemma render_all_stable Rel `{!SessionRel Rel} caller los : stable Rel (render_all caller los).
Proof. induction los; cbn; stable_deep. Qed.
Lemma load_items_stable Rel `{!SessionRel Rel} ps : stable Rel (load_items ps).
Proof. induction ps; cbn; stable_deep. Qed.
Lemma conversation_responses_stable Rel `{!SessionRel Rel} caller cs :
  stable Rel (conversation_responses caller cs).
Proof. induction cs; cbn; stable_deep. Qed.
#[export] Hint Resolve load_all_stable render_all_stable load_items_stable
  conversation_responses_stable decode_with_stable : stable.

Lemma stable_except_value_error Rel `{!SessionRel Rel} {A} (m h : M A) :
  stable Rel m → stable Rel h → stable Rel (except_value_error m h).
Proof.
  intros Hm Hh env s o s'. unfold except_value_error.
  destruct (m env s) as [[a|[|[]]] s1] eqn:E; intros Hr;
    try (injection Hr as <- <-; by eapply Hm).
  etrans; [by eapply Hm|by eapply Hh].
Qed.

Ltac stable_api :=
  repeat first
    [ stable_step
    | match goal with
      | |- stable _ (except_value_error _ _) => apply stable_except_value_error; [apply _| |]
      | |- stable _ (add_images _ _) => apply add_images_stable; [apply _|]
      end
    | stable_deep_step ].

(** Nothing at all happens to either database. *)
Definition reads_only : relation Session := λ s s',
  committed s' = committed s ∧ working s' = working s.
#[export] Instance reads_only_rel : SessionRel reads_only.
Proof. split; [split|]; [done|intros ??? [] []; split; congruence|by intros]. Qed.

Section footprints.
Context `{Crypto, EmailStr, Libm, FromIso, Storage} (settings : Settings).

Lemma authorize_reads credentials r : stable reads_only (authorize settings credentials r).
Proof. unfold authorize. stable_api. Qed.

Lemma public_writes r :
  stable (writes_only (public_footprint r)) (public_handler settings r).
Proof. destruct r; unfold_routes; cbn [public_footprint]; stable_api. Qed.

Lemma member_writes caller r :
  stable (writes_only (footprint r)) (handler settings caller r).
Proof. destruct r; unfold_routes; unfold footprint; stable_api. Qed.

Lemma get_db_writes {A} (m : M A) ts env d out d' :
  stable (writes_only ts) m → get_db m env d = (out, d') → agree_outside ts d d'.
Proof.
  unfold get_db. intros Hm. destruct (m env (open_session d)) as [[a|e] s'] eqn:E;
    intros [= <- <-]; apply Hm in E as [[] []]; done.
Qed.

(** A request of a member: the dependency fails and nothing happens, or the
    handler runs on the same database. *)
Lemma serve_member credentials r env d :
  (∃ e s, authorize settings credentials r env (open_session d) = (Raised e, s) ∧
     serve settings (AsMember credentials r) env d = (Raised e, d)) ∨
  (∃ caller s, authorize settings credentials r env (open_session d) = (Ok caller, s) ∧
     serve settings (AsMember credentials r) env d =
       get_db (handler settings caller r) (continue_env env s) d).
Proof.
  cbn. destruct (authorize settings credentials r env (open_session d)) as [[u|e] s] eqn:E;
    apply authorize_reads in E as Hr; destruct Hr as [Hc Hw]; cbn in Hc, Hw.
  - right. exists u, s. by rewrite Hw.
  - left. exists e, s. by rewrite Hc.
Qed.
End footprints.

Definition request_footprint (r : Request) : list TableName :=
  match r with AsPublic p => public_footprint p | AsMember _ m => footprint m end.

Section serve.
Context `{Crypto, EmailStr, Libm, FromIso, Storage} (settings : Settings).

Lemma serve_agrees r env d out d' :
  serve settings r env d = (out, d') → agree_outside (request_footprint r) d d'.
Proof.
  intros Hs. destruct r as [p|credentials m].
  - eapply get_db_writes; [apply public_writes|done].
  - destruct (serve_member settings credentials m env d)
      as [(e & s & _ & E)|(caller & s & _ & E)]; rewrite E in Hs.
    + injection Hs as _ <-. apply agree_refl.
    + eapply get_db_writes; [apply member_writes|done].
Qed.

(** An endpoint with an empty footprint changes nothing. *)
Lemma agree_everywhere d d' : agree_outside [] d d' → d' = d.
Proof.
  intros Ha. assert (∀ t, same_rows t d d') as Hs by (intros t; apply Ha, not_elem_of_nil).
  destruct d, d'. pose proof (Hs t_users); pose proof (Hs t_sellers); pose proof (Hs t_stores);
    pose proof (Hs t_products); pose proof (Hs t_product_images); pose proof (Hs t_orders);
    pose proof (Hs t_order_items); pose proof (Hs t_deliveries);
    pose proof (Hs t_driver_assignments); pose proof (Hs t_snapshots);
    pose proof (Hs t_platform_settings); pose proof (Hs t_invite_links);
    pose proof (Hs t_referrals); pose proof (Hs t_refresh_tokens); pose proof (Hs t_prefs);
    pose proof (Hs t_conversations); pose proof (Hs t_messages); pose proof (Hs t_public_keys);
    pose proof (Hs t_tracking_points); pose proof (Hs t_order_messages);
    pose proof (Hs t_delivery_codes); pose proof (Hs t_attempts); pose proof (Hs t_devices);
    pose proof (Hs t_rollups). cbn in *. by subst.
Qed.
End serve.

(** Whoever sends a request, whatever its arguments and its outcome, and
    also when it fails half-way after a commit, the tables outside the
    footprint of its endpoint are exactly as they were; an endpoint with an
    empty footprint leaves the whole database as it was. *)
Theorem requests_write_their_footprint
    `{Crypto, EmailStr, Libm, FromIso, Storage} settings r env d out d' :
  serve settings r env d = (out, d') →
  (∀ t, t ∉ request_footprint r → same_rows t d d') ∧
  (request_footprint r = [] → d' = d).
Proof.
  intros Hs. pose proof (serve_agrees settings r env d out d' Hs) as Ha. split; [exact Ha|].
  intros E. rewrite E in Ha. by apply agree_everywhere.
Qed.
