(* ===== verification/WellFormed.v ===== *)
(** * Well-formed databases

    The type invariant of the whole store: every row of every table lies under
    its own primary key, satisfies the ranges and CHECK constraints of its
    columns, and clashes with no other row on a unique key.  Every request keeps
    it, as it only writes through the checks of the session. *)

From S2P Require Import Prelude.
From S2P Require Import Exceptions.
From S2P Require Import Models.
From S2P Require Import Session.
From S2P Require Import SessionFacts.
From S2P Require Import Security.
From S2P Require Import Invites.
From S2P Require Import Auth.
From S2P Require Import PyFloat.
From S2P Require Import DeliveryFlow.
From S2P Require Import Timestamps.
From S2P Require Import OrderMachine.
From S2P Require Import ProductProps.
From S2P Require Import Upload.
From S2P Require Import Schemas.
From S2P Require Import Api.
From S2P Require Import Routes.
From S2P Require Import Footprints.

Section well_formed_table.
Context (R : Type) `{Table R}.

Definition well_formed_table (d : DB) : Prop :=
  keyed (R:=R) d ∧ valid_rows R d ∧ unique_rows (R:=R) d.
End well_formed_table.

Definition well_formed_rows (t : TableName) (d : DB) : Prop :=
  match t with
  | t_users => well_formed_table User d
  | t_sellers => well_formed_table Seller d
  | t_stores => well_formed_table Store d
  | t_products => well_formed_table Product d
  | t_product_images => well_formed_table ProductImage d
  | t_orders => well_formed_table Order d
  | t_order_items => well_formed_table OrderItem d
  | t_deliveries => well_formed_table Delivery d
  | t_driver_assignments => well_formed_table DriverAssignment d
  | t_snapshots => well_formed_table OrderAnalyticsSnapshot d
  | t_platform_settings => well_formed_table PlatformSettings d
  | t_invite_links => well_formed_table InviteLink d
  | t_referrals => well_formed_table Referral d
  | t_refresh_tokens => well_formed_table RefreshToken d
  | t_prefs => well_formed_table UserNotificationPrefs d
  | t_conversations => well_formed_table Conversation d
  | t_messages => well_formed_table Message d
  | t_public_keys => well_formed_table UserPublicKey d
  | t_tracking_points => well_formed_table OrderTrackingPoint d
  | t_order_messages => well_formed_table OrderMessage d
  | t_delivery_codes => well_formed_table DeliveryCode d
  | t_attempts => well_formed_table DeliveryCodeAttempt d
  | t_devices => well_formed_table UserDevice d
  | t_rollups => well_formed_table SellerSalesRollup d
  end.

Definition well_formed (d : DB) : Prop := ∀ t, well_formed_rows t d.

Lemma well_formed_same t d d' : same_rows t d d' → well_formed_rows t d → well_formed_rows t d'.
Proof.
  destruct t; cbn; unfold well_formed_table, keyed, valid_rows, unique_rows; cbn; intros E; by rewrite E.
Qed.

(** A row type whose rows [well_formed] speaks of, with a symmetric clash. *)
Class Checked (R : Type) `{Named R} := {
  checked_rows d : well_formed_rows (name_of R) d ↔ well_formed_table R d;
  checked_sym (a b : R) : conflicts a b → conflicts b a;
}.
Ltac checked := split; [done|cbn; unfold citext_eq; naive_solver].
#[export] Instance checked_users : Checked User. Proof. checked. Qed.
#[export] Instance checked_sellers : Checked Seller. Proof. checked. Qed.
#[export] Instance checked_stores : Checked Store. Proof. checked. Qed.
#[export] Instance checked_products : Checked Product. Proof. checked. Qed.
#[export] Instance checked_images : Checked ProductImage. Proof. checked. Qed.
#[export] Instance checked_orders : Checked Order. Proof. checked. Qed.
#[export] Instance checked_items : Checked OrderItem. Proof. checked. Qed.
#[export] Instance checked_deliveries : Checked Delivery. Proof. checked. Qed.
#[export] Instance checked_assignments : Checked DriverAssignment. Proof. checked. Qed.
#[export] Instance checked_snapshots : Checked OrderAnalyticsSnapshot. Proof. checked. Qed.
#[export] Instance checked_settings : Checked PlatformSettings. Proof. checked. Qed.
#[export] Instance checked_invites : Checked InviteLink. Proof. checked. Qed.
#[export] Instance checked_referrals : Checked Referral. Proof. checked. Qed.
#[export] Instance checked_tokens : Checked RefreshToken. Proof. checked. Qed.
#[export] Instance checked_prefs : Checked UserNotificationPrefs. Proof. checked. Qed.
#[export] Instance checked_conversations : Checked Conversation. Proof. checked. Qed.
#[export] Instance checked_messages : Checked Message. Proof. checked. Qed.
#[export] Instance checked_keys : Checked UserPublicKey. Proof. checked. Qed.
#[export] Instance checked_points : Checked OrderTrackingPoint. Proof. checked. Qed.
#[export] Instance checked_order_messages : Checked OrderMessage. Proof. checked. Qed.
#[export] Instance checked_codes : Checked DeliveryCode. Proof. checked. Qed.
#[export] Instance checked_attempts : Checked DeliveryCodeAttempt. Proof. checked. Qed.
#[export] Instance checked_devices : Checked UserDevice. Proof. checked. Qed.
#[export] Instance checked_rollups : Checked SellerSalesRollup. Proof. checked. Qed.

(** A change of one table keeps the database well-formed when that table stays
    so. *)
Lemma well_formed_on_table {R} `{Checked R} (f : gmap uuid R → gmap uuid R) d :
  well_formed d → (well_formed_table R d → well_formed_table R (on_table f d)) →
  well_formed (on_table f d).
Proof.
  intros Hw Hf t. destruct (decide (t = name_of R)) as [->|Hne].
  - apply checked_rows, Hf, checked_rows, Hw.
  - eapply well_formed_same; [by apply named_frame|apply Hw].
Qed.

Section writes.
Context {R : Type} `{Checked R}.

Lemma write_well_formed (r : R) d :
  column_error r = None → ¬ has_conflict r (table d) → well_formed d →
  well_formed (on_table (<[pk r := r]>) d).
Proof.
  intros Hc Hn Hw. apply well_formed_on_table; [done|]. intros (Hk & Hv & Hu). split_and!.
  - intros k r'. rewrite table_on_table, lookup_insert_Some.
    intros [[<- <-]|[_ Hr]]; [done|by apply Hk].
  - unfold valid_rows. rewrite table_on_table. by apply map_Forall_insert_2.
  - by apply write_unique; [apply checked_sym|..].
Qed.

Lemma delete_well_formed (P : R → Prop) `{∀ r, Decision (P r)} d :
  well_formed d → well_formed (on_table (R:=R) (filter (λ kr, ¬ P kr.2)) d).
Proof.
  intros Hw. apply well_formed_on_table; [done|]. intros (Hk & Hv & Hu). split_and!.
  - intros k r. rewrite table_on_table, map_lookup_filter_Some. intros [? _]. by apply Hk.
  - intros k r. rewrite table_on_table, map_lookup_filter_Some. intros [? _]. by eapply Hv.
  - intros k1 k2 r1 r2. rewrite table_on_table, !map_lookup_filter_Some.
    intros [? _] [? _]. by eapply Hu.
Qed.

(** An update that changes neither keys, constraints nor clashes. *)
Definition harmless (f : R → R) : Prop :=
  (∀ r, pk (f r) = pk r) ∧ (∀ r, column_error r = None → column_error (f r) = None) ∧
  ∀ a b a' b', (a' = a ∨ a' = f a) → (b' = b ∨ b' = f b) → conflicts a' b' → conflicts a b.

Lemma update_well_formed (P : R → Prop) `{∀ r, Decision (P r)} (f : R → R) d :
  harmless f → well_formed d →
  well_formed (on_table (fmap (λ r, if decide (P r) then f r else r)) d).
Proof.
  intros (Hpk & Hce & Hcf) Hw. apply well_formed_on_table; [done|]. intros (Hk & Hv & Hu). split_and!.
  - intros k r. rewrite table_on_table, lookup_fmap. intros (r0 & Hr & ->)%fmap_Some_1.
    apply Hk in Hr. case_decide; [by rewrite Hpk|done].
  - intros k r. rewrite table_on_table, lookup_fmap. intros (r0 & Hr & ->)%fmap_Some_1.
    apply Hv in Hr. case_decide; [by apply Hce|done].
  - intros k1 k2 r1 r2. rewrite table_on_table, !lookup_fmap.
    intros (a & Ha & ->)%fmap_Some_1 (b & Hb & ->)%fmap_Some_1 Hne Hc.
    apply (Hu k1 k2 a b Ha Hb Hne). eapply (Hcf a b); [| |exact Hc]; repeat case_decide; auto.
Qed.
End writes.

(** ** The relation of a program that keeps its databases well-formed *)

Definition keeps_well_formed : relation Session := λ s s',
  well_formed (working s) → well_formed (committed s) →
  well_formed (working s') ∧ well_formed (committed s').
#[export] Instance keeps_well_formed_rel : SessionRel keeps_well_formed.
Proof.
  split; [split|].
  - by intros s Hw Hc.
  - intros s1 s2 s3 H12 H23 Hw Hc. destruct (H12 Hw Hc). auto.
  - intros s s' Ec Ew Hw Hc. by rewrite <- Ec, <- Ew.
Qed.

Section stable_writes.
Context {R : Type} `{Checked R}.

Lemma write_keeps stored (r : R) : stable keeps_well_formed (write_row stored r).
Proof.
  intros env s [u|e] s' E Hw Hc; [|by apply write_row_raised in E as ->].
  apply write_row_Ok in E as [(Hce & Hcf & ->) _]. split; [|done]. by apply write_well_formed.
Qed.
Lemma save_keeps (r : R) : stable keeps_well_formed (save r).
Proof. apply stable_bind; [apply _|apply stable_get_row, _|intros o]. apply write_keeps. Qed.
Lemma insert_keeps (r : R) : stable keeps_well_formed (insert_row r).
Proof.
  unfold insert_row. apply stable_bind; [apply _|apply stable_get_row, _|intros o].
  apply stable_bind; [apply _|apply stable_raise_if, _|intros _]. apply write_keeps.
Qed.
Lemma delete_keeps (P : R → Prop) `{∀ r, Decision (P r)} :
  stable keeps_well_formed (delete_where P).
Proof.
  apply stable_delete_where, stable_put_db. intros s Hw Hc. split; [|done].
  by apply delete_well_formed.
Qed.
Lemma update_keeps (P : R → Prop) `{∀ r, Decision (P r)} f :
  harmless f → stable keeps_well_formed (update_where P f).
Proof.
  intros Hf. apply stable_update_where, stable_put_db. intros s Hw Hc. split; [|done].
  by apply update_well_formed.
Qed.
End stable_writes.
Lemma commit_keeps : stable keeps_well_formed commit.
Proof. intros env s o s' E. injection E as <- <-. by intros Hw Hc. Qed.
Lemma rollback_keeps : stable keeps_well_formed rollback.
Proof. intros env s o s' E. injection E as <- <-. by intros Hw Hc. Qed.
#[export] Hint Resolve commit_keeps rollback_keeps : stable.
#[export] Hint Extern 1 (stable keeps_well_formed (save _)) => apply save_keeps : stable.
#[export] Hint Extern 1 (stable keeps_well_formed (insert_row _)) => apply insert_keeps : stable.
#[export] Hint Extern 1 (stable keeps_well_formed (delete_where _)) => apply delete_keeps : stable.
#[export] Hint Extern 1 (stable keeps_well_formed (update_where _ _)) =>
  apply update_keeps; unfold harmless; cbn; naive_solver : stable.

Section requests.
Context `{Crypto, EmailStr, Libm, FromIso, Storage} (settings : Settings).

Lemma public_keeps r : stable keeps_well_formed (public_handler settings r).
Proof. destruct r; unfold_routes; stable_api. Qed.

Lemma member_keeps caller r : stable keeps_well_formed (handler settings caller r).
Proof. destruct r; unfold_routes; stable_api. Qed.

Lemma get_db_keeps {A} (m : M A) env d out d' :
  stable keeps_well_formed m → get_db m env d = (out, d') → well_formed d → well_formed d'.
Proof.
  unfold get_db. intros Hm. destruct (m env (open_session d)) as [[a|e] s'] eqn:E;
    intros [= <- <-] Hw; by apply Hm in E as [].
Qed.

Lemma serve_keeps r env d out d' :
  serve settings r env d = (out, d') → well_formed d → well_formed d'.
Proof.
  intros Hs Hw. destruct r as [p|credentials m].
  - by eapply get_db_keeps; [apply public_keeps|..].
  - destruct (serve_member settings credentials m env d)
      as [(e & s & _ & E)|(caller & s & _ & E)]; rewrite E in Hs.
    + by injection Hs as _ <-.
    + by eapply get_db_keeps; [apply member_keeps|..].
Qed.
End requests.

(** Hypotheses about a concrete database are decided by evaluation. *)
Lemma well_formed_eval {R} `{Table R} (d : DB) :
  bool_decide (map_Forall (λ k r, pk r = k ∧ column_error r = None ∧
    map_Forall (λ k' r', k' = k ∨ ¬ conflicts r r') (table d)) (table (R:=R) d)) = true →
  well_formed_table R d.
Proof.
  intros Hb. apply bool_decide_eq_true in Hb. split_and!.
  - intros k r Hr. by apply (Hb k r).
  - intros k r Hr. by apply (Hb k r).
  - intros k1 k2 r1 r2 Hr1 Hr2 Hne Hc. destruct (Hb k1 r1 Hr1) as (_ & _ & Hu).
    by destruct (Hu k2 r2 Hr2).
Qed.
Ltac well_formed_eval :=
  intros []; apply well_formed_eval; vm_compute; reflexivity.
