(* ===== verification/Access.v ===== *)
(** * Who is served

    The caller of a request behind a token, and what a refused request does. *)

From S2P Require Import Prelude.
From S2P Require Import Exceptions.
From S2P Require Import Models.
From S2P Require Import Session.
From S2P Require Import SessionFacts.
From S2P Require Import CryptoModel.
From S2P Require Import Security.
From S2P Require Import Fixtures.
From S2P Require Import Invites.
From S2P Require Import Auth.
From S2P Require Import AccountProps.
From S2P Require Import PyFloat.
From S2P Require Import DeliveryFlow.
From S2P Require Import ProductProps.
From S2P Require Import Timestamps.
From S2P Require Import GatewayProps.
From S2P Require Import UploadProps.
From S2P Require Import Admin.
From S2P Require Import Upload.
From S2P Require Import Schemas.
From S2P Require Import Api.
From S2P Require Import Routes.
From S2P Require Import Footprints.
From S2P Require Import WellFormed.
#[local] Open Scope Z_scope.

(** An account in good standing. *)
Definition in_good_standing (u : User) : Prop :=
  u_deleted_at u = None ∧ u_is_active u = true ∧ u_disabled_at u = None ∧
  u_status u ≠ user_suspended.

(** An unexpired token, signed with one of the configured keys, that names the
    account [uid]. *)
Definition token_names `{Crypto} (settings : Settings) (env : Env) (token : string) (uid : uuid) :
    Prop :=
  ∃ key n c, key ∈ jwt_verification_keys settings ∧
    jwt_decode token key (clock env n) = JwtOk c ∧ raw_sub c = Some uid.

(** The 401 and 403 of the dependencies. *)
Definition refused (e : exc) : Prop := er_status (error_envelope e) ∈ [401; 403].

Section access.
Context `{Crypto, EmailStr, Libm, FromIso, Storage} (settings : Settings).

Lemma current_user_Ok env d creds u s :
  get_current_user settings creds env (open_session d) = (Ok u, s) →
  ∃ token k, creds = Some token ∧ users d !! k = Some u ∧ in_good_standing u ∧
    token_names settings env token (u_id u).
Proof.
  intros Hr. destruct creds as [token|]; [|discriminate].
  assert (get_db (get_current_user settings (Some token)) env d = (Ok u, working s)) as Hdb.
  { apply get_db_Ok. by exists s. }
  apply request_callers_are_entitled in Hdb as ([k Hk] & Hd & Ha & Hdis & Hs & Ht).
  exists token, k. by split_and!.
Qed.

Lemma authorize_Ok env d creds r u s :
  authorize settings creds r env (open_session d) = (Ok u, s) →
  ∃ token k, creds = Some token ∧ users d !! k = Some u ∧ in_good_standing u ∧
    token_names settings env token (u_id u) ∧
    ∀ roles, required_roles r = Some roles → u_role u ∈ roles.
Proof.
  unfold authorize, require_roles. intros Hr.
  destruct (required_roles r) as [roles|].
  - apply bind_Ok in Hr as (u' & s1 & Hu & Hr).
    apply bind_Ok in Hr as (? & ? & Hin & Hr). apply raise_if_Ok in Hin as [Hin ->].
    apply dec_stable in Hin. apply ret_Ok in Hr as [-> ->].
    apply current_user_Ok in Hu as (token & k & ? & ? & ? & ?).
    exists token, k. split_and!; try done. by intros ? [= <-].
  - apply current_user_Ok in Hr as (token & k & ? & ? & ? & ?). by exists token, k.
Qed.

Lemma decode_with_raised env keys token s e s' :
  decode_with keys token env s = (Raised e, s') → e = TokenExpired.
Proof.
  revert s. induction keys as [|key keys IH]; cbn; intros s Hr; [discriminate|].
  unfold mbind, M_bind in Hr. cbn in Hr.
  destruct (jwt_decode token key _); [discriminate|by injection Hr as <- _|by eapply IH].
Qed.

Lemma decode_raised env token s e s' :
  decode_access_token settings token env s = (Raised e, s') → refused e.
Proof.
  unfold decode_access_token, mbind, M_bind. intros Hr.
  destruct (decode_with _ token env s) as [[[c|]|e1] s1] eqn:E.
  - destruct (raw_sub c), (raw_role c), (raw_jti c), (raw_exp c), (raw_iat c);
      try discriminate Hr; injection Hr as <- _; vm_compute; by left.
  - injection Hr as <- _. by left.
  - injection Hr as <- <-. apply decode_with_raised in E as ->. by left.
Qed.

Lemma current_user_raised env d creds e s :
  keyed (R:=User) d →
  get_current_user settings creds env (open_session d) = (Raised e, s) → refused e.
Proof.
  intros Hk. unfold get_current_user. destruct creds as [token|].
  2: { intros [= <- _]. by left. }
  intros Hr. destruct (decode_access_token settings token env (open_session d))
    as [[p|e1] s1] eqn:E.
  2: { unfold mbind, M_bind in Hr. rewrite E in Hr. injection Hr as <- _.
       by eapply decode_raised. }
  apply decode_sound in E as Hw. destruct Hw as [Hw _].
  rewrite (bind_run _ _ _ _ _ _ E), (bind_run _ _ _ _ _ _ (select_one_eq _ _ _)), Hw in Hr.
  destruct (one_of_unique (table (R:=User) d) (λ u, u_id u = at_sub p ∧ u_deleted_at u = None))
    as [(k & u & _ & _ & Hf)|[_ Hf]].
  { intros k1 k2 x y Hx Hy [E1 _] [E2 _]. apply Hk in Hx, Hy. cbn in Hx, Hy. congruence. }
  - rewrite Hf in Hr. cbn [one_of] in Hr. rewrite !raise_if_run in Hr.
    repeat case_decide; try discriminate Hr; injection Hr as <- _; by left.
  - rewrite Hf in Hr. injection Hr as <- _. by left.
Qed.

Lemma authorize_raised env d creds r e s :
  keyed (R:=User) d →
  authorize settings creds r env (open_session d) = (Raised e, s) → refused e.
Proof.
  intros Hk. unfold authorize, require_roles. destruct (required_roles r) as [roles|];
    [|by eapply current_user_raised].
  unfold mbind at 1, M_bind at 1.
  destruct (get_current_user settings creds env (open_session d)) as [[u|e1] s1] eqn:E.
  - rewrite raise_if_run. case_decide; intros Hr; [|discriminate Hr].
    injection Hr as <- _. right. by left.
  - intros [= <- _]. by eapply current_user_raised.
Qed.
End access.

(** C10: A request behind a token is either refused with 401 or 403 and changes
    nothing, or it is handled for an account that exists, is neither deleted,
    deactivated, disabled nor suspended, is named by an unexpired token under
    one of the configured keys, and has one of the roles of the endpoint, if the
    endpoint asks for any. *)
Theorem only_entitled_callers_are_served
    `{Crypto, EmailStr, Libm, FromIso, Storage} settings creds r env d out d' :
  keyed (R:=User) d →
  serve settings (AsMember creds r) env d = (out, d') →
  (d' = d ∧ ∃ e, out = Raised e ∧ refused e) ∨
  ∃ caller token k env', creds = Some token ∧ users d !! k = Some caller ∧
    in_good_standing caller ∧ token_names settings env token (u_id caller) ∧
    (∀ roles, required_roles r = Some roles → u_role caller ∈ roles) ∧
    get_db (handler settings caller r) env' d = (out, d').
Proof.
  intros Hk Hs. destruct (serve_member settings creds r env d)
    as [(e & s & Ha & E)|(caller & s & Ha & E)]; rewrite E in Hs.
  - injection Hs as <- <-. left. split; [done|]. exists e. split; [done|].
    by eapply authorize_raised.
  - right. apply authorize_Ok in Ha as (token & k & ? & ? & ? & ? & ?).
    by exists caller, token, k, (continue_env env s).
Qed.

(** ** Suspension *)

Definition is_suspended (k : uuid) (d : DB) : Prop :=
  ∃ u, users d !! k = Some u ∧ u_status u = user_suspended.

Definition keeps_suspended (k : uuid) : relation Session := λ s s',
  is_suspended k (working s) → is_suspended k (committed s) →
  is_suspended k (working s') ∧ is_suspended k (committed s').
#[export] Instance keeps_suspended_rel k : SessionRel (keeps_suspended k).
Proof.
  split; [split|].
  - by intros s Hw Hc.
  - intros s1 s2 s3 H12 H23 Hw Hc. destruct (H12 Hw Hc). auto.
  - intros s s' Ec Ew Hw Hc. by rewrite <- Ec, <- Ew.
Qed.

Lemma suspended_save k u s :
  u_id u ≠ k ∨ u_status u = user_suspended →
  keeps_suspended k s (s <| working ::= on_table (<[pk u := u]>) |>).
Proof.
  intros Hu (u0 & Hk & Hs) Hc. split; [|done]. unfold is_suspended. cbn.
  destruct (decide (u_id u = k)) as [E|Hne].
  - exists u. rewrite E, lookup_insert_eq. split; [done|]. by destruct Hu.
  - exists u0. by rewrite lookup_insert_ne.
Qed.
Lemma suspended_insert k (u : User) : stable (keeps_suspended k) (insert_row u).
Proof.
  intros env s o s' E Hw Hc.
  destruct o as [b|e].
  - apply insert_row_Ok in E as (Hnone & _ & _ & ->). refine (suspended_save k u s _ Hw Hc).
    left. intros <-. destruct Hw as (u0 & Hk & _). cbn in Hnone. congruence.
  - by apply insert_raised in E as ->.
Qed.
Lemma suspended_other {R} `{Named R} k (f : gmap uuid R → gmap uuid R) s :
  t_users ≠ name_of R → keeps_suspended k s (s <| working ::= on_table f |>).
Proof.
  intros Hne Hw Hc. split; [|done]. unfold is_suspended. cbn.
  pose proof (named_frame t_users f (working s) Hne) as E. cbn in E. by rewrite E.
Qed.
Lemma suspended_commit k : stable (keeps_suspended k) commit.
Proof. intros env s o s' E. injection E as <- <-. by intros Hw Hc. Qed.
#[export] Hint Resolve suspended_commit suspended_insert : stable.
#[export] Hint Extern 1 (keeps_suspended _ _ _) => eapply suspended_other; discriminate : stable.
#[export] Hint Extern 2 (keeps_suspended _ _ _) =>
  apply suspended_save; cbn; tauto : stable.

(** Writing back an account with its status. *)
Lemma suspended_rewrite k k0 u u' d :
  keyed (R:=User) d → users d !! k0 = Some u → u_id u' = u_id u → u_status u' = u_status u →
  is_suspended k d → is_suspended k (on_table (<[pk u' := u']>) d).
Proof.
  intros Hk Hu Hid Hst (v & Hv & Hs). unfold is_suspended. cbn. rewrite Hid.
  pose proof (Hk _ _ Hu) as E. cbn in E. subst k0.
  destruct (decide (u_id u = k)) as [<-|Hne].
  - rewrite lookup_insert_eq. exists u'. split; [done|]. congruence.
  - rewrite lookup_insert_ne by done. by exists v.
Qed.

(** *** The requests that write accounts *)

Section suspension.
Context `{Crypto, EmailStr, Libm, FromIso, Storage} (settings : Settings).

Lemma answers_run {A} (f : A → Answer) (m : M A) env s :
  answers f m env s =
    match m env s with
    | (Ok a, s1) => (Ok (reply (f a)), s1)
    | (Raised e, s1) => (Raised e, s1)
    end.
Proof. unfold answers, mbind, M_bind. by destruct (m env s) as [[a|e] s1]. Qed.

Lemma answers_get_db {A} (f : A → Answer) (m : M A) env d out d' :
  get_db (answers f m) env d = (out, d') → ∃ o, get_db m env d = (o, d').
Proof.
  unfold get_db. rewrite answers_run. destruct (m env (open_session d)) as [[a|e] s1];
    intros [= _ <-]; by eexists.
Qed.
Lemma done_get_db (m : M unit) env d out d' :
  get_db (done_ m) env d = (out, d') → ∃ o, get_db m env d = (o, d').
Proof.
  unfold get_db, done_, mbind, M_bind. destruct (m env (open_session d)) as [[a|e] s1];
    intros [= _ <-]; by eexists.
Qed.
Lemma except_value_error_get_db {A} (m : M A) e env d out d' :
  get_db (except_value_error m (raise e)) env d = (out, d') → ∃ o, get_db m env d = (o, d').
Proof.
  unfold get_db, except_value_error. destruct (m env (open_session d)) as [[a|[|[]]] s1];
    cbn; intros [= _ <-]; by eexists.
Qed.
Lemma valid_body_get_db {A} ok (m : M A) env d out d' :
  get_db (valid_body ok ;; m) env d = (out, d') → d' = d ∨ get_db m env d = (out, d').
Proof.
  unfold get_db, valid_body. rewrite raise_if_run. case_decide; [|by right].
  intros [= _ <-]. by left.
Qed.
Lemma parsed_body_get_db {A B} (o : option A) (k : A → M B) env d out d' :
  get_db (a ← parsed_body o; k a) env d = (out, d') →
  d' = d ∨ ∃ a, o = Some a ∧ get_db (k a) env d = (out, d').
Proof. destruct o as [a|]; cbn; [right; by exists a|intros [= _ <-]; by left]. Qed.

(** A request whose program leaves the committed database alone when it fails. *)
Lemma atomic_get_db {A} (m : M A) env d out d' :
  atomic m → get_db m env d = (out, d') →
  d' = d ∨ ∃ a s', m env (open_session d) = (Ok a, s') ∧ d' = working s'.
Proof.
  intros Hm Hr. destruct out as [a|e].
  - apply get_db_Ok in Hr as (s' & Hr & ->). right. by exists a, s'.
  - left. by eapply get_db_atomic_last.
Qed.

Lemma login_suspended env d out d' email pw label k :
  keyed (R:=User) d → is_suspended k d →
  get_db (login settings email pw label) env d = (out, d') → is_suspended k d'.
Proof.
  intros Hk Hs Hr. eapply (atomic_get_db (login settings email pw label)) in Hr
    as [->|(r & s' & Hr & ->)]; [done| |].
  2: { unfold login, create_access_token, hash_password, _create_refresh_token_row,
         generate_refresh_token, _build_login_response. atomic_tac. }
  unfold login in Hr. apply bind_Ok in Hr as (o & s1 & Ho & Hr).
  apply select_one_Ok in Ho as [Ho ->]. destruct o as [u|]; [|by inv_run].
  apply selected_Some in Ho as (_ & [k0 Hu] & _). cbn in Hu.
  do 3 (apply bind_Ok in Hr as (? & ? & Hg & Hr); apply raise_if_Ok in Hg as [_ ->]).
  apply bind_Ok in Hr as ([] & s2 & Hre & Hr).
  assert (is_suspended k (working s2)) as Hs2.
  { destruct (needs_rehash (u_password_hash u)); [|by apply ret_Ok in Hre as [_ ->]].
    apply bind_Ok in Hre as (h & s3 & Hh & Hre). apply save_Ok in Hre as (_ & _ & ->).
    unfold hash_password in Hh. inv_run. by refine (suspended_rewrite k k0 u _ d Hk Hu _ _ Hs). }
  assert (users (working s') = users (working s2)) as E.
  { revert Hr. match goal with |- ?m env s2 = _ → _ =>
      assert (stable (same_table User) m) as Hst end.
    { unfold create_access_token, _create_refresh_token_row, generate_refresh_token,
        _build_login_response. stable_tac. }
    intros Hr. by apply Hst in Hr. }
  unfold is_suspended. by rewrite E.
Qed.

Lemma update_me_suspended env d out d' caller n p a k :
  keyed (R:=User) d → is_suspended k d →
  get_db (update_me caller n p a) env d = (out, d') → is_suspended k d'.
Proof.
  intros Hk Hs Hr. eapply (atomic_get_db (update_me caller n p a)) in Hr
    as [->|(r & s' & Hr & ->)]; [done| |].
  2: { unfold update_me. atomic_tac. }
  unfold update_me in Hr. inv_run.
  match goal with E : table _ !! _ = Some ?u |- _ =>
    by refine (suspended_rewrite k (u_id caller) u _ d Hk E _ _ Hs) end.
Qed.

Lemma change_password_suspended env d out d' caller c n k :
  keyed (R:=User) d → is_suspended k d →
  get_db (change_password caller c n) env d = (out, d') → is_suspended k d'.
Proof.
  intros Hk Hs Hr. eapply (atomic_get_db (change_password caller c n)) in Hr
    as [->|(r & s' & Hr & ->)]; [done| |].
  2: { unfold change_password, hash_password. atomic_tac. }
  unfold change_password, hash_password in Hr. inv_run.
  match goal with E : table _ !! _ = Some ?u |- _ =>
    by refine (suspended_rewrite k (u_id caller) u _ d Hk E _ _ Hs) end.
Qed.

Lemma unsuspend_suspended env d out d' uid k :
  keyed (R:=User) d → is_suspended k d → uid ≠ k →
  get_db (unsuspend_user uid) env d = (out, d') → is_suspended k d'.
Proof.
  intros Hk Hs Hne Hr. eapply (atomic_get_db (unsuspend_user uid)) in Hr
    as [->|(r & s' & Hr & ->)]; [done| |].
  2: { unfold unsuspend_user. atomic_tac. }
  unfold unsuspend_user in Hr. apply bind_Ok in Hr as (o & s1 & Ho & Hr).
  apply get_row_Ok in Ho as [-> ->]. destruct (table _ !! uid) as [u|] eqn:E; inv_run.
  destruct Hs as (v & Hv & Hst). pose proof (Hk _ _ E) as Hid. cbn in Hid. subst uid.
  exists v. cbn. by rewrite lookup_insert_ne.
Qed.

Lemma panel_suspended env d out d' caller call k :
  keyed (R:=User) d → is_suspended k d → call ≠ UnsuspendUser k →
  get_db (admin_exec caller call) env d = (out, d') → is_suspended k d'.
Proof.
  intros Hk Hs Hne Hr. destruct (decide (t_users ∈ panel_footprint call)) as [Hin|Hout].
  - apply (bool_decide_eq_true_2 (t_users ∈ panel_footprint call)) in Hin.
    destruct call; try discriminate Hin; unfold_panel in Hr.
    + assert (stable (keeps_suspended k) (suspend_user user_id reason)) as Hst.
      { unfold suspend_user. stable_tac. }
      unfold get_db, mbind, M_bind in Hr.
      destruct (suspend_user user_id reason env (open_session d)) as [[a|e] s1] eqn:E;
        injection Hr as _ <-; by apply Hst in E as [].
    + assert (∃ o, get_db (unsuspend_user user_id) env d = (o, d')) as [o Ho].
      { revert Hr. unfold get_db, mbind at 1, M_bind at 1.
        destruct (unsuspend_user user_id env (open_session d)) as [[a|e] s1];
          intros [= _ <-]; by eexists. }
      eapply unsuspend_suspended; [done..| |done]. congruence.
  - assert (agree_outside (panel_footprint call) d d') as Ha.
    { eapply get_db_writes; [|exact Hr]. destruct call; unfold_panel; unfold panel_footprint; stable_api. }
    unfold is_suspended. specialize (Ha t_users Hout). cbn in Ha. by rewrite Ha.
Qed.

Lemma serve_suspended env d out d' r k :
  keyed (R:=User) d → is_suspended k d →
  (∀ creds, r ≠ AsMember creds (Panel (UnsuspendUser k))) →
  serve settings r env d = (out, d') → is_suspended k d'.
Proof.
  intros Hk Hs Hne Hr. destruct (decide (t_users ∈ request_footprint r)) as [Hin|Hout].
  2: { apply serve_agrees in Hr as Ha. specialize (Ha t_users Hout). cbn in Ha.
       unfold is_suspended. by rewrite Ha. }
  apply (bool_decide_eq_true_2 (t_users ∈ request_footprint r)) in Hin. destruct r as [p|creds m]; cbn [request_footprint] in Hin.
  - destruct p; try discriminate Hin; cbn [serve] in Hr; unfold_routes in Hr.
    + apply parsed_body_get_db in Hr as [->|(b & _ & Hr)]; [done|].
      apply answers_get_db in Hr as [o Hr].
      assert (stable (keeps_suspended k) (signup settings b)) as Hst.
      { unfold signup, signup_on, consume_invite_on, check_invite_role, _is_expired, hash_password,
          create_access_token, _create_refresh_token_row, generate_refresh_token,
          _build_login_response. stable_tac. }
      unfold get_db in Hr. destruct (signup settings b env (open_session d)) as [[a|e] s1] eqn:E;
        injection Hr as _ <-; by apply Hst in E as [].
    + apply parsed_body_get_db in Hr as [->|(b & _ & Hr)]; [done|].
      apply answers_get_db in Hr as [o Hr]. by eapply login_suspended.
  - destruct (serve_member settings creds m env d)
      as [(e & s & _ & E)|(caller & s & _ & E)]; rewrite E in Hr; [by injection Hr as _ <-|].
    destruct m; try discriminate Hin; unfold_routes in Hr.
    + apply valid_body_get_db in Hr as [->|Hr]; [done|].
      apply answers_get_db in Hr as [o Hr]. by eapply update_me_suspended.
    + apply valid_body_get_db in Hr as [->|Hr]; [done|]. apply done_get_db in Hr as [o Hr].
      apply except_value_error_get_db in Hr as [o' Hr]. by eapply change_password_suspended.
    + apply valid_body_get_db in Hr as [->|Hr]; [done|].
      apply answers_get_db in Hr as [o Hr]. eapply panel_suspended; [done..| |done].
      intros ->. by destruct (Hne creds).
Qed.

(** A successful login was made by an account that is not suspended. *)
Lemma login_account env d email pw label r s' :
  login settings email pw label env (open_session d) = (Ok r, s') →
  ∃ k u, users d !! k = Some u ∧ lr_user_id r = u_id u ∧ u_status u ≠ user_suspended.
Proof.
  unfold login. intros Hr. apply bind_Ok in Hr as (o & s1 & Ho & Hr).
  apply select_one_Ok in Ho as [Ho ->]. destruct o as [u|]; [|by inv_run].
  apply selected_Some in Ho as (_ & [k Hu] & _).
  do 3 (apply bind_Ok in Hr as (? & ? & Hg & Hr); apply raise_if_Ok in Hg as [? ->]).
  do 4 (apply bind_Ok in Hr as (? & ? & _ & Hr)).
  unfold _build_login_response in Hr. inv_run. by exists k, u.
Qed.
End suspension.

(** C11: An account that an admin has suspended stays locked out under any
    sequence of requests, by whomever, that contains no admin's request to
    unsuspend it: it stays suspended, whoever presents a token that names it is
    refused and changes nothing, and no login opens a session for it. *)
Theorem suspended_accounts_stay_locked_out
    `{Crypto, EmailStr, Libm, FromIso, Storage} settings k d d' :
  well_formed d → is_suspended k d →
  rtc (λ d1 d2, ∃ r env out, serve settings r env d1 = (out, d2) ∧
         ∀ creds, r ≠ AsMember creds (Panel (UnsuspendUser k))) d d' →
  is_suspended k d' ∧
  (∀ token r env out d2, serve settings (AsMember (Some token) r) env d' = (out, d2) →
     (∀ uid, token_names settings env token uid → uid = k) →
     d2 = d' ∧ ∃ e, out = Raised e ∧ refused e) ∧
  (∀ body env a g d2, serve settings (AsPublic (PostLogin body)) env d' =
       (Ok (mkReply (LoginAnswer a) g), d2) → lr_user_id a ≠ k).
Proof.
  intros Hw Hs Hr.
  assert (well_formed d' ∧ is_suspended k d') as [Hw' Hs'].
  { induction Hr as [d|d1 d2 d3 (r & env & out & Hrun & Hne) _ IH]; [done|].
    apply IH; [by eapply serve_keeps|]. eapply serve_suspended; [apply (Hw t_users)|done..]. }
  assert (keyed (R:=User) d') as Hk by apply (Hw' t_users).
  assert (∀ k0 u, users d' !! k0 = Some u → u_status u ≠ user_suspended → u_id u ≠ k) as Hno.
  { intros k0 u Hu Hst ->%eq_sym. pose proof (Hk _ _ Hu) as E. cbn in E. subst k0.
    destruct Hs' as (v & Hv & Hsv). congruence. }
  split_and!; [done|..].
  - intros token r env out d2 Hrun Ht. destruct (serve_member settings (Some token) r env d')
      as [(e & s & Ha & E)|(caller & s & Ha & E)]; rewrite E in Hrun.
    + injection Hrun as <- <-. split; [done|]. exists e. split; [done|]. by eapply authorize_raised.
    + apply authorize_Ok in Ha as (tk & k0 & [= <-] & Hu & (_ & _ & _ & Hst) & Htn & _).
      by destruct (Hno _ _ Hu Hst); apply Ht.
  - intros body env a g d2 Hrun. cbn in Hrun.
    apply get_db_Ok in Hrun as (s' & Hrun & _). apply bind_Ok in Hrun as (b & s1 & Hb & Hrun).
    destruct (valid_login body) as [b'|]; [|discriminate Hb]. injection Hb as <- <-.
    rewrite answers_run in Hrun.
    destruct (login settings _ _ _ env _) as [[r|e] s2] eqn:E; [|discriminate Hrun].
    injection Hrun as -> _ _. apply login_account in E as (k0 & u & Hu & -> & Hst). by eapply Hno.
Qed.

(** ** Witnesses *)

#[local] Existing Instance iso_reader.
#[local] Existing Instance no_maths.
#[local] Existing Instance bucket.
(** A checker that accepts every address. *)
Definition any_address : EmailStr := Some.
#[local] Existing Instance any_address.

(** An administrator asks for the overview; Eve, suspended, for her own account. *)
Definition ask (u : User) (r : MemberRequest) (d : DB) : outcome Reply * DB :=
  serve w_settings (AsMember (w_access u) r) (env_at 6) d.

Lemma only_entitled_callers_are_served_witness :
  succeeds (ask root_admin (Panel AnalyticsOverviewCall) world) = true ∧
  ∃ caller k, users world !! k = Some caller ∧ in_good_standing caller ∧ u_role caller = admin.
Proof.
  set (r := ask root_admin (Panel AnalyticsOverviewCall) world).
  assert (succeeds r = true) as Hok by (vm_compute; reflexivity). split; [exact Hok|].
  destruct (only_entitled_callers_are_served w_settings (w_access root_admin)
    (Panel AnalyticsOverviewCall) (env_at 6) world r.1 r.2
    ltac:(apply keyed_eval; vm_compute; reflexivity) (surjective_pairing r))
    as [[_ (e & He & _)]|(caller & _ & k & _ & _ & Hk & Hgood & _ & Hrole & _)].
  - exfalso. unfold succeeds in Hok. by rewrite He in Hok.
  - exists caller, k. split_and!; [exact Hk|exact Hgood|].
    pose proof (Hrole [admin] eq_refl) as Hin. by apply list_elem_of_singleton in Hin.
Defined.

Definition w_suspended : DB := (ask root_admin (Panel (SuspendUser 5 "fraud")) world).2.

Lemma suspended_accounts_stay_locked_out_witness :
  is_suspended 5 w_suspended ∧ (ask eve GetMe w_suspended).2 = w_suspended.
Proof.
  assert (is_suspended 5 w_suspended) as Hs by (eexists; split; vm_compute; reflexivity).
  split; [exact Hs|]. unfold ask. destruct (w_access eve) as [token|] eqn:Et; [|by vm_compute in Et].
  assert (toy_subject token = Some 5%N) as Hsub
    by (assert (from_option toy_subject None (w_access eve) = Some 5%N) as E
          by (vm_compute; reflexivity); by rewrite Et in E).
  refine (proj1 (proj1 (proj2 (suspended_accounts_stay_locked_out w_settings 5 w_suspended
    w_suspended ltac:(well_formed_eval) Hs ltac:(reflexivity))) token GetMe (env_at 6) _ _
    (surjective_pairing _) _)).
  intros uid (key & n & c & _ & Hc & Huid). apply toy_decode_subject in Hc. congruence.
Defined.
