(* ===== verification/Integrity.v ===== *)
(** * Referential integrity

    Every foreign key of every row points to a row that exists.  The session
    checks a foreign key when it is written; that it stays valid needs more: no
    program removes a row that another one points to, and the rows that hang on
    an order go with it. *)

From S2P Require Import Prelude.
From S2P Require Import Exceptions.
From S2P Require Import Models.
From S2P Require Import Session.
From S2P Require Import SessionFacts.
From S2P Require Import Security.
From S2P Require Import Invites.
From S2P Require Import Auth.
From S2P Require Import PyFloat.
From S2P Require Import Orders.
From S2P Require Import Retention.
From S2P Require Import RetentionFacts.
From S2P Require Import DeliveryFlow.
From S2P Require Import Timestamps.
From S2P Require Import OrderMachine.
From S2P Require Import ProductProps.
From S2P Require Import Admin.
From S2P Require Import Upload.
From S2P Require Import Schemas.
From S2P Require Import Api.
From S2P Require Import Routes.
From S2P Require Import Footprints.
From S2P Require Import WellFormed.
From S2P Require Import Access.

(** ** Intact databases *)

Definition links (R : Type) `{Table R} (d : DB) : Prop :=
  map_Forall (λ _ r, Forall (target_exists d) (references r)) (table (R:=R) d).

Definition intact_rows (t : TableName) (d : DB) : Prop :=
  match t with
  | t_users => links User d
  | t_sellers => links Seller d
  | t_stores => links Store d
  | t_products => links Product d
  | t_product_images => links ProductImage d
  | t_orders => links Order d
  | t_order_items => links OrderItem d
  | t_deliveries => links Delivery d
  | t_driver_assignments => links DriverAssignment d
  | t_snapshots => links OrderAnalyticsSnapshot d
  | t_platform_settings => links PlatformSettings d
  | t_invite_links => links InviteLink d
  | t_referrals => links Referral d
  | t_refresh_tokens => links RefreshToken d
  | t_prefs => links UserNotificationPrefs d
  | t_conversations => links Conversation d
  | t_messages => links Message d
  | t_public_keys => links UserPublicKey d
  | t_tracking_points => links OrderTrackingPoint d
  | t_order_messages => links OrderMessage d
  | t_delivery_codes => links DeliveryCode d
  | t_attempts => links DeliveryCodeAttempt d
  | t_devices => links UserDevice d
  | t_rollups => links SellerSalesRollup d
  end.
Definition intact (d : DB) : Prop := ∀ t, intact_rows t d.

(** The rows that foreign keys may point to are still there. *)
Definition targets_grow (d d' : DB) : Prop := ∀ ref, target_exists d ref → target_exists d' ref.

Lemma intact_same t d d' :
  same_rows t d d' → targets_grow d d' → intact_rows t d → intact_rows t d'.
Proof.
  intros E Hg. destruct t; cbn in *; unfold links; cbn; rewrite E; intros Hl k r Hr;
    (eapply Forall_impl; [by apply (Hl k r)|exact Hg]).
Qed.

(** A row type whose rows [intact] speaks of; its table only ever loses targets
    by losing rows. *)
Class Linked (R : Type) `{Named R} := {
  linked_rows d : intact_rows (name_of R) d ↔ links R d;
  linked_grow (f : gmap uuid R → gmap uuid R) d :
    (∀ k, is_Some (table d !! k) → is_Some (f (table d) !! k)) → targets_grow d (on_table f d);
}.
Ltac linked := split; [done|intros f d Hf [[] k]; cbn; first [done|apply Hf]].
#[export] Instance linked_users : Linked User. Proof. linked. Qed.
#[export] Instance linked_sellers : Linked Seller. Proof. linked. Qed.
#[export] Instance linked_stores : Linked Store. Proof. linked. Qed.
#[export] Instance linked_products : Linked Product. Proof. linked. Qed.
#[export] Instance linked_images : Linked ProductImage. Proof. linked. Qed.
#[export] Instance linked_orders : Linked Order. Proof. linked. Qed.
#[export] Instance linked_items : Linked OrderItem. Proof. linked. Qed.
#[export] Instance linked_deliveries : Linked Delivery. Proof. linked. Qed.
#[export] Instance linked_assignments : Linked DriverAssignment. Proof. linked. Qed.
#[export] Instance linked_snapshots : Linked OrderAnalyticsSnapshot. Proof. linked. Qed.
#[export] Instance linked_settings : Linked PlatformSettings. Proof. linked. Qed.
#[export] Instance linked_invites : Linked InviteLink. Proof. linked. Qed.
#[export] Instance linked_referrals : Linked Referral. Proof. linked. Qed.
#[export] Instance linked_tokens : Linked RefreshToken. Proof. linked. Qed.
#[export] Instance linked_prefs : Linked UserNotificationPrefs. Proof. linked. Qed.
#[export] Instance linked_conversations : Linked Conversation. Proof. linked. Qed.
#[export] Instance linked_messages : Linked Message. Proof. linked. Qed.
#[export] Instance linked_keys : Linked UserPublicKey. Proof. linked. Qed.
#[export] Instance linked_points : Linked OrderTrackingPoint. Proof. linked. Qed.
#[export] Instance linked_order_messages : Linked OrderMessage. Proof. linked. Qed.
#[export] Instance linked_codes : Linked DeliveryCode. Proof. linked. Qed.
#[export] Instance linked_attempts : Linked DeliveryCodeAttempt. Proof. linked. Qed.
#[export] Instance linked_devices : Linked UserDevice. Proof. linked. Qed.
#[export] Instance linked_rollups : Linked SellerSalesRollup. Proof. linked. Qed.

(** ** Writes *)

Section writes.
Context {R : Type} `{Linked R}.

(** A table may change if no target is lost and its rows stay linked. *)
Lemma intact_on_table (f : gmap uuid R → gmap uuid R) d :
  targets_grow d (on_table f d) →
  (links R d → map_Forall (λ _ r, Forall (target_exists d) (references r)) (f (table d))) →
  intact d → intact (on_table f d).
Proof.
  intros Hg Hf Hi t. destruct (decide (t = name_of R)) as [->|Hne].
  - apply linked_rows. intros k r. rewrite table_on_table. intros Hr.
    eapply Forall_impl; [|exact Hg]. eapply Hf; [by apply linked_rows|done].
  - eapply intact_same; [by apply named_frame|done|apply Hi].
Qed.

Lemma write_intact (r : R) d :
  Forall (target_exists d) (references r) → intact d → intact (on_table (<[pk r := r]>) d).
Proof.
  intros Hr. apply intact_on_table.
  - apply linked_grow. intros k. destruct (decide (k = pk r)) as [->|Hne].
    + rewrite lookup_insert_eq. by eexists.
    + by rewrite lookup_insert_ne.
  - intros Hl. by apply map_Forall_insert_2.
Qed.

(** The foreign keys of the stored row are valid, so a flush need not check
    them again. *)
Lemma known_exist d (r : R) :
  intact d → refs_known (from_option references [] (table d !! pk r)) d r →
  Forall (target_exists d) (references r).
Proof.
  intros Hi Hk. eapply Forall_impl; [exact Hk|]. intros ref [Hin|?]; [|done].
  destruct (table d !! pk r) as [r0|] eqn:E; [|by apply not_elem_of_nil in Hin]. cbn in Hin.
  assert (links R d) as Hl by by apply linked_rows.
  exact (proj1 (Forall_forall _ _) (Hl _ _ E) ref Hin).
Qed.

(** The rows of a table that no foreign key points to. *)
Definition untargeted : Prop :=
  ∀ (f : gmap uuid R → gmap uuid R) d, targets_grow d (on_table f d).
Lemma delete_intact (P : R → Prop) `{∀ r, Decision (P r)} d :
  untargeted → intact d → intact (on_table (R:=R) (filter (λ kr, ¬ P kr.2)) d).
Proof.
  intros Hu. apply intact_on_table; [apply Hu|]. intros Hl k r.
  rewrite map_lookup_filter_Some. intros [Hr _]. by eapply Hl.
Qed.
Lemma update_intact (P : R → Prop) `{∀ r, Decision (P r)} (f : R → R) d :
  (∀ r, references (f r) = references r) → intact d →
  intact (on_table (fmap (λ r, if decide (P r) then f r else r)) d).
Proof.
  intros Hf. apply intact_on_table.
  - apply linked_grow. intros k. by rewrite lookup_fmap, fmap_is_Some.
  - intros Hl k r. rewrite lookup_fmap. intros (r0 & Hr & ->)%fmap_Some_1.
    case_decide; [rewrite Hf|]; by eapply Hl.
Qed.
End writes.
Arguments untargeted R {_}.

(** Removing an order with all that hangs on it. *)
Lemma order_removed_targets oid d ref :
  well_formed d → ref ≠ (to_orders, oid) → target_exists d ref →
  target_exists (order_removed oid d) ref.
Proof.
  intros Hw Hne. destruct ref as [[] k]; try done. unfold target_exists. cbn.
  intros [o Ho]. exists o. apply map_lookup_filter_Some. split; [done|]. cbn.
  intros E. apply Hne. f_equal. rewrite <- E. symmetry. exact (proj1 (Hw t_orders) k o Ho).
Qed.

Lemma order_removed_intact oid d : well_formed d → intact d → intact (order_removed oid d).
Proof.
  intros Hw Hi.
  assert (∀ refs, (to_orders, oid) ∉ refs → Forall (target_exists d) refs →
    Forall (target_exists (order_removed oid d)) refs) as Hkeep.
  { intros refs Hn Hf. apply Forall_forall. intros ref Hin.
    apply order_removed_targets; [done|by intros ->|]. exact (proj1 (Forall_forall _ _) Hf ref Hin). }
  intros t. specialize (Hi t). destruct t; cbn in *; intros k r; cbn.
  all: first [ intros [Hr Hne]%map_lookup_filter_Some | intros Hr ].
  all: apply Hkeep; [|exact (Hi k r Hr)].
  all: cbn in *; unfold ref_opt; repeat case_match; set_solver.
Qed.

(** ** The relation of a program that keeps its databases intact *)

Definition sound (d : DB) : Prop := well_formed d ∧ intact d.
Definition keeps_sound : relation Session := λ s s',
  sound (working s) → sound (committed s) → sound (working s') ∧ sound (committed s').
#[export] Instance keeps_sound_rel : SessionRel keeps_sound.
Proof.
  split; [split|].
  - by intros s Hw Hc.
  - intros s1 s2 s3 H12 H23 Hw Hc. destruct (H12 Hw Hc). auto.
  - intros s s' Ec Ew Hw Hc. by rewrite <- Ec, <- Ew.
Qed.

Section stable_writes.
Context {R : Type} `{!Table R, !Named R, !Checked R, !Linked R}.

Lemma save_sound (r : R) : stable keeps_sound (save r).
Proof.
  intros env s [u|e] s' E [Hw Hi] Hc; [|by apply save_raised in E as ->].
  pose proof (save_refs _ _ _ _ _ E) as Hr. apply save_Ok in E as (Hce & Hcf & ->).
  split; [|done]. split; [by apply write_well_formed|].
  apply write_intact; [by apply known_exist|done].
Qed.
Lemma insert_sound (r : R) : stable keeps_sound (insert_row r).
Proof.
  intros env s [u|e] s' E [Hw Hi] Hc; [|by apply insert_raised in E as ->].
  pose proof (insert_row_refs _ _ _ _ _ E) as Hr. apply insert_row_Ok in E as (_ & Hce & Hcf & ->).
  split; [|done]. split; [by apply write_well_formed|by apply write_intact].
Qed.
Lemma delete_sound (P : R → Prop) `{∀ r, Decision (P r)} :
  untargeted R → stable keeps_sound (delete_where P).
Proof.
  intros Hu. apply stable_delete_where, stable_put_db. intros s [Hw Hi] Hc. split; [|done].
  split; [by apply delete_well_formed|by apply delete_intact].
Qed.
Lemma update_sound (P : R → Prop) `{∀ r, Decision (P r)} f :
  harmless f → (∀ r, references (f r) = references r) → stable keeps_sound (update_where P f).
Proof.
  intros Hf Hr. apply stable_update_where, stable_put_db. intros s [Hw Hi] Hc. split; [|done].
  split; [by apply update_well_formed|by apply update_intact].
Qed.
End stable_writes.

Lemma untargeted_messages : untargeted Message.
Proof. by intros f d [[] k]. Qed.
Lemma untargeted_images : untargeted ProductImage.
Proof. by intros f d [[] k]. Qed.

Lemma delete_order_row_runs oid env s :
  delete_order_row oid env s = (Ok tt, s <| working ::= order_removed oid |>).
Proof. done. Qed.
Lemma delete_order_row_sound oid : stable keeps_sound (delete_order_row oid).
Proof.
  intros env s out s' E. pose proof E as Ek. rewrite delete_order_row_runs in E.
  injection E as <- <-. intros [Hw Hi] Hc. split; [|done].
  split; [|by apply order_removed_intact].
  assert (stable keeps_well_formed (delete_order_row oid)) as Hst by stable_deep.
  by destruct (Hst _ _ _ _ Ek Hw (proj1 Hc)).
Qed.

Lemma commit_sound : stable keeps_sound commit.
Proof. intros env s o s' E. injection E as <- <-. by intros Hw Hc. Qed.
Lemma rollback_sound : stable keeps_sound rollback.
Proof. intros env s o s' E. injection E as <- <-. by intros Hw Hc. Qed.
#[export] Hint Resolve commit_sound rollback_sound delete_order_row_sound : stable.
#[export] Hint Extern 1 (stable keeps_sound (save _)) => apply save_sound : stable.
#[export] Hint Extern 1 (stable keeps_sound (insert_row _)) => apply insert_sound : stable.
#[export] Hint Extern 1 (stable keeps_sound (delete_where _)) =>
  apply delete_sound; first [exact untargeted_messages|exact untargeted_images] : stable.
#[export] Hint Extern 1 (stable keeps_sound (update_where _ _)) =>
  apply update_sound; [unfold harmless; cbn; naive_solver|done] : stable.

(** ** Requests *)

Section requests.
Context `{Crypto, EmailStr, Libm, FromIso, Storage} (settings : Settings).

Lemma public_sound r : stable keeps_sound (public_handler settings r).
Proof. destruct r; unfold_routes; stable_api. Qed.

Lemma member_sound caller r : stable keeps_sound (handler settings caller r).
Proof. destruct r; unfold_routes; stable_api. Qed.

Lemma get_db_sound {A} (m : M A) env d out d' :
  stable keeps_sound m → get_db m env d = (out, d') → sound d → sound d'.
Proof.
  unfold get_db. intros Hm. destruct (m env (open_session d)) as [[a|e] s'] eqn:E;
    intros [= <- <-] Hw; by apply Hm in E as [].
Qed.

Lemma serve_sound r env d out d' :
  serve settings r env d = (out, d') → sound d → sound d'.
Proof.
  intros Hs Hw. destruct r as [p|credentials m].
  - by eapply get_db_sound; [apply public_sound|..].
  - destruct (serve_member settings credentials m env d)
      as [(e & s & _ & E)|(caller & s & _ & E)]; rewrite E in Hs.
    + by injection Hs as _ <-.
    + by eapply get_db_sound; [apply member_sound|..].
Qed.
End requests.

(** A concrete database is found intact by evaluation. *)
Lemma links_eval {R} `{Table R} (d : DB) :
  bool_decide (map_Forall (λ _ r, Forall (target_exists d) (references r)) (table (R:=R) d)) = true →
  links R d.
Proof. by intros Hb%bool_decide_eq_true. Qed.
Ltac intact_eval := intros []; apply links_eval; vm_compute; reflexivity.
