(* ===== verification/Locking.v ===== *)
(** * Calls that begin with a locking read

    A call that begins with [SELECT ... FOR UPDATE] runs in a transaction of its
    own: PostgreSQL locks the rows one after the other in the order of the
    statement, each as soon as no other transaction holds it, and reads each as
    it is by then (READ COMMITTED); the transaction keeps its locks to its end.
    This file schedules any number of such calls, lock by lock, between each
    other and between other requests.  It is written against the interface
    [LockedCalls]; [Concurrency] has the calls of the program. *)

From S2P Require Import Prelude.

(** ** The interface *)

(** The rows that can be locked, in a fixed order of their ranks; the rows that
    the locking read of a call is going to lock, in its order; the call on the
    rows it has read, and the call as a whole. *)
Class LockedCalls (State Key Call Row Result : Type) := {
  row_at : State → Key → option Row;
  rank : Key → N;
  lockable : State → Call → list Key;
  call_on : Call → list Row → State → Result * State;
  call : Call → State → Result * State;
}.

(** What the calls promise on valid states: they lock rows that exist, upwards;
    on rows that are current, the call goes on as the whole call does; it
    changes rows it has locked only, and not what other calls are going to
    lock. *)
Class LockedCallsLaws (State Key Call Row Result : Type)
    `{!LockedCalls State Key Call Row Result} (valid : State → Prop) := {
  lockable_exists d c k : k ∈ lockable d c → is_Some (row_at d k);
  lockable_upwards d c : valid d → StronglySorted (λ k k', rank k < rank k')%N (lockable d c);
  call_on_current d c (got : list (Key * Row)) :
    valid d → got.*1 = lockable d c → Forall (λ kr, row_at d kr.1 = Some kr.2) got →
    call_on c got.*2 d = call c d;
  call_frame d c out d' k :
    valid d → call c d = (out, d') → row_at d' k = row_at d k ∨ k ∈ lockable d c;
  call_keeps_lockable d c out d' c' :
    valid d → call c d = (out, d') → lockable d' c' = lockable d c';
  call_valid d c out d' : valid d → call c d = (out, d') → valid d';
}.

Section locking.
Context {State Key Call Row Result Other : Type} `{Countable Key}.
Context `{!LockedCalls State Key Call Row Result}.
Context (serve_other : Other → State → State).

(** ** Configurations *)

(** A call waits for the locks of [todo], or for its turn to go on, having read
    the rows [got]; or its transaction has ended. *)
Inductive Phase :=
| Locking (todo : list Key) (got : list (Key * Row))
| Ended (out : Result).

(** What has been committed, in the order of the commits. *)
Inductive Entry :=
| Called (c : Call) (out : Result)
| OtherRequest (r : Other).

(** The committed state, the owners of the row locks, the calls by the number of
    their connection, and the history. *)
Record Config := mkConfig {
  cf_state : State;
  cf_locks : gmap Key nat;
  cf_txs : gmap nat (Call * Phase);
  cf_log : list Entry;
}.
Definition idle (d : State) : Config := mkConfig d ∅ ∅ [].

(** ** Steps *)

Definition begin_tx (i : nat) (c : Call) (cf : Config) : option Config :=
  match cf_txs cf !! i with
  | None => Some (mkConfig (cf_state cf) (cf_locks cf)
                    (<[i := (c, Locking (lockable (cf_state cf) c) [])]> (cf_txs cf)) (cf_log cf))
  | Some _ => None
  end.

(** The next lock, if no other transaction holds it. *)
Definition lock_next (i : nat) (cf : Config) : option Config :=
  match cf_txs cf !! i with
  | Some (c, Locking (k :: todo) got) =>
      match cf_locks cf !! k, row_at (cf_state cf) k with
      | None, Some r =>
          Some (mkConfig (cf_state cf) (<[k := i]> (cf_locks cf))
                  (<[i := (c, Locking todo (got ++ [(k, r)]))]> (cf_txs cf)) (cf_log cf))
      | _, _ => None
      end
  | _ => None
  end.

(** The rest of the call, its commit or rollback, and the release of its locks,
    in one step: it writes rows that the call has locked or inserts, and what
    else it reads is as of its commit. *)
Definition finish (i : nat) (cf : Config) : option Config :=
  match cf_txs cf !! i with
  | Some (c, Locking [] got) =>
      let '(out, d) := call_on c got.*2 (cf_state cf) in
      Some (mkConfig d (filter (λ kv, kv.2 ≠ i) (cf_locks cf))
              (<[i := (c, Ended out)]> (cf_txs cf)) (cf_log cf ++ [Called c out]))
  | _ => None
  end.

(** A step by which some call gets on. *)
Inductive call_step (cf cf' : Config) : Prop :=
| cs_lock i : lock_next i cf = Some cf' → call_step cf cf'
| cs_finish i : finish i cf = Some cf' → call_step cf cf'.

(** Any step.  Another request waits with its writes while a row is locked, and
    neither adds nor takes away rows that a call under way is going to lock. *)
Inductive conc_step (cf cf' : Config) : Prop :=
| cc_begin i c : begin_tx i c cf = Some cf' → conc_step cf cf'
| cc_call : call_step cf cf' → conc_step cf cf'
| cc_other r d :
    serve_other r (cf_state cf) = d →
    (∀ k, is_Some (cf_locks cf !! k) → row_at d k = row_at (cf_state cf) k) →
    (∀ i c todo got, cf_txs cf !! i = Some (c, Locking todo got) →
       lockable d c = lockable (cf_state cf) c) →
    cf' = mkConfig d (cf_locks cf) (cf_txs cf) (cf_log cf ++ [OtherRequest r]) →
    conc_step cf cf'.

(** The same history, one request after the other. *)
Fixpoint serial (d : State) (history : list Entry) (d' : State) : Prop :=
  match history with
  | [] => d' = d
  | Called c out :: history' =>
      let '(out1, d1) := call c d in out1 = out ∧ serial d1 history' d'
  | OtherRequest r :: history' => serial (serve_other r d) history' d'
  end.

Definition ended (tx : Call * Phase) : Prop :=
  match tx.2 with Ended _ => True | Locking _ _ => False end.
#[export] Instance ended_dec tx : Decision (ended tx).
Proof. unfold ended. destruct (tx.2); apply _. Defined.
Definition all_ended (cf : Config) : Prop := map_Forall (λ _ tx, ended tx) (cf_txs cf).

(** The steps that the calls have before them. *)
Definition steps_left (tx : Call * Phase) : nat :=
  match tx.2 with Locking todo _ => S (Datatypes.length todo) | Ended _ => 0 end.
Definition work (cf : Config) : nat :=
  sum_list ((λ itx, steps_left itx.2) <$> map_to_list (cf_txs cf)).
End locking.
