(* ===== verification/LockingFacts.v ===== *)
(** * Scheduled calls are serializable and never deadlock

    Proved against [LockedCallsLaws]. *)

From S2P Require Import Prelude.
From S2P Require Import Locking.

Section locking_facts.
Context {State Key Call Row Result Other : Type} `{Countable Key}.
Context `{!LockedCalls State Key Call Row Result}.
Context (serve_other : Other → State → State) (valid : State → Prop).
Context `{!LockedCallsLaws State Key Call Row Result valid}.
Context (other_valid : ∀ r d, valid d → valid (serve_other r d)).
Implicit Types (d : State) (k : Key) (c : Call) (r : Row) (got : list (Key * Row)).
Implicit Types (cf : Config (State:=State) (Key:=Key) (Call:=Call) (Row:=Row) (Result:=Result)
                        (Other:=Other)).
Abbreviation step := (conc_step serve_other).
Abbreviation start := (idle (Key:=Key) (Call:=Call) (Row:=Row) (Result:=Result) (Other:=Other)).

(** Locks are taken upwards. *)
Lemma locked_below d c held k todo j :
  valid d → held ++ k :: todo = lockable d c → j ∈ held → (rank j < rank k)%N.
Proof.
  intros Hd E Hj. pose proof (lockable_upwards d c Hd) as Hs. rewrite <- E in Hs.
  exact (StronglySorted_app_1_elem_of _ _ _ j k Hs Hj ltac:(left)).
Qed.

(** ** The invariant of every schedule *)

(** What a transaction has read is current. *)
Definition current d got : Prop := Forall (λ kr, row_at d kr.1 = Some kr.2) got.

(** The rows a transaction has read and those it still waits for are the rows it
    locks; those it has read are current, and exactly they are locked. *)
Record consistent cf : Prop := {
  cons_valid : valid (cf_state cf);
  cons_tx i c todo got :
    cf_txs cf !! i = Some (c, Locking todo got) →
    got.*1 ++ todo = lockable (cf_state cf) c ∧ current (cf_state cf) got ∧
    Forall (λ kr, cf_locks cf !! kr.1 = Some i) got;
  cons_lock k i :
    cf_locks cf !! k = Some i →
    ∃ c todo got, cf_txs cf !! i = Some (c, Locking todo got) ∧ k ∈ got.*1;
}.

Lemma idle_consistent d : valid d → consistent (idle d).
Proof.
  intros Hd. split; cbn; [done| |].
  - intros i c todo got. by rewrite lookup_empty.
  - intros k i. by rewrite lookup_empty.
Qed.

Lemma begin_consistent i c cf cf' :
  begin_tx i c cf = Some cf' → consistent cf → consistent cf'.
Proof.
  unfold begin_tx. destruct (cf_txs cf !! i) eqn:Ei; [done|]. intros [= <-] [Hs Ht Hl].
  split; cbn; [done| |].
  - intros j c' todo got [[<- [= <- <- <-]]|[_ Hj]]%lookup_insert_Some; [|by apply Ht].
    split_and!; [done|constructor..].
  - intros k j Hk. destruct (Hl k j Hk) as (c' & todo & got & Hj & Hin).
    exists c', todo, got. split; [|done]. rewrite lookup_insert_ne by congruence. done.
Qed.

(** The locks of the others are not the one that was free. *)
Lemma owners_kept (locks : gmap Key nat) k i j got :
  locks !! k = None → Forall (λ kr, locks !! kr.1 = Some j) got →
  Forall (λ kr, <[k := i]> locks !! kr.1 = Some j) got.
Proof.
  intros Hk Hf. eapply Forall_impl; [exact Hf|]. intros [k' r] Hk'. cbn in *.
  rewrite lookup_insert_ne; [done|congruence].
Qed.

Lemma lock_consistent i cf cf' : lock_next i cf = Some cf' → consistent cf → consistent cf'.
Proof.
  unfold lock_next. destruct (cf_txs cf !! i) as [[c [[|k todo] got|]]|] eqn:Ei; try done.
  destruct (cf_locks cf !! k) eqn:Ek; [done|].
  destruct (row_at (cf_state cf) k) as [r|] eqn:Er; [|done]. intros [= <-] [Hs Ht Hl].
  destruct (Ht i c _ got Ei) as (Elock & Hcur & Hown). split; cbn; [done| |].
  - intros j c' todo' got' [[<- [= <- <- <-]]|[Hne Hj]]%lookup_insert_Some.
    + split_and!.
      * rewrite fmap_app, <- app_assoc. done.
      * apply Forall_app. split; [done|]. by apply Forall_singleton.
      * apply Forall_app. split; [by apply owners_kept|].
        apply Forall_singleton. cbn. by rewrite lookup_insert_eq.
    + destruct (Ht j c' todo' got' Hj) as (? & ? & Hown'). split_and!; [done..|].
      by apply owners_kept.
  - intros k' j [[<- <-]|[Hne Hk']]%lookup_insert_Some.
    + exists c, todo, (got ++ [(k, r)]). rewrite lookup_insert_eq, fmap_app. split; [done|].
      apply elem_of_app. right. by apply list_elem_of_singleton.
    + destruct (Hl k' j Hk') as (c' & todo' & got' & Hj & Hin).
      destruct (decide (j = i)) as [->|Hji].
      * rewrite Ei in Hj. injection Hj as <- <- <-. exists c, todo, (got ++ [(k, r)]).
        rewrite lookup_insert_eq, fmap_app. split; [done|]. apply elem_of_app. by left.
      * exists c', todo', got'. by rewrite lookup_insert_ne by done.
Qed.

(** Whatever commits elsewhere, a transaction finds its rows as it read them. *)
Lemma others_consistent i c todo got cf d :
  consistent cf → cf_txs cf !! i = Some (c, Locking todo got) →
  (∀ k, cf_locks cf !! k = Some i → row_at d k = row_at (cf_state cf) k) →
  lockable d c = lockable (cf_state cf) c →
  got.*1 ++ todo = lockable d c ∧ current d got.
Proof.
  intros [Hs Ht Hl] Hi Hsame Hex. destruct (Ht i c todo got Hi) as (E & Hcur & Hown).
  split; [by rewrite Hex|]. unfold current in *. rewrite Forall_forall in *.
  intros kr Hin. rewrite Hsame; [by apply Hcur|by apply Hown].
Qed.

Lemma finish_spec i cf cf' :
  finish i cf = Some cf' → consistent cf →
  ∃ c got out d, cf_txs cf !! i = Some (c, Locking [] got) ∧
    call c (cf_state cf) = (out, d) ∧
    cf' = mkConfig d (filter (λ kv, kv.2 ≠ i) (cf_locks cf)) (<[i := (c, Ended out)]> (cf_txs cf))
            (cf_log cf ++ [Called c out]).
Proof.
  unfold finish. destruct (cf_txs cf !! i) as [[c [[|k todo] got|]]|] eqn:Ei; try done.
  destruct (call_on c _ _) as [out d] eqn:E. intros [= <-] [Hs Ht Hl].
  destruct (Ht i c [] got Ei) as (Elock & Hcur & Hown). rewrite app_nil_r in Elock.
  rewrite (call_on_current _ _ _ Hs Elock Hcur) in E. by exists c, got, out, d.
Qed.

Lemma finish_consistent i cf cf' : finish i cf = Some cf' → consistent cf → consistent cf'.
Proof.
  intros Hf Hc. apply finish_spec in Hf as (c & got & out & d & Ei & E & ->); [|done].
  pose proof Hc as [Hs Ht Hl]. destruct (Ht i c [] got Ei) as (Elock & Hcur & Hown).
  rewrite app_nil_r in Elock. split; cbn.
  - by eapply call_valid.
  - intros j c' todo' got' [[<- [=]]|[Hne Hj]]%lookup_insert_Some.
    destruct (Ht j c' todo' got' Hj) as (_ & _ & Hown').
    destruct (others_consistent j c' todo' got' cf d Hc Hj) as [E1 E2].
    + intros k Hk. destruct (call_frame _ _ _ _ k Hs E) as [?|Hin]; [done|]. exfalso.
      rewrite <- Elock in Hin. apply list_elem_of_fmap in Hin as (kr & -> & Hin).
      rewrite Forall_forall in Hown. apply Hown in Hin. congruence.
    + by eapply call_keeps_lockable.
    + split_and!; [done..|]. eapply Forall_impl; [exact Hown'|]. intros kr Hk.
      apply map_lookup_filter_Some. split; [done|]. cbn. congruence.
  - intros k j. rewrite map_lookup_filter_Some. cbn. intros [Hk Hne].
    destruct (Hl k j Hk) as (c' & todo' & got' & Hj & Hin). exists c', todo', got'.
    by rewrite lookup_insert_ne by congruence.
Qed.

Lemma step_consistent cf cf' : step cf cf' → consistent cf → consistent cf'.
Proof.
  intros [i c Hb|[i Hi|i Hi]|r d Hserve Hlocked Hsame ->] Hc.
  - by eapply begin_consistent.
  - by eapply lock_consistent.
  - by eapply finish_consistent.
  - split; cbn.
    + subst d. apply other_valid, Hc.
    + intros i c todo got Hi.
      destruct (others_consistent i c todo got cf d Hc Hi) as [E1 E2].
      * intros k Hk. apply Hlocked. by eexists.
      * by eapply Hsame.
      * split_and!; [done..|]. by apply (cons_tx _ Hc) in Hi as (_ & _ & ?).
    + apply Hc.
Qed.

(** ** The history *)

Lemma serial_app d1 d2 d3 l1 l2 :
  serial serve_other d1 l1 d2 → serial serve_other d2 l2 d3 →
  serial serve_other d1 (l1 ++ l2) d3.
Proof.
  revert d1. induction l1 as [|[c out|r] l1 IH]; cbn; intros d1.
  - by intros <-.
  - destruct (call c d1) as [out1 d']. intros [-> Ha] Hb. split; [done|by eapply IH].
  - apply IH.
Qed.

Definition recorded d0 cf : Prop :=
  serial serve_other d0 (cf_log cf) (cf_state cf) ∧
  ∀ i c out, cf_txs cf !! i = Some (c, Ended out) → Called c out ∈ cf_log cf.

Lemma step_recorded d0 cf cf' :
  step cf cf' → consistent cf → recorded d0 cf → recorded d0 cf'.
Proof.
  intros [i c Hb|[i Hi|i Hi]|r d Hserve _ _ ->] Hc [Hs He].
  - unfold begin_tx in Hb. destruct (cf_txs cf !! i); [done|]. injection Hb as <-.
    split; cbn; [done|]. intros j c' out [[_ [=]]|[_ ?]]%lookup_insert_Some. by eapply He.
  - unfold lock_next in Hi. repeat case_match; try done. injection Hi as <-.
    split; cbn; [done|]. intros j c' out [[_ [=]]|[_ ?]]%lookup_insert_Some. by eapply He.
  - apply finish_spec in Hi as (c & got & out & d & Ei & E & ->); [|done]. split; cbn.
    + eapply serial_app; [exact Hs|]. cbn. by rewrite E.
    + intros j c' out' [[_ [= <- <-]]|[_ Hj]]%lookup_insert_Some; apply elem_of_app.
      * right. by left.
      * left. by eapply He.
  - split; cbn.
    + eapply serial_app; [exact Hs|]. cbn. by rewrite Hserve.
    + intros i c out' Hi. apply elem_of_app. left. by eapply He.
Qed.

Lemma reachable_consistent d cf :
  valid d → rtc step (start d) cf → consistent cf ∧ recorded d cf.
Proof.
  intros Hd Hr. assert (consistent (start d)) as Hc by by apply idle_consistent.
  assert (recorded d (start d)) as Hrec.
  { split; cbn; [done|]. intros i c out. by rewrite lookup_empty. }
  clear Hd. revert Hr Hc Hrec. generalize (start d) as cf0. intros cf0 Hr.
  induction Hr as [cf1|cf1 cf2 cf3 Hs _ IH]; intros Hc Hrec; [done|].
  apply IH; [by eapply step_consistent|by eapply step_recorded].
Qed.

(** ** Progress *)

Lemma steps_left_insert (t : gmap nat (Call * Phase)) i tx tx' :
  t !! i = Some tx →
  sum_list ((λ itx, steps_left itx.2) <$> map_to_list (<[i := tx']> t)) + steps_left tx =
  sum_list ((λ itx, steps_left (Key:=Key) (Row:=Row) (Result:=Result) itx.2) <$> map_to_list t) +
    steps_left tx'.
Proof.
  intros Hi. assert (delete i t !! i = None) as Hnone by apply lookup_delete_eq.
  pose proof (map_to_list_insert (delete i t) i tx Hnone) as E.
  pose proof (map_to_list_insert (delete i t) i tx' Hnone) as E'.
  rewrite (insert_delete_id t i tx Hi) in E. rewrite insert_delete_eq in E'.
  rewrite E, E'. cbn. lia.
Qed.

Lemma call_step_works cf cf' : call_step cf cf' → S (work cf') = work cf.
Proof.
  unfold work. intros [i Hi|i Hi].
  - unfold lock_next in Hi. destruct (cf_txs cf !! i) as [[c [[|k todo] got|]]|] eqn:Ei; try done.
    destruct (cf_locks cf !! k); [done|]. destruct (row_at _ k) as [r|]; [|done].
    injection Hi as <-. cbn.
    pose proof (steps_left_insert _ i _ (c, Locking todo (got ++ [(k, r)])) Ei) as E. cbn in E. lia.
  - unfold finish in Hi. destruct (cf_txs cf !! i) as [[c [[|k todo] got|]]|] eqn:Ei; try done.
    destruct (call_on _ _ _) as [out d]. injection Hi as <-. cbn.
    pose proof (steps_left_insert _ i _ (c, Ended out) Ei) as E. cbn in E. lia.
Qed.

(** The ranks of locked rows are bounded. *)
Lemma locks_bounded (t : gmap Key nat) : ∃ n, ∀ k i, t !! k = Some i → (rank k < n)%N.
Proof.
  induction t as [|k i t _ [n Hn]] using map_ind.
  - exists 0%N. intros k i. by rewrite lookup_empty.
  - exists (N.max n (rank k + 1)). intros k' i' [[<- _]|[_ Hk]]%lookup_insert_Some; [lia|].
    apply Hn in Hk. lia.
Qed.

Lemma ready_finishes cf i c got :
  cf_txs cf !! i = Some (c, Locking [] got) → ∃ cf', call_step cf cf'.
Proof.
  intros Hi. assert (∃ cf', finish i cf = Some cf') as [cf' Hf].
  { unfold finish. rewrite Hi. destruct (call_on _ _ _). by eexists. }
  exists cf'. by apply (cs_finish _ _ i).
Qed.

(** A call that has not ended gets on, or waits for one that holds its row and
    waits, if at all, for a row of a higher rank. *)
Lemma some_call_gets_on cf i c todo got :
  consistent cf → cf_txs cf !! i = Some (c, Locking todo got) → ∃ cf', call_step cf cf'.
Proof.
  intros Hc. destruct (locks_bounded (cf_locks cf)) as [n Hn].
  assert (∀ m i c k todo got, (n - rank k < m)%N →
    cf_txs cf !! i = Some (c, Locking (k :: todo) got) → ∃ cf', call_step cf cf') as Hwait.
  { clear i c todo got. induction m as [|m IH] using N.peano_ind; [lia|].
    intros i c k todo got Hm Hi. destruct (cons_tx _ Hc i c _ got Hi) as (E & Hcur & Hown).
    destruct (cf_locks cf !! k) as [j|] eqn:Ek.
    - destruct (cons_lock _ Hc k j Ek) as (c2 & [|k2 todo2] & got2 & Hj & Hin).
      + by eapply ready_finishes.
      + destruct (cons_tx _ Hc j c2 _ got2 Hj) as (E2 & _ & _).
        pose proof (locked_below _ _ _ _ _ _ (cons_valid _ Hc) E2 Hin). apply Hn in Ek.
        eapply (IH j c2 k2 todo2 got2); [lia|done].
    - assert (k ∈ lockable (cf_state cf) c) as [r Hr]%lockable_exists.
      { rewrite <- E. apply elem_of_app. right. by left. }
      eexists. apply (cs_lock _ _ i). unfold lock_next. by rewrite Hi, Ek, Hr. }
  destruct todo as [|k todo]; intros Hi.
  - by eapply ready_finishes.
  - eapply (Hwait (n - rank k + 1)%N i c k); [lia|done].
Qed.

Lemma not_all_ended cf :
  ¬ all_ended cf → ∃ i c todo got, cf_txs cf !! i = Some (c, Locking todo got).
Proof.
  intros Hn. apply map_not_Forall in Hn as (i & [c ph] & Hi & Hph); [|apply _].
  destruct ph as [todo got|out]; [by exists i, c, todo, got|by destruct Hph].
Qed.

Lemma gets_on cf : consistent cf → all_ended cf ∨ ∃ cf', call_step cf cf'.
Proof.
  intros Hc. destruct (decide (all_ended cf)) as [?|(i & c & todo & got & Hi)%not_all_ended];
    [by left|right]. by eapply some_call_gets_on.
Qed.

Lemma calls_consistent n cf cf' :
  nsteps call_step n cf cf' → consistent cf → consistent cf' ∧ n + work cf' = work cf.
Proof.
  induction 1 as [cf|n cf cf1 cf' Hs _ IH]; intros Hc; [done|].
  apply call_step_works in Hs as Hw.
  destruct IH as [Hc' Hn]; [by eapply step_consistent; [by apply cc_call|]|].
  split; [done|lia].
Qed.

Lemma calls_complete cf :
  consistent cf → ∃ cf', rtc call_step cf cf' ∧ all_ended cf'.
Proof.
  induction cf as [cf IH] using (induction_ltof1 _ work). intros Hc.
  destruct (gets_on cf Hc) as [Hall|[cf1 Hs]]; [by exists cf|].
  apply call_step_works in Hs as Hw. destruct (IH cf1) as (cf' & Hr & Hall).
  - unfold ltof. lia.
  - by eapply step_consistent; [by apply cc_call|].
  - exists cf'. split; [by econstructor|done].
Qed.

(** ** The two promises of a schedule *)

Lemma schedules_are_serial d cf :
  valid d → rtc step (start d) cf →
  serial serve_other d (cf_log cf) (cf_state cf) ∧ valid (cf_state cf) ∧
  ∀ i c out, cf_txs cf !! i = Some (c, Ended out) → Called c out ∈ cf_log cf.
Proof.
  intros Hd Hr. destruct (reachable_consistent d cf Hd Hr) as [Hc [Hs He]].
  split_and!; [done|apply Hc|exact He].
Qed.

Lemma schedules_complete d cf :
  valid d → rtc step (start d) cf →
  (∃ cf', rtc call_step cf cf' ∧ all_ended cf') ∧
  ∀ n cf', nsteps call_step n cf cf' →
    n ≤ work cf ∧ ((∀ cf'', ¬ call_step cf' cf'') → all_ended cf').
Proof.
  intros Hd Hr. destruct (reachable_consistent d cf Hd Hr) as [Hc _].
  split; [by apply calls_complete|]. intros n cf' Hn.
  destruct (calls_consistent n cf cf' Hn Hc) as [Hc' Hw]. split; [lia|].
  intros Hstuck. destruct (gets_on cf' Hc') as [?|[cf'' Hs]]; [done|by destruct (Hstuck cf'')].
Qed.
End locking_facts.
