(* ===== verification/Concurrency.v ===== *)
(** * Checkouts and sign-ups at the same time

    The two calls that guard a scarce good begin with a locking read: a checkout
    locks the products of its lines, in the order of their ids
    ([services/order_service.py], [create_order]), and a sign-up the invite it
    presents ([services/invite_service.py], [consume_invite]).  Here they are
    given to the scheduler of [Locking]; the other requests of the platform run
    between their steps.  After its locks a checkout reads nothing else.  A
    sign-up reads the accounts, unlocked, for its address and its referrer; here
    that belongs to the step of its commit, so two sign-ups with one address
    that overlap just there (the unique key then refuses the later one, as an
    unhandled error) are taken to come one after the other. *)

From S2P Require Import Prelude.
From S2P Require Import Exceptions.
From S2P Require Import Models.
From S2P Require Import Session.
From S2P Require Import Security.
From S2P Require Import Invites.
From S2P Require Import Auth.
From S2P Require Import PyFloat.
From S2P Require Import Orders.
From S2P Require Import Timestamps.
From S2P Require Import Upload.
From S2P Require Import Schemas.
From S2P Require Import Api.
From S2P Require Import Routes.
From S2P Require Import Locking.

(** ** The calls *)

(** The arguments of a call and what its process reads. *)
Record Checkout := mkCheckout {
  ck_customer : User;
  ck_items : list LineItem;
  ck_address : Address;
  ck_env : Env;
}.
Record Joining := mkJoining { jn_request : SignupRequest; jn_env : Env }.
Inductive LockingCall := PlaceOrder (c : Checkout) | Join (j : Joining).
Inductive LockedAnswer :=
| Ordered (out : outcome LoadedOrder)
| Joined (out : outcome LoginResponse).

(** ** The rows they lock *)

Inductive LockedRow := LockedProduct (p : Product) | LockedInvite (i : InviteLink).
(** A product by its id, or an invite by its id. *)
Abbreviation LockKey := (uuid + uuid)%type.
Definition locked_row (d : DB) (k : LockKey) : option LockedRow :=
  match k with
  | inl id => LockedProduct <$> products d !! id
  | inr id => LockedInvite <$> invite_links d !! id
  end.
Definition locked_products (rs : list LockedRow) : list Product :=
  omap (λ r, match r with LockedProduct p => Some p | LockedInvite _ => None end) rs.
Definition locked_invites (rs : list LockedRow) : list InviteLink :=
  omap (λ r, match r with LockedInvite i => Some i | LockedProduct _ => None end) rs.

(** Whether [create_order] gets as far as its locking read. *)
Definition reads_products (c : Checkout) : Prop :=
  u_role (ck_customer c) = customer ∧ ck_items c ≠ [] ∧
  is_Some (u_referring_seller_id (ck_customer c)).
#[export] Instance reads_products_dec c : Decision (reads_products c).
Proof. unfold reads_products. apply _. Defined.

(** [WHERE id IN (...) ORDER BY id FOR UPDATE] *)
Definition products_to_lock (d : DB) (c : Checkout) : list uuid :=
  if decide (reads_products c)
  then filter (λ k, is_Some (products d !! k)) (product_ids (ck_items c)) else [].

(** [WHERE token = ... FOR UPDATE], once the password is not a common one. *)
Definition invites_to_lock (d : DB) (j : Joining) : list uuid :=
  if decide (is_common_password (sr_password (jn_request j)) = true) then []
  else elements (dom (filter (λ ki, i_token ki.2 = sr_invite_token (jn_request j))
                        (invite_links d)) : gset uuid).

Definition rows_to_lock (d : DB) (c : LockingCall) : list LockKey :=
  match c with
  | PlaceOrder c => inl <$> products_to_lock d c
  | Join j => inr <$> invites_to_lock d j
  end.

Section calls.
Context `{Crypto, EmailStr, Libm, FromIso, Storage} (settings : Settings).

(** A call in its session, given its locking read. *)
Definition checkout_on (c : Checkout) (read : list uuid → M (list Product)) (d : DB) :
    outcome LoadedOrder * DB :=
  get_db (create_order_on read (ck_customer c) (ck_items c) (ck_address c)) (ck_env c) d.
Definition joining_on (j : Joining) (read : string → M (option InviteLink)) (d : DB) :
    outcome LoginResponse * DB :=
  get_db (signup_on settings read (jn_request j)) (jn_env j) d.

Definition go_on (c : LockingCall) (rs : list LockedRow) (d : DB) : LockedAnswer * DB :=
  match c with
  | PlaceOrder c =>
      let '(out, d') := checkout_on c (λ _, mret (locked_products rs)) d in (Ordered out, d')
  | Join j =>
      let '(out, d') := joining_on j (λ _, scalar_one_or_none (locked_invites rs)) d in
      (Joined out, d')
  end.

(** The call as a whole. *)
Definition run_call (c : LockingCall) (d : DB) : LockedAnswer * DB :=
  match c with
  | PlaceOrder c =>
      let '(out, d') :=
        get_db (create_order (ck_customer c) (ck_items c) (ck_address c)) (ck_env c) d in
      (Ordered out, d')
  | Join j =>
      let '(out, d') := get_db (signup settings (jn_request j)) (jn_env j) d in (Joined out, d')
  end.

Definition marketplace_calls : LockedCalls DB LockKey LockingCall LockedRow LockedAnswer := {|
  row_at := locked_row;
  rank k := match k with inl id | inr id => id end;
  lockable := rows_to_lock;
  call_on := go_on;
  call := run_call;
|}.

(** Any other request, in its own transaction. *)
Definition serve_request (r : Request * Env) (d : DB) : DB := (serve settings r.1 r.2 d).2.
End calls.

(** Checkouts and sign-ups under way, with other requests in between. *)
Abbreviation Schedule := (Config (State:=DB) (Key:=LockKey) (Call:=LockingCall)
  (Row:=LockedRow) (Result:=LockedAnswer) (Other:=Request * Env)).
