(* ===== verification/ConcurrencyProps.v ===== *)
(** * Checkouts and sign-ups at the same time: serializable, and never in deadlock

    That the products are locked in the order of their ids, as the comment in
    [create_order] says, excludes deadlocks; that products and invites are read
    under their locks makes every schedule equivalent to running the requests
    one after the other in the order of their commits. *)

From S2P Require Import Prelude.
From S2P Require Import Exceptions.
From S2P Require Import Models.
From S2P Require Import Session.
From S2P Require Import SessionFacts.
From S2P Require Import Security.
From S2P Require Import Invites.
From S2P Require Import Auth.
From S2P Require Import PyFloat.
From S2P Require Import Orders.
From S2P Require Import OrdersFacts.
From S2P Require Import Fixtures.
From S2P Require Import CryptoModel.
From S2P Require Import InviteFacts.
From S2P Require Import AuthFacts.
From S2P Require Import AccountMachine.
From S2P Require Import AccountProps.
From S2P Require Import CheckoutFacts.
From S2P Require Import OrderMachine.
From S2P Require Import Timestamps.
From S2P Require Import Upload.
From S2P Require Import Schemas.
From S2P Require Import Api.
From S2P Require Import Routes.
From S2P Require Import Footprints.
From S2P Require Import WellFormed.
From S2P Require Import Integrity.
From S2P Require Import GatewayProps.
From S2P Require Import ProductProps.
From S2P Require Import UploadProps.
From S2P Require Import Access.
From S2P Require Import Locking.
From S2P Require Import LockingFacts.
From S2P Require Import Concurrency.

(** ** Lists in the order of their ids *)

Lemma strongly_sorted_filter {A} (R : relation A) (P : A → Prop) `{∀ x, Decision (P x)}
    (l : list A) :
  StronglySorted R l → StronglySorted R (filter P l).
Proof.
  induction 1 as [|x l Hs IH Hall]; [constructor|]. rewrite filter_cons.
  case_decide; [|done]. constructor; [done|]. rewrite Forall_forall in Hall |- *.
  intros y [_ Hy]%list_elem_of_filter. auto.
Qed.

Lemma NoDup_fmap_inj {A B} (f : A → B) (l : list A) x y :
  NoDup (f <$> l) → x ∈ l → y ∈ l → f x = f y → x = y.
Proof.
  induction l as [|z l IH]; [by intros _ ?%not_elem_of_nil|]. cbn.
  intros [Hz Hnd]%NoDup_cons Hx Hy E. apply elem_of_cons in Hx, Hy.
  destruct Hx as [->|Hx], Hy as [->|Hy]; [done| | |by apply IH].
  - destruct Hz. rewrite E. by apply list_elem_of_fmap_2.
  - destruct Hz. rewrite <- E. by apply list_elem_of_fmap_2.
Qed.

Lemma order_by_asc_unique {A} (key : A → Z) l1 l2 :
  NoDup (key <$> l1) → l1 ≡ₚ l2 → order_by_asc key l1 = order_by_asc key l2.
Proof.
  intros Hnd Hp. apply (StronglySorted_unique_strong (key_le key)).
  - intros x y Hx Hy Hxy Hyx. unfold key_le in *. apply (NoDup_fmap_inj key l1); [done|..|lia].
    + by rewrite order_by_asc_perm in Hx.
    + by rewrite order_by_asc_perm, <- Hp in Hy.
  - apply StronglySorted_merge_sort; apply _.
  - apply StronglySorted_merge_sort; apply _.
  - by rewrite !order_by_asc_perm.
Qed.

Lemma filter_same {A} (P Q : A → Prop) `{∀ x, Decision (P x)} `{∀ x, Decision (Q x)}
    (l : list A) :
  (∀ x, x ∈ l → P x ↔ Q x) → filter P l = filter Q l.
Proof.
  induction l as [|x l IH]; intros Hl; [done|]. rewrite !filter_cons.
  rewrite IH by (intros y Hy; apply Hl; by right).
  assert (P x ↔ Q x) as Hx by (apply Hl; left). repeat case_decide; tauto.
Qed.

Lemma product_ids_spec items k : k ∈ product_ids items ↔ k ∈ li_product_id <$> items.
Proof. unfold product_ids. by rewrite merge_sort_Permutation, elem_of_remove_dups. Qed.

#[local] Instance N_le_total : Total N.le.
Proof. intros a b. lia. Qed.

Lemma strictly_sorted l : StronglySorted N.le l → NoDup l → StronglySorted N.lt l.
Proof.
  induction 1 as [|x l Hs IH Hall]; intros Hnd; [constructor|].
  apply NoDup_cons in Hnd as [Hx Hnd]. constructor; [by apply IH|].
  rewrite Forall_forall in Hall |- *. intros y Hy. specialize (Hall y Hy).
  assert (x ≠ y) by (by intros ->). lia.
Qed.

Lemma product_ids_sorted items :
  StronglySorted N.lt (product_ids items) ∧ NoDup (product_ids items).
Proof.
  assert (NoDup (product_ids items)) as Hnd.
  { unfold product_ids. rewrite merge_sort_Permutation. apply NoDup_remove_dups. }
  split; [|done]. apply strictly_sorted; [apply StronglySorted_merge_sort; apply _|done].
Qed.

(** ** Checkouts *)

Lemma products_to_lock_spec d c k :
  reads_products c →
  k ∈ products_to_lock d c ↔ is_Some (products d !! k) ∧ k ∈ product_ids (ck_items c).
Proof.
  intros Hr. unfold products_to_lock. rewrite decide_True by done. by rewrite list_elem_of_filter.
Qed.

Lemma products_to_lock_asked d c k :
  k ∈ products_to_lock d c → is_Some (products d !! k) ∧ k ∈ product_ids (ck_items c).
Proof.
  unfold products_to_lock. case_decide; [by rewrite list_elem_of_filter|by intros ?%not_elem_of_nil].
Qed.

Lemma products_to_lock_sorted d c :
  StronglySorted N.lt (products_to_lock d c) ∧ NoDup (products_to_lock d c).
Proof.
  destruct (product_ids_sorted (ck_items c)). unfold products_to_lock. case_decide.
  - split; [by apply strongly_sorted_filter|by apply NoDup_filter].
  - split; constructor.
Qed.

Lemma products_to_lock_same d d' c :
  (∀ k, is_Some (products d' !! k) ↔ is_Some (products d !! k)) →
  products_to_lock d' c = products_to_lock d c.
Proof. intros Hs. unfold products_to_lock. case_decide; [by apply filter_same|done]. Qed.

Lemma read_is_select d c got :
  keyed (R:=Product) d → reads_products c → (∀ p, p ∈ got → products d !! p_id p = Some p) →
  p_id <$> got = products_to_lock d c →
  got ≡ₚ filter (λ p, p_id p ∈ product_ids (ck_items c)) (rows (products d)).
Proof.
  intros Hk Hr Hc E. destruct (products_to_lock_sorted d c) as [_ Hnd]. rewrite <- E in Hnd.
  apply NoDup_Permutation.
  - by apply NoDup_fmap_1 in Hnd.
  - apply NoDup_filter. pose proof (keyed_rows_NoDup (R:=Product) d Hk) as Hn.
    by apply NoDup_fmap_1 in Hn.
  - intros p. rewrite elem_of_selected. split.
    + intros Hp. apply Hc in Hp as Hrow. split; [|by exists (p_id p)].
      apply (products_to_lock_asked d). rewrite <- E. by apply list_elem_of_fmap_2.
    + intros [Hin [k Hrow]]. pose proof (Hk _ _ Hrow) as Hid. cbn in Hid, Hrow.
      assert (p_id p ∈ p_id <$> got) as (q & Eq & Hq)%list_elem_of_fmap.
      { rewrite E. apply products_to_lock_spec; [done|]. split; [|done]. rewrite Hid. by eexists. }
      apply Hc in Hq as Hrow'. rewrite <- Eq, Hid, Hrow in Hrow'. by injection Hrow' as ->.
Qed.

(** On the locked products, the checkout goes on as it would have. *)
Lemma checkout_on_locked d c got :
  keyed (R:=Product) d → (∀ p, p ∈ got → products d !! p_id p = Some p) →
  p_id <$> got = products_to_lock d c →
  checkout_on c (λ _, mret got) d =
    get_db (create_order (ck_customer c) (ck_items c) (ck_address c)) (ck_env c) d.
Proof.
  intros Hk Hc E. unfold checkout_on, get_db, create_order, create_order_on.
  unfold mbind, M_bind, mret, M_ret, raise_if, select, query.
  do 2 (case_decide; [done|]). destruct (u_referring_seller_id _) as [sid|] eqn:Eref; [|done].
  assert (reads_products c) as Hr by (split_and!; [done..|by rewrite Eref]).
  pose proof (read_is_select d c got Hk Hr Hc E) as Hp.
  assert (NoDup ((λ p, Z.of_N (p_id p)) <$> got)) as Hnd.
  { rewrite (list_fmap_compose p_id Z.of_N). apply NoDup_fmap_2; [apply _|].
    rewrite E. apply products_to_lock_sorted. }
  by rewrite (order_by_asc_unique _ _ _ Hnd Hp).
Qed.

Lemma create_order_uncommitted cust items addr :
  stable same_committed (create_order cust items addr).
Proof. stable_call. Qed.

(** It takes from the stock of the products it asked for, or changes nothing. *)
Lemma checkout_frame c d out d' :
  keyed (R:=Product) d →
  get_db (create_order (ck_customer c) (ck_items c) (ck_address c)) (ck_env c) d = (out, d') →
  (∀ k, products d' !! k = products d !! k ∨
        reads_products c ∧ k ∈ product_ids (ck_items c)) ∧
  (∀ k, is_Some (products d' !! k) ↔ is_Some (products d !! k)).
Proof.
  intros Hk. destruct out as [r|e]; intros H.
  2: { apply get_db_atomic in H as ->; [split; [by left|done]|apply create_order_uncommitted]. }
  apply get_db_Ok in H as (s' & H & ->). apply create_order_Ok in H as
    (sid & o & new & total & Hr & Hi & Hs & _ & _ & _ & _ & _ & _ & _ & ->); [|done].
  cbn. unfold stock_taken. split; intros k; rewrite map_lookup_imap.
  - destruct (decide (k ∈ product_ids (ck_items c))) as [Hin|Hout].
    + right. split; [|done]. split_and!; [done..|by eexists].
    + left. rewrite product_ids_spec in Hout.
      change (line_sum (only k) (lines_of (ck_items c))) with (ordered_qty (ck_items c) k).
      rewrite ordered_qty_absent by done. destruct (products d !! k); cbn; [|done].
      by rewrite take_stock_0.
  - destruct (products d !! k); cbn; split; intros []; first [done|by eexists].
Qed.

(** ** Sign-ups *)

(** At most one invite has the token of a sign-up, and that is what it locks. *)
Lemma invite_read d j :
  unique_rows (R:=InviteLink) d → is_common_password (sr_password (jn_request j)) = false →
  let P := λ i, i_token i = sr_invite_token (jn_request j) in
  (filter P (rows (invite_links d)) = [] ∧ invites_to_lock d j = []) ∨
  ∃ k i, invite_links d !! k = Some i ∧ filter P (rows (invite_links d)) = [i] ∧
    invites_to_lock d j = [k].
Proof.
  intros Hu Hpw P. unfold invites_to_lock. rewrite decide_False by by rewrite Hpw.
  assert (∀ k1 k2 x y, invite_links d !! k1 = Some x → invite_links d !! k2 = Some y →
    P x → P y → k1 = k2) as Hone.
  { intros k1 k2 x y H1 H2 Hx Hy. apply dec_stable. intros Hne.
    apply (Hu k1 k2 x y H1 H2 Hne). left. by rewrite Hx, Hy. }
  destruct (one_of_unique (invite_links d) P Hone) as [(k & i & Hk & HP & E)|[Hno E]].
  - right. exists k, i. split_and!; [done..|].
    assert (filter (λ ki, i_token ki.2 = sr_invite_token (jn_request j)) (invite_links d) = {[k := i]}) as ->.
    { apply map_eq. intros k'. apply option_eq. intros i'.
      rewrite map_lookup_filter_Some, lookup_singleton_Some. cbn. split.
      - intros [Hk' HP']. split; [by eapply Hone|].
        assert (k' = k) as -> by by eapply Hone. congruence.
      - intros [<- <-]. done. }
    by rewrite dom_singleton_L, elements_singleton.
  - left. split; [done|].
    assert (filter (λ ki, i_token ki.2 = sr_invite_token (jn_request j)) (invite_links d) = ∅) as ->.
    { apply map_empty. intros k. apply map_lookup_filter_None. right. intros i Hi. by apply (Hno k). }
    by rewrite dom_empty_L, elements_empty.
Qed.

Lemma invites_to_lock_common d j :
  is_common_password (sr_password (jn_request j)) = true → invites_to_lock d j = [].
Proof. intros Hpw. unfold invites_to_lock. by rewrite decide_True. Qed.

Lemma invites_to_lock_spec d j k :
  k ∈ invites_to_lock d j → ∃ i, invite_links d !! k = Some i.
Proof.
  unfold invites_to_lock. case_decide; [by intros ?%not_elem_of_nil|].
  rewrite elem_of_elements, elem_of_dom. intros [i [Hi _]%map_lookup_filter_Some]. by exists i.
Qed.

(** The rows that keep their tokens are locked by the same sign-ups. *)
Lemma invites_to_lock_same d d' j :
  (∀ k, i_token <$> invite_links d' !! k = i_token <$> invite_links d !! k) →
  invites_to_lock d' j = invites_to_lock d j.
Proof.
  intros Hs. unfold invites_to_lock. case_decide; [done|]. f_equal. apply set_eq. intros k.
  assert (∀ d1 d2 : DB, i_token <$> invite_links d2 !! k = i_token <$> invite_links d1 !! k →
    k ∈ dom (filter (λ ki, i_token ki.2 = sr_invite_token (jn_request j)) (invite_links d1)) →
    k ∈ dom (filter (λ ki, i_token ki.2 = sr_invite_token (jn_request j)) (invite_links d2)))
    as Hsub.
  { intros d1 d2 E. rewrite !elem_of_dom. intros [i [Hi Ht]%map_lookup_filter_Some].
    rewrite Hi in E. apply fmap_Some in E as (i2 & Hi2 & E). exists i2.
    apply map_lookup_filter_Some. cbn in *. by rewrite <- E. }
  split; by apply Hsub.
Qed.

Lemma consumed_lock_same d d' i k j :
  keyed (R:=InviteLink) d → invite_links d !! k = Some i →
  invite_links d' = <[i_id i := used_once i]> (invite_links d) →
  invites_to_lock d' j = invites_to_lock d j.
Proof.
  intros Hk Hi E. apply invites_to_lock_same. intros k'. rewrite E.
  pose proof (Hk _ _ Hi) as Hid. cbn in Hid. destruct (decide (k' = k)) as [->|Hne].
  - by rewrite Hid, lookup_insert_eq, Hi.
  - by rewrite lookup_insert_ne by congruence.
Qed.

Section signups.
Context `{Crypto} (settings : Settings).

(** On the locked invite, the sign-up goes on as it would have. *)
Lemma joining_on_locked d j got :
  is_common_password (sr_password (jn_request j)) = true ∨
    filter (λ i, i_token i = sr_invite_token (jn_request j)) (rows (invite_links d)) = got →
  joining_on settings j (λ _, scalar_one_or_none got) d =
    get_db (signup settings (jn_request j)) (jn_env j) d.
Proof.
  intros Hgot. unfold joining_on, get_db, signup, signup_on, consume_invite_on.
  rewrite !raise_if_run. case_decide as Hpw; [done|]. destruct Hgot as [?|<-]; [done|].
  unfold mbind, M_bind. cbn beta. rewrite select_one_eq. cbn [working open_session table].
  unfold scalar_one_or_none. by destruct (filter _ _) as [|i1 [|i2 l]].
Qed.

(** It uses up its own invite, or changes nothing. *)
Lemma joining_frame d j out d' :
  keyed (R:=InviteLink) d → unique_rows (R:=InviteLink) d →
  get_db (signup settings (jn_request j)) (jn_env j) d = (out, d') →
  products d' = products d ∧
  (invite_links d' = invite_links d ∨
   ∃ k i, invite_links d !! k = Some i ∧ k ∈ invites_to_lock d j ∧
     invite_links d' = <[k := used_once i]> (invite_links d)).
Proof.
  intros Hk Hu Hr. destruct out as [r|e].
  - apply get_db_Ok in Hr as (s' & Hr & ->). apply signup_Ok in Hr as
      (i & k & role & u & rf & row & Hi & Htok & _ & _ & _ & _ & Hpw & _ & _ & _ & _ & _ & _ & _ &
       _ & _ & _ & _ & _ & ->).
    split; [done|]. right. exists k, i. cbn in Hi |- *.
    pose proof (Hk _ _ Hi) as Hid. cbn in Hid. split_and!; [done| |by rewrite Hid].
    unfold invites_to_lock. rewrite decide_False by by rewrite Hpw.
    apply elem_of_elements, elem_of_dom. exists i. by apply map_lookup_filter_Some.
  - apply get_db_Raised in Hr as (s' & Hr & ->).
    assert (committed s' = d) as ->; [|by split; [|left]].
    assert (atomic (account_exec settings (Signup (jn_request j)))) as Ha
      by by apply failing_calls_atomic.
    exact (Ha _ _ _ _ (ignore_raised _ _ _ _ _ Hr)).
Qed.
End signups.

(** ** The calls keep the promises of [LockedCallsLaws] *)

Section schedules.
Context `{Crypto, EmailStr, Libm, FromIso, Storage} (settings : Settings).
#[local] Instance calls_here : LockedCalls DB LockKey LockingCall LockedRow LockedAnswer :=
  marketplace_calls settings.

Lemma create_order_sound cust items addr : stable keeps_sound (create_order cust items addr).
Proof. unfold create_order, create_order_on. stable_api. Qed.
Lemma signup_sound req : stable keeps_sound (signup settings req).
Proof. unfold signup, signup_on, consume_invite_on. stable_api. Qed.

Lemma create_order_invites cust items addr :
  stable (same_table InviteLink) (create_order cust items addr).
Proof. stable_call. Qed.

Lemma sound_tables d :
  sound d → keyed (R:=Product) d ∧ keyed (R:=InviteLink) d ∧ unique_rows (R:=InviteLink) d.
Proof.
  intros [Hw _]. destruct (Hw t_products) as (? & _). by destruct (Hw t_invite_links) as (? & _ & ?).
Qed.

(** The rows read under the locks, of either table. *)
Lemma locked_products_read d (ids : list uuid) (got : list (LockKey * LockedRow)) :
  keyed (R:=Product) d → got.*1 = inl <$> ids →
  Forall (λ kr, locked_row d kr.1 = Some kr.2) got →
  p_id <$> locked_products got.*2 = ids ∧
  ∀ p, p ∈ locked_products got.*2 → products d !! p_id p = Some p.
Proof.
  intros Hk. revert ids. induction got as [|[k r] got IH]; intros ids E Hcur.
  - destruct ids; [|done]. split; [done|]. by intros p ?%not_elem_of_nil.
  - destruct ids as [|id ids]; [done|]. injection E as -> E. apply Forall_cons in Hcur as [Hr Hcur].
    cbn in Hr. apply fmap_Some in Hr as (p & Hp & ->). destruct (IH ids E Hcur) as [E' Hp'].
    pose proof (Hk _ _ Hp) as Hid. cbn in Hid, Hp |- *. split; [by rewrite Hid, <- E'|].
    intros q [->|Hq]%elem_of_cons; [by rewrite Hid|by apply Hp'].
Qed.

Lemma locked_invites_read d (ids : list uuid) (got : list (LockKey * LockedRow)) :
  got.*1 = inr <$> ids → Forall (λ kr, locked_row d kr.1 = Some kr.2) got →
  Some <$> locked_invites got.*2 = (λ id, invite_links d !! id) <$> ids.
Proof.
  revert ids. induction got as [|[k r] got IH]; intros ids E Hcur; destruct ids as [|id ids]; try done.
  injection E as -> E. apply Forall_cons in Hcur as [Hr Hcur]. cbn in Hr.
  apply fmap_Some in Hr as (i & Hi & ->). cbn. rewrite Hi. f_equal. by apply IH.
Qed.

Lemma go_on_current d c (got : list (LockKey * LockedRow)) :
  sound d → got.*1 = rows_to_lock d c → Forall (λ kr, locked_row d kr.1 = Some kr.2) got →
  go_on settings c got.*2 d = run_call settings c d.
Proof.
  intros (Hp & _ & Hu)%sound_tables E Hcur. destruct c as [c|j]; cbn in *.
  - destruct (locked_products_read d _ got Hp E Hcur) as [E' Hrows].
    by rewrite (checkout_on_locked d c (locked_products got.*2) Hp Hrows E').
  - rewrite joining_on_locked; [done|].
    destruct (is_common_password (sr_password (jn_request j))) eqn:Hpw; [by left|right].
    pose proof (locked_invites_read d _ got E Hcur) as E'.
    destruct (invite_read d j Hu Hpw) as [[-> Hids]|(k & i & Hi & -> & Hids)];
      rewrite Hids in E'; cbn in E'.
    + by destruct (locked_invites got.*2).
    + destruct (locked_invites got.*2) as [|i' [|]]; try done. injection E' as E'. congruence.
Qed.

Lemma run_call_frame c d out d' :
  sound d → run_call settings c d = (out, d') →
  (∀ k, locked_row d' k = locked_row d k ∨ k ∈ rows_to_lock d c) ∧
  (∀ c', rows_to_lock d' c' = rows_to_lock d c').
Proof.
  intros Hs Hr. destruct (sound_tables d Hs) as (Hp & Hi & Hu). destruct c as [c|j]; cbn in Hr.
  - destruct (get_db _ _ _) as [o d1] eqn:E. injection Hr as _ <-.
    destruct (checkout_frame _ _ _ _ Hp E) as [Hframe Hex].
    assert (invite_links d1 = invite_links d) as Einv.
    { unfold get_db in E. destruct (create_order _ _ _ _ _) as [[a|e] s] eqn:Ec.
      - injection E as _ <-. by apply create_order_invites in Ec.
      - assert (committed s = d) as Ed by by apply create_order_uncommitted in Ec.
        injection E as _ <-. by rewrite Ed. }
    split.
    + intros [k|k]; cbn; [|left; by rewrite Einv].
      destruct (Hframe k) as [->|[Hreads Hin]]; [by left|].
      destruct (products d !! k) as [p|] eqn:Ek.
      * right. apply list_elem_of_fmap_2, products_to_lock_spec; [done|]. by rewrite Ek.
      * left. destruct (products d1 !! k) eqn:Ek1; [|done].
        assert (is_Some (products d !! k)) as [? ?] by (apply Hex; by eexists). congruence.
    + intros [c'|j']; cbn; f_equal; [by apply products_to_lock_same|].
      apply invites_to_lock_same. intros k. by rewrite Einv.
  - destruct (get_db _ _ _) as [o d1] eqn:E. injection Hr as _ <-.
    destruct (joining_frame settings d j o d1 Hi Hu E) as (Eprod & Hinv). split.
    + intros [k|k]; cbn; [left; by rewrite Eprod|].
      destruct Hinv as [->|(k0 & i & _ & Hin & ->)]; [by left|].
      destruct (decide (k = k0)) as [->|Hne]; [right|left].
      * by apply list_elem_of_fmap_2.
      * by rewrite lookup_insert_ne.
    + intros [c'|j']; cbn; f_equal.
      * apply products_to_lock_same. intros k. by rewrite Eprod.
      * destruct Hinv as [Einv|(k0 & i & Hk0 & _ & Einv)].
        -- apply invites_to_lock_same. intros k. by rewrite Einv.
        -- eapply consumed_lock_same; [done..|]. pose proof (Hi _ _ Hk0) as Hid. cbn in Hid.
           by rewrite Hid.
Qed.

Lemma run_call_sound c d out d' : sound d → run_call settings c d = (out, d') → sound d'.
Proof.
  intros Hs Hr. destruct c as [c|j]; cbn in Hr;
    destruct (get_db _ _ _) as [o d1] eqn:E; injection Hr as _ <-;
    (eapply get_db_sound; [|exact E|done]); [apply create_order_sound|apply signup_sound].
Qed.

Lemma rows_to_lock_upwards d c :
  sound d →
  StronglySorted (λ k k' : LockKey, rank k < rank k')%N (rows_to_lock d c).
Proof.
  intros (_ & _ & Hu)%sound_tables. destruct c as [c|j]; cbn.
  - eapply StronglySorted_fmap; [|apply products_to_lock_sorted]. done.
  - destruct (is_common_password (sr_password (jn_request j))) eqn:Hpw.
    + rewrite invites_to_lock_common by done. constructor.
    + destruct (invite_read d j Hu Hpw) as [[_ ->]|(k & i & _ & _ & ->)]; repeat constructor.
Qed.

#[local] Instance marketplace_laws :
  LockedCallsLaws DB LockKey LockingCall LockedRow LockedAnswer sound.
Proof.
  split; cbn.
  - intros d [c|j] k; cbn; intros (id & -> & Hid)%list_elem_of_fmap; cbn; apply fmap_is_Some.
    + by apply products_to_lock_asked in Hid as [? _].
    + apply invites_to_lock_spec in Hid as [i ->]. by eexists.
  - apply rows_to_lock_upwards.
  - apply go_on_current.
  - intros d c out d' k Hs Hr. by apply (run_call_frame _ _ _ _ Hs Hr).
  - intros d c out d' c' Hs Hr. by apply (run_call_frame _ _ _ _ Hs Hr).
  - intros d c out d'. apply run_call_sound.
Qed.

Lemma serve_request_sound r d : sound d → sound (serve_request settings r d).
Proof.
  unfold serve_request. destruct (serve settings r.1 r.2 d) as [out d'] eqn:E.
  by eapply serve_sound.
Qed.

(** ** The properties *)

Implicit Types cf : Schedule.
Abbreviation step := (conc_step (serve_request settings)).


(** C7: Checkouts and sign-ups never deadlock.  In every configuration
    that a schedule can reach, the calls under way can all be brought to their
    end by steps of their own; they take no more of them than there are locks and
    calls left, whichever goes first; and a schedule that comes to a halt has
    ended them all. *)
Theorem locked_calls_never_deadlock d cf :
  sound d → rtc step (idle d) cf →
  (∃ cf', rtc call_step cf cf' ∧ all_ended cf') ∧
  ∀ n cf', nsteps call_step n cf cf' →
    n ≤ work cf ∧ ((∀ cf'', ¬ call_step cf' cf'') → all_ended cf').
Proof. exact (schedules_complete (serve_request settings) sound serve_request_sound d cf). Qed.
End schedules.

(** ** Witnesses *)

#[local] Existing Instance iso_reader.
#[local] Existing Instance no_maths.
#[local] Existing Instance bucket.
#[local] Existing Instance any_address.
#[local] Instance w_calls : LockedCalls DB LockKey LockingCall LockedRow LockedAnswer :=
  marketplace_calls w_settings.

Inductive Move := Begin (i : nat) (c : LockingCall) | Lock (i : nat) | Finish (i : nat).
Definition move (m : Move) (cf : Schedule) : option Schedule :=
  match m with
  | Begin i c => begin_tx i c cf
  | Lock i => lock_next i cf
  | Finish i => finish i cf
  end.
Fixpoint run_moves (ms : list Move) (cf : Schedule) : option Schedule :=
  match ms with [] => Some cf | m :: ms' => move m cf ≫= run_moves ms' end.
Definition result (d : DB) (ms : list Move) : Schedule :=
  default (idle d) (run_moves ms (idle d)).

Lemma moves_reached d ms :
  bool_decide (is_Some (run_moves ms (idle d))) = true →
  rtc (conc_step (serve_request w_settings)) (idle d) (result d ms).
Proof.
  intros [cf E]%bool_decide_eq_true. unfold result. rewrite E. cbn. revert E.
  generalize (idle d : Schedule). induction ms as [|m ms IH]; cbn; intros cf0; [by intros [= ->]|].
  intros (cf1 & Hm & Hp)%bind_Some. eapply rtc_l; [|by apply IH]. destruct m as [i c|i|i].
  - by eapply cc_begin.
  - apply cc_call. by eapply cs_lock.
  - apply cc_call. by eapply cs_finish.
Qed.

(** Two baskets with the same products in opposite orders, each with three teas,
    of which there are five; and two drivers with the same invite. *)
Definition first_basket : LockingCall :=
  PlaceOrder (mkCheckout alice [mkLineItem 20 3; mkLineItem 21 1] no_address (env_at 4)).
Definition second_basket : LockingCall :=
  PlaceOrder (mkCheckout alice [mkLineItem 21 1; mkLineItem 20 3] no_address (env_at 5)).
Definition first_driver : LockingCall := Join (mkJoining driver_signup (env_at 2)).
Definition second_driver : LockingCall :=
  Join (mkJoining (mkSignup "odo@x" "correct horse battery" "Odo" None "A0-token" None) (env_at 3)).

Definition overlapping : list Move :=
  [Begin 0 first_basket; Begin 1 second_basket; Begin 2 first_driver; Begin 3 second_driver;
   Lock 1; Lock 2; Lock 1; Finish 2; Lock 3; Finish 1; Lock 0; Finish 3; Lock 0; Finish 0].
Definition error_of (cf : Schedule) (i : nat) : option (option exc) :=
  tx ← cf_txs cf !! i;
  match tx.2 with
  | Ended (Ordered (Raised e)) | Ended (Joined (Raised e)) => Some (Some e)
  | Ended _ => Some None
  | Locking _ _ => None
  end.

Lemma invited_sound : sound w_invited.
Proof. split; [well_formed_eval|intact_eval]. Qed.


(** While one holds the tea the other waits; still both come to their end. *)
Definition half_way : list Move := [Begin 0 first_basket; Begin 1 second_basket; Lock 1].
Definition waiting : Schedule := result w_invited half_way.
Lemma locked_calls_never_deadlock_witness :
  bool_decide (is_Some (lock_next 0 waiting)) = false ∧ work waiting = 5 ∧
  ∃ cf, rtc call_step waiting cf ∧ all_ended cf.
Proof.
  split; [vm_compute; reflexivity|]. split; [vm_compute; reflexivity|].
  exact (proj1 (locked_calls_never_deadlock w_settings w_invited waiting invited_sound
    (moves_reached w_invited half_way ltac:(vm_compute; reflexivity)))).
Defined.

(** Were the locks taken in the order of the line items, the two baskets could
    stop each other for good. *)
Example unordered_locks_deadlock :
  let cf : Schedule := mkConfig world {[inl 20%N := 0; inl 21%N := 1]}
    {[0 := (first_basket, Locking [inl 21%N] [(inl 20%N, LockedProduct tea)]);
      1 := (second_basket, Locking [inl 20%N] [(inl 21%N, LockedProduct cake)])]} [] in
  move (Lock 0) cf = None ∧ move (Finish 0) cf = None ∧
  move (Lock 1) cf = None ∧ move (Finish 1) cf = None.
Proof. split_and!; reflexivity. Qed.
