(* ===== verification/System.v ===== *)
(** * The whole system

    The HTTP API, the WebSocket gateway, the purge scheduler and the rollup
    script as the events of one platform; and the refinement of its events to
    the requests of the component machines, which carries their invariants over
    to the whole. *)

From S2P Require Import Prelude.
From S2P Require Import Exceptions.
From S2P Require Import Models.
From S2P Require Import Session.
From S2P Require Import SessionFacts.
From S2P Require Import Security.
From S2P Require Import Invites.
From S2P Require Import Auth.
From S2P Require Import AccountMachine.
From S2P Require Import PyFloat.
From S2P Require Import Orders.
From S2P Require Import Retention.
From S2P Require Import OrderMachine.
From S2P Require Import DeliveryFlow.
From S2P Require Import DeliveryProps.
From S2P Require Import Messaging.
From S2P Require Import MessagingProps.
From S2P Require Import DeliveryTracking.
From S2P Require Import Timestamps.
From S2P Require Import Gateway.
From S2P Require Import GatewayPlatform.
From S2P Require Import Stores.
From S2P Require Import Products.
From S2P Require Import ProductProps.
From S2P Require Import Admin.
From S2P Require Import Push.
From S2P Require Import Upload.
From S2P Require Import Schemas.
From S2P Require Import Api.
From S2P Require Import Routes.
From S2P Require Import Footprints.
From S2P Require Import WellFormed.
From S2P Require Import Access.

(** ** Requests of the components *)

Inductive catalogue_request (d d' : DB) : Prop :=
| CatalogueRequest env caller call out :
    get_db (catalogue_exec caller call) env d = (out, d') → catalogue_request d d'.
Inductive tracking_request (d d' : DB) : Prop :=
| LocationRequest env caller oid lat lng eta dist out :
    get_db (ignore (post_location caller oid lat lng eta dist)) env d = (out, d') →
    tracking_request d d'
| ReassignRequest env caller oid drv dist dur out :
    get_db (ignore (admin_patch_delivery caller oid drv dist dur)) env d = (out, d') →
    tracking_request d d'.
Inductive panel_request `{FromIso} (d d' : DB) : Prop :=
| PanelRequest env caller call out :
    get_db (admin_exec caller call) env d = (out, d') → panel_request d d'.
Inductive device_request (d d' : DB) : Prop :=
| DeviceRequest env uid platform token out :
    get_db (ignore (register_device uid platform token)) env d = (out, d') → device_request d d'.

(** The components, and the change that one operation of each makes. *)
Inductive Component :=
| Accounts | OrderService | DeliveryFlowService | Catalogue | MessagingService | Tracking
| AdminPanel | Devices | SettingsRow | Reporting | ReadOnly.

Definition component_of_public (r : PublicRequest) : Component := Accounts.
Definition component_of (r : MemberRequest) : Component :=
  match r with
  | PostLogout _ | PostLogoutAll | PatchMe _ | PostMePassword _ | GetMeNotifications
  | PatchMeNotifications _ | PostAdminInvite _ | PostSellerReferral
  | PostSellerReferralRegenerate | DeleteInvite _ => Accounts
  | PostStore _ | PatchMyStore _ | PostProduct _ | PatchProduct _ _ | Api.DeleteProduct _ => Catalogue
  | PostOrder _ | PostOrderAccept _ | PostOrderPreparing _ | PostOrderSelfDeliver _
  | PostOrderRequestDriver _ | PostOrderOutForDelivery _ | PostOrderDelivered _
  | PostOrderComplete _ | PostOrderCancel _ _ | DeleteOrderRequest _ | PostAssignDriver _ _
  | PostPurgeOrders => OrderService
  | GetRetention | PatchRetention _ | GetMessageRetention | PatchMessageRetention _ => SettingsRow
  | PostDeliveryLocation _ _ | PatchAdminDelivery _ _ => Tracking
  | PostDriverAccept _ | PostDriverLocation _ _ | PostDriverComplete _ _ | Api.PostChat _ _ =>
      DeliveryFlowService
  | PostPurgeMessages | PostKey _ | DeleteKey _ | PostConversation _ | PostMessage _ _
  | PostMessageRead _ _ => MessagingService
  | Panel _ => AdminPanel
  | PostDevice _ => Devices
  | _ => ReadOnly
  end.

Definition component_step `{Crypto, FromIso} (settings : Settings) (c : Component) (d d' : DB) :
    Prop :=
  match c with
  | Accounts => account_request settings d d'
  | OrderService => order_request d d'
  | DeliveryFlowService => flow_request d d'
  | Catalogue => catalogue_request d d'
  | MessagingService => messaging_request d d'
  | Tracking => tracking_request d d'
  | AdminPanel => panel_request d d'
  | Devices => device_request d d'
  | SettingsRow => agree_outside [t_platform_settings] d d'
  | Reporting => agree_outside [t_rollups] d d'
  | ReadOnly => d' = d
  end.

(** The tables a component may write. *)
Definition component_tables (c : Component) : list TableName :=
  match c with
  | Accounts => [t_users; t_invite_links; t_referrals; t_refresh_tokens; t_prefs]
  | OrderService =>
      t_products :: t_snapshots :: t_platform_settings :: order_tables
  | DeliveryFlowService =>
      [t_orders; t_deliveries; t_delivery_codes; t_attempts; t_tracking_points; t_order_messages]
  | Catalogue => [t_sellers; t_stores; t_products; t_product_images]
  | MessagingService => [t_conversations; t_messages; t_public_keys; t_platform_settings]
  | Tracking => [t_deliveries]
  | AdminPanel => [t_users; t_invite_links; t_products; t_platform_settings; t_messages]
  | Devices => [t_devices]
  | SettingsRow => [t_platform_settings]
  | Reporting => [t_rollups]
  | ReadOnly => []
  end.

(** Every endpoint stays within the tables of its component. *)
Lemma footprint_owned r : footprint r ⊆ component_tables (component_of r).
Proof. destruct r; try destruct call; apply (bool_decide_unpack _); vm_compute; exact I. Qed.
Lemma public_footprint_owned r : public_footprint r ⊆ component_tables (component_of_public r).
Proof. destruct r; apply (bool_decide_unpack _); vm_compute; exact I. Qed.

Lemma ignore_get_db {A} (m : M A) env d o d' :
  get_db m env d = (o, d') → ∃ o', get_db (ignore m) env d = (o', d').
Proof.
  unfold get_db, ignore, mbind, M_bind.
  destruct (m env (open_session d)) as [[a|e] s1]; intros [= _ <-]; by eexists.
Qed.

(** A program whose tail cannot fail. *)
Lemma bind_ret_get_db {A B} (m : M A) (f : A → B) env d o d' :
  get_db (a ← m; mret (f a)) env d = (o, d') → ∃ o', get_db (ignore m) env d = (o', d').
Proof.
  unfold get_db, ignore, mbind, M_bind.
  destruct (m env (open_session d)) as [[a|e] s1]; intros [= _ <-]; by eexists.
Qed.

(** A program that never commits and then only reads. *)
Lemma bind_reads_get_db {A B} (m : M A) (k : A → M B) env d o d' :
  stable same_committed m → (∀ a, stable reads_only (k a)) →
  get_db (m ≫= k) env d = (o, d') → d' = d ∨ ∃ o', get_db (ignore m) env d = (o', d').
Proof.
  intros Hm Hk. unfold get_db, ignore, mbind, M_bind.
  destruct (m env (open_session d)) as [[a|e] s1] eqn:E.
  - apply Hm in E. destruct (k a env s1) as [[b|e] s2] eqn:E2; apply Hk in E2 as [Hc Hw];
      intros [= _ <-]; [right; rewrite Hw; by eexists|left; rewrite Hc; exact E].
  - intros [= _ <-]. right. by eexists.
Qed.

Lemma unit_get_db (m : M unit) env d o d' :
  get_db (ignore m) env d = (o, d') → ∃ o', get_db m env d = (o', d').
Proof.
  unfold get_db, ignore, mbind, M_bind.
  destruct (m env (open_session d)) as [[a|e] s1]; intros [= _ <-]; by eexists.
Qed.

Lemma unignore_get_db {A} (m : M A) env d o d' :
  get_db (ignore m) env d = (o, d') → ∃ o', get_db m env d = (o', d').
Proof.
  unfold get_db, ignore, mbind, M_bind.
  destruct (m env (open_session d)) as [[a|e] s1]; intros [= _ <-]; by eexists.
Qed.

(** The routes of a store read the seller once more. *)
Lemma post_store_refines caller n c de sl p env d o d' :
  get_db (post_store caller n c de sl p) env d = (o, d') →
  d' = d ∨ ∃ o', get_db (ignore (create_store caller n c de sl p)) env d = (o', d').
Proof.
  unfold post_store. intros Hr. eapply bind_reads_get_db; [| |exact Hr].
  - pose proof (catalogue_uncommitted caller (CreateStore n c de sl p)) as Hst.
    intros env' s out s' E. apply (Hst env' s (match out with Ok _ => Ok tt | Raised e => Raised e end)).
    cbn. unfold ignore, mbind, M_bind. rewrite E. by destruct out.
  - intros st. cbn beta. stable_api.
Qed.
Lemma patch_store_refines caller n c de a p env d o d' :
  get_db (patch_my_store caller n c de a p) env d = (o, d') →
  d' = d ∨ ∃ o', get_db (ignore (update_own_store caller n c de a p)) env d = (o', d').
Proof.
  unfold patch_my_store. intros Hr. eapply bind_reads_get_db; [| |exact Hr].
  - unfold update_own_store, Orders._get_caller_seller. stable_tac.
  - intros st. cbn beta. stable_api.
Qed.
Lemma required_refines {A B} (m : M A) (f : A → option B) (g : A → B → Reply) env d o d' :
  get_db (a ← m; b ← required (f a); mret (g a b)) env d = (o, d') →
  stable same_committed m → d' = d ∨ ∃ o', get_db (ignore m) env d = (o', d').
Proof.
  intros Hr Hm. eapply bind_reads_get_db; [exact Hm| |exact Hr].
  intros a. cbn beta. destruct (f a); stable_api.
Qed.

Section refinement.
Context `{Crypto, EmailStr, Libm, FromIso, Storage} (settings : Settings).

Lemma public_refines p env d out d' :
  get_db (public_handler settings p) env d = (out, d') →
  d' = d ∨ account_request settings d d'.
Proof.
  destruct p; unfold_routes; intros Hr;
    try (apply parsed_body_get_db in Hr as [->|(b & _ & Hr)]; [by left|]);
    apply answers_get_db in Hr as [o Hr]; apply ignore_get_db in Hr as [o' Hr]; right.
  - exact (AccountRequest settings d d' env (Signup b) o' Hr).
  - exact (AccountRequest settings d d' env (Login _ _ _) o' Hr).
  - exact (AccountRequest settings d d' env (Refresh _) o' Hr).
  - exact (AccountRequest settings d d' env (ValidateInvite _) o' Hr).
Qed.

(** The requests of one component at a time. *)
Ltac strip Hr :=
  repeat first
    [ apply valid_body_get_db in Hr as [->|Hr]; [by left|]
    | apply parsed_body_get_db in Hr as [->|(? & _ & Hr)]; [by left|] ].
Ltac service Hr :=
  first [ apply answers_get_db in Hr as [? Hr]; apply ignore_get_db in Hr as [? Hr]
        | apply done_get_db in Hr as [? Hr]
        | apply bind_ret_get_db in Hr as [? Hr] ].

Lemma member_refines r caller env d out d' :
  get_db (handler settings caller r) env d = (out, d') →
  d' = d ∨ component_step settings (component_of r) d d'.
Proof.
  intros Hr. assert (agree_outside (footprint r) d d') as Ha.
  { eapply get_db_writes; [apply member_writes|exact Hr]. }
  destruct r; cbn [footprint] in Ha;
    try (left; by apply agree_everywhere); try (right; exact Ha);
    unfold_routes in Hr; strip Hr; try (service Hr).
  (* accounts and invites *)
  - apply unit_get_db in Hr as [? Hr]. right. exact (AccountRequest settings _ _ env (Logout _) _ Hr).
  - apply unit_get_db in Hr as [? Hr]. right. exact (AccountRequest settings _ _ env (LogoutAll _) _ Hr).
  - right. exact (AccountRequest settings _ _ env (UpdateMe _ _ _ _) _ Hr).
  - apply unit_get_db in Hr as [? Hr]. apply except_value_error_get_db in Hr as [? Hr].
    right. exact (AccountRequest settings _ _ env (ChangePassword _ _ _) _ Hr).
  - right. exact (AccountRequest settings _ _ env (GetPrefs _) _ Hr).
  - right. exact (AccountRequest settings _ _ env (UpdatePrefs _ _ _ _ _ _) _ Hr).
  - right. exact (AccountRequest settings _ _ env (CreateAdminInvite _ _ _) _ Hr).
  - right. exact (AccountRequest settings _ _ env (GetReferral _) _ Hr).
  - right. exact (AccountRequest settings _ _ env (RegenerateReferral _) _ Hr).
  - apply unit_get_db in Hr as [? Hr]. right. exact (AccountRequest settings _ _ env (RevokeInvite _ _) _ Hr).
  (* stores and products *)
  - apply unignore_get_db in Hr as [? Hr]. apply post_store_refines in Hr as [->|[? Hr]]; [by left|].
    right. exact (CatalogueRequest _ _ env caller (CreateStore _ _ _ _ _) _ Hr).
  - apply unignore_get_db in Hr as [? Hr]. apply patch_store_refines in Hr as [->|[? Hr]]; [by left|].
    right. exact (CatalogueRequest _ _ env caller (UpdateStore _ _ _ _ _) _ Hr).
  - apply unignore_get_db in Hr as [? Hr]. apply bind_ret_get_db in Hr as [? Hr].
    right. exact (CatalogueRequest _ _ env caller (CreateProduct _ _ _ _ _ _) _ Hr).
  - apply unignore_get_db in Hr as [? Hr]. apply bind_ret_get_db in Hr as [? Hr].
    right. exact (CatalogueRequest _ _ env caller (UpdateProduct _ _ _ _ _ _ _) _ Hr).
  - apply unit_get_db in Hr as [? Hr]. right. exact (CatalogueRequest _ _ env caller (ProductProps.DeleteProduct _) _ Hr).
  (* orders *)
  - right. exact (OrderRequest _ _ env caller (CreateOrder _ _) _ Hr).
  - right. exact (OrderRequest _ _ env caller (AcceptOrder _) _ Hr).
  - right. exact (OrderRequest _ _ env caller (MarkPreparing _) _ Hr).
  - right. exact (OrderRequest _ _ env caller (ChooseSelfDelivery _) _ Hr).
  - right. exact (OrderRequest _ _ env caller (RequestDriver _) _ Hr).
  - right. exact (OrderRequest _ _ env caller (OutForDelivery _) _ Hr).
  - right. exact (OrderRequest _ _ env caller (MarkDelivered _) _ Hr).
  - right. exact (OrderRequest _ _ env caller (CompleteOrder _) _ Hr).
  - right. exact (OrderRequest _ _ env caller (CancelOrder _ _) _ Hr).
  - apply unit_get_db in Hr as [? Hr]. right. exact (OrderRequest _ _ env caller (DeleteOrder _) _ Hr).
  - right. exact (OrderRequest _ _ env caller (AssignDriver _ _) _ Hr).
  - right. exact (OrderRequest _ _ env caller RunPurgeJob _ Hr).
  - right. exact (MessagingRequest _ _ env caller PurgeMessages _ Hr).
  (* deliveries *)
  - right. exact (LocationRequest _ _ env caller _ _ _ _ _ _ Hr).
  - right. exact (ReassignRequest _ _ env caller _ _ _ _ _ Hr).
  - apply required_refines in Hr as [->|[? Hr]]; [by left| |].
    2: { unfold DeliveryFlow.accept_order, hand_to_driver, _generate_code, DeliveryFlow._get_order_or_404.
         stable_tac. }
    right. exact (FlowRequest _ _ env caller (DriverAccept _) _ Hr).
  - right. exact (FlowRequest _ _ env caller (DriverLocation _ _ _) _ Hr).
  - apply required_refines in Hr as [->|[? Hr]]; [by left| |].
    2: { unfold complete_delivery, DeliveryFlow._get_order_or_404. stable_tac. }
    right. exact (FlowRequest _ _ env caller (DriverComplete _ _) _ Hr).
  - right. exact (FlowRequest _ _ env caller (DeliveryProps.PostChat _ _ _) _ Hr).
  (* keys and conversations *)
  - right. exact (MessagingRequest _ _ env caller (RegisterKey _ _) _ Hr).
  - right. exact (MessagingRequest _ _ env caller (RevokeKey _) _ Hr).
  - apply bind_reads_get_db in Hr as [->|[? Hr]]; [by left| | |].
    2: { unfold create_conversation, _can_converse. stable_tac. }
    2: { intros conv. cbn beta. stable_api. }
    right. exact (MessagingRequest _ _ env caller (MessagingProps.CreateConversation _) _ Hr).
  - repeat case_match. apply bind_ret_get_db in Hr as [? Hr].
    right. exact (MessagingRequest _ _ env caller (StoreMessage _ _ _ _ _) _ Hr).
  - right. exact (MessagingRequest _ _ env caller (MarkRead _ _) _ Hr).
  (* the panel and the devices *)
  - apply unignore_get_db in Hr as [? Hr]. right. exact (PanelRequest _ _ env caller call _ Hr).
  - right. exact (DeviceRequest _ _ env _ _ _ _ Hr).
Qed.
End refinement.

(** ** Events *)

Inductive SystemEvent :=
| Http (r : Request)
| WsConnect (c : conn_id) (token : option string)
| WsFrame (c : conn_id) (frame : Frame)
| WsDisconnect (c : conn_id)
| PurgeTick
| RefreshRollups.

Section system.
Context `{Crypto, EmailStr, Libm, FromIso, Storage} (settings : Settings).

(** The database after a request, and the gateway after its broadcasts. *)
Definition after_reply (out : outcome Reply) (g : Gateway) : Gateway :=
  match out with Ok rep => broadcasts rep g | Raised _ => g end.
Definition http (r : Request) (env : Env) (p : Platform) : Platform :=
  let '(out, d') := serve settings r env (pf_db p) in
  mkPlatform d' (after_reply out (pf_gateway p)).

(** A background job in a session of its own: one turn of the loop of
    [core/scheduler.py] swallows the errors of the job. *)
Definition job {A} (m : M A) (env : Env) (p : Platform) : Platform :=
  mkPlatform (get_db m env (pf_db p)).2 (pf_gateway p).

Definition system_handle (env : Env) (ev : SystemEvent) (p : Platform) : Platform :=
  match ev with
  | Http r => http r env p
  | WsConnect c token => platform_handle settings env (Connect c token) p
  | WsFrame c frame => platform_handle settings env (ReceiveFrame c frame) p
  | WsDisconnect c => platform_handle settings env (Disconnected c) p
  | PurgeTick => job run_purge_job env p
  | RefreshRollups => job _refresh env p
  end.

Definition system_step (p p' : Platform) : Prop := ∃ env ev, p' = system_handle env ev p.
Definition system_started (p : Platform) : Prop :=
  well_formed (pf_db p) ∧ pf_gateway p = mkGateway empty_registry [].
Definition system_reachable (p : Platform) : Prop :=
  ∃ p0, system_started p0 ∧ rtc system_step p0 p.

(** ** The database of an event *)

Lemma rollups_well_formed l d :
  well_formed d →
  well_formed (d <| seller_sales_rollups := list_to_map ((λ r, (ro_seller_id r, r)) <$> l) |>).
Proof.
  intros Hw. refine (well_formed_on_table (R:=SellerSalesRollup) (λ _, _) d Hw _).
  intros _. split_and!; [|intros k r _; done|intros k1 k2 r1 r2 _ _ _ Hc; exact Hc].
  intros k r. cbn. intros Hr. apply elem_of_list_to_map_2 in Hr.
  apply list_elem_of_fmap in Hr as (r0 & [= -> ->] & _). done.
Qed.

Lemma refresh_keeps : stable keeps_well_formed _refresh.
Proof.
  unfold _refresh. apply stable_bind; [apply _|apply stable_select, _|intros snapshots].
  apply stable_bind; [apply _| |intros _; apply commit_keeps].
  apply stable_put_db. intros s Hw Hc. split; [|done]. by apply rollups_well_formed.
Qed.

Lemma purge_keeps : stable keeps_well_formed run_purge_job.
Proof. stable_api. Qed.

Definition from_socket (ev : PlatformEvent) : bool :=
  match ev with Connect _ _ | ReceiveFrame _ _ | Disconnected _ => true | _ => false end.
Lemma platform_handle_db env ev p :
  from_socket ev = true → pf_db (platform_handle settings env ev p) = pf_db p.
Proof. destruct ev; intros Hf; try discriminate Hf; cbn; repeat case_match; done. Qed.

(** An event changes the database as a request, a job, or not at all. *)
Lemma system_handle_db env ev p :
  pf_db (system_handle env ev p) =
  match ev with
  | Http r => (serve settings r env (pf_db p)).2
  | PurgeTick => (get_db run_purge_job env (pf_db p)).2
  | RefreshRollups => (get_db _refresh env (pf_db p)).2
  | _ => pf_db p
  end.
Proof.
  destruct ev; cbn [system_handle]; try (by apply platform_handle_db); [|done..].
  unfold http. by destruct (serve settings r env (pf_db p)).
Qed.

Lemma system_step_well_formed p p' :
  system_step p p' → well_formed (pf_db p) → well_formed (pf_db p').
Proof.
  intros (env & ev & ->) Hw. rewrite system_handle_db. destruct ev; try done.
  - destruct (serve settings r env (pf_db p)) as [out d'] eqn:E. by eapply serve_keeps.
  - destruct (get_db run_purge_job env (pf_db p)) as [out d'] eqn:E.
    by eapply get_db_keeps; [apply purge_keeps|..].
  - destruct (get_db _refresh env (pf_db p)) as [out d'] eqn:E.
    by eapply get_db_keeps; [apply refresh_keeps|..].
Qed.

Lemma reachable_well_formed p : system_reachable p → well_formed (pf_db p).
Proof.
  intros (p0 & [Hw _] & Hr). induction Hr as [p|p1 p2 p3 Hs _ IH]; [done|].
  apply IH. by eapply system_step_well_formed.
Qed.

(** ** Replies without broadcasts *)

Definition quiet (m : M Reply) : Prop :=
  ∀ env s rep s', m env s = (Ok rep, s') → broadcasts rep = λ g, g.

Lemma quiet_bind {A} (m : M A) k : (∀ a, quiet (k a)) → quiet (m ≫= k).
Proof. intros Hk env s rep s' (a & s1 & _ & Hr)%bind_Ok. by eapply Hk. Qed.
Lemma quiet_reply a : quiet (mret (reply a)).
Proof. intros env s rep s' [-> _]%ret_Ok. done. Qed.
Lemma quiet_answers {A} (f : A → Answer) m : quiet (answers f m).
Proof. apply quiet_bind. intros a. apply quiet_reply. Qed.
Lemma quiet_done m : quiet (done_ m).
Proof. apply quiet_bind. intros []. apply quiet_reply. Qed.

(** The endpoints that broadcast. *)
Definition broadcasting (r : MemberRequest) : bool :=
  match r with
  | PostOrderOutForDelivery _ | PostOrderDelivered _ | PostDeliveryLocation _ _
  | PostMessage _ _ | PostMessageRead _ _ => true
  | _ => false
  end.

Lemma handler_quiet caller r : broadcasting r = false → quiet (handler settings caller r).
Proof.
  destruct r; intros Hb; try discriminate Hb; unfold_routes;
    repeat first [ apply quiet_answers | apply quiet_done | apply quiet_reply
                 | apply quiet_bind; intros ? ].
Qed.
Lemma public_quiet r : quiet (public_handler settings r).
Proof.
  destruct r; unfold_routes; repeat first [apply quiet_answers|apply quiet_bind; intros ?].
Qed.

(** ** The platform of the gateway *)

(** The conversations are kept as they are, or some are opened. *)
Definition opens_conversations : relation Session := λ s s',
  (conversations (working s) ⊆ conversations (working s')) ∧ committed s' = committed s.
#[local] Instance opens_conversations_rel : SessionRel opens_conversations.
Proof.
  split; [split|].
  - by intros s.
  - intros s1 s2 s3 [H12 E12] [H23 E23]. split; [by etrans|congruence].
  - intros s s' Ec Ew. split; [by rewrite Ew|done].
Qed.
Lemma insert_conversation_opens (conv : Conversation) :
  stable opens_conversations (insert_row conv).
Proof.
  intros env s [b|e] s' E; [|by apply insert_raised in E as ->].
  apply insert_row_Ok in E as (Hnone & _ & _ & ->). split; [|done].
  cbn in Hnone |- *. by apply insert_subseteq.
Qed.
#[local] Hint Resolve insert_conversation_opens : stable.

Lemma kept_pairs d d' : conversations d ⊆ conversations d' → keeps_pairs d d'.
Proof. intros Hs k conv Hc. exists conv. split; [by eapply lookup_weaken|done]. Qed.

Lemma create_conversation_pairs caller peer env d out d' :
  get_db (ignore (create_conversation caller peer)) env d = (out, d') → keeps_pairs d d'.
Proof.
  assert (stable opens_conversations (ignore (create_conversation caller peer))) as Hst.
  { unfold ignore, create_conversation, _can_converse. stable_tac. }
  unfold get_db. destruct (ignore _ env (open_session d)) as [[a|e] s'] eqn:E;
    intros [= _ <-]; apply Hst in E as [Hc Ec]; apply kept_pairs; [done|by rewrite Ec].
Qed.

(** A broadcasting handler is an endpoint of the gateway. *)
Lemma endpoint_http {A} (m : M A) (f : A → Answer) (b : A → Gateway → Gateway) env d g :
  let run := get_db (a ← m; mret (mkReply (f a) (b a))) env d in
  endpoint m b env d g = (run.2, after_reply run.1 g).
Proof.
  unfold endpoint, get_db, mbind, M_bind. by destruct (m env (open_session d)) as [[a|e] s'].
Qed.

Lemma broadcast_step {A} ev (m : M A) (f : A → Answer) b env d g out d' :
  platform_handle settings env ev (mkPlatform d g) = rest (endpoint m b env) (mkPlatform d g) →
  get_db (a ← m; mret (mkReply (f a) (b a))) env d = (out, d') →
  platform_step settings (mkPlatform d g) (mkPlatform d' (after_reply out g)).
Proof.
  intros Hev Hr. pose proof (endpoint_http m f b env d g) as E. cbn zeta in E. rewrite Hr in E.
  pose proof (step_event settings (mkPlatform d g) env ev) as Hs.
  rewrite Hev in Hs. unfold rest in Hs. cbn [pf_db pf_gateway] in Hs. by rewrite E in Hs.
Qed.

Lemma quiet_after {m : M Reply} {env d out d'} g :
  quiet m → get_db m env d = (out, d') → after_reply out g = g.
Proof.
  intros Hq Hr. destruct out as [rep|e]; [|done]. apply get_db_Ok in Hr as (s' & Hr & _).
  cbn. by rewrite (Hq _ _ _ _ Hr).
Qed.

Lemma same_conversations_pairs d d' :
  conversations d' = conversations d → keeps_pairs d d'.
Proof. intros E. apply kept_pairs. by rewrite E. Qed.

(** Every event of the system is a step of the gateway's platform. *)
Lemma member_platform caller r env d out d' g :
  well_formed d' → get_db (handler settings caller r) env d = (out, d') →
  platform_step settings (mkPlatform d g) (mkPlatform d' (after_reply out g)).
Proof.
  intros Hw Hr. assert (keyed (R:=Conversation) d') as Hk by apply (Hw t_conversations).
  assert (agree_outside (footprint r) d d') as Ha.
  { eapply get_db_writes; [apply member_writes|exact Hr]. }
  destruct (broadcasting r) eqn:Hb.
  - destruct r; try discriminate Hb; unfold_routes in Hr.
    + by eapply (broadcast_step (DispatchOrder caller order_id)); [|exact Hr].
    + by eapply (broadcast_step (DeliverOrder caller order_id)); [|exact Hr].
    + unfold get_db, valid_body in Hr. rewrite raise_if_run in Hr. case_decide as Hv.
      { injection Hr as <- <-.
        refine (step_other settings (mkPlatform d g) d _ Hk). by apply same_conversations_pairs. }
      by eapply (broadcast_step (PostLocation caller order_id (lu_lat body) (lu_lng body)
        (lu_eta_seconds body) (lu_distance_meters body)) _ (λ _, NoContent)); [|exact Hr].
    + destruct (valid_send_message body) as [[[ct n] epk]|].
      2: { injection Hr as <- <-.
        refine (step_other settings (mkPlatform d g) d _ Hk). by apply same_conversations_pairs. }
      by eapply (broadcast_step (SendMessage caller conversation_id ct n epk
        (sm_recipient_key_id body)) _ (λ m, MessageAnswer (message_to_response_dict m)));
        [|exact Hr].
    + by eapply (broadcast_step (ReadMessage caller conversation_id message_id) _
        (λ m, MessageAnswer (message_to_response_dict m))); [|exact Hr].
  - rewrite (quiet_after g (handler_quiet caller r Hb) Hr). apply step_other; [|done]. cbn.
    destruct (decide (t_conversations ∈ footprint r)) as [Hin|Hout];
      [|by apply same_conversations_pairs, (Ha t_conversations)].
    apply (bool_decide_eq_true_2 (t_conversations ∈ footprint r)) in Hin.
    destruct r; try discriminate Hin; try discriminate Hb; [|by destruct call].
    unfold_routes in Hr. apply bind_reads_get_db in Hr as [->|[o Hr]].
    + by apply same_conversations_pairs.
    + by eapply create_conversation_pairs.
    + unfold create_conversation, _can_converse. stable_tac.
    + intros conv. cbn beta. stable_api.
Qed.
End system.
