(* ===== verification/SystemFacts.v ===== *)
(** * Facts about the whole system

    Each event of the platform is one request of the component that owns it and
    writes only the tables of that component; so a property of one component's
    tables is an invariant of the system as soon as the components that share
    them keep it. *)

From S2P Require Import Prelude.
From S2P Require Import Exceptions.
From S2P Require Import Models.
From S2P Require Import Session.
From S2P Require Import SessionFacts.
From S2P Require Import Security.
From S2P Require Import Orders.
From S2P Require Import OrdersFacts.
From S2P Require Import Fixtures.
From S2P Require Import Invites.
From S2P Require Import AccountMachine.
From S2P Require Import PyFloat.
From S2P Require Import Retention.
From S2P Require Import RetentionFacts.
From S2P Require Import OrderMachine.
From S2P Require Import OrderProps.
From S2P Require Import DeliveryFlow.
From S2P Require Import DeliveryFlowFacts.
From S2P Require Import DeliveryProps.
From S2P Require Import Timestamps.
From S2P Require Import Gateway.
From S2P Require Import GatewayPlatform.
From S2P Require Import Admin.
From S2P Require Import Upload.
From S2P Require Import Schemas.
From S2P Require Import Api.
From S2P Require Import Routes.
From S2P Require Import Footprints.
From S2P Require Import WellFormed.
From S2P Require Import Access.
From S2P Require Import Integrity.
From S2P Require Import System.

(** The component behind a request. *)
Definition request_component (r : Request) : Component :=
  match r with
  | AsPublic p => component_of_public p
  | AsMember _ m => component_of m
  end.
Definition event_component (ev : SystemEvent) : Component :=
  match ev with
  | Http r => request_component r
  | PurgeTick => OrderService
  | RefreshRollups => Reporting
  | _ => ReadOnly
  end.

Section facts.
Context `{Crypto, EmailStr, Libm, FromIso, Storage} (settings : Settings).

Lemma serve_refines r env d out d' :
  serve settings r env d = (out, d') →
  d' = d ∨ component_step settings (request_component r) d d'.
Proof.
  intros Hs. destruct r as [p|creds m]; [by eapply public_refines|].
  destruct (serve_member settings creds m env d)
    as [(e & s & _ & E)|(caller & s & _ & E)]; rewrite E in Hs.
  - injection Hs as _ <-. by left.
  - by eapply member_refines.
Qed.

Lemma refresh_writes : stable (writes_only [t_rollups]) _refresh.
Proof.
  unfold _refresh. stable_tac.
  refine (writes_put (R:=SellerSalesRollup) _ (λ _, _) _ _). by constructor.
Qed.
Lemma purge_writes :
  stable (writes_only (t_snapshots :: t_platform_settings :: order_tables)) run_purge_job.
Proof. stable_api. Qed.

(** An event of the platform is a request of its component, within the tables
    of that component. *)
Lemma event_refines env ev p :
  let d' := pf_db (system_handle settings env ev p) in
  (d' = pf_db p ∨ component_step settings (event_component ev) (pf_db p) d') ∧
  agree_outside (component_tables (event_component ev)) (pf_db p) d'.
Proof.
  cbn zeta. rewrite system_handle_db.
  destruct ev; try (split; [by left|apply agree_refl]).
  - destruct (serve settings r env (pf_db p)) as [out d'] eqn:E. split; [by eapply serve_refines|].
    eapply agree_weaken; [|by eapply serve_agrees].
    destruct r; [apply public_footprint_owned|apply footprint_owned].
  - destruct (get_db run_purge_job env (pf_db p)) as [out d'] eqn:E. split.
    + right. cbn. assert (get_db (exec root_admin RunPurgeJob) env (pf_db p) =
        (match out with Ok _ => Ok tt | Raised e => Raised e end, d')) as Hx.
      { cbn. revert E. unfold get_db, ignore, mbind, M_bind.
        by destruct (run_purge_job env (open_session (pf_db p))) as [[r|e] s]; intros [= <- <-]. }
      exact (OrderRequest _ _ env _ RunPurgeJob _ Hx).
    + eapply agree_weaken; [|eapply get_db_writes; [apply purge_writes|exact E]].
      apply (bool_decide_unpack _). vm_compute. exact I.
  - destruct (get_db _refresh env (pf_db p)) as [out d'] eqn:E.
    assert (agree_outside [t_rollups] (pf_db p) d') as Ha
      by (eapply get_db_writes; [apply refresh_writes|exact E]).
    by split; [right|].
Qed.

(** ** The gateway's platform *)

Lemma http_platform env r p :
  well_formed (pf_db (http settings r env p)) →
  platform_step settings p (http settings r env p).
Proof.
  destruct p as [d g]. unfold http. cbn [pf_db pf_gateway].
  destruct (serve settings r env d) as [out d'] eqn:E. cbn [pf_db]. intros Hw.
  assert (keyed (R:=Conversation) d') as Hk by apply (Hw t_conversations).
  destruct r as [q|creds m].
  - rewrite (quiet_after g (public_quiet settings q) E).
    refine (step_other settings (mkPlatform d g) d' _ Hk). apply same_conversations_pairs.
    assert (agree_outside (public_footprint q) d d') as Ha
      by (eapply get_db_writes; [apply public_writes|exact E]).
    apply (Ha t_conversations). destruct q; apply (bool_decide_unpack _); vm_compute; exact I.
  - destruct (serve_member settings creds m env d)
      as [(e & s & _ & E')|(caller & s & _ & E')]; rewrite E' in E.
    + injection E as <- <-. refine (step_other settings (mkPlatform d g) d _ Hk).
      by apply same_conversations_pairs.
    + by eapply member_platform.
Qed.

Lemma system_step_platform p p' :
  system_step settings p p' → well_formed (pf_db p) → platform_step settings p p'.
Proof.
  intros Hs Hw. assert (well_formed (pf_db p')) as Hw' by by eapply system_step_well_formed.
  destruct Hs as (env & ev & ->).
  assert (∀ q, pf_gateway q = pf_gateway p → well_formed (pf_db q) →
    conversations (pf_db q) = conversations (pf_db p) → platform_step settings p q) as Hother.
  { intros [d g] Eg Hq Ec. cbn in *. subst g.
    refine (step_other settings p d _ (proj1 (Hq t_conversations))).
    by apply same_conversations_pairs. }
  destruct ev; cbn [system_handle]; try apply (step_event settings p env).
  - by apply http_platform.
  - apply Hother; [done|exact Hw'|].
    refine (proj2 (event_refines env PurgeTick p) t_conversations _).
    apply (bool_decide_unpack _); vm_compute; exact I.
  - apply Hother; [done|exact Hw'|].
    refine (proj2 (event_refines env RefreshRollups p) t_conversations _).
    apply (bool_decide_unpack _); vm_compute; exact I.
Qed.

(** An invariant of the steps from a well-formed database. *)
Lemma system_invariant (P : DB → Prop) p p' :
  (∀ p1 p2, system_step settings p1 p2 → well_formed (pf_db p1) →
     P (pf_db p1) → P (pf_db p2)) →
  rtc (system_step settings) p p' → well_formed (pf_db p) → P (pf_db p) →
  well_formed (pf_db p') ∧ P (pf_db p').
Proof.
  intros Hstep Hr. induction Hr as [p|p1 p2 p3 Hs _ IH]; [done|]. intros Hw HP.
  apply IH; [by eapply system_step_well_formed|by eapply Hstep].
Qed.

Lemma platform_of_system p : system_reachable settings p → platform_reachable settings p.
Proof.
  intros (p0 & [Hw Hg] & Hr). exists p0. split; [split; [apply (Hw t_conversations)|done]|].
  clear Hg. induction Hr as [p|p1 p2 p3 Hs _ IH]; [done|].
  eapply rtc_l; [by apply system_step_platform|].
  apply IH. by eapply system_step_well_formed.
Qed.

(** ** Invites *)

Lemma issue_invites env s s' issuer role days r :
  issue_admin_invite issuer role days env s = (Ok r, s') →
  invites_ok (working s) → invites_ok (working s').
Proof.
  unfold issue_admin_invite, token_urlsafe. intros Hr Hok. inv_run.
  match goal with E : (_, _) = (_, _) |- _ => injection E as <- <- end.
  by apply (invites_ok_new (working s)).
Qed.

Lemma panel_invites d d' :
  panel_request d d' → agree_outside (component_tables AdminPanel) d d' →
  invites_ok d → invites_ok d'.
Proof.
  intros [env caller call out Hr] Hown Hok.
  assert (agree_outside (panel_footprint call) d d') as Ha.
  { eapply get_db_writes; [|exact Hr].
    destruct call; unfold_panel; unfold panel_footprint; stable_api. }
  destruct (bool_decide (t_invite_links ∈ panel_footprint call)) eqn:Hin.
  - destruct call; try discriminate Hin.
    unfold_panel in Hr. destruct out as [a|e].
    + apply get_db_Ok in Hr as (s' & Hr & ->).
      apply bind_Ok in Hr as ([invite plaintext] & s1 & Hi & Hr).
      apply ret_Ok in Hr as [_ ->]. by apply issue_invites in Hi.
    + apply get_db_atomic in Hr as ->; [done|]. unfold issue_admin_invite. stable_tac.
  - apply bool_decide_eq_false_1 in Hin.
    eapply invites_ok_same; [exact (Ha t_invite_links Hin)| |done].
    apply (Hown t_referrals). apply (bool_decide_unpack _); vm_compute; exact I.
Qed.

(** A component without the tables of a property keeps it. *)
Ltac not_owned := apply (bool_decide_unpack _); vm_compute; exact I.

Lemma system_invites p p' :
  system_step settings p p' → invites_ok (pf_db p) → invites_ok (pf_db p').
Proof.
  intros (env & ev & ->) Hok. destruct (event_refines env ev p) as [[->|Hc] Ha]; [done|].
  destruct (event_component ev); cbn [component_step] in Hc;
    try (eapply invites_ok_same; [apply (Ha t_invite_links); not_owned
      |apply (Ha t_referrals); not_owned|done]).
  - by eapply request_invites_ok.
  - by eapply panel_invites.
Qed.

(** ** Orders and their records *)

(** What a driver does to an order: take it over, or hand it over with the
    code, from whatever status. *)
Inductive driver_moves : option Order → option Order → Prop :=
| dm_same x : driver_moves x x
| dm_accept o t :
    o_deleted_at o = None →
    driver_moves (Some o) (Some (o <| o_driver_accepted_at := Some t |>))
| dm_hand_over o t :
    o_deleted_at o = None → driver_moves (Some o) (Some (handed_over t o)).

(** How one row of the orders may change. *)
Definition order_moves (x y : option Order) : Prop := evolves x y ∨ driver_moves x y.

Lemma moves_terms o o' : order_moves (Some o) (Some o') → same_terms o o'.
Proof. intros [He|Hd]; [by apply evolves_terms|by inversion_clear Hd]. Qed.

Lemma flow_moves d d' :
  keyed (R:=Order) d → flow_request d d' → ∀ k, driver_moves (orders d !! k) (orders d' !! k).
Proof.
  intros Hk [env caller call [u|e] Hr] k.
  2: { apply get_db_atomic in Hr as ->; [by constructor|apply flow_uncommitted]. }
  apply get_db_Ok in Hr as (s' & Hr & ->).
  assert (∀ o o', orders d !! o_id o = Some o → driver_moves (Some o) (Some o') →
    driver_moves (orders d !! k) (<[o_id o := o']> (orders d) !! k)) as Hput.
  { intros o o' Ho Hm. destruct (decide (k = o_id o)) as [->|Hne].
    - by rewrite lookup_insert_eq, Ho.
    - rewrite lookup_insert_ne by done. by constructor. }
  assert (∀ k0 o, orders d !! k0 = Some o → orders d !! o_id o = Some o) as Hself.
  { intros k0 o Ho. pose proof (Hk _ _ Ho) as E. cbn in E. by rewrite E. }
  destruct call; cbn in Hr; apply ignore_Ok in Hr as [r Hr];
    try (match type of Hr with ?m _ _ = _ =>
      assert (stable (same_table Order) m) as Hst by stable_flow;
      apply Hst in Hr; unfold same_table in Hr; cbn in Hr; rewrite Hr; by constructor end).
  - destruct r as [o' c].
    apply driver_accept_Ok in Hr as (o & Ho & Hdel & _ & [(_ & _ & _ & ->)|(_ & _ & t & dlv & -> & _ & ->)]);
      [by constructor|]. cbn.
    apply Hput; [by eapply Hself|]. by constructor.
  - apply complete_delivery_Ok in Hr as (o & c & at_ & Ho & Hdel & _ & _ & _ & _ & -> & _ & _ & _ & ->).
    cbn. apply Hput; [by eapply Hself|]. by constructor.
Qed.

Lemma snapshots_are_unique d : well_formed d → snapshots_unique d.
Proof.
  intros Hw k1 k2 s1 s2 Hk1 Hk2 E. destruct (decide (k1 = k2)) as [|Hne]; [done|].
  exfalso. exact (proj2 (proj2 (Hw t_snapshots)) k1 k2 s1 s2 Hk1 Hk2 Hne E).
Qed.
Lemma orders_are_keyed d : well_formed d → well_keyed d.
Proof.
  intros Hw. exact (conj (proj1 (Hw t_orders))
    (conj (proj1 (Hw t_products)) (proj1 (Hw t_driver_assignments)))).
Qed.

(** Every event moves every order by at most one step. *)
Lemma system_moves p p' k :
  system_step settings p p' → well_formed (pf_db p) →
  order_moves (orders (pf_db p) !! k) (orders (pf_db p') !! k).
Proof.
  intros (env & ev & ->) Hw.
  destruct (event_refines env ev p) as [[->|Hc] Ha]; [by left; constructor|].
  assert (orders (pf_db (system_handle settings env ev p)) = orders (pf_db p) →
    order_moves (orders (pf_db p) !! k) (orders (pf_db (system_handle settings env ev p)) !! k)) as Hsame
    by (intros ->; left; constructor).
  destruct (event_component ev); cbn [component_step] in Hc;
    try (apply Hsame, (Ha t_orders); not_owned).
  - left. apply request_evolves; [by apply orders_are_keyed|done].
  - right. apply flow_moves; [apply (Hw t_orders)|done].
Qed.

(** Every event keeps the foreign keys valid. *)
Lemma refresh_sound : stable keeps_sound _refresh.
Proof.
  unfold _refresh. apply stable_bind; [apply _|apply stable_select, _|intros l].
  apply stable_bind; [apply _| |intros _; apply commit_sound].
  apply stable_put_db. intros s [Hw Hi] Hc. split; [|done]. split; [by apply rollups_well_formed|].
  refine (intact_on_table (R:=SellerSalesRollup) (λ _, _) (working s) _ _ Hi).
  - by intros [[] k].
  - intros _ k r _. constructor.
Qed.
Lemma purge_sound : stable keeps_sound run_purge_job.
Proof. stable_api. Qed.

Lemma system_step_sound p p' :
  system_step settings p p' → sound (pf_db p) → sound (pf_db p').
Proof.
  intros (env & ev & ->) Hs. rewrite system_handle_db. destruct ev; try done.
  - destruct (serve settings r env (pf_db p)) as [out d'] eqn:E. by eapply serve_sound.
  - destruct (get_db run_purge_job env (pf_db p)) as [out d'] eqn:E.
    by eapply get_db_sound; [apply purge_sound|..].
  - destruct (get_db _refresh env (pf_db p)) as [out d'] eqn:E.
    by eapply get_db_sound; [apply refresh_sound|..].
Qed.

(** A record once written stays, and every completion is recorded. *)
Definition sales_recorded (d d' : DB) : Prop :=
  snapshots_grow d d' ∧ (completed_recorded d → completed_recorded d').

Lemma sales_same_snapshots d d' :
  order_analytics_snapshots d' = order_analytics_snapshots d →
  (∀ k o', orders d' !! k = Some o' → o_status o' = completed →
     ∃ k0 o, orders d !! k0 = Some o ∧ o_status o = completed ∧ o_id o' = o_id o) →
  sales_recorded d d'.
Proof.
  intros Es Ho. split; [intros k sn; by rewrite Es|].
  intros Hrec k o' Hk Hs. destruct (Ho k o' Hk Hs) as (k0 & o & Hk0 & Hs0 & ->).
  destruct (Hrec k0 o Hk0 Hs0) as (k1 & sn & Hsn). exists k1, sn. by rewrite Es.
Qed.

Lemma system_sales p p' :
  system_step settings p p' → well_formed (pf_db p) → sales_recorded (pf_db p) (pf_db p').
Proof.
  intros (env & ev & ->) Hw.
  destruct (event_refines env ev p) as [[->|Hc] Ha]; [by split|].
  set (d := pf_db p) in *. set (d' := pf_db (system_handle settings env ev p)) in *.
  destruct (event_component ev) eqn:Ec; cbn [component_step] in Hc;
    try (apply sales_same_snapshots; [apply (Ha t_snapshots); not_owned|];
      intros k o' Hk Hs; rewrite (Ha t_orders ltac:(not_owned)) in Hk; by exists k, o').
  - destruct (request_snapshots d d' (orders_are_keyed _ Hw) Hc) as (Hg & _ & Hr). by split.
  - apply sales_same_snapshots; [apply (Ha t_snapshots); not_owned|].
    intros k o' Hk Hs. pose proof (flow_moves d d' (proj1 (Hw t_orders)) Hc k) as Hf.
    rewrite Hk in Hf. inversion Hf as [| |o t Hdel E1 E2]; subst; [by exists k, o'|by exists k, o|].
    discriminate Hs.
Qed.
End facts.
