(* ===== verification/SystemProps.v ===== *)
(** * Correctness of the whole system

    What holds in every database and for every frame, whatever sequence of HTTP
    requests, WebSocket frames, purge runs and rollup refreshes the platform has
    served: the composition of the components. *)

From S2P Require Import Prelude.
From S2P Require Import Exceptions.
From S2P Require Import Models.
From S2P Require Import Session.
From S2P Require Import SessionFacts.
From S2P Require Import CryptoModel.
From S2P Require Import Security.
From S2P Require Import Orders.
From S2P Require Import Invites.
From S2P Require Import Auth.
From S2P Require Import AccountMachine.
From S2P Require Import PyFloat.
From S2P Require Import Fixtures.
From S2P Require Import Retention.
From S2P Require Import RetentionFacts.
From S2P Require Import OrderMachine.
From S2P Require Import OrderProps.
From S2P Require Import AccountProps.
From S2P Require Import ProductProps.
From S2P Require Import DeliveryFlowFacts.
From S2P Require Import Timestamps.
From S2P Require Import Gateway.
From S2P Require Import GatewayPlatform.
From S2P Require Import GatewayProps.
From S2P Require Import Upload.
From S2P Require Import UploadProps.
From S2P Require Import Schemas.
From S2P Require Import Api.
From S2P Require Import Routes.
From S2P Require Import Footprints.
From S2P Require Import WellFormed.
From S2P Require Import Access.
From S2P Require Import Integrity.
From S2P Require Import System.
From S2P Require Import SystemFacts.
#[local] Open Scope string_scope.
#[local] Open Scope Z_scope.

(** The tables an event may write. *)
Definition event_footprint (ev : SystemEvent) : list TableName :=
  match ev with
  | Http r => request_footprint r
  | PurgeTick => footprint PostPurgeOrders
  | RefreshRollups => [t_rollups]
  | _ => []
  end.

(** C2: Every event of the platform, whatever its arguments and also when
    it fails half-way, leaves the database as it is or changes it as one request
    of the component that owns its endpoint does; every table outside the
    footprint of the endpoint is exactly as it was; and the frames it sends are
    those of one step of the gateway. *)
Theorem events_refine_components
    `{Crypto, EmailStr, Libm, FromIso, Storage} settings env ev p :
  let p' := system_handle settings env ev p in
  (pf_db p' = pf_db p ∨ component_step settings (event_component ev) (pf_db p) (pf_db p')) ∧
  (∀ t, t ∉ event_footprint ev → same_rows t (pf_db p) (pf_db p')) ∧
  (well_formed (pf_db p) → platform_step settings p p').
Proof.
  cbn zeta. split_and!.
  - exact (proj1 (event_refines settings env ev p)).
  - intros t Ht. rewrite system_handle_db. destruct ev; cbn [event_footprint] in Ht;
      try by apply agree_refl with (ts:=[]).
    + destruct (serve settings r env (pf_db p)) as [out d'] eqn:E.
      by apply (serve_agrees _ _ _ _ _ _ E).
    + destruct (get_db _ env (pf_db p)) as [out d'] eqn:E.
      by apply (get_db_writes _ _ _ _ _ _ purge_writes E).
    + destruct (get_db _ env (pf_db p)) as [out d'] eqn:E.
      by apply (get_db_writes _ _ _ _ _ _ refresh_writes E).
  - intros Hw. apply system_step_platform; [by exists env, ev|done].
Qed.


(** C8: However sign-ups, admins, sellers and every other event of the
    platform interleave, the use counter of an invite is the number of accounts
    created with it and never exceeds its limit (so an admin invite admits one
    account), and a seller has at most one unrevoked referral link. *)
Theorem invites_stay_limited
    `{Crypto, EmailStr, Libm, FromIso, Storage} settings p p' :
  invites_ok (pf_db p) → rtc (system_step settings) p p' →
  ∀ k i, invite_links (pf_db p') !! k = Some i →
    i_used_count i = signups_with (pf_db p') k ∧
    (∀ m, i_max_uses i = Some m → signups_with (pf_db p') k ≤ m) ∧
    (∀ k' i', invite_links (pf_db p') !! k' = Some i' →
       active_referral (i_issuer_id i) i → active_referral (i_issuer_id i) i' → k' = k).
Proof.
  intros Hok Hr. assert (invites_ok (pf_db p')) as Hok'.
  { induction Hr as [p|p1 p2 p3 Hs _ IH]; [done|]. apply IH. by eapply system_invites. }
  by apply invites_ok_limits.
Qed.

(** C3: Whatever the event, it moves an order by at most one step: a step of
    the lifecycle of the order service, a driver taking the order over or a
    driver handing it over with the code.  It never changes what was agreed
    when the order was placed, and nothing but a hand-over changes the status of
    a completed or cancelled order until it is removed. *)
Theorem orders_move_by_steps
    `{Crypto, EmailStr, Libm, FromIso, Storage} settings p p' k :
  well_formed (pf_db p) → system_step settings p p' →
  let x := orders (pf_db p) !! k in let x' := orders (pf_db p') !! k in
  order_moves x x' ∧
  (∀ o o', x = Some o → x' = Some o' → same_terms o o') ∧
  (∀ o o', x = Some o → x' = Some o' → terminal o →
     o_status o' = o_status o ∨ ∃ t, o' = handed_over t o).
Proof.
  intros Hw Hs. cbn zeta. pose proof (system_moves settings p p' k Hs Hw) as Hm.
  split_and!; [done|..].
  - intros o o' E E'. rewrite E, E' in Hm. by apply moves_terms.
  - intros o o' E E' Ht. rewrite E, E' in Hm. destruct Hm as [He|Hd].
    + left. destruct (evolves_terminal _ _ Ht He) as [[= ->]|]; done.
    + inversion_clear Hd; [by left|by left|right; by eexists].
Qed.

(** C9: Whatever sequence of events the platform serves, an analytics record
    is never changed or removed, no order is recorded twice, and if every
    completed order has its record to begin with, it does in the end: completing
    an order and recording it are one transaction, whoever completes it. *)
Theorem sales_are_recorded_for_ever
    `{Crypto, EmailStr, Libm, FromIso, Storage} settings p p' :
  well_formed (pf_db p) → completed_recorded (pf_db p) → rtc (system_step settings) p p' →
  snapshots_grow (pf_db p) (pf_db p') ∧ snapshots_unique (pf_db p') ∧
  completed_recorded (pf_db p').
Proof.
  intros Hw Hc Hr. induction Hr as [p|p1 p2 p3 Hs _ IH].
  - split_and!; [done|by apply snapshots_are_unique|done].
  - destruct (system_sales settings p1 p2 Hs Hw) as [Hg Hrec].
    destruct IH as (Hg' & Hu & Hc'); [by eapply system_step_well_formed|by apply Hrec|].
    split_and!; [by etrans|done..].
Qed.

(** C5: Whatever sequence of events the platform serves, every foreign key of
    every table stays valid.  So the customer, the seller and the store of an
    order can always be found; no line, delivery, assignment, chat message,
    tracking point or code outlives its order; and the parties of a
    conversation, the sender of a message and the parties of a referral exist. *)
Theorem references_stay_valid
    `{Crypto, EmailStr, Libm, FromIso, Storage} settings p p' :
  well_formed (pf_db p) → intact (pf_db p) → rtc (system_step settings) p p' →
  let d := pf_db p' in
  intact d ∧
  (∀ k o, orders d !! k = Some o →
     is_Some (users d !! o_customer_id o) ∧ is_Some (sellers d !! o_seller_id o) ∧
     is_Some (stores d !! o_store_id o)) ∧
  (∀ oid, orders d !! oid = None →
     map_Forall (λ _ i, oi_order_id i ≠ oid) (order_items d) ∧
     map_Forall (λ _ v, d_order_id v ≠ oid) (deliveries d) ∧
     map_Forall (λ _ a, a_order_id a ≠ oid) (driver_assignments d) ∧
     map_Forall (λ _ m, om_order_id m ≠ oid) (order_messages d) ∧
     map_Forall (λ _ t, tp_order_id t ≠ oid) (order_tracking_points d) ∧
     map_Forall (λ _ c, dc_order_id c ≠ oid) (delivery_codes d)) ∧
  (∀ k m, messages d !! k = Some m →
     is_Some (users d !! m_sender_id m) ∧
     ∃ c, conversations d !! m_conversation_id m = Some c ∧
       is_Some (users d !! c_user_a_id c) ∧ is_Some (users d !! c_user_b_id c)) ∧
  (∀ k r, referrals d !! k = Some r →
     is_Some (users d !! rf_referrer_id r) ∧ is_Some (users d !! rf_referred_user_id r)).
Proof.
  intros Hw Hi Hr. cbn zeta.
  assert (intact (pf_db p')) as Hi'.
  { assert (sound (pf_db p)) as Hs by done. clear Hw Hi.
    induction Hr as [p|p1 p2 p3 Hstep _ IH]; [apply Hs|]. apply IH. by eapply system_step_sound. }
  clear Hw Hi Hr. set (d := pf_db p') in *. clearbody d. split_and!; [done|..].
  - intros k o Ho. pose proof (Hi' t_orders k o Ho) as Hl.
    by inversion_clear Hl as [|? ? ? Hl2]; inversion_clear Hl2 as [|? ? ? Hl3]; inversion_clear Hl3.
  - intros oid Hno. assert (¬ target_exists d (to_orders, oid)) as Hn
      by (intros [o Ho]; cbn in Ho; congruence).
    split_and!; intros k r Hk <-; apply Hn.
    + by pose proof (Hi' t_order_items k r Hk) as []%Forall_cons.
    + by pose proof (Hi' t_deliveries k r Hk) as []%Forall_cons.
    + by pose proof (Hi' t_driver_assignments k r Hk) as []%Forall_cons.
    + by pose proof (Hi' t_order_messages k r Hk) as []%Forall_cons.
    + by pose proof (Hi' t_tracking_points k r Hk) as []%Forall_cons.
    + by pose proof (Hi' t_delivery_codes k r Hk) as []%Forall_cons.
  - intros k m Hk. pose proof (Hi' t_messages k m Hk) as [[c Hc] [Hu _]%Forall_cons]%Forall_cons.
    split; [done|]. exists c. split; [done|].
    by pose proof (Hi' t_conversations _ c Hc) as [? [? _]%Forall_cons]%Forall_cons.
  - intros k r Hk. by pose proof (Hi' t_referrals k r Hk) as [? [? _]%Forall_cons]%Forall_cons.
Qed.

(** ** Witnesses *)

#[local] Existing Instance iso_reader.
#[local] Existing Instance no_maths.
#[local] Existing Instance bucket.
#[local] Existing Instance any_address.

(** The [n]-th event around six o'clock. *)
Definition event_env (n : nat) : Env :=
  mkEnv (clock (env_at 6)) (uuids (env_at n)) (tokens (env_at n)) (randoms (env_at n))
    (server_now (env_at 6)).
Definition at_home : AddressIn :=
  mkAddressIn "1 Rua Nova" None "Lisbon" None None "PT" None None None.
Definition day_events : list SystemEvent :=
  [ Http (AsMember (w_access root_admin) (PostAdminInvite (mkCreateAdminInvite "driver" 24 None)));
    Http (AsPublic (PostSignup driver_signup));
    WsConnect 1 (w_access alice);
    Http (AsMember (w_access alice) (PostOrder (mkCreateOrder basket at_home)));
    PurgeTick; RefreshRollups ].
Definition play (evs : list SystemEvent) (p : Platform) : Platform :=
  foldl (λ p '(n, ev), system_handle w_settings (event_env n) ev p) p (imap pair evs).
Definition morning : Platform := mkPlatform world (mkGateway empty_registry []).
Definition evening : Platform := play day_events morning.

(** Everything happened: an account, an order and a connection were added. *)
Example evening_state :
  (size (users (pf_db evening)), size (orders (pf_db evening)),
   size (referrals (pf_db evening)), size (open_conns (_registry (pf_gateway evening))))
  = (6, 1, 1, 1)%nat.
Proof. vm_compute. reflexivity. Qed.

Lemma morning_started : system_started morning.
Proof. split; [well_formed_eval|reflexivity]. Qed.
Lemma delivered_well_formed : well_formed w_delivered.
Proof. well_formed_eval. Qed.

Lemma play_steps evs p : rtc (system_step w_settings) p (play evs p).
Proof.
  unfold play. generalize (imap pair evs) as l. intros l. revert p.
  induction l as [|[n ev] l IH]; intros p; cbn; [done|].
  eapply rtc_l; [|apply IH]. by exists (event_env n), ev.
Qed.
Lemma evening_reachable : system_reachable w_settings evening.
Proof. exists morning. split; [apply morning_started|apply play_steps]. Qed.

(** The order and the account, each by one request of its component. *)
Lemma events_refine_components_witness :
  let p := play (take 3 day_events) morning in
  let ev := Http (AsMember (w_access alice) (PostOrder (mkCreateOrder basket at_home))) in
  event_component ev = OrderService ∧ well_formed (pf_db p) ∧
  platform_step w_settings p (system_handle w_settings (event_env 3) ev p).
Proof.
  intros p ev. assert (well_formed (pf_db p)) as Hw.
  { apply (reachable_well_formed w_settings). exists morning.
    split; [apply morning_started|apply play_steps]. }
  split; [reflexivity|]. split; [exact Hw|].
  exact (proj2 (proj2 (events_refine_components w_settings (event_env 3) ev p)) Hw).
Defined.


Lemma morning_intact : intact (pf_db morning).
Proof. intact_eval. Qed.

(** The order that Alice placed has its store, and its two lines. *)
Lemma references_stay_valid_witness :
  intact (pf_db evening) ∧ size (order_items (pf_db evening)) = 2%nat ∧
  ∃ o, orders (pf_db evening) !! 4000%N = Some o ∧
    is_Some (stores (pf_db evening) !! o_store_id o).
Proof.
  destruct (references_stay_valid w_settings morning evening (proj1 morning_started) morning_intact
    (play_steps day_events morning)) as (Hi & Ho & _).
  split; [exact Hi|]. split; [vm_compute; reflexivity|].
  destruct (orders (pf_db evening) !! 4000%N) as [o|] eqn:E; [|by vm_compute in E].
  exists o. split; [reflexivity|]. exact (proj2 (proj2 (Ho 4000%N o E))).
Defined.

(** The invite of the driver is used up. *)
Lemma invites_stay_limited_witness :
  ∃ k i, invite_links (pf_db evening) !! k = Some i ∧ i_used_count i = 1 ∧
    signups_with (pf_db evening) k ≤ 1.
Proof.
  assert (∃ i, invite_links (pf_db evening) !! 1000%N = Some i ∧ i_used_count i = 1 ∧
    i_max_uses i = Some 1) as (i & Hi & Hused & Hmax)
    by (eexists; split; [vm_compute; reflexivity|by split]).
  exists 1000%N, i. split; [exact Hi|]. split; [exact Hused|].
  exact (proj1 (proj2 (invites_stay_limited w_settings morning evening world_invites_ok
    (play_steps day_events morning) 1000%N i Hi)) 1 Hmax).
Defined.

(** Alice completes her delivered order. *)
Definition delivery_done : Platform := mkPlatform w_delivered (mkGateway empty_registry []).
Definition completion : SystemEvent := Http (AsMember (w_access alice) (PostOrderComplete oid)).
Definition order_done : Platform := system_handle w_settings (env_at 6) completion delivery_done.

Lemma order_done_step : system_step w_settings delivery_done order_done.
Proof. by exists (env_at 6), completion. Qed.

Lemma orders_move_by_steps_witness :
  o_status <$> orders (pf_db order_done) !! oid = Some completed ∧
  order_moves (orders (pf_db delivery_done) !! oid) (orders (pf_db order_done) !! oid).
Proof.
  split; [vm_compute; reflexivity|].
  exact (proj1 (orders_move_by_steps w_settings delivery_done order_done oid
    delivered_well_formed order_done_step)).
Defined.

Lemma sales_are_recorded_for_ever_witness :
  completed_recorded (pf_db order_done) ∧
  size (order_analytics_snapshots (pf_db order_done)) = 1%nat.
Proof.
  split; [|vm_compute; reflexivity].
  refine (proj2 (proj2 (sales_are_recorded_for_ever w_settings delivery_done order_done
    delivered_well_formed _ (rtc_once _ _ order_done_step)))).
  assert (map_Forall (λ _ o, o_status o ≠ completed) (orders w_delivered)) as Hnone
    by (apply (bool_decide_eq_true_1 _); vm_compute; reflexivity).
  intros k o Ho Hc. by destruct (Hnone k o Ho).
Defined.
