(* ===== verification/Http.v ===== *)
(** * The application around the routes

    [main.py] and [core/observability.py]: the ASGI middlewares that
    [create_app] stacks around the routes, the health and metrics endpoints, and
    the CORS settings of [core/config.py].  An application is what it sends for
    a scope, with the exception it raises, if any; the frames of Starlette
    ([ServerErrorMiddleware] outermost, [ExceptionMiddleware] innermost) follow
    its documentation, and its CORS middleware is a parameter. *)

From Stdlib Require Import Ascii.
From S2P Require Import Prelude.
From S2P Require Import Exceptions.
From S2P Require Import Models.
From S2P Require Import PyString.
From S2P Require Import Numerals.
From S2P Require Import Session.
From S2P Require Import Security.
From S2P Require Import PyFloat.
From S2P Require Import Timestamps.
From S2P Require Import Upload.
From S2P Require Import Admin.
From S2P Require Import Schemas.
From S2P Require Import Api.
From S2P Require Import Routes.
#[local] Open Scope string_scope.
#[local] Open Scope list_scope.

(** ** ASGI *)

(** Header names are lower-case, as ASGI has them. *)
Definition header : Type := string * string.

Inductive ScopeType := http | websocket | lifespan.
#[export] Instance ScopeType_eq_dec : EqDecision ScopeType.
Proof. solve_decision. Defined.
Record Scope := mkScope { scope_type : ScopeType; scope_headers : list header }.

Inductive AsgiMessage :=
| ResponseStart (status : Z) (headers : list header)
| OtherMessage (type : string).

Definition App : Type := Scope → list AsgiMessage * option exc.

(** Wrap [send]: every message goes through [f]. *)
Definition sending (f : AsgiMessage → AsgiMessage) (a : App) : App := λ scope,
  let '(sent, raised) := a scope in (f <$> sent, raised).

(** ** The middlewares of [main.py] *)

Definition _SECURITY_HEADERS : list header :=
  [ ("strict-transport-security", "max-age=63072000; includeSubDomains");
    ("x-content-type-options", "nosniff");
    ("referrer-policy", "strict-origin-when-cross-origin");
    ("permissions-policy", "camera=(), microphone=(), geolocation=(self)");
    ("content-security-policy", "default-src 'none'; frame-ancestors 'none'") ].

(** The names present before the loop decide; the loop does not extend them. *)
Definition send_with_headers (m : AsgiMessage) : AsgiMessage :=
  match m with
  | ResponseStart status headers =>
      let existing := fst <$> headers in
      ResponseStart status
        (headers ++ filter (λ nv : header, nv.1 ∉ existing) _SECURITY_HEADERS)
  | OtherMessage _ => m
  end.
Definition SecurityHeadersMiddleware (a : App) : App := λ scope,
  if decide (scope_type scope = http) then sending send_with_headers a scope else a scope.

(** [dict(headers)]: the last value of a name. *)
Definition dict_of (headers : list header) : gmap string string :=
  foldl (λ d nv, <[nv.1 := nv.2]> d) ∅ headers.
Definition request_id (scope : Scope) (draw : uuid) : string :=
  str_or (default "" (dict_of (scope_headers scope) !! "x-request-id")) (uuid_str draw).
Definition send_with_request_id (id : string) (m : AsgiMessage) : AsgiMessage :=
  match m with
  | ResponseStart status headers => ResponseStart status (headers ++ [("x-request-id", id)])
  | OtherMessage _ => m
  end.
Definition RequestIDMiddleware (draw : uuid) (a : App) : App := λ scope,
  if decide (scope_type scope ∈ [http; websocket])
  then sending (send_with_request_id (request_id scope draw)) a scope else a scope.

(** ** Answers *)

Definition json_headers : list header := [("content-type", "application/json")].
Definition JSONResponse (status : Z) : list AsgiMessage :=
  [ResponseStart status json_headers; OtherMessage "http.response.body"].

(** The exceptions with a handler of their own: [AppException], and the two of
    the framework; the catch-all handler belongs to the outermost frame. *)
Definition handled (e : exc) : bool :=
  match e with
  | AppExc _ _ _ => true
  | PyErr RequestValidationError | PyErr (HTTPException _) => true
  | PyErr _ => false
  end.
Definition ExceptionMiddleware (a : App) : App := λ scope,
  match a scope with
  | (sent, Some e) =>
      if handled e then (sent ++ JSONResponse (er_status (error_envelope e)), None)
      else (sent, Some e)
  | r => r
  end.
Definition is_start (m : AsgiMessage) : bool :=
  match m with ResponseStart _ _ => true | OtherMessage _ => false end.
(** The 500 of [unhandled_exception_handler], unless a response has begun. *)
Definition ServerErrorMiddleware (a : App) : App := λ scope,
  match a scope with
  | (sent, Some e) =>
      if decide (scope_type scope = http) then
        (sent ++ (if existsb is_start sent then []
                  else JSONResponse (er_status (error_envelope e))), Some e)
      else (sent, Some e)
  | r => r
  end.

(** [create_app]: what is added last is outermost. *)
Definition create_app (CORSMiddleware : App → App) (draw : uuid) (router : App) : App :=
  ServerErrorMiddleware
    (RequestIDMiddleware draw
       (SecurityHeadersMiddleware (CORSMiddleware (ExceptionMiddleware router)))).

(** ** The routes as an application *)

(** The [status_code] of the decorator of each endpoint. *)
Definition success_status (r : Request) : Z :=
  match r with
  | AsPublic (PostSignup _) => 201
  | AsPublic _ => 200
  | AsMember _ m =>
      match m with
      | PostAdminInvite _ | PostSellerReferral | PostSellerReferralRegenerate | PostStore _
      | PostProduct _ | PostOrder _ | PostChat _ _ | PostKey _ | PostConversation _
      | PostMessage _ _ | PostDevice _ | Panel (IssueInvite _ _ _) => 201
      | PostLogout _ | PostLogoutAll | PostMePassword _ | DeleteInvite _ | DeleteProduct _
      | DeleteOrderRequest _ | PostDeliveryLocation _ _ | PostDriverLocation _ _
      | DeleteKey _ => 204
      | _ => 200
      end
  end.

(** An endpoint as an application: its answer, or the exception it raises. *)
Definition answer_headers (a : Answer) : list header :=
  match a with NoContent => [] | _ => json_headers end.
Definition route_app `{Crypto, EmailStr, Libm, FromIso, Storage} (settings : Settings)
    (r : Request) (env : Env) (d : DB) : App := λ _,
  match (serve settings r env d).1 with
  | Ok rep => ([ResponseStart (success_status r) (answer_headers (answer rep));
                OtherMessage "http.response.body"], None)
  | Raised e => ([], Some e)
  end.

(** ** CORS *)

Definition comma : ascii := ","%char.
Definition cors_origins_list (s : Settings) : list string :=
  let raw := filter (λ o, o ≠ "") (strip <$> split comma (cors_origins s)) in
  match raw with
  | [] => if decide (environment s ∈ [env_dev; env_test]) then ["*"] else []
  | _ => raw
  end.
Definition allow_credentials (s : Settings) : bool :=
  bool_decide (cors_origins_list s ≠ ["*"]).

(** ** Health and metrics *)

Definition health : list AsgiMessage := JSONResponse 200.
Definition healthz : list AsgiMessage := JSONResponse 200.
(** [SELECT 1] succeeds or raises. *)
Definition healthz_ready (ping : bool) : list AsgiMessage := JSONResponse (if ping then 200 else 503).

(** [request.headers.get]: the first value of a name. *)
Definition headers_get (name : string) (headers : list header) : option string :=
  snd <$> head (filter (λ nv : header, nv.1 = name) headers).
Definition metrics_endpoint (s : Settings) (headers : list header) : Z :=
  let token := default "" (headers_get "x-metrics-token" headers) in
  if decide (metrics_token s = "" ∨ token ≠ metrics_token s) then 404 else 200.
