(* ===== verification/HttpProps.v ===== *)
(** * What a client receives

    The routes behind the middlewares: the status and the headers of every
    response, and the settings that the preflight script checks. *)

From S2P Require Import Prelude.
From S2P Require Import Exceptions.
From S2P Require Import Models.
From S2P Require Import Session.
From S2P Require Import SessionFacts.
From S2P Require Import CryptoModel.
From S2P Require Import Security.
From S2P Require Import Numerals.
From S2P Require Import PyFloat.
From S2P Require Import Fixtures.
From S2P Require Import ProductProps.
From S2P Require Import Timestamps.
From S2P Require Import GatewayProps.
From S2P Require Import Upload.
From S2P Require Import UploadProps.
From S2P Require Import Admin.
From S2P Require Import Schemas.
From S2P Require Import Api.
From S2P Require Import Routes.
From S2P Require Import Access.
From S2P Require Import Http.
#[local] Open Scope string_scope.
#[local] Open Scope list_scope.
#[local] Open Scope Z_scope.

(** ** Headers *)

(** A CORS middleware on a request that is no preflight only rewrites the
    headers of the response. *)
Definition with_headers (f : list header → list header) (m : AsgiMessage) : AsgiMessage :=
  match m with
  | ResponseStart status headers => ResponseStart status (f headers)
  | OtherMessage _ => m
  end.
Definition rewrites_headers (cors : App → App) : Prop :=
  ∀ a scope, ∃ f, cors a scope = sending (with_headers f) a scope.

(** The request id, last, and each of the security headers. *)
Definition dressed (scope : Scope) (draw : uuid) (headers : list header) : Prop :=
  last headers = Some ("x-request-id", request_id scope draw) ∧
  ∀ name, name ∈ _SECURITY_HEADERS.*1 → name ∈ headers.*1.

Lemma secured_headers headers name :
  name ∈ _SECURITY_HEADERS.*1 →
  name ∈ (headers ++ filter (λ nv : header, nv.1 ∉ headers.*1) _SECURITY_HEADERS).*1.
Proof.
  intros Hin. rewrite fmap_app. apply elem_of_app.
  destruct (decide (name ∈ headers.*1)) as [|Hout]; [by left|right].
  apply list_elem_of_fmap in Hin as (nv & -> & Hin).
  apply list_elem_of_fmap. exists nv. split; [done|]. by apply list_elem_of_filter.
Qed.

Lemma middle_dresses scope draw f status headers :
  ∃ headers',
    send_with_request_id (request_id scope draw)
      (send_with_headers (with_headers f (ResponseStart status headers))) =
      ResponseStart status headers' ∧ dressed scope draw headers'.
Proof.
  eexists. split; [reflexivity|]. split; [by rewrite last_snoc|].
  intros name Hin. rewrite fmap_app. apply elem_of_app. left. by apply secured_headers.
Qed.

(** ** Empty answers *)

Definition empty_answer (a : Answer) : bool :=
  match a with NoContent => true | _ => false end.

(** A program whose replies are all of one kind. *)
Definition says (empty : bool) (m : M Reply) : Prop :=
  ∀ env s rep s', m env s = (Ok rep, s') → empty_answer (answer rep) = empty.
Lemma says_bind {A} b (m : M A) k : (∀ a, says b (k a)) → says b (m ≫= k).
Proof. intros Hk env s rep s' (a & s1 & _ & Hr)%bind_Ok. by eapply Hk. Qed.
Lemma says_ret b rep : empty_answer (answer rep) = b → says b (mret rep).
Proof. intros Hb env s rep' s' [-> _]%ret_Ok. done. Qed.
Lemma says_raise b (e : exc) : says b (raise e).
Proof. intros env s rep s' E. discriminate E. Qed.

Ltac says_tac :=
  repeat first
    [ apply says_bind; intros ?
    | apply says_raise
    | apply says_ret; reflexivity
    | case_match ].

Section empty_answers.
Context `{Crypto, EmailStr, Libm, FromIso, Storage} (settings : Settings).

Lemma public_says p :
  says (bool_decide (success_status (AsPublic p) = 204)) (public_handler settings p).
Proof. destruct p; unfold_routes; unfold answers, done_; says_tac. Qed.
Lemma member_says caller creds m :
  says (bool_decide (success_status (AsMember creds m) = 204)) (handler settings caller m).
Proof.
  destruct m; try destruct call; unfold_routes; unfold answers, done_; says_tac.
Qed.

Lemma serve_says r env d rep d' :
  serve settings r env d = (Ok rep, d') →
  answer rep = NoContent ↔ success_status r = 204.
Proof.
  intros Hs.
  assert (empty_answer (answer rep) = bool_decide (success_status r = 204)) as E.
  { destruct r as [p|creds m].
    - apply get_db_Ok in Hs as (s' & Hs & _). by eapply public_says.
    - cbn in Hs. destruct (authorize settings creds m env (open_session d)) as [[u|e] s];
        [|discriminate Hs]. apply get_db_Ok in Hs as (s' & Hs & _). by eapply member_says. }
  rewrite <- (bool_decide_eq_true (success_status r = 204)), <- E.
  by destruct (answer rep).
Qed.
End empty_answers.

(** C40: The response to a request is the answer of its endpoint with the
    status of its decorator, or the error envelope with the status of the
    exception; it carries the request id (the client's own, if it sent one) and
    every security header.  Only an exception without a handler is answered
    from outside the middlewares: a bare 500, without request id and without
    security headers.  A 204 is exactly an answer without a body. *)
Theorem responses_are_dressed
    `{Crypto, EmailStr, Libm, FromIso, Storage} settings cors draw r env d out d' scope :
  serve settings r env d = (out, d') → scope_type scope = http → rewrites_headers cors →
  let res := create_app cors draw (route_app settings r env d) scope in
  match out with
  | Ok rep => (answer rep = NoContent ↔ success_status r = 204) ∧
      ∃ headers, dressed scope draw headers ∧
      res = ([ResponseStart (success_status r) headers; OtherMessage "http.response.body"], None)
  | Raised e =>
      if handled e then ∃ headers, dressed scope draw headers ∧
        res = ([ResponseStart (er_status (error_envelope e)) headers;
                OtherMessage "http.response.body"], None)
      else res = ([ResponseStart 500 json_headers; OtherMessage "http.response.body"], Some e)
  end.
Proof.
  intros Hs Hscope Hcors. cbn zeta.
  unfold create_app, ServerErrorMiddleware, RequestIDMiddleware, SecurityHeadersMiddleware.
  rewrite Hscope, !decide_True by (done || set_solver). unfold sending.
  destruct (Hcors (ExceptionMiddleware (route_app settings r env d)) scope) as [f Hf].
  rewrite Hscope, decide_True, Hf by done. unfold sending, ExceptionMiddleware, route_app.
  rewrite Hs. cbn [fst]. destruct out as [rep|e].
  - destruct (middle_dresses scope draw f (success_status r) (answer_headers (answer rep)))
      as (headers & E & Hd).
    split; [by eapply serve_says|]. exists headers. split; [done|]. cbn -[with_headers send_with_headers send_with_request_id].
    by rewrite E.
  - destruct (handled e) eqn:He.
    + destruct (middle_dresses scope draw f (er_status (error_envelope e)) json_headers)
        as (headers & E & Hd).
      exists headers. split; [done|].
      cbn -[with_headers send_with_headers send_with_request_id error_envelope].
      by rewrite E.
    + cbn. by destruct e as [|[]].
Qed.

(** ** Witness: Alice reads her account *)

#[local] Existing Instance iso_reader.
#[local] Existing Instance no_maths.
#[local] Existing Instance bucket.
#[local] Existing Instance any_address.

Definition from_app : Scope := mkScope http [("x-request-id", "a1"); ("x-request-id", "a2")].
Lemma no_cors_rewrites : rewrites_headers id.
Proof.
  intros a scope. exists id. unfold sending. cbn. destruct (a scope) as [sent raised]. f_equal.
  symmetry. rewrite <- (list_fmap_id sent) at 2. apply list_fmap_ext. intros i m _. by destruct m.
Qed.

Lemma responses_are_dressed_witness :
  ∃ headers, dressed from_app 7 headers ∧
    create_app id 7 (route_app w_settings (AsMember (w_access alice) GetMe) (env_at 6) world)
      from_app = ([ResponseStart 200 headers; OtherMessage "http.response.body"], None) ∧
    request_id from_app 7 = "a2".
Proof.
  destruct (succeeds_run (ask alice GetMe world)) as [rep Hs]; [vm_compute; reflexivity|].
  destruct (responses_are_dressed w_settings id 7 (AsMember (w_access alice) GetMe) (env_at 6)
    world (Ok rep) _ from_app Hs eq_refl no_cors_rewrites) as (_ & headers & Hd & E).
  exists headers. split; [exact Hd|]. split; [exact E|reflexivity].
Defined.

(** A wildcard beside another origin is allowed with credentials. *)
Example wildcard_with_credentials :
  let s := default_config <| environment := env_prod |> <| cors_origins := "*, https://shop" |> in
  cors_origins_list s = ["*"; "https://shop"] ∧ allow_credentials s = true.
Proof. vm_compute. auto. Qed.
