(* ===== verification/Operations.v ===== *)
(** * Operating the platform

    [core/scheduler.py] (the switch, the interval and the task of the purge
    loop), [scripts/check_env.py] (the pre-flight check of a production
    environment) and [scripts/seed_dev.py] (the development data). *)

From Stdlib Require Import Ascii.
From S2P Require Import Prelude.
From S2P Require Import Exceptions.
From S2P Require Import Models.
From S2P Require Import Session.
From S2P Require Import PyString.
From S2P Require Import Security.
#[local] Open Scope string_scope.
#[local] Open Scope list_scope.

(** [os.environ]. *)
Abbreviation Environ := (gmap string string).
Definition environ_get (e : Environ) (name default_ : string) : string :=
  default default_ (e !! name).

(** ** The purge scheduler *)

Definition _enabled (e : Environ) : bool :=
  bool_decide (str_lower (environ_get e "APP_ENABLE_SCHEDULER" "false") ∈ ["1"; "true"; "yes"]).

Definition dec_value (c : ascii) : option N :=
  let n := N_of_ascii c in if decide (48 ≤ n ≤ 57)%N then Some (n - 48)%N else None.
(** Digits with single underscores between them. *)
Fixpoint dec_number (acc : option N) (sep : bool) (l : list ascii) : option N :=
  match l with
  | [] => if sep then None else acc
  | c :: l' =>
      if decide (c = "_"%char) then if sep then None else dec_number acc true l'
      else v ← dec_value c; dec_number (Some (10 * default 0 acc + v)%N) false l'
  end.
(** [int(text)]; [None] is the [ValueError], also of a text with more than 4300
    digits. *)
Definition parse_int (text : string) : option Z :=
  let l := strip_both is_space (String.list_ascii_of_string text) in
  if decide (4300 < length (filter (λ c, is_Some (dec_value c)) l)) then None else
  match l with
  | [] => None
  | c :: l' =>
      if decide (c = "+"%char) then Z.of_N <$> dec_number None true l'
      else if decide (c = "-"%char) then Z.opp ∘ Z.of_N <$> dec_number None true l'
      else Z.of_N <$> dec_number None true l
  end.
Definition _interval_seconds (e : Environ) : Z :=
  default 3600%Z (parse_int (environ_get e "APP_PURGE_INTERVAL_SECONDS" "3600")).

(** The global [_task], and the purge loops that are alive in the event loop.
    A loop swallows the errors of its job, so it ends only when cancelled. *)
Record Scheduler := mkScheduler {
  _task : option nat;
  loops : list nat;
  next_task : nat;
}.
Definition idle_scheduler : Scheduler := mkScheduler None [] 0.

(** [_task is not None and not _task.done()]. *)
Definition task_running (s : Scheduler) : option nat :=
  t ← _task s; if decide (t ∈ loops s) then Some t else None.

Definition start_purge_scheduler (e : Environ) (s : Scheduler) : Scheduler :=
  if negb (_enabled e) then s else
  match task_running s with
  | Some _ => s
  | None => mkScheduler (Some (next_task s)) (next_task s :: loops s) (S (next_task s))
  end.
(** Cancels the loop and waits for its end. *)
Definition stop_purge_scheduler (s : Scheduler) : Scheduler :=
  match task_running s with
  | Some t => mkScheduler None (filter (λ t', t' ≠ t) (loops s)) (next_task s)
  | None => mkScheduler None (loops s) (next_task s)
  end.
(** The event loop cancels a task by itself. *)
Definition cancelled_outside (t : nat) (s : Scheduler) : Scheduler :=
  mkScheduler (_task s) (filter (λ t', t' ≠ t) (loops s)) (next_task s).

Inductive scheduler_step (s : Scheduler) : Scheduler → Prop :=
| scheduler_starts e : scheduler_step s (start_purge_scheduler e s)
| scheduler_stops : scheduler_step s (stop_purge_scheduler s)
| scheduler_cancelled t : scheduler_step s (cancelled_outside t s).

(** ** The pre-flight check *)

(** The variable, whether production requires it, the literal it must not have. *)
Definition REQUIRED_IN_PROD : list (string * bool * option string) :=
  [ ("APP_ENVIRONMENT", true, None);
    ("APP_DATABASE_URL", true, None);
    ("APP_DATABASE_URL_SYNC", true, None);
    ("APP_JWT_SECRET_PRIMARY", true, Some "change_me_phase_3");
    ("APP_CORS_ORIGINS", true, Some "");
    ("APP_S3_BUCKET", true, Some "");
    ("APP_S3_REGION", true, Some "");
    ("APP_S3_CDN_BASE_URL", false, Some "");
    ("APP_FCM_SERVER_KEY", false, Some "");
    ("APP_APNS_KEY_PEM", false, Some "");
    ("APP_SENTRY_DSN", false, Some "");
    ("APP_METRICS_TOKEN", false, Some "") ].

(** A line of the list [missing]. *)
Definition reported_missing (e : Environ) (line : string * bool * option string) : Prop :=
  let '(var, required, bad_literal) := line in
  let val := environ_get e var "" in
  (val = "" ∧ required = true) ∨ (val ≠ "" ∧ bad_literal = Some val).
#[export] Instance reported_missing_dec e line : Decision (reported_missing e line).
Proof. destruct line as [[var required] bad]. cbn. apply _. Defined.

(** The exit status of [main]. *)
Definition check_env (e : Environ) : Z :=
  if decide (environ_get e "APP_ENVIRONMENT" "dev" ≠ "prod") then 0
  else if decide (filter (reported_missing e) REQUIRED_IN_PROD = []) then 0 else 1.

(** ** The development data *)

Section seed.
Context `{Crypto}.

Definition PASSWORD : string := "DevPass123!".
Definition _hash (password : string) : M string := hash_password password.

Definition seed_user (id : uuid) (email hash : string) (role : UserRole) (name : string)
    (ref : option uuid) (created_at : datetime) : User :=
  mkUser id email hash role name None true None user_active None None None ref created_at None.

(** [for name, desc, price, stock in products_data]. *)
Definition products_data : list (string * string * Z * option Z) :=
  [ ("Widget Alpha", "A fine widget.", 1500, Some 100);
    ("Gadget Beta", "A useful gadget.", 2999, Some 50);
    ("Thingamajig Gamma", "A mysterious thingamajig.", 499, None) ]%Z.
Fixpoint seed_products (sid store_id : uuid) (created_at : datetime)
    (data : list (string * string * Z * option Z)) : M unit :=
  match data with
  | [] => mret tt
  | (name, desc, price, stock) :: data' =>
      pid ← uuid4;
      insert_row (mkProduct pid sid store_id name desc price stock true product_active None None
                    created_at None);;
      seed_products sid store_id created_at data'
  end.

(** The rows are written in the order in which they are added; the flushes in
    between only group them.  The one commit at the end makes them visible. *)
Definition _seed : M unit :=
  existing ← select_one (λ u, citext_eq (u_email u) "admin@example.com");
  match existing with
  | Some _ => mret tt
  | None =>
      created_at ← read_env server_now;
      admin_id ← uuid4;
      hash ← _hash PASSWORD;
      insert_row (seed_user admin_id "admin@example.com" hash admin "Platform Admin" None created_at);;
      seller_user_id ← uuid4;
      hash ← _hash PASSWORD;
      insert_row (seed_user seller_user_id "seller@example.com" hash seller "Seed Seller" None
                    created_at);;
      insert_row (mkSeller seller_user_id seller_user_id "Seed Seller Shop"
                    (Some "A sample seller seeded for development.") "New York" "US"
                    created_at None);;
      store_id ← uuid4;
      insert_row (mkStore store_id seller_user_id "Seed Store" "seed-store"
                    "Sample store for development." true false created_at None);;
      seed_products seller_user_id store_id created_at products_data;;
      seller_referral_token ← token_urlsafe;
      invite_id ← uuid4;
      insert_row (mkInviteLink invite_id seller_user_id seller_referral seller_referral_token None
                    None 1 None None created_at);;
      customer_id ← uuid4;
      hash ← _hash PASSWORD;
      insert_row (seed_user customer_id "customer@example.com" hash customer "Seed Customer"
                    (Some seller_user_id) created_at);;
      referral_id ← uuid4;
      insert_row (mkReferral referral_id seller_user_id customer_id invite_id created_at);;
      driver_id ← uuid4;
      hash ← _hash PASSWORD;
      insert_row (seed_user driver_id "driver@example.com" hash driver "Seed Driver" None created_at);;
      row ← get_row (R:=PlatformSettings) 1;
      match row with
      | Some _ => mret tt
      | None => insert_row (mkPlatformSettings 1 30 72 90 "USD" created_at None)
      end;;
      commit
  end.

(** [ORDER BY created_at LIMIT 1]. *)
Definition _seed_moderation_samples : M unit :=
  found ← select_one (λ u, citext_eq (u_email u) "driver@example.com");
  match found with
  | Some drv =>
      if decide (u_status drv ≠ user_suspended) then
        t ← now;
        save (drv <| u_status := user_suspended |> <| u_suspended_at := Some t |>
                  <| u_suspended_reason :=
                       Some "Demo: TOS violation (seed moderation sample)" |>)
      else mret tt
  | None => mret tt
  end;;
  products ← select (λ _ : Product, True);
  match head (order_by_asc p_created_at products) with
  | Some product =>
      if decide (p_status product ≠ product_disabled) then
        t ← now;
        save (product <| p_status := product_disabled |> <| p_disabled_at := Some t |>
                      <| p_disabled_reason :=
                           Some "Demo: flagged (seed moderation sample)" |>)
      else mret tt
  | None => mret tt
  end;;
  commit.
End seed.
