(* ===== verification/OperationsProps.v ===== *)
(** * Correctness of the operational scripts

    At most one purge loop runs; what a passed pre-flight check guarantees, and
    what it misses; the development data are a valid state of the platform. *)

From S2P Require Import Prelude.
From S2P Require Import Exceptions.
From S2P Require Import Models.
From S2P Require Import Session.
From S2P Require Import SessionFacts.
From S2P Require Import PyString.
From S2P Require Import CryptoModel.
From S2P Require Import Security.
From S2P Require Import Invites.
From S2P Require Import AccountMachine.
From S2P Require Import Auth.
From S2P Require Import Fixtures.
From S2P Require Import Footprints.
From S2P Require Import WellFormed.
From S2P Require Import Http.
From S2P Require Import Operations.
#[local] Open Scope string_scope.
#[local] Open Scope list_scope.
#[local] Open Scope nat_scope.

(** ** The scheduler *)

(** The loops that are alive are those that [_task] holds. *)
Definition one_loop (s : Scheduler) : Prop :=
  NoDup (loops s) ∧ (∀ t, t ∈ loops s → _task s = Some t ∧ t < next_task s).

Lemma one_loop_filter s t task :
  one_loop s → (∀ t', t' ∈ loops s → t' ≠ t → task = Some t') →
  one_loop (mkScheduler task (filter (λ t', t' ≠ t) (loops s)) (next_task s)).
Proof.
  intros [Hn Hin] Ht. split; cbn; [by apply NoDup_filter|].
  intros t' [Hne Hl]%list_elem_of_filter. split; [by apply Ht|]. by apply Hin.
Qed.

Lemma one_loop_step s s' : scheduler_step s s' → one_loop s → one_loop s'.
Proof.
  intros Hs Hok. pose proof Hok as [Hn Hin].
  assert (task_running s = None → loops s = []) as Hidle.
  { unfold task_running. intros Hr. destruct (loops s) as [|t l] eqn:El; [done|].
    destruct (Hin t) as [Et _]; [by left|]. rewrite Et in Hr. cbn in Hr.
    rewrite decide_True in Hr by left. discriminate. }
  destruct Hs as [e| |t].
  - unfold start_purge_scheduler. destruct (negb (_enabled e)); [done|].
    destruct (task_running s) eqn:Er; [done|]. rewrite (Hidle eq_refl). split; cbn.
    + apply NoDup_singleton.
    + intros t ->%list_elem_of_singleton. split; [done|lia].
  - unfold stop_purge_scheduler. destruct (task_running s) as [t|] eqn:Er.
    + apply one_loop_filter; [done|]. intros t' Hl Hne. exfalso. apply Hin in Hl as [Et _].
      unfold task_running in Er. rewrite Et in Er. cbn in Er. case_decide; congruence.
    + rewrite (Hidle eq_refl). split; cbn; [constructor|]. by intros t ?%not_elem_of_nil.
  - apply one_loop_filter; [done|]. intros t' Hl _. by apply Hin.
Qed.

(** However often the application starts and stops, at most one purge loop is
    alive, and none is after a stop. *)
Theorem one_purge_loop_runs s :
  rtc scheduler_step idle_scheduler s →
  Datatypes.length (loops s) ≤ 1 ∧ loops (stop_purge_scheduler s) = [].
Proof.
  assert (∀ s0, one_loop s0 → Datatypes.length (loops s0) ≤ 1) as Hlen.
  { intros s0 [Hn Hin]. destruct (loops s0) as [|t1 [|t2 l]]; cbn; [lia..|].
    destruct (Hin t1) as [E1 _]; [by left|]. destruct (Hin t2) as [E2 _]; [by right; left|].
    rewrite E1 in E2. injection E2 as ->. apply NoDup_cons in Hn as [Hn _]. destruct Hn. left. }
  intros Hr. assert (one_loop s) as Hok.
  { assert (one_loop idle_scheduler) as H0 by (split; cbn; [constructor|by intros t ?%not_elem_of_nil]).
    revert H0. induction Hr as [s|s1 s2 s3 Hs _ IH]; [done|]. intros H1. apply IH.
    by eapply one_loop_step. }
  split; [by apply Hlen|]. pose proof (one_loop_step _ _ (scheduler_stops s) Hok) as [_ Hin].
  destruct (loops (stop_purge_scheduler s)) as [|t l] eqn:El; [done|].
  destruct (Hin t) as [Et _]; [left|]. revert Et. unfold stop_purge_scheduler.
  by destruct (task_running s).
Qed.

(** An interval of zero never lets the loop rest; garbage falls back to the hour. *)
Example interval_forms :
  (λ v, _interval_seconds {["APP_PURGE_INTERVAL_SECONDS" := v]}) <$>
    [" 60 "; "1_000"; "0"; "-5"; "soon"; ""] = [60; 1000; 0; -5; 3600; 3600]%Z.
Proof. vm_compute. reflexivity. Qed.

(** ** Production settings *)

(** The fields of [Settings] that an environment sets: a missing variable leaves
    the default of the class. *)
Record configured (e : Environ) (s : Settings) : Prop := {
  cf_jwt_secret : jwt_secret s = environ_get e "APP_JWT_SECRET" _INSECURE_JWT_DEFAULT;
  cf_primary : jwt_secret_primary s = environ_get e "APP_JWT_SECRET_PRIMARY" "";
  cf_secondary : jwt_secret_secondary s = environ_get e "APP_JWT_SECRET_SECONDARY" "";
  cf_cors : cors_origins s = environ_get e "APP_CORS_ORIGINS" "";
  cf_bucket : s3_bucket s = environ_get e "APP_S3_BUCKET" "";
  cf_environment : e !! "APP_ENVIRONMENT" = Some "prod" → environment s = env_prod;
}.

Lemma checked_var e var bad :
  check_env e = 0%Z → e !! "APP_ENVIRONMENT" = Some "prod" →
  (var, true, bad) ∈ REQUIRED_IN_PROD →
  environ_get e var "" ≠ "" ∧ bad ≠ Some (environ_get e var "").
Proof.
  unfold check_env. intros Hc He Hin.
  rewrite decide_False in Hc by (unfold environ_get; rewrite He; cbn; congruence).
  destruct (decide (filter (reported_missing e) REQUIRED_IN_PROD = [])) as [Hm|]; [|done].
  assert (¬ reported_missing e (var, true, bad)) as Hn.
  { intros Hr. assert ((var, true, bad) ∈ filter (reported_missing e) REQUIRED_IN_PROD) as Hf
      by (by apply list_elem_of_filter). rewrite Hm in Hf. by apply not_elem_of_nil in Hf. }
  cbn in Hn. split; [tauto|]. intros ->. tauto.
Qed.

(** In production, a passed pre-flight check means that tokens are signed with
    a primary key that is neither empty nor the published default, that uploads
    have a bucket, and that only origins which the operator listed are allowed
    by CORS, never the wildcard of development unless it was listed.  The
    application then boots exactly if the deprecated secret is set as well. *)
Theorem preflight_secures_production e s :
  e !! "APP_ENVIRONMENT" = Some "prod" → check_env e = 0%Z → configured e s →
  jwt_signing_key s = environ_get e "APP_JWT_SECRET_PRIMARY" "" ∧
  jwt_signing_key s ≠ "" ∧ jwt_signing_key s ≠ _INSECURE_JWT_DEFAULT ∧ s3_bucket s ≠ "" ∧
  (∀ o, o ∈ cors_origins_list s → o ∈ strip <$> split comma (cors_origins s)) ∧
  (_validate_jwt_secret s = true ↔
     environ_get e "APP_JWT_SECRET" _INSECURE_JWT_DEFAULT ≠ _INSECURE_JWT_DEFAULT).
Proof.
  intros He Hc Hcf.
  destruct (checked_var e "APP_JWT_SECRET_PRIMARY" (Some "change_me_phase_3") Hc He)
    as [Hp Hp']; [set_solver|].
  destruct (checked_var e "APP_S3_BUCKET" (Some "") Hc He) as [Hb _]; [set_solver|].
  assert (jwt_signing_key s = environ_get e "APP_JWT_SECRET_PRIMARY" "") as E.
  { unfold jwt_signing_key, str_or. by rewrite (cf_primary _ _ Hcf), decide_False. }
  rewrite E. split_and!; [done|done| | | |].
  - unfold _INSECURE_JWT_DEFAULT. congruence.
  - by rewrite (cf_bucket _ _ Hcf).
  - intros o. unfold cors_origins_list.
    destruct (filter _ _) as [|o' l] eqn:Ef.
    + rewrite decide_False; [by intros ?%not_elem_of_nil|].
      rewrite (cf_environment _ _ Hcf He). set_solver.
    + rewrite <- Ef. by intros [_ Ho]%list_elem_of_filter.
  - unfold _validate_jwt_secret. rewrite (cf_jwt_secret _ _ Hcf), (cf_environment _ _ Hcf He).
    case_decide as Hd; [|done]. split; [|done]. intros Hx. exfalso. revert Hx.
    rewrite bool_decide_eq_true. set_solver.
Qed.

(** The check passes, but the application refuses to start. *)
Definition production : Environ :=
  list_to_map [("APP_ENVIRONMENT", "prod"); ("APP_DATABASE_URL", "postgresql+asyncpg://db");
    ("APP_DATABASE_URL_SYNC", "postgresql://db"); ("APP_JWT_SECRET_PRIMARY", "k1");
    ("APP_CORS_ORIGINS", "https://shop"); ("APP_S3_BUCKET", "shop"); ("APP_S3_REGION", "eu")].
Definition production_settings : Settings :=
  default_config <| environment := env_prod |> <| jwt_secret_primary := "k1" |>
                 <| cors_origins := "https://shop" |> <| s3_bucket := "shop" |>.
Example preflight_passes_but_boot_fails :
  check_env production = 0%Z ∧ _validate_jwt_secret production_settings = false.
Proof. vm_compute. auto. Qed.

Lemma preflight_secures_production_witness :
  jwt_signing_key production_settings = "k1" ∧
  jwt_signing_key production_settings ≠ _INSECURE_JWT_DEFAULT.
Proof.
  assert (configured production production_settings) as Hcf by (split; vm_compute; done).
  destruct (preflight_secures_production production production_settings eq_refl
    ltac:(vm_compute; reflexivity) Hcf) as (E & _ & Hne & _).
  split; [exact E|exact Hne].
Defined.

(** ** The development data *)

Section seeding.
Context `{Crypto}.

Lemma seed_products_stable Rel `{!SessionRel Rel} sid store t data :
  (∀ p : Product, stable Rel (insert_row p)) → stable Rel (seed_products sid store t data).
Proof.
  intros Hi. induction data as [|[[[name desc] price] stock] data IH]; cbn; stable_tac; apply Hi.
Qed.

Lemma seed_keeps : stable keeps_well_formed _seed.
Proof.
  unfold _seed, _hash. stable_api. apply seed_products_stable; [apply _|]. intros p. stable_tac.
Qed.

(** Accounts are only added. *)
Definition users_grow : relation Session := λ s s', users (working s) ⊆ users (working s').
#[local] Instance users_grow_rel : SessionRel users_grow.
Proof.
  split; [split|]; unfold users_grow; [intros s; reflexivity|intros s1 s2 s3 ??; by etrans|].
  intros s s' _ E. by rewrite E.
Qed.
Lemma insert_user_grows (u : User) : stable users_grow (insert_row u).
Proof.
  intros env s [b|e] s' E; [|by apply insert_raised in E as ->].
  apply insert_row_Ok in E as (Hnone & _ & _ & ->). unfold users_grow. cbn in Hnone |- *.
  by apply insert_subseteq.
Qed.
Lemma users_grow_other {R} `{Named R} (f : gmap uuid R → gmap uuid R) s :
  t_users ≠ name_of R → users_grow s (s <| working ::= on_table f |>).
Proof.
  intros Hne. unfold users_grow. cbn.
  pose proof (named_frame t_users f (working s) Hne) as E. cbn in E. by rewrite E.
Qed.
#[local] Hint Resolve insert_user_grows : stable.
#[local] Hint Extern 1 (users_grow _ _) => eapply users_grow_other; discriminate : stable.
Lemma users_grow_commit : stable users_grow commit.
Proof. intros env s o s' E. injection E as <- <-. unfold users_grow. cbn. reflexivity. Qed.
#[local] Hint Resolve users_grow_commit : stable.

(** The account that the guard of the script looks for. *)
Definition seeded (d : DB) : Prop :=
  ∃ k u, users d !! k = Some u ∧ citext_eq (u_email u) "admin@example.com".

Lemma seed_once env s u s' :
  _seed env s = (Ok u, s') → working s' = working s ∨ seeded (working s').
Proof.
  unfold _seed. intros Hr. apply bind_Ok in Hr as (o & s1 & Ho & Hr).
  apply select_one_Ok in Ho as [_ ->]. destruct o as [u0|]; [apply ret_Ok in Hr as [_ ->]; by left|].
  right. do 4 (apply bind_Ok in Hr as (? & ? & ? & Hr)).
  match goal with E : insert_row _ _ _ = _ |- _ =>
    apply insert_row_Ok in E as (_ & _ & _ & ->) end.
  match type of Hr with ?m _ _ = _ => assert (stable users_grow m) as Hst end.
  { unfold _hash, hash_password. stable_tac. apply seed_products_stable; [apply _|].
    intros p. stable_tac. }
  apply Hst in Hr. eexists _, _. split; [eapply lookup_weaken; [|exact Hr]|].
  - cbn. apply lookup_insert_eq.
  - done.
Qed.

Lemma seed_again env d :
  well_formed d → seeded d → get_db _seed env d = (Ok tt, d).
Proof.
  intros Hw (k & u & Hk & He). unfold get_db, _seed.
  erewrite bind_run by apply select_one_eq. cbn [working open_session eta_Session].
  rewrite (selected_unique (users d) _ k u Hk He).
  - done.
  - intros k' u' Hk' He'. apply dec_stable. intros Hne.
    refine (proj2 (proj2 (Hw t_users)) k' k u' u Hk' Hk Hne _). cbn. unfold citext_eq in *. congruence.
Qed.

(** A step that keeps the invariant of the invites, as it leaves their two
    tables alone. *)
Definition invites_kept : relation Session := λ s s',
  invite_links (working s') = invite_links (working s) ∧
  referrals (working s') = referrals (working s).
#[local] Instance invites_kept_rel : SessionRel invites_kept.
Proof.
  split; [split|]; unfold invites_kept; [done|intros ??? [] []; split; congruence|].
  intros s s' _ ->. done.
Qed.
Lemma invites_kept_other {R} `{Named R} (f : gmap uuid R → gmap uuid R) s :
  name_of R ∉ [t_invite_links; t_referrals] →
  invites_kept s (s <| working ::= on_table f |>).
Proof.
  intros Hne. split; cbn.
  - exact (named_frame t_invite_links f (working s) ltac:(set_solver)).
  - exact (named_frame t_referrals f (working s) ltac:(set_solver)).
Qed.
#[local] Hint Extern 1 (invites_kept _ _) =>
  eapply invites_kept_other; apply (bool_decide_unpack _); vm_compute; exact I : stable.

Lemma invites_kept_commit : stable invites_kept commit.
Proof. intros env s o s' E. by injection E as <- <-. Qed.
#[local] Hint Resolve invites_kept_commit : stable.

(** Pass one step that keeps them. *)
Ltac pass_step Hr Hk :=
  let Hkept := fresh in
  apply bind_Ok in Hr as (? & ? & Hkept & Hr);
  match type of Hkept with ?m _ ?s1 = (_, ?s2) =>
    assert (stable invites_kept m) as Hst
      by (unfold _hash, hash_password; stable_tac;
          try (apply seed_products_stable; [apply _|intros p; stable_tac]));
    apply Hst in Hkept; clear Hst;
    assert (invites_kept _ s2) as Hk' by (etrans; [exact Hk|exact Hkept]);
    clear Hk Hkept; rename Hk' into Hk
  end.

Lemma seed_invites env s u s' :
  _seed env s = (Ok u, s') → invites_ok (working s) → invites_ok (working s').
Proof.
  unfold _seed. intros Hr Hok. apply bind_Ok in Hr as (o & s1 & Ho & Hr).
  apply select_one_Ok in Ho as [_ ->]. destruct o as [u0|]; [by apply ret_Ok in Hr as [_ ->]|].
  assert (invites_kept s s) as Hk by done. do 13 pass_step Hr Hk.
  match type of Hr with (_ ≫= _) _ ?s2 = _ =>
    assert (invites_ok (working s2)) as Hok2 by (destruct Hk; by eapply invites_ok_same);
    clear Hk Hok end.
  apply bind_Ok in Hr as (? & ? & Hi & Hr). apply insert_row_Ok in Hi as (Hnone & _ & Hconf & ->).
  match type of Hr with _ _ ?s3 = _ => assert (invites_kept s3 s3) as Hk by done end.
  do 4 pass_step Hr Hk.
  apply bind_Ok in Hr as (? & ? & Hi & Hr). apply insert_row_Ok in Hi as (Hfresh & _ & _ & ->).
  match type of Hr with ?m _ _ = _ => assert (stable invites_kept m) as Hst end.
  { unfold _hash, hash_password. stable_tac. }
  apply Hst in Hr as [Ei Er]. destruct Hk as [Ei' Er']. cbn in Ei, Er, Ei', Er', Hfresh, Hnone.
  rewrite Ei' in Ei. rewrite Er' in Er, Hfresh.
  match type of Ei with _ = <[_ := ?i]> _ =>
    pose proof (invites_ok_new _ (i <| i_used_count := 0%Z |>) Hok2 Hnone eq_refl I Hconf) as Hok3 end.
  match type of Er with _ = <[_ := ?rf]> _ =>
    eapply invites_ok_same; [| |eapply (invites_ok_signup _ _ _ rf Hok3);
      [cbn; apply lookup_insert_eq|exact I| |exact Hfresh|reflexivity]] end.
  - cbn. by rewrite Ei, insert_insert_eq.
  - exact Er.
  - intros Hc. apply Hconf. unfold has_conflict in *. apply Exists_exists in Hc as (r & Hin & Hne & Hc).
    apply elem_of_rows in Hin as [k Hin]. cbn in Hin, Hne.
    apply lookup_insert_Some in Hin as [[_ <-]|[_ Hin]]; [done|].
    apply Exists_exists. exists r. split; [apply elem_of_rows; by exists k|]. by split.
Qed.
End seeding.

(** The seed script either fails and changes nothing, or leaves a database in
    which every row is valid, every invite counts its sign-ups (the invite of
    the seed seller has admitted the seed customer), and in which running the
    script again does nothing. *)
Theorem seeding_is_idempotent `{Crypto} env d out d' :
  well_formed d → get_db _seed env d = (out, d') →
  well_formed d' ∧ (invites_ok d → invites_ok d') ∧
  match out with
  | Ok _ => (d' = d ∨ seeded d') ∧ (seeded d' → ∀ env', get_db _seed env' d' = (Ok tt, d'))
  | Raised _ => d' = d
  end.
Proof.
  intros Hw Hr. assert (well_formed d') as Hw' by (by eapply get_db_keeps; [apply seed_keeps|..]).
  split; [done|]. destruct out as [u|e].
  - apply get_db_Ok in Hr as (s' & Hr & ->). split; [intros Hok; by eapply seed_invites|].
    apply seed_once in Hr. split; [exact Hr|]. intros Hs env'. by apply seed_again.
  - assert (d' = d) as ->; [|done]. eapply get_db_atomic_last; [|exact Hr].
    unfold _seed, _hash, hash_password.
    repeat (lazymatch goal with
      | |- atomic (mbind _ (seed_products _ _ _ _)) =>
          apply atomic_bind; [apply seed_products_stable; [apply _|intros ?; stable_tac]|]
      | _ => atomic_step
      end).
Qed.
